(* ===== verification/_CoqProject ===== *)
-Q . S2P
Prelude.v
Text.v
Platform.v
Contract.v
DomainErrors.v
Secret.v
Config.v
Database.v
Effects.v
TxLogic.v
Exec.v
Storage.v
Integrity.v
Statements.v
Wire.v
Validation.v
Commands.v
Accounts.v
RateLimit.v
Completeness.v
Invariants.v
Authorization.v
Management.v
Authentication.v
Endpoint.v
Dispatch.v
Clients.v
Lifecycle.v
Access.v
Listing.v
Creation.v
Rotation.v
Revocation.v
Exchange.v
Availability.v
Operator.v
Issuing.v
Redaction.v
Build.v
ContractSource.v
History.v
Testbed.v
Wiring.v
Witnesses.v
