(* ===== verification/Prelude.v ===== *)
(** * Lenso service accounts: a verification development

    The repository is a plug-in of the Lenso runtime that gives organizations machine
    identities.  An authorized person creates, lists, rotates and revokes service accounts
    (capability [lenso.service-account@1]); a trusted ingress exchanges an account's secret
    for a short-lived credential (capability [lenso.auth.service-account@1]).  Accounts,
    credentials, idempotency records and rate limits live in PostgreSQL.  File names below
    are those of [src/crates/lenso-service-account-postgres-plugin/src/] unless a crate is
    named.

    ** How the program is modelled

    A request handler is a Rust [async fn].  Here it is a value of type [prog] ([Effects]): a
    finite tree whose nodes are, in the order the handler awaits them, its clock reads, its
    random draws, its database accesses and its calls of bound capabilities.  [hbind] with
    the notation [let*] is sequencing with early return, so a handler reads line by line like
    its source.  A database access is a [Tx]: one transaction or one auto-committed statement,
    written with [let!] over the round trips it makes; each round trip may fail, before or
    after the server applied it ([tx_fault]).  A SQL statement is a [Stmt]: a function of
    the transaction time and of the tables ([Database]), with the constraints of the
    migration checked where PostgreSQL checks them.

    [run] executes a program in a [World].  The world decides everything else: clocks,
    randomness, failures, the answers of other capabilities, and, at each database access, what
    other tasks have committed in between ([w_others]).  [runs] is the same as a relation that
    also yields the trace of [event]s.  All theorems about handlers quantify over the world;
    the hypotheses they put on it are named predicates: [rivals_ok] (other tasks keep the
    tables healthy), [respects_claims] (other tasks do not touch a command somebody has
    reserved), [others_keep] (nor drop its row), [others_hold] (nor change one given row), [calm]
    (nothing fails and nobody else runs; only for statements that a request does get its answer),
    [fills] ([getrandom] fills its buffer).
    Two programs are equivalent, [≡], when they have the same executions in every world; that
    is what the theorems about dispatch and clients rewrite with.

    Code outside the repository is a field of the class [Platform] ([Platform]); what a
    theorem needs of it is a law class ([CipherLaws], [JsonLaws], [Base64Laws],
    [PasswordLaws], [CollationLaws], ...), all of documented behaviour.  [Testbed] gives an
    instance with every law proved, so no hypothesis is empty.

    ** Files

    - [Prelude]: results and [?], list and option lemmas, integer bounds, tactics, the hint
      database [lenso].
    - [Text]: bytes, trimming, splitting, decimal integers with their overflow; the validators
      of [management.rs], [authorization.rs] and [lib.rs], and their specifications.
    - [Platform]: the outside as parameters and laws.
    - [Contract], [DomainErrors]: data of the two contracts ([generated.rs] of both capability
      crates), derived JSON forms, and the hand-written codecs of the six domain errors behind
      the class [DomainError], proved once from [DomainErrorLaws].
    - [Secret]: [crypto.rs] and the hashing helpers of [management.rs]; the error types.
    - [Config]: [ServiceAccountConfig] and its validation ([lib.rs]).
    - [Database]: the four tables of the migration and every SQL statement of [storage.rs].
    - [Effects]: transactions, programs, worlds and executions.
    - [TxLogic], [Exec]: the program logic: inversion and forward steps of transactions
      ([tx_forward]), symbolic execution of handlers ([prog_step], [prog_case]), and
      preservation of an invariant and of a preorder by transactions and programs.
    - [Storage]: [storage.rs], one definition per function.
    - [Integrity]: the constraints as an invariant, the preorder [db_le] of table contents, and
      that every statement keeps both.  [Statements]: what each statement does to its row.
    - [Commands]: claims of idempotency keys.  [Accounts]: one-step specifications of the four
      account transactions and the refinement.  [Completeness]: which branch creation takes.
      [RateLimit]: the admission of exchanges.
    - [Invariants]: the invariant [healthy] (constraints, closed credentials of revoked
      accounts, size of organizations) and the preorder [evolves], kept by every transaction.
    - [Authorization], [Management], [Authentication]: [authorization.rs], [management.rs]
      and [authentication.rs]; [list] is [list_] here.
    - [Endpoint]: the generated endpoints; the plug-in is an instance of the classes
      [ManagementProvider] and [AuthenticationProvider] through which they dispatch.
    - [Wire]: the remaining derived codecs and the [encode_*] and [decode_*] functions of both
      [generated.rs].  [Dispatch]: typed requests ([RequestCapability::invoke_native]) beside
      the boxed ones; the kernel's fallback is the class [Kernel].  [Clients]: the conversions
      of results, the lowering macros and the generated clients; handles, bindings and
      [Dependencies] belong to the kernel.  A client is proved against any endpoint its
      handles are bound to, and the plug-in's own endpoint discharges that.
    - [ContractSource]: [contract.rs] of both contract crates, and its agreement with
      [generated.rs].  [Build]: their [build.rs].
    - [Redaction]: the hand-written [Debug] implementations of all crates.
    - [Lifecycle]: [activate] and [deactivate] of [lib.rs].  [Operator]: [operator.rs].
    - [Validation], [Access], [Listing], [Creation], [Rotation], [Revocation], [Exchange],
      [Issuing]: the theorems about requests, by operation.  [History]: sequences of exchanges
      with one key.  [Availability]: requests that must succeed do.
    - [Testbed], [Wiring], [Witnesses]: a platform, a configured plug-in and executions of
      every operation, a kernel and bindings; each property instantiated on them.

    ** What the theorems show

    Safety: every request keeps the tables healthy and evolving (C1); the management
    factors (C2); exchanges fail closed (C5), ask the issuer at most once and only after the
    durable mark (C8), at most once for all requests with one key together (C9), never for a
    revoked account (C10), and never again after an unknown answer, however often the
    request is retried (C11); revocation is final (C12); two rotations of one revision do
    not both hand out a secret (C15); a claimed key is claimed once (C22); [Debug] output
    tells nothing of a secret (C33).
    Function: created and rotated secrets authenticate (C3, C14); a retry whose command row
    is still there repeats the answer or fails, without the secret and without a second
    effect, among failures and rivals (C4, C6, C13, C16, through [retry_answers] of
    [Commands]); pages list each account once and end (C20, C21); the rate limit bounds
    admissions and locks out (C17, C18).
    Liveness: a valid exchange ends with a credential when nothing fails (C7), and a caller
    that was locked out is admitted again (C19).
    Refinement: the account transactions implement atomic specifications under every
    failure (C23), and creation takes the branch its guards say (C24). Data and
    configuration: validation meets the constraints, parsers accept canonical texts (C25 to
    C27); activation fills the cells with a usable state or not at all, and without it
    nothing happens (C28, C29); identifiers, additional data and intents behave (C30 to
    C32).
    Contracts: the endpoints run exactly the provider's methods (C34), typed and boxed
    dispatch are the same program (C35), clients reach the plug-in up to what the kernel
    does with an invocation (C36), what is encoded is decoded (C37), and the generated types
    are those of the contract sources (C38), whose schemas have normal forms (C39).

    ** Choices and bounds

    - No fuel: programs are finite trees, string routines recurse on their input.  The only
      fuel, of [decimal], is the number of bits of the integer plus one, which
      [decimal_fuel_enough] shows to suffice.
    - A time is a number of microseconds, the resolution of TIMESTAMPTZ; the range of
      [OffsetDateTime] and its overflow panics are not modelled.  Revisions and attempt
      counts are BIGINT: incrementing a revision beyond 64 bits is the error
      [NumericValueOutOfRange].
    - Isolation: a transaction is one step.  This is what the advisory lock per organization
      (creation), the row lock on the account (rotation, revocation, marking an exchange) and
      the one on the rate row give; statements outside transactions are steps of their own, so
      other tasks run between the two statements of a claim.
    - Strings are bytes.  [lower] and [btrim] are modelled on the ASCII texts that reach them.
    - Panics of [expect("validated")] are excluded by C27.
    - [Debug] output is the tree of calls made on the formatter; how a leaf is printed is left
      open, so that C33 holds of every form of output.
    - The JSON schemas that the contract source derives come from a macro outside the
      repository; C38 is about the types themselves.  A struct written as a positional array is
      read in the order of each type's fields, so C38 speaks of objects.
    - JSON texts are those of [serde_json]: the laws promise a round trip for [plain_json] values
      only, below the parser's recursion limit and without floating point numbers.  Everything the
      plug-in itself writes is plain, which is proved; the payload of an unknown domain error need
      not be.
    - What the kernel does between a handle and an endpoint is a relation between programs
      ([Transport]); [delivers] is the one that lets it refuse or drop an invocation.

    ** Not modelled

    [schema.rs], which hands the text of the migration to the PostgreSQL kit; the requirement
    and descriptor macros of [generated.rs], which are constant texts for the build; zeroization;
    timing side channels.  Planned next: management requests that must succeed (as C7 for
    exchanges), that no secret reaches a receipt, and executions of several requests at once as
    interleavings of their steps. *)
From stdpp Require Export base tactics numbers option list strings gmap fin_maps sorting.
From Stdlib Require Export ZArith Lia.

#[export] Set Default Goal Selector "!".
Open Scope Z_scope.

(** ** Results

    Rust's [Result<T, E>].  The early-return operator [?] is [bind_ok]: the first [Err]
    ends the computation. *)

Inductive result (T E : Type) : Type :=
  | Ok (value : T)
  | Err (error : E).
Arguments Ok {T E} _.
Arguments Err {T E} _.

Definition bind_ok {T U E} (m : result T E) (k : T → result U E) : result U E :=
  match m with Ok x => k x | Err e => Err e end.

Definition map_err {T E F} (f : E → F) (m : result T E) : result T F :=
  match m with Ok x => Ok x | Err e => Err (f e) end.

Definition map_ok {T U E} (f : T → U) (m : result T E) : result U E :=
  match m with Ok x => Ok (f x) | Err e => Err e end.

(** [Option::ok_or]. *)
Definition ok_or {T E} (o : option T) (e : E) : result T E :=
  match o with Some x => Ok x | None => Err e end.

(** [Option<Result<..>>::transpose]. *)
Definition transpose {T E} (o : option (result T E)) : result (option T) E :=
  match o with
  | None => Ok None
  | Some (Ok x) => Ok (Some x)
  | Some (Err e) => Err e
  end.

(** [iter().map(f).collect::<Result<Vec<_>, _>>()]. *)
Fixpoint collect {T U E} (f : T → result U E) (l : list T) : result (list U) E :=
  match l with
  | [] => Ok []
  | x :: xs => bind_ok (f x) (λ y, bind_ok (collect f xs) (λ ys, Ok (y :: ys)))
  end.

Definition is_ok {T E} (m : result T E) : bool :=
  match m with Ok _ => true | Err _ => false end.

Declare Scope result_scope.
Delimit Scope result_scope with result.
Notation "'let?' x := m 'in' k" := (bind_ok m (λ x, k))
  (at level 10, x pattern, m at level 100, k at level 200) : result_scope.

#[export] Instance result_eq_dec {T E} `{EqDecision T, EqDecision E} :
  EqDecision (result T E).
Proof. solve_decision. Defined.

Lemma bind_ok_Ok {T U E} (m : result T E) (k : T → result U E) (y : U) :
  bind_ok m k = Ok y ↔ ∃ x, m = Ok x ∧ k x = Ok y.
Proof. destruct m; simpl; naive_solver. Qed.

Lemma bind_ok_Err {T U E} (m : result T E) (k : T → result U E) (e : E) :
  bind_ok m k = Err e ↔ m = Err e ∨ ∃ x, m = Ok x ∧ k x = Err e.
Proof. destruct m; simpl; naive_solver. Qed.

Lemma ok_or_Ok {T E} (o : option T) (e : E) x : ok_or o e = Ok x ↔ o = Some x.
Proof. destruct o; simpl; naive_solver. Qed.

Lemma map_err_Ok {T E F} (f : E → F) (m : result T E) x : map_err f m = Ok x ↔ m = Ok x.
Proof. destruct m; simpl; naive_solver. Qed.

Lemma bind_ok_assoc {T U V E} (m : result T E) (f : T → result U E) (g : U → result V E) :
  bind_ok (bind_ok m f) g = bind_ok m (λ x, bind_ok (f x) g).
Proof. by destruct m. Qed.

Lemma collect_Ok {T U E} (f : T → result U E) (l : list T) (r : list U) :
  collect f l = Ok r ↔ Forall2 (λ x y, f x = Ok y) l r.
Proof.
  revert r. induction l as [|x xs IH]; intros r; simpl.
  - split; [by intros [= <-]|by inversion 1].
  - rewrite bind_ok_Ok. setoid_rewrite bind_ok_Ok. split.
    + intros (y & Hy & ys & Hys & [= <-]). constructor; [done|]. by apply IH.
    + inversion 1; subst. eexists; split; [done|]. eexists; split; [by apply IH|done].
Qed.

Lemma collect_length {T U E} (f : T → result U E) (l : list T) (r : list U) :
  collect f l = Ok r → length r = length l.
Proof. intros H%collect_Ok. symmetry. by eapply Forall2_length. Qed.

(** ** Booleans and decisions *)

Definition is_none {A} (o : option A) : bool :=
  match o with None => true | Some _ => false end.

(** [Option::is_some_and]. *)
Definition is_some_and {A} (o : option A) (p : A → bool) : bool :=
  match o with Some x => p x | None => false end.

(** [Option::filter]. *)
Definition opt_filter {A} (p : A → bool) (o : option A) : option A :=
  match o with Some x => if p x then Some x else None | None => None end.

Lemma opt_filter_Some {A} (p : A → bool) (o : option A) (x : A) :
  opt_filter p o = Some x ↔ o = Some x ∧ p x = true.
Proof.
  destruct o as [y|]; simpl; [destruct (p y) eqn:E|]; split;
    try intros [= ->]; try intros [[= ->] ?]; auto; congruence.
Qed.

(** [iter().any(|x| x == y)] over strings. *)
Definition str_mem (y : string) (l : list string) : bool := existsb (String.eqb y) l.

Lemma str_mem_spec (y : string) (l : list string) : str_mem y l = true ↔ y ∈ l.
Proof.
  unfold str_mem. rewrite existsb_exists, list_elem_of_In.
  split; [by intros (x & Hx & ->%String.eqb_eq)|].
  intros H. exists y. by rewrite String.eqb_refl.
Qed.

(** ** Filtered lists *)

Lemma filter_all {A} (P : A → Prop) `{∀ x, Decision (P x)} (l : list A) :
  (∀ x, x ∈ l → P x) → filter P l = l.
Proof.
  induction l as [|x l IH]; intros Hl; [done|].
  rewrite filter_cons_True by (apply Hl; left). f_equal. apply IH. intros y Hy. apply Hl. by right.
Qed.

Lemma filter_none {A} (P : A → Prop) `{∀ x, Decision (P x)} (l : list A) :
  (∀ x, x ∈ l → ¬ P x) → filter P l = [].
Proof.
  induction l as [|x l IH]; intros Hl; [done|].
  rewrite filter_cons_False by (apply Hl; left). apply IH. intros y Hy. apply Hl. by right.
Qed.

(** ** Machine integers *)

Definition i64_max : Z := 9223372036854775807.
Definition i64_min : Z := -9223372036854775808.
Definition u32_max : Z := 4294967295.
Definition u64_max : Z := 18446744073709551615.

Definition in_i64 (z : Z) : bool := (i64_min <=? z) && (z <=? i64_max).
Definition in_u32 (z : Z) : bool := (0 <=? z) && (z <=? u32_max).
Definition in_u64 (z : Z) : bool := (0 <=? z) && (z <=? u64_max).

(** [i64::try_from] of an unsigned 64-bit value. *)
Definition i64_try_from (z : Z) : option Z := if in_i64 z then Some z else None.

(** ** Automation *)

(** Turn boolean guards of the code into propositions. *)
Ltac bool_prop :=
  repeat match goal with
  | H : (_ && _)%bool = true |- _ => apply andb_true_iff in H as [? H]
  | H : (_ || _)%bool = false |- _ => apply orb_false_iff in H as [? H]
  | H : negb _ = true |- _ => apply negb_true_iff in H
  | H : negb _ = false |- _ => apply negb_false_iff in H
  | H : (_ =? _)%string = true |- _ => apply String.eqb_eq in H
  | H : (_ =? _)%string = false |- _ => apply String.eqb_neq in H
  | H : (_ =? _) = true |- _ => apply Z.eqb_eq in H
  | H : (_ =? _) = false |- _ => apply Z.eqb_neq in H
  | H : (_ <=? _) = true |- _ => apply Z.leb_le in H
  | H : (_ <=? _) = false |- _ => apply Z.leb_gt in H
  | H : (_ <? _) = true |- _ => apply Z.ltb_lt in H
  | H : (_ <? _) = false |- _ => apply Z.ltb_ge in H
  | H : bool_decide _ = true |- _ => apply bool_decide_eq_true in H
  | H : bool_decide _ = false |- _ => apply bool_decide_eq_false in H
  end.

(** Case analysis on the innermost scrutinee of the conclusion or of a hypothesis. *)
Ltac split_match :=
  match goal with
  | |- context [match ?x with _ => _ end] =>
      lazymatch x with context [match _ with _ => _ end] => fail | _ => destruct x eqn:? end
  | H : context [match ?x with _ => _ end] |- _ =>
      lazymatch x with context [match _ with _ => _ end] => fail | _ => destruct x eqn:? end
  end.

Create HintDb lenso discriminated.
#[export] Hint Rewrite @bind_ok_assoc : lenso.
