(* ===== verification/Text.v ===== *)
(** * Text: the string, number and token grammars of the plug-in

    Rust strings are UTF-8 byte sequences; here a [string] is its list of bytes.  This file
    models the standard-library routines the source applies to strings ([trim],
    [split], [split_once], [strip_prefix], [parse], [to_string], ...) and the validators of
    [management.rs], [lib.rs] and [authorization.rs] that are built from them. *)
From Stdlib Require Import Ascii.
From S2P Require Import Prelude.

Open Scope string_scope.
Open Scope list_scope.
Open Scope Z_scope.

(** ** Bytes of a string *)

Notation bytes := string (only parsing).

Definition byte_val (c : ascii) : Z := Z.of_N (Ascii.N_of_ascii c).
Definition chars (s : string) : list ascii := String.list_ascii_of_string s.
Definition of_chars (l : list ascii) : string := String.string_of_list_ascii l.

(** [str::len]: the number of bytes. *)
Definition len (s : string) : Z := Z.of_nat (String.length s).
Definition is_empty (s : string) : bool := match s with EmptyString => true | _ => false end.
(** [s.bytes().all(p)]. *)
Definition all_bytes (p : ascii → bool) (s : string) : bool := forallb p (chars s).

Definition in_range (lo hi : Z) (c : ascii) : bool :=
  (lo <=? byte_val c) && (byte_val c <=? hi).
Definition is_byte (v : Z) (c : ascii) : bool := byte_val c =? v.
Definition is_ascii_digit (c : ascii) : bool := in_range 48 57 c.
Definition is_ascii_alphanumeric (c : ascii) : bool :=
  is_ascii_digit c || in_range 65 90 c || in_range 97 122 c.
Definition is_ascii (c : ascii) : bool := byte_val c <? 128.
(** [char::is_control] on an ASCII character. *)
Definition is_control (c : ascii) : bool := (byte_val c <? 32) || is_byte 127 c.

(** ** [str::trim]: strip the UTF-8 encodings of Unicode White_Space at both ends *)

Definition ws1 (a : ascii) : bool := in_range 9 13 a || is_byte 32 a.
Definition ws2 (a b : ascii) : bool :=
  is_byte 194 a && (is_byte 133 b || is_byte 160 b).
Definition ws3 (a b c : ascii) : bool :=
  (is_byte 225 a && is_byte 154 b && is_byte 128 c)
  || (is_byte 226 a && is_byte 128 b
        && (in_range 128 138 c || is_byte 168 c || is_byte 169 c || is_byte 175 c))
  || (is_byte 226 a && is_byte 129 b && is_byte 159 c)
  || (is_byte 227 a && is_byte 128 b && is_byte 128 c).

(** Strip encodings from the front of a byte list, one, two or three bytes at a time. *)
Fixpoint strip_ws (w2 : ascii → ascii → bool) (w3 : ascii → ascii → ascii → bool)
    (l : list ascii) : list ascii :=
  match l with
  | a :: r1 =>
      if ws1 a then strip_ws w2 w3 r1 else
      match r1 with
      | b :: r2 =>
          if w2 a b then strip_ws w2 w3 r2 else
          match r2 with
          | c :: r3 => if w3 a b c then strip_ws w2 w3 r3 else l
          | [] => l
          end
      | [] => l
      end
  | [] => []
  end.

Definition trim_front (l : list ascii) : list ascii := strip_ws ws2 ws3 l.
(** The same on the reversed bytes: encodings are met last byte first. *)
Definition trim_back_rev (l : list ascii) : list ascii :=
  strip_ws (λ a b, ws2 b a) (λ a b c, ws3 c b a) l.
Definition trim_back (l : list ascii) : list ascii :=
  reverse (trim_back_rev (reverse l)).
Definition trim (s : string) : string := of_chars (trim_back (trim_front (chars s))).

(** [str::to_ascii_lowercase]. *)
Definition ascii_lower (c : ascii) : Ascii.ascii :=
  if in_range 65 90 c then Ascii.ascii_of_N (Ascii.N_of_ascii c + 32) else c.
Definition to_ascii_lowercase (s : string) : string := of_chars (map ascii_lower (chars s)).

(** ** Splitting *)

(** [s.split(c).collect()]: never empty. *)
Fixpoint split (c : ascii) (s : string) : list string :=
  match s with
  | EmptyString => [EmptyString]
  | String a r =>
      if Ascii.eqb a c then EmptyString :: split c r
      else match split c r with
           | p :: ps => String a p :: ps
           | [] => [String a EmptyString]
           end
  end.

(** [s.split_once(c)]: at the first occurrence. *)
Fixpoint split_once (c : ascii) (s : string) : option (string * string) :=
  match s with
  | EmptyString => None
  | String a r =>
      if Ascii.eqb a c then Some (EmptyString, r)
      else match split_once c r with
           | Some (x, y) => Some (String a x, y)
           | None => None
           end
  end.

(** [s.strip_prefix(p)]. *)
Fixpoint strip_prefix (p s : string) : option string :=
  match p, s with
  | EmptyString, _ => Some s
  | String a p', String b s' => if Ascii.eqb a b then strip_prefix p' s' else None
  | String _ _, EmptyString => None
  end.

(** ** Decimal integers *)

Definition digit_char (d : Z) : Ascii.ascii := Ascii.ascii_of_N (Z.to_N (48 + d)).
Definition char_digit (c : ascii) : option Z :=
  if is_ascii_digit c then Some (byte_val c - 48) else None.

(** Digits of a non-negative integer, most significant first; [fuel] bounds their number. *)
Fixpoint decimal (fuel : nat) (z : Z) : list ascii :=
  match fuel with
  | O => []
  | S f => (if z <? 10 then [] else decimal f (z / 10)) ++ [digit_char (z mod 10)]
  end.
Definition decimal_fuel (z : Z) : nat := S (Z.to_nat (Z.log2 z)).

(** [i64::to_string] and [u32::to_string]. *)
Definition to_string (z : Z) : string :=
  if z <? 0
  then String "-"%char (of_chars (decimal (decimal_fuel (- z)) (- z)))
  else of_chars (decimal (decimal_fuel z) z).

(** The digit loop of [from_str_radix]: checked multiplication and addition, accumulating
    upwards for a positive number and downwards for a negative one. *)
Fixpoint parse_digits (lo hi sign : Z) (acc : Z) (l : list ascii) : option Z :=
  match l with
  | [] => Some acc
  | c :: r =>
      match char_digit c with
      | None => None
      | Some d =>
          let acc' := acc * 10 + sign * d in
          if (lo <=? acc') && (acc' <=? hi) then parse_digits lo hi sign acc' r else None
      end
  end.

(** [str::parse::<i64>().ok()]: an optional sign and at least one digit. *)
Definition parse_i64 (s : string) : option Z :=
  match chars s with
  | [] => None
  | c :: r =>
      if Ascii.eqb c "+"%char then
        match r with [] => None | _ => parse_digits i64_min i64_max 1 0 r end
      else if Ascii.eqb c "-"%char then
        match r with [] => None | _ => parse_digits i64_min i64_max (-1) 0 r end
      else parse_digits i64_min i64_max 1 0 (c :: r)
  end.

(** [str::parse::<u32>().ok()]: no minus sign for an unsigned type. *)
Definition parse_u32 (s : string) : option Z :=
  match chars s with
  | [] => None
  | c :: r =>
      if Ascii.eqb c "+"%char then
        match r with [] => None | _ => parse_digits 0 u32_max 1 0 r end
      else parse_digits 0 u32_max 1 0 (c :: r)
  end.

(** ** Validators *)

(** The byte class shared by every token: [byte.is_ascii_alphanumeric() || - _ . :]. *)
Definition token_byte (c : ascii) : bool :=
  is_ascii_alphanumeric c || is_byte 45 c || is_byte 95 c || is_byte 46 c || is_byte 58 c.

(** [management.rs: valid_token]. *)
Definition valid_token (value : string) (max : Z) : bool :=
  negb (is_empty value) && (len value <=? max) && all_bytes token_byte value.

(** [management.rs: valid_idempotency_key]. *)
Definition valid_idempotency_key (value : string) : bool := valid_token value 128.

(** [management.rs: valid_name]. *)
Definition valid_name (value : string) : bool :=
  let value := trim value in
  negb (is_empty value) && (len value <=? 128)
  && all_bytes (λ c, negb (is_control c) && is_ascii c) value.

(** [management.rs: parse_revision]. *)
Definition parse_revision (value : string) : option Z :=
  opt_filter (λ revision, (0 <? revision) && String.eqb (to_string revision) value)
    (parse_i64 value).

(** [management.rs: parse_page_limit]. *)
Definition parse_page_limit (value : string) (max : Z) : option Z :=
  opt_filter (λ limit, (0 <? limit) && (limit <=? max) && String.eqb (to_string limit) value)
    (parse_u32 value).

(** [authorization.rs: valid_subject]. *)
Definition valid_subject (value : string) : bool :=
  negb (is_empty value) && (len value <=? 256) && all_bytes token_byte value.

(** [lib.rs: valid_authority]. *)
Definition valid_authority (value : string) (max : Z) : bool :=
  negb (is_empty value) && (len value <=? max) && all_bytes token_byte value.

(** [lib.rs: valid_secret_reference]. *)
Definition valid_secret_reference (value : string) : bool := valid_authority value 256.

(** [lib.rs: valid_caller]. *)
Definition valid_caller (value : string) : bool :=
  let parts := split "/"%char value in
  (len value <=? 128)
  && ((1 <=? length parts)%nat && (length parts <=? 2)%nat)
  && forallb (λ part, valid_authority part 128) parts.

(** [lib.rs: valid_audience]. *)
Definition valid_audience (value : string) : bool :=
  negb (is_empty value) && (len value <=? 256)
  && all_bytes (λ c, is_ascii_alphanumeric c || is_byte 46 c || is_byte 95 c
                     || is_byte 45 c || is_byte 58 c || is_byte 64 c) value.

Example trim_ex : trim "	 Release bot " = "Release bot".
Proof. reflexivity. Qed.
Example parse_revision_ex :
  (parse_revision "12", parse_revision "+12", parse_revision "012", parse_revision "0",
   parse_revision "9223372036854775807", parse_revision "9223372036854775808",
   parse_revision "-1", parse_i64 "-9223372036854775808")
  = (Some 12, None, None, None, Some i64_max, None, None, Some i64_min).
Proof. vm_compute. reflexivity. Qed.
Example valid_caller_ex :
  map valid_caller ["admin-api"; "plugin/key"; "a/b/c"; "a/"; ""; "a b"]
  = [true; true; false; false; false; false].
Proof. vm_compute. reflexivity. Qed.

(** ** Lemmas on bytes *)

Lemma chars_of_chars l : chars (of_chars l) = l.
Proof. apply String.list_ascii_of_string_of_list_ascii. Qed.
Lemma of_chars_chars s : of_chars (chars s) = s.
Proof. apply String.string_of_list_ascii_of_string. Qed.
#[export] Hint Rewrite chars_of_chars of_chars_chars : lenso.

Lemma chars_inj s t : chars s = chars t → s = t.
Proof. intros H. by rewrite <-(of_chars_chars s), <-(of_chars_chars t), H. Qed.

Lemma chars_app s t : chars (s +:+ t) = chars s ++ chars t.
Proof. induction s as [|a s IH]; simpl; [done|]. by rewrite IH. Qed.

Lemma length_chars s : length (chars s) = String.length s.
Proof. induction s as [|a s IH]; simpl; congruence. Qed.

Lemma len_chars s : len s = Z.of_nat (length (chars s)).
Proof. unfold len. by rewrite length_chars. Qed.

Lemma is_empty_chars s : is_empty s = false ↔ chars s ≠ [].
Proof. by destruct s. Qed.

Lemma len_nonneg s : 0 ≤ len s.
Proof. unfold len. lia. Qed.

Lemma len_app s t : len (s +:+ t) = len s + len t.
Proof. rewrite !len_chars, chars_app, length_app. lia. Qed.

Lemma is_empty_false_len s : is_empty s = false ↔ 1 ≤ len s.
Proof. destruct s; unfold len; simpl; split; try lia; done. Qed.

Lemma all_bytes_forall p s : all_bytes p s = true ↔ Forall (λ c, p c = true) (chars s).
Proof.
  unfold all_bytes. rewrite forallb_forall, Forall_forall. by setoid_rewrite list_elem_of_In.
Qed.

Lemma all_bytes_mono (p q : ascii → bool) s :
  (∀ c, p c = true → q c = true) → all_bytes p s = true → all_bytes q s = true.
Proof. rewrite !all_bytes_forall. intros H ?. by eapply Forall_impl. Qed.

Lemma all_bytes_app p s t : all_bytes p (s +:+ t) = all_bytes p s && all_bytes p t.
Proof. unfold all_bytes. by rewrite chars_app, forallb_app. Qed.

Lemma byte_val_range c : 0 ≤ byte_val c < 256.
Proof. unfold byte_val. destruct c as [[] [] [] [] [] [] [] []]; vm_compute; split; congruence. Qed.

Lemma byte_val_inj c d : byte_val c = byte_val d → c = d.
Proof.
  unfold byte_val. intros H%N2Z.inj.
  by rewrite <-(Ascii.ascii_N_embedding c), <-(Ascii.ascii_N_embedding d), H.
Qed.

Lemma valid_token_spec value max :
  valid_token value max = true ↔
  1 ≤ len value ≤ max ∧ Forall (λ c, token_byte c = true) (chars value).
Proof.
  unfold valid_token.
  rewrite !andb_true_iff, negb_true_iff, is_empty_false_len, Z.leb_le, all_bytes_forall. tauto.
Qed.

Lemma valid_token_mono value max max' :
  max ≤ max' → valid_token value max = true → valid_token value max' = true.
Proof. rewrite !valid_token_spec. naive_solver lia. Qed.
#[export] Hint Resolve valid_token_mono : lenso.

(** ** Decimal round trips *)

Lemma char_digit_digit_char d : 0 ≤ d < 10 → char_digit (digit_char d) = Some d.
Proof.
  intros H.
  assert (d = 0 ∨ d = 1 ∨ d = 2 ∨ d = 3 ∨ d = 4 ∨ d = 5 ∨ d = 6 ∨ d = 7 ∨ d = 8 ∨ d = 9)
    as Hd by lia.
  by repeat destruct Hd as [->|Hd]; subst.
Qed.

Lemma decimal_nonempty fuel z : fuel ≠ O → decimal fuel z ≠ [].
Proof. destruct fuel as [|f]; [done|]. simpl. by destruct (if z <? 10 then _ else _). Qed.

Lemma decimal_digits fuel z :
  0 ≤ z → Forall (λ c, is_ascii_digit c = true) (decimal fuel z).
Proof.
  revert z. induction fuel as [|f IH]; intros z Hz; simpl; [constructor|].
  apply Forall_app. split.
  - destruct (z <? 10); [constructor|]. apply IH. apply Z.div_pos; lia.
  - constructor; [|constructor].
    assert (H := Z.mod_pos_bound z 10 ltac:(lia)). apply char_digit_digit_char in H.
    unfold char_digit in H. by destruct (is_ascii_digit _).
Qed.

Lemma parse_digits_snoc lo hi sign acc l c :
  parse_digits lo hi sign acc (l ++ [c]) =
  match parse_digits lo hi sign acc l with
  | Some a => parse_digits lo hi sign a [c]
  | None => None
  end.
Proof.
  revert acc. induction l as [|x l IH]; intros acc; [done|]. simpl in *.
  destruct (char_digit x); [|done]. destruct (_ && _); [|done]. apply IH.
Qed.

Lemma parse_digits_decimal lo hi fuel z :
  lo ≤ 0 → 0 ≤ z ≤ hi → z < 2 ^ Z.of_nat fuel →
  parse_digits lo hi 1 0 (decimal fuel z) = Some z.
Proof.
  intros Hlo. revert z. induction fuel as [|f IH]; intros z Hz Hf.
  - simpl in *. f_equal. lia.
  - change (decimal (S f) z)
      with ((if z <? 10 then [] else decimal f (z / 10)) ++ [digit_char (z mod 10)]).
    rewrite parse_digits_snoc.
    assert (parse_digits lo hi 1 0 (if z <? 10 then [] else decimal f (z / 10))
            = Some (z / 10)) as ->.
    { destruct (Z.ltb_spec z 10); [simpl; f_equal; symmetry; apply Z.div_small; lia|].
      apply IH; [split; [apply Z.div_pos; lia|apply Z.div_le_upper_bound; lia]|].
      rewrite Nat2Z.inj_succ, Z.pow_succ_r in Hf by lia.
      apply Z.div_lt_upper_bound; lia. }
    simpl. rewrite char_digit_digit_char by (apply Z.mod_pos_bound; lia).
    replace (z / 10 * 10 + 1 * (z mod 10)) with z
      by (rewrite (Z.div_mod z 10) at 1; lia).
    by rewrite (proj2 (Z.leb_le lo z)), (proj2 (Z.leb_le z hi)) by lia.
Qed.

Lemma decimal_fuel_enough z : 0 ≤ z → z < 2 ^ Z.of_nat (decimal_fuel z).
Proof.
  intros Hz. unfold decimal_fuel. rewrite Nat2Z.inj_succ, Z2Nat.id by apply Z.log2_nonneg.
  destruct (decide (z = 0)) as [->|]; [done|]. apply Z.log2_spec. lia.
Qed.

Lemma parse_digits_range lo hi sign acc l r :
  lo ≤ acc ≤ hi → parse_digits lo hi sign acc l = Some r → lo ≤ r ≤ hi.
Proof.
  revert acc. induction l as [|c l IH]; simpl; intros acc Hacc; [by intros [= <-]|].
  destruct (char_digit c) as [d|]; [|done].
  destruct (_ && _) eqn:E; [|done]. bool_prop. apply IH. lia.
Qed.

(** The shape of a canonical non-negative decimal: digits only, so no sign is read. *)
Lemma to_string_pos z : 0 ≤ z →
  ∃ c r, chars (to_string z) = c :: r ∧ is_ascii_digit c = true
         ∧ c :: r = decimal (decimal_fuel z) z.
Proof.
  intros Hz. unfold to_string. rewrite (proj2 (Z.ltb_ge z 0)) by lia.
  rewrite chars_of_chars. assert (Hd := decimal_digits (decimal_fuel z) z Hz).
  destruct (decimal (decimal_fuel z) z) as [|c r] eqn:E.
  - by apply decimal_nonempty in E.
  - inversion Hd; subst. eauto.
Qed.

Lemma digit_not_sign c : is_ascii_digit c = true →
  Ascii.eqb c "+"%char = false ∧ Ascii.eqb c "-"%char = false.
Proof. destruct c as [[] [] [] [] [] [] [] []]; vm_compute; try discriminate; auto. Qed.

Lemma parse_i64_to_string z : 0 ≤ z ≤ i64_max → parse_i64 (to_string z) = Some z.
Proof.
  intros Hz. destruct (to_string_pos z) as (c & r & E & Hc & Er); [lia|].
  unfold parse_i64. rewrite E. destruct (digit_not_sign c Hc) as [-> ->].
  rewrite Er. apply parse_digits_decimal; [done|lia|]. apply decimal_fuel_enough. lia.
Qed.

Lemma parse_u32_to_string z : 0 ≤ z ≤ u32_max → parse_u32 (to_string z) = Some z.
Proof.
  intros Hz. destruct (to_string_pos z) as (c & r & E & Hc & Er); [lia|].
  unfold parse_u32. rewrite E. destruct (digit_not_sign c Hc) as [-> _].
  rewrite Er. apply parse_digits_decimal; [done|lia|]. apply decimal_fuel_enough. lia.
Qed.

Lemma parse_i64_range s z : parse_i64 s = Some z → i64_min ≤ z ≤ i64_max.
Proof.
  unfold parse_i64. destruct (chars s) as [|c r]; [done|].
  destruct (Ascii.eqb c _); [destruct r; [done|]; by apply parse_digits_range|].
  destruct (Ascii.eqb c _); [destruct r; [done|]; by apply parse_digits_range|].
  by apply parse_digits_range.
Qed.

Lemma parse_u32_range s z : parse_u32 s = Some z → 0 ≤ z ≤ u32_max.
Proof.
  unfold parse_u32. destruct (chars s) as [|c r]; [done|].
  destruct (Ascii.eqb c _); [destruct r; [done|]; by apply parse_digits_range|].
  by apply parse_digits_range.
Qed.

(** Distinct non-negative integers print differently. *)
Lemma to_string_inj y z :
  0 ≤ y ≤ i64_max → 0 ≤ z ≤ i64_max → to_string y = to_string z → y = z.
Proof.
  intros Hy Hz E. apply parse_i64_to_string in Hy, Hz. congruence.
Qed.

Lemma to_string_nonempty z : 0 ≤ z → is_empty (to_string z) = false.
Proof.
  intros Hz. destruct (to_string_pos z Hz) as (c & r & E & _). apply is_empty_chars. by rewrite E.
Qed.

(** ** Trimming *)

Lemma strip_ws_spec w2 w3 l :
  (∃ p, l = p ++ strip_ws w2 w3 l) ∧
  (∀ c r, strip_ws w2 w3 l = c :: r → ws1 c = false).
Proof.
  assert (∀ n l, (length l ≤ n)%nat →
    (∃ p, l = p ++ strip_ws w2 w3 l) ∧ ∀ c r, strip_ws w2 w3 l = c :: r → ws1 c = false)
    as H; [|by apply (H (length l))].
  clear l. induction n as [|n IH]; intros [|a r1] Hl; simpl in Hl; try lia;
    [by split; [exists []|]..|].
  assert (∀ p r, a :: r1 = p ++ r → (length r ≤ n)%nat →
    (∃ q, a :: r1 = q ++ strip_ws w2 w3 r) ∧
    ∀ c r', strip_ws w2 w3 r = c :: r' → ws1 c = false) as Hrec.
  { intros p r Hp Hr. destruct (IH r Hr) as [[q Hq] Hc]. split; [|done].
    exists (p ++ q). rewrite Hp, Hq at 1. by rewrite <-app_assoc. }
  simpl. destruct (ws1 a) eqn:Ha; [apply (Hrec [a]); [done|lia]|].
  assert ((∃ q, a :: r1 = q ++ (a :: r1)) ∧ ∀ c r', a :: r1 = c :: r' → ws1 c = false)
    as Hstop by (split; [by exists []|by intros ?? [= <- _]]).
  destruct r1 as [|b r2]; [done|]. simpl in *.
  destruct (w2 a b); [apply (Hrec [a; b]); [done|lia]|].
  destruct r2 as [|c r3]; [done|]. simpl in *.
  destruct (w3 a b c); [apply (Hrec [a; b; c]); [done|lia]|done].
Qed.

(** [trim] returns a contiguous part of its argument. *)
Lemma trim_infix s : ∃ p q, chars s = p ++ chars (trim s) ++ q.
Proof.
  unfold trim. rewrite chars_of_chars. unfold trim_back, trim_back_rev, trim_front.
  destruct (strip_ws_spec ws2 ws3 (chars s)) as [[p Hp] _].
  set (f := strip_ws ws2 ws3 (chars s)) in *.
  destruct (strip_ws_spec (λ a b, ws2 b a) (λ a b c, ws3 c b a) (reverse f)) as [[q Hq] _].
  exists p, (reverse q). rewrite Hp at 1. f_equal.
  rewrite <-(reverse_involutive f), Hq at 1. by rewrite reverse_app.
Qed.

(** [trim] leaves no ASCII white space at either end. *)
Lemma trim_ends s c :
  (∃ r, chars (trim s) = c :: r) ∨ (∃ r, chars (trim s) = r ++ [c]) → ws1 c = false.
Proof.
  unfold trim. rewrite chars_of_chars. unfold trim_back, trim_back_rev, trim_front.
  destruct (strip_ws_spec ws2 ws3 (chars s)) as [_ Hf].
  set (f := strip_ws ws2 ws3 (chars s)) in *.
  destruct (strip_ws_spec (λ a b, ws2 b a) (λ a b c, ws3 c b a) (reverse f)) as [[q Hq] Hb].
  set (g := strip_ws _ _ (reverse f)) in *. intros [[r Hr]|[r Hr]].
  - apply (f_equal reverse) in Hq. rewrite reverse_involutive, reverse_app, Hr in Hq.
    exact (Hf _ _ Hq).
  - apply (f_equal reverse) in Hr. rewrite reverse_involutive, reverse_app in Hr.
    exact (Hb _ _ Hr).
Qed.

Lemma valid_name_spec value :
  valid_name value = true ↔
  1 ≤ len (trim value) ≤ 128 ∧
  Forall (λ c, is_control c = false ∧ is_ascii c = true) (chars (trim value)).
Proof.
  unfold valid_name.
  rewrite !andb_true_iff, negb_true_iff, is_empty_false_len, Z.leb_le, all_bytes_forall.
  setoid_rewrite andb_true_iff. setoid_rewrite negb_true_iff. tauto.
Qed.

(** ** Splitting *)

(** Joining the parts with the separator gives the string back, and no part contains it. *)
Fixpoint join (c : ascii) (l : list string) : string :=
  match l with
  | [] => EmptyString
  | [p] => p
  | p :: ps => p +:+ String c (join c ps)
  end.

Lemma split_nonempty c s : split c s ≠ [].
Proof. destruct s as [|a s]; simpl; [done|]. destruct (Ascii.eqb a c); [done|]. by destruct (split c s). Qed.

Lemma split_spec c s :
  join c (split c s) = s ∧ Forall (λ p, c ∉ chars p) (split c s).
Proof.
  induction s as [|a s [IH1 IH2]]; simpl; [split; [done|]; constructor; [|done]; by apply not_elem_of_nil|].
  assert (Hne := split_nonempty c s).
  destruct (Ascii.eqb_spec a c) as [->|Hac].
  - split; [|constructor; [by apply not_elem_of_nil|done]].
    destruct (split c s) eqn:E; [done|]. simpl in *. by rewrite IH1.
  - destruct (split c s) as [|p ps]; [done|]. inversion IH2; subst. split.
    + destruct ps; done.
    + constructor; [|done]. simpl. rewrite not_elem_of_cons. done.
Qed.

Lemma split_once_Some c s x y :
  split_once c s = Some (x, y) ↔ s = x +:+ String c y ∧ c ∉ chars x.
Proof.
  revert x y. induction s as [|a s IH]; intros x y; simpl.
  - split; [done|]. intros [H _]. by destruct x.
  - destruct (Ascii.eqb_spec a c) as [->|Hac].
    + split; [intros [= <- <-]; split; [done|apply not_elem_of_nil]|].
      intros [H Hx]. destruct x as [|b x]; simpl in *; [by injection H as ->|].
      injection H as <- _. rewrite not_elem_of_cons in Hx. by destruct Hx.
    + destruct (split_once c s) as [[x' y']|] eqn:E.
      * destruct (proj1 (IH x' y') eq_refl) as [-> Hx']. split.
        -- intros [= <- <-]. split; [done|]. simpl. by rewrite not_elem_of_cons.
        -- intros [H Hx]. destruct x as [|b x]; simpl in *; [by injection H as ->|].
           injection H as <- H. rewrite not_elem_of_cons in Hx. destruct Hx as [_ Hx].
           by injection (proj2 (IH x y) (conj H Hx)) as <- <-.
      * split; [done|]. intros [H Hx]. destruct x as [|b x]; simpl in *; [by injection H as ->|].
        injection H as <- H. rewrite not_elem_of_cons in Hx. destruct Hx as [_ Hx].
        by discriminate (proj2 (IH x y) (conj H Hx)).
Qed.

Lemma strip_prefix_Some p s r : strip_prefix p s = Some r ↔ s = p +:+ r.
Proof.
  revert s. induction p as [|a p IH]; intros s; simpl; [split; [by intros [= ->]|by intros ->]|].
  destruct s as [|b s]; [done|]. destruct (Ascii.eqb_spec a b) as [->|Hab].
  - rewrite IH. split; [by intros ->|by intros [= ->]].
  - split; [done|]. by intros [= -> _].
Qed.
