(* ===== verification/Platform.v ===== *)
(** * Platform: the code outside this repository, as parameters

    The crates the plug-in links against are not part of the repository.  Each function the
    source calls is a field of the class [Platform]; the documented behaviour a theorem
    relies on is a law class of its own ([CipherLaws], [JsonLaws], ...), so that a theorem
    shows exactly which promises it needs.  Opaque error values of those crates are
    represented by the text their [Display] prints. *)
From S2P Require Import Prelude Text.

Open Scope string_scope.
Open Scope list_scope.
Open Scope Z_scope.

(** The syntax tree of a JSON text: members in textual order, duplicates kept; a number by
    its spelling. *)
Inductive json : Type :=
  | JNull
  | JBool (b : bool)
  | JNumber (repr : string)
  | JString (s : string)
  | JArray (values : list json)
  | JObject (members : list (string * json)).

(** How deep arrays and objects nest. *)
Fixpoint json_depth (v : json) : nat :=
  match v with
  | JArray values => S (fold_right (λ v, Nat.max (json_depth v)) 0%nat values)
  | JObject members => S (fold_right (λ p, Nat.max (json_depth p.2)) 0%nat members)
  | _ => 0
  end.

(** Every number is a 64-bit integer in its shortest decimal spelling: no fraction, no
    exponent, no leading zero. *)
Fixpoint json_integers (v : json) : bool :=
  match v with
  | JNumber repr =>
      match parse_i64 repr with Some z => String.eqb (to_string z) repr | None => false end
  | JArray values => forallb json_integers values
  | JObject members => forallb (λ p, json_integers p.2) members
  | _ => true
  end.

(** The values [serde_json] reads back as it wrote them: its parser refuses 128 nested
    containers, and a floating point number may come back in another spelling. *)
Definition plain_json (v : json) : bool := Nat.ltb (json_depth v) 128 && json_integers v.

(** [lenso_kernel::RuntimeFailure]: the variants this repository constructs, and one for
    the others, which it only forwards. *)
Inductive RuntimeFailure : Type :=
  | PluginFailure (detail : string)
  | InvalidResolvedPlan (detail : string)
  | ProtocolViolation (capability : string)
  | UnknownOperation (capability operation : string)
  | Unavailable (capability : string)
  | OtherRuntimeFailure (display : string).

(** [lenso_auth_sdk::ActorAssertion], through the two accessors the source reads. *)
Record ActorAssertion := { actor_kind : string; assertion_subject : string }.

(** Time: an [OffsetDateTime] is its number of microseconds since the epoch, the resolution
    of the [TIMESTAMPTZ] columns. *)
Notation time := Z (only parsing).
Definition seconds (s : Z) : Z := s * 1000000.

Class Platform := {
  (* lenso_kernel *)
  InvocationContext : Type;
  caller_instance : InvocationContext → option string;
  (* lenso_auth_sdk *)
  ActorAssertionVerifier : Type;
  from_public_key_base64 : string → string → option ActorAssertionVerifier;
  (* the assertion of the context, verified for a capability, an operation and a time *)
  verified_assertion :
    ActorAssertionVerifier → InvocationContext → string → string → time → option ActorAssertion;
  (* lenso_postgres_kit: [SchemaPlan::new], error text on failure *)
  schema_plan_new : string → result unit string;
  (* base64: URL_SAFE_NO_PAD.encode *)
  base64_encode : bytes → string;
  (* sha2: Sha256::digest *)
  sha256 : bytes → bytes;
  (* aes_gcm: key, nonce, message, additional data *)
  aes_gcm_encrypt : bytes → bytes → bytes → bytes → option bytes;
  aes_gcm_decrypt : bytes → bytes → bytes → bytes → option bytes;
  (* argon2: salt encoding; Argon2id v19 with default parameters: input and salt to PHC
     string; the algorithm name of a PHC string; verification *)
  salt_encode_b64 : bytes → result string string;
  argon2id_hash : bytes → string → result string string;
  password_hash_algorithm : string → option string;
  argon2id_verify : bytes → string → bool;
  (* serde_json: text of a syntax tree, and back *)
  json_to_vec : json → result bytes string;
  json_from_slice : bytes → result json string;
  (* time: RFC 3339 *)
  rfc3339_format : time → result string string;
  rfc3339_parse : string → option time;
  (* PostgreSQL: [<] on TEXT under the database's collation *)
  text_ltb : string → string → bool;
}.

(** AES-GCM decrypts what it encrypted under the same key, nonce and additional data. *)
Class CipherLaws `{Platform} : Prop := {
  aes_gcm_correct key nonce msg aad ct :
    aes_gcm_encrypt key nonce msg aad = Some ct →
    aes_gcm_decrypt key nonce ct aad = Some msg;
}.

(** The JSON text of a plain value parses back to the tree it was printed from. *)
Class JsonLaws `{Platform} : Prop := {
  json_round_trip v b : plain_json v = true → json_to_vec v = Ok b → json_from_slice b = Ok v;
}.

(** The URL-safe alphabet without padding, four characters for three bytes. *)
Definition base64_byte (c : Ascii.ascii) : bool :=
  is_ascii_alphanumeric c || is_byte 45 c || is_byte 95 c.
Class Base64Laws `{Platform} : Prop := {
  base64_alphabet b : all_bytes base64_byte (base64_encode b) = true;
  base64_length b : len (base64_encode b) = (4 * len b + 2) / 3;
}.

(** An Argon2id verifier accepts its own input and names its algorithm. *)
Class PasswordLaws `{Platform} : Prop := {
  argon2id_correct input salt v :
    argon2id_hash input salt = Ok v →
    argon2id_verify input v = true ∧ password_hash_algorithm v = Some "argon2id";
}.

(** A SHA-256 digest has 32 bytes. *)
Class DigestLaws `{Platform} : Prop := { sha256_length b : len (sha256 b) = 32 }.

(** TEXT comparison is a strict total order (collations are deterministic by default). *)
Class CollationLaws `{Platform} : Prop := {
  text_ltb_irrefl x : text_ltb x x = false;
  text_ltb_trans x y z : text_ltb x y = true → text_ltb y z = true → text_ltb x z = true;
  text_ltb_total x y : text_ltb x y = false → text_ltb y x = false → x = y;
}.

(** Time stamps print and read back. *)
Class TimeLaws `{Platform} : Prop := {
  rfc3339_round_trip t s : rfc3339_format t = Ok s → rfc3339_parse s = Some t;
}.

(** ** Requests and responses of the bound capabilities

    The fields the source writes or reads; [Domain] errors by the cases it distinguishes. *)

Inductive InvocationError (E : Type) : Type :=
  | Domain (error : E)
  | Runtime (failure : RuntimeFailure).
Arguments Domain {E} _.
Arguments Runtime {E} _.

(** lenso.identity.directory *)
Record EnsureIdentityRequest := { provider : string; external_subject : string }.
Record EnsureIdentityResponse := { ensured_subject : string }.
Record ReadStatusRequest := { read_status_subject : string }.
Inductive ReadStatusResponseStatus := DirectoryActive | DirectoryOtherStatus (name : string).
Record ReadStatusResponse :=
  { status_subject : string; status_status : ReadStatusResponseStatus }.
Inductive ReadStatusError := ReadStatusNotFound | ReadStatusInvalidSubject | ReadStatusOther (code : string).

(** lenso.auth.credential-issuer *)
Record IssueRequest := {
  issue_subject : string; issue_actor_kind : string; issue_assurance : string;
  issue_audience : list string; issue_claims : list (string * json); issue_expires_at : string }.
Record IssuedSession :=
  { session_id : string; session_credential : string; session_expires_at : string }.
Inductive IssueError := IssueDisabled | IssueOther (code : string).

(** lenso.organization-membership *)
Record CheckMembershipRequest := { membership_organization_id : string; membership_subject : string }.
Record CheckMembershipResponse := { membership_active : bool }.
Inductive CheckMembershipError := MembershipOrganizationNotFound | MembershipInvalidRequest | MembershipUnknown (code : string).

(** lenso.access-control *)
Record CheckPermissionRequest := {
  permission_subject : string; permission_scope_kind : string; permission_scope_id : string;
  permission_name : string }.
Record CheckPermissionResponse := { permission_allowed : bool }.
Inductive CheckPermissionError := PermissionInvalidRequest | PermissionUnknown (code : string).

(** lenso.secrets *)
Record ResolveRequest := { resolve_reference : string }.
