(* ===== verification/Contract.v ===== *)
(** * Contract: the portable capability contracts

    Requests, responses and domain errors of [lenso.service-account@1] and
    [lenso.auth.service-account@1] (the two [generated.rs] files), their JSON form as the
    derived [Serialize] and [Deserialize] implementations give it, and the hand-written codec
    of the domain errors. *)
From S2P Require Import Prelude Text Platform.

Open Scope string_scope.
Open Scope list_scope.
Open Scope Z_scope.
Open Scope result_scope.

(** ** Capability and operation names *)

Definition CAPABILITY_ID : string := "lenso.service-account@1".
Definition AUTH_CAPABILITY_ID : string := "lenso.auth.service-account@1".
Definition CREATE_OPERATION : string := "create".
Definition GET_OPERATION : string := "get".
Definition LIST_OPERATION : string := "list".
Definition REVOKE_OPERATION : string := "revoke".
Definition ROTATE_SECRET_OPERATION : string := "rotate_secret".
Definition EXCHANGE_SECRET_OPERATION : string := "exchange_secret".

(** ** Data *)

Inductive ServiceAccountStatus := Active | Revoked.

Record ServiceAccountSummary := {
  s_created_at : string;
  s_credential_expires_at : option string;
  s_name : string;
  s_organization_id : string;
  s_revision : string;
  s_revoked_at : option string;
  s_rotated_at : option string;
  s_service_account_id : string;
  s_status : ServiceAccountStatus;
  s_subject : string }.

Record CreateServiceAccountRequest := {
  create_idempotency_key : string; create_name : string; create_organization_id : string }.
Record CreateServiceAccountResponse := {
  created_account : ServiceAccountSummary; created : bool; created_secret : option string }.

Record GetServiceAccountRequest := { get_organization_id : string; get_service_account_id : string }.
Record GetServiceAccountResponse := { got_account : ServiceAccountSummary }.

Record ListServiceAccountsRequest := {
  list_after : option string; list_limit : string; list_organization_id : string }.
Record ListServiceAccountsResponse := {
  listed_accounts : list ServiceAccountSummary; next_cursor : option string }.

Record RevokeServiceAccountRequest := {
  revoke_expected_revision : string; revoke_idempotency_key : string;
  revoke_organization_id : string; revoke_service_account_id : string }.
Record RevokeServiceAccountResponse := {
  revoked_account : ServiceAccountSummary; revoked : bool }.

Record RotateServiceAccountSecretRequest := {
  rotate_expected_revision : string; rotate_idempotency_key : string;
  rotate_organization_id : string; rotate_service_account_id : string }.
Record RotateServiceAccountSecretResponse := {
  rotated_account : ServiceAccountSummary; rotated : bool; rotated_secret : option string }.

Record ExchangeServiceAccountSecretRequest := {
  exchange_idempotency_key : string; exchange_secret_text : string }.
Record ExchangeServiceAccountSecretResponse := {
  x_credential : string; x_expires_at : string; x_organization_id : string;
  x_service_account_id : string; x_session_id : string; x_subject : string }.

(** [lenso_contract_runtime::UnknownDomainError]: [extra] is a [BTreeMap], here its entries
    in key order. *)
Record UnknownDomainError := {
  u_code : string; u_payload : option json; u_extra : list (string * json) }.

Module CreateError.
Inductive t :=
  | AccessDenied | DirectoryRejected | Forbidden | IdempotencyConflict | InvalidRequest
  | MembershipRequired | NameConflict | OperationInProgress | OrganizationNotFound
  | TooManyServiceAccounts | Unknown (value : UnknownDomainError).
End CreateError.
Module GetError.
Inductive t :=
  | AccessDenied | Forbidden | InvalidRequest | MembershipRequired | NotFound
  | OrganizationNotFound | Unknown (value : UnknownDomainError).
End GetError.
Module ListError.
Inductive t :=
  | AccessDenied | Forbidden | InvalidRequest | MembershipRequired
  | OrganizationNotFound | Unknown (value : UnknownDomainError).
End ListError.
Module RevokeError.
Inductive t :=
  | AccessDenied | Forbidden | IdempotencyConflict | InvalidRequest | MembershipRequired
  | NotFound | OperationInProgress | OrganizationNotFound | RevisionConflict
  | Unknown (value : UnknownDomainError).
End RevokeError.
Module RotateSecretError.
Inductive t :=
  | AccessDenied | Forbidden | IdempotencyConflict | InvalidRequest | MembershipRequired
  | NotFound | OperationInProgress | OrganizationNotFound | RevisionConflict | Revoked
  | Unknown (value : UnknownDomainError).
End RotateSecretError.
Module ExchangeSecretError.
Inductive t :=
  | Disabled | Forbidden | IdempotencyConflict | InvalidCredentials | InvalidRequest
  | OperationInProgress | RateLimited | Unknown (value : UnknownDomainError).
End ExchangeSecretError.

(** ** Derived serialization

    [#[derive(Serialize)]] writes the fields of a struct in declaration order. *)

Class Serialize (A : Type) := to_value : A → json.
Class Deserialize (A : Type) := from_value : json → result A string.

Definition ser_option (o : option string) : json :=
  match o with Some s => JString s | None => JNull end.

#[export] Instance ser_status : Serialize ServiceAccountStatus := λ s,
  match s with Active => JString "active" | Revoked => JString "revoked" end.

#[export] Instance ser_summary : Serialize ServiceAccountSummary := λ s, JObject [
  ("created_at", JString (s_created_at s));
  ("credential_expires_at", ser_option (s_credential_expires_at s));
  ("name", JString (s_name s));
  ("organization_id", JString (s_organization_id s));
  ("revision", JString (s_revision s));
  ("revoked_at", ser_option (s_revoked_at s));
  ("rotated_at", ser_option (s_rotated_at s));
  ("service_account_id", JString (s_service_account_id s));
  ("status", to_value (s_status s));
  ("subject", JString (s_subject s))].

#[export] Instance ser_create_request : Serialize CreateServiceAccountRequest := λ r, JObject [
  ("idempotency_key", JString (create_idempotency_key r));
  ("name", JString (create_name r));
  ("organization_id", JString (create_organization_id r))].
#[export] Instance ser_create_response : Serialize CreateServiceAccountResponse := λ r, JObject [
  ("account", to_value (created_account r));
  ("created", JBool (created r));
  ("secret", ser_option (created_secret r))].
#[export] Instance ser_revoke_request : Serialize RevokeServiceAccountRequest := λ r, JObject [
  ("expected_revision", JString (revoke_expected_revision r));
  ("idempotency_key", JString (revoke_idempotency_key r));
  ("organization_id", JString (revoke_organization_id r));
  ("service_account_id", JString (revoke_service_account_id r))].
#[export] Instance ser_revoke_response : Serialize RevokeServiceAccountResponse := λ r, JObject [
  ("account", to_value (revoked_account r));
  ("revoked", JBool (revoked r))].
#[export] Instance ser_rotate_request : Serialize RotateServiceAccountSecretRequest := λ r, JObject [
  ("expected_revision", JString (rotate_expected_revision r));
  ("idempotency_key", JString (rotate_idempotency_key r));
  ("organization_id", JString (rotate_organization_id r));
  ("service_account_id", JString (rotate_service_account_id r))].
#[export] Instance ser_rotate_response : Serialize RotateServiceAccountSecretResponse := λ r, JObject [
  ("account", to_value (rotated_account r));
  ("rotated", JBool (rotated r));
  ("secret", ser_option (rotated_secret r))].
#[export] Instance ser_exchange_request : Serialize ExchangeServiceAccountSecretRequest := λ r, JObject [
  ("idempotency_key", JString (exchange_idempotency_key r));
  ("secret", JString (exchange_secret_text r))].
#[export] Instance ser_exchange_response : Serialize ExchangeServiceAccountSecretResponse := λ r, JObject [
  ("credential", JString (x_credential r));
  ("expires_at", JString (x_expires_at r));
  ("organization_id", JString (x_organization_id r));
  ("service_account_id", JString (x_service_account_id r));
  ("session_id", JString (x_session_id r));
  ("subject", JString (x_subject r))].

(** A pair [(actor, request)] serializes as a two-element array. *)
#[export] Instance ser_actor_pair {A} `{Serialize A} : Serialize (string * A) := λ p,
  JArray [JString p.1; to_value p.2].

(** ** Derived deserialization

    [#[derive(Deserialize)]] on a struct: from an object, every field exactly once
    ([deserialize_with] makes even an optional field required) and unknown members skipped;
    from an array, the fields in declaration order and nothing else. *)

Definition members (fields : list string) (j : json) : result (list (string * json)) string :=
  match j with
  | JObject m => Ok m
  | JArray l => if Nat.eqb (length l) (length fields) then Ok (zip fields l)
                else Err "invalid length"
  | _ => Err "invalid type: expected struct"
  end.
Definition field (name : string) (m : list (string * json)) : result json string :=
  match List.filter (λ p, String.eqb p.1 name) m with
  | [p] => Ok p.2
  | [] => Err ("missing field " +:+ name)
  | _ => Err ("duplicate field " +:+ name)
  end.
Definition de_string (j : json) : result string string :=
  match j with JString s => Ok s | _ => Err "invalid type: expected a string" end.
Definition de_bool (j : json) : result bool string :=
  match j with JBool b => Ok b | _ => Err "invalid type: expected a boolean" end.
Definition de_option (j : json) : result (option string) string :=
  match j with JNull => Ok None | JString s => Ok (Some s) | _ => Err "invalid type: expected a string" end.

#[export] Instance de_status : Deserialize ServiceAccountStatus := λ j,
  let variant name := if String.eqb name "active" then Ok Active
                      else if String.eqb name "revoked" then Ok Revoked
                      else Err "unknown variant" in
  match j with
  | JString s => variant s
  | JObject [(s, JNull)] => variant s
  | _ => Err "invalid type: expected enum ServiceAccountStatus"
  end.

#[export] Instance de_summary : Deserialize ServiceAccountSummary := λ j,
  let? m := members ["created_at"; "credential_expires_at"; "name"; "organization_id"; "revision";
    "revoked_at"; "rotated_at"; "service_account_id"; "status"; "subject"] j in
  let? created_at := bind_ok (field "created_at" m) de_string in
  let? expires := bind_ok (field "credential_expires_at" m) de_option in
  let? name := bind_ok (field "name" m) de_string in
  let? organization_id := bind_ok (field "organization_id" m) de_string in
  let? revision := bind_ok (field "revision" m) de_string in
  let? revoked_at := bind_ok (field "revoked_at" m) de_option in
  let? rotated_at := bind_ok (field "rotated_at" m) de_option in
  let? service_account_id := bind_ok (field "service_account_id" m) de_string in
  let? status := bind_ok (field "status" m) from_value in
  let? subject := bind_ok (field "subject" m) de_string in
  Ok {| s_created_at := created_at; s_credential_expires_at := expires; s_name := name;
        s_organization_id := organization_id; s_revision := revision;
        s_revoked_at := revoked_at; s_rotated_at := rotated_at;
        s_service_account_id := service_account_id; s_status := status;
        s_subject := subject |}.

#[export] Instance de_create_response : Deserialize CreateServiceAccountResponse := λ j,
  let? m := members ["account"; "created"; "secret"] j in
  let? account := bind_ok (field "account" m) from_value in
  let? is_created := bind_ok (field "created" m) de_bool in
  let? secret := bind_ok (field "secret" m) de_option in
  Ok {| created_account := account; created := is_created; created_secret := secret |}.
#[export] Instance de_revoke_response : Deserialize RevokeServiceAccountResponse := λ j,
  let? m := members ["account"; "revoked"] j in
  let? account := bind_ok (field "account" m) from_value in
  let? is_revoked := bind_ok (field "revoked" m) de_bool in
  Ok {| revoked_account := account; revoked := is_revoked |}.
#[export] Instance de_rotate_response : Deserialize RotateServiceAccountSecretResponse := λ j,
  let? m := members ["account"; "rotated"; "secret"] j in
  let? account := bind_ok (field "account" m) from_value in
  let? is_rotated := bind_ok (field "rotated" m) de_bool in
  let? secret := bind_ok (field "secret" m) de_option in
  Ok {| rotated_account := account; rotated := is_rotated; rotated_secret := secret |}.
#[export] Instance de_exchange_response : Deserialize ExchangeServiceAccountSecretResponse := λ j,
  let? m := members ["credential"; "expires_at"; "organization_id";
    "service_account_id"; "session_id"; "subject"] j in
  let? credential := bind_ok (field "credential" m) de_string in
  let? expires_at := bind_ok (field "expires_at" m) de_string in
  let? organization_id := bind_ok (field "organization_id" m) de_string in
  let? service_account_id := bind_ok (field "service_account_id" m) de_string in
  let? session := bind_ok (field "session_id" m) de_string in
  let? subject := bind_ok (field "subject" m) de_string in
  Ok {| x_credential := credential; x_expires_at := expires_at;
        x_organization_id := organization_id; x_service_account_id := service_account_id;
        x_session_id := session; x_subject := subject |}.
