(* ===== verification/DomainErrors.v ===== *)
(** * DomainErrors: the JSON codec of the domain errors

    [impl Serialize] and [impl Deserialize] of the six error enums in the two
    [generated.rs] files: known variants travel as strings, unknown ones as objects that
    keep their code, payload and extra members. *)
From Stdlib Require Import OrdersEx.
From S2P Require Import Prelude Text Platform Contract.

Open Scope string_scope.
Open Scope list_scope.
Open Scope Z_scope.

(** ** [BTreeMap<String, V>]: entries in key order *)

Section btree.
Context {V : Type}.
Implicit Types (l : list (string * V)) (k : string) (v : V).

Fixpoint bt_insert k v l : list (string * V) :=
  match l with
  | [] => [(k, v)]
  | (k', v') :: r =>
      match String.compare k k' with
      | Lt => (k, v) :: l
      | Eq => (k, v) :: r
      | Gt => (k', v') :: bt_insert k v r
      end
  end.

(** Collecting an iterator of entries: later entries win. *)
Definition bt_collect l : list (string * V) :=
  fold_left (λ acc p, bt_insert p.1 p.2 acc) l [].

Fixpoint bt_get k l : option V :=
  match l with
  | [] => None
  | (k', v) :: r => if String.eqb k k' then Some v else bt_get k r
  end.

(** [map.remove(k)]: the value and the remaining map. *)
Definition bt_remove k l : option V * list (string * V) :=
  (bt_get k l, List.filter (λ p, negb (String.eqb k p.1)) l).

Definition key_lt (p q : string * V) : Prop := String.compare p.1 q.1 = Lt.
Definition bt_sorted l : Prop := StronglySorted key_lt l.
End btree.

(** ** The codec *)

Class DomainError (E : Type) := {
  code_of : E → string + UnknownDomainError;
  of_code : string → option E;
  unknown : UnknownDomainError → E;
}.

Definition serialize_error {E} `{DomainError E} (e : E) : json :=
  match code_of e with
  | inl code => JString code
  | inr value =>
      JObject (("code", JString (u_code value))
        :: match u_payload value with Some payload => [("payload", payload)] | None => [] end
        ++ u_extra value)
  end.

Definition deserialize_error {E} `{DomainError E} (j : json) : result E string :=
  match j with
  | JString code =>
      match of_code code with
      | Some e => Ok e
      | None => Ok (unknown {| u_code := code; u_payload := None; u_extra := [] |})
      end
  | JObject m =>
      let object := bt_collect m in
      let '(code, object) := bt_remove "code" object in
      match code with
      | Some (JString code) =>
          let '(payload, object) := bt_remove "payload" object in
          Ok (unknown {| u_code := code; u_payload := payload; u_extra := object |})
      | _ => Err "Domain Error object is missing a string code"
      end
  | _ => Err "Domain Error must be a string or object"
  end.

#[export] Instance create_error_codec : DomainError CreateError.t := {
  code_of e := match e with
    | CreateError.AccessDenied => inl "access_denied"
    | CreateError.DirectoryRejected => inl "directory_rejected"
    | CreateError.Forbidden => inl "forbidden"
    | CreateError.IdempotencyConflict => inl "idempotency_conflict"
    | CreateError.InvalidRequest => inl "invalid_request"
    | CreateError.MembershipRequired => inl "membership_required"
    | CreateError.NameConflict => inl "name_conflict"
    | CreateError.OperationInProgress => inl "operation_in_progress"
    | CreateError.OrganizationNotFound => inl "organization_not_found"
    | CreateError.TooManyServiceAccounts => inl "too_many_service_accounts"
    | CreateError.Unknown value => inr value
    end;
  of_code code :=
    if String.eqb code "access_denied" then Some CreateError.AccessDenied
    else if String.eqb code "directory_rejected" then Some CreateError.DirectoryRejected
    else if String.eqb code "forbidden" then Some CreateError.Forbidden
    else if String.eqb code "idempotency_conflict" then Some CreateError.IdempotencyConflict
    else if String.eqb code "invalid_request" then Some CreateError.InvalidRequest
    else if String.eqb code "membership_required" then Some CreateError.MembershipRequired
    else if String.eqb code "name_conflict" then Some CreateError.NameConflict
    else if String.eqb code "operation_in_progress" then Some CreateError.OperationInProgress
    else if String.eqb code "organization_not_found" then Some CreateError.OrganizationNotFound
    else if String.eqb code "too_many_service_accounts" then Some CreateError.TooManyServiceAccounts
    else None;
  unknown := CreateError.Unknown }.

#[export] Instance get_error_codec : DomainError GetError.t := {
  code_of e := match e with
    | GetError.AccessDenied => inl "access_denied"
    | GetError.Forbidden => inl "forbidden"
    | GetError.InvalidRequest => inl "invalid_request"
    | GetError.MembershipRequired => inl "membership_required"
    | GetError.NotFound => inl "not_found"
    | GetError.OrganizationNotFound => inl "organization_not_found"
    | GetError.Unknown value => inr value
    end;
  of_code code :=
    if String.eqb code "access_denied" then Some GetError.AccessDenied
    else if String.eqb code "forbidden" then Some GetError.Forbidden
    else if String.eqb code "invalid_request" then Some GetError.InvalidRequest
    else if String.eqb code "membership_required" then Some GetError.MembershipRequired
    else if String.eqb code "not_found" then Some GetError.NotFound
    else if String.eqb code "organization_not_found" then Some GetError.OrganizationNotFound
    else None;
  unknown := GetError.Unknown }.

#[export] Instance list_error_codec : DomainError ListError.t := {
  code_of e := match e with
    | ListError.AccessDenied => inl "access_denied"
    | ListError.Forbidden => inl "forbidden"
    | ListError.InvalidRequest => inl "invalid_request"
    | ListError.MembershipRequired => inl "membership_required"
    | ListError.OrganizationNotFound => inl "organization_not_found"
    | ListError.Unknown value => inr value
    end;
  of_code code :=
    if String.eqb code "access_denied" then Some ListError.AccessDenied
    else if String.eqb code "forbidden" then Some ListError.Forbidden
    else if String.eqb code "invalid_request" then Some ListError.InvalidRequest
    else if String.eqb code "membership_required" then Some ListError.MembershipRequired
    else if String.eqb code "organization_not_found" then Some ListError.OrganizationNotFound
    else None;
  unknown := ListError.Unknown }.

#[export] Instance revoke_error_codec : DomainError RevokeError.t := {
  code_of e := match e with
    | RevokeError.AccessDenied => inl "access_denied"
    | RevokeError.Forbidden => inl "forbidden"
    | RevokeError.IdempotencyConflict => inl "idempotency_conflict"
    | RevokeError.InvalidRequest => inl "invalid_request"
    | RevokeError.MembershipRequired => inl "membership_required"
    | RevokeError.NotFound => inl "not_found"
    | RevokeError.OperationInProgress => inl "operation_in_progress"
    | RevokeError.OrganizationNotFound => inl "organization_not_found"
    | RevokeError.RevisionConflict => inl "revision_conflict"
    | RevokeError.Unknown value => inr value
    end;
  of_code code :=
    if String.eqb code "access_denied" then Some RevokeError.AccessDenied
    else if String.eqb code "forbidden" then Some RevokeError.Forbidden
    else if String.eqb code "idempotency_conflict" then Some RevokeError.IdempotencyConflict
    else if String.eqb code "invalid_request" then Some RevokeError.InvalidRequest
    else if String.eqb code "membership_required" then Some RevokeError.MembershipRequired
    else if String.eqb code "not_found" then Some RevokeError.NotFound
    else if String.eqb code "operation_in_progress" then Some RevokeError.OperationInProgress
    else if String.eqb code "organization_not_found" then Some RevokeError.OrganizationNotFound
    else if String.eqb code "revision_conflict" then Some RevokeError.RevisionConflict
    else None;
  unknown := RevokeError.Unknown }.

#[export] Instance rotate_error_codec : DomainError RotateSecretError.t := {
  code_of e := match e with
    | RotateSecretError.AccessDenied => inl "access_denied"
    | RotateSecretError.Forbidden => inl "forbidden"
    | RotateSecretError.IdempotencyConflict => inl "idempotency_conflict"
    | RotateSecretError.InvalidRequest => inl "invalid_request"
    | RotateSecretError.MembershipRequired => inl "membership_required"
    | RotateSecretError.NotFound => inl "not_found"
    | RotateSecretError.OperationInProgress => inl "operation_in_progress"
    | RotateSecretError.OrganizationNotFound => inl "organization_not_found"
    | RotateSecretError.RevisionConflict => inl "revision_conflict"
    | RotateSecretError.Revoked => inl "revoked"
    | RotateSecretError.Unknown value => inr value
    end;
  of_code code :=
    if String.eqb code "access_denied" then Some RotateSecretError.AccessDenied
    else if String.eqb code "forbidden" then Some RotateSecretError.Forbidden
    else if String.eqb code "idempotency_conflict" then Some RotateSecretError.IdempotencyConflict
    else if String.eqb code "invalid_request" then Some RotateSecretError.InvalidRequest
    else if String.eqb code "membership_required" then Some RotateSecretError.MembershipRequired
    else if String.eqb code "not_found" then Some RotateSecretError.NotFound
    else if String.eqb code "operation_in_progress" then Some RotateSecretError.OperationInProgress
    else if String.eqb code "organization_not_found" then Some RotateSecretError.OrganizationNotFound
    else if String.eqb code "revision_conflict" then Some RotateSecretError.RevisionConflict
    else if String.eqb code "revoked" then Some RotateSecretError.Revoked
    else None;
  unknown := RotateSecretError.Unknown }.

#[export] Instance exchange_error_codec : DomainError ExchangeSecretError.t := {
  code_of e := match e with
    | ExchangeSecretError.Disabled => inl "disabled"
    | ExchangeSecretError.Forbidden => inl "forbidden"
    | ExchangeSecretError.IdempotencyConflict => inl "idempotency_conflict"
    | ExchangeSecretError.InvalidCredentials => inl "invalid_credentials"
    | ExchangeSecretError.InvalidRequest => inl "invalid_request"
    | ExchangeSecretError.OperationInProgress => inl "operation_in_progress"
    | ExchangeSecretError.RateLimited => inl "rate_limited"
    | ExchangeSecretError.Unknown value => inr value
    end;
  of_code code :=
    if String.eqb code "disabled" then Some ExchangeSecretError.Disabled
    else if String.eqb code "forbidden" then Some ExchangeSecretError.Forbidden
    else if String.eqb code "idempotency_conflict" then Some ExchangeSecretError.IdempotencyConflict
    else if String.eqb code "invalid_credentials" then Some ExchangeSecretError.InvalidCredentials
    else if String.eqb code "invalid_request" then Some ExchangeSecretError.InvalidRequest
    else if String.eqb code "operation_in_progress" then Some ExchangeSecretError.OperationInProgress
    else if String.eqb code "rate_limited" then Some ExchangeSecretError.RateLimited
    else None;
  unknown := ExchangeSecretError.Unknown }.

(** ** Facts about the ordered maps *)

Lemma key_cmp_trans j k m :
  String.compare j k = Lt → String.compare k m = Lt → String.compare j m = Lt.
Proof.
  intros H1 H2. exact (StrictOrder_Transitive (R := String_as_OT.lt) _ _ _ H1 H2).
Qed.

Lemma key_cmp_refl k : String.compare k k = Eq.
Proof. assert (H := String.compare_antisym k k). by destruct (String.compare k k). Qed.

Lemma key_cmp_Gt j k : String.compare j k = Gt → String.compare k j = Lt.
Proof. rewrite String.compare_antisym. by destruct (String.compare k j). Qed.

Lemma key_cmp_Lt_ne j k : String.compare j k = Lt → j ≠ k.
Proof. intros H ->. by rewrite key_cmp_refl in H. Qed.

Section btree_facts.
Context {V : Type}.
Implicit Types (l : list (string * V)) (k : string) (v : V).

Lemma bt_insert_fst_all k v l k0 :
  Forall (λ p, String.compare k0 p.1 = Lt) l → String.compare k0 k = Lt →
  Forall (λ p, String.compare k0 p.1 = Lt) (bt_insert k v l).
Proof.
  intros Hl Hk. induction Hl as [|[k' v'] r Hp Hr IH]; simpl; [by constructor|].
  by destruct (String.compare k k'); repeat constructor.
Qed.

Lemma bt_insert_sorted k v l : bt_sorted l → bt_sorted (bt_insert k v l).
Proof.
  induction l as [|[k' v'] r IH]; simpl; intros Hs; [by repeat constructor|].
  apply StronglySorted_inv in Hs as [Hr Hk'].
  destruct (String.compare k k') eqn:E.
  - apply String.compare_eq_iff in E as ->. by constructor.
  - constructor; [by constructor|]. constructor; [done|].
    eapply Forall_impl; [exact Hk'|]. unfold key_lt. simpl. eauto using key_cmp_trans.
  - constructor; [by apply IH|]. apply bt_insert_fst_all; [done|]. by apply key_cmp_Gt.
Qed.

Lemma bt_collect_sorted l : bt_sorted (bt_collect l).
Proof.
  unfold bt_collect. assert (bt_sorted ([] : list (string * V))) as H by constructor.
  revert H. generalize ([] : list (string * V)).
  induction l as [|[k v] l IH]; simpl; intros acc H; [done|].
  by apply IH, bt_insert_sorted.
Qed.

Lemma bt_get_insert j k v l :
  bt_get j (bt_insert k v l) = if String.eqb j k then Some v else bt_get j l.
Proof.
  induction l as [|[k' v'] r IH]; simpl; [done|].
  destruct (String.compare k k') eqn:E; simpl.
  - apply String.compare_eq_iff in E as ->. by destruct (String.eqb_spec j k').
  - done.
  - rewrite IH. destruct (String.eqb_spec j k) as [->|]; [|done].
    destruct (String.eqb_spec k k') as [->|]; [|done]. by rewrite key_cmp_refl in E.
Qed.

Lemma bt_get_collect j l :
  bt_get j (bt_collect l) = bt_get j (reverse l).
Proof.
  unfold bt_collect.
  assert (∀ acc, bt_get j (fold_left (λ acc p, bt_insert p.1 p.2 acc) l acc)
                 = match bt_get j (reverse l) with Some v => Some v | None => bt_get j acc end)
    as H; [|by rewrite H; destruct (bt_get j (reverse l))].
  induction l as [|[k v] l IH]; intros acc; simpl; [done|].
  rewrite IH, bt_get_insert, reverse_cons.
  assert (∀ l', bt_get j (l' ++ [(k, v)])
                = match bt_get j l' with Some v' => Some v'
                  | None => if String.eqb j k then Some v else None end) as ->.
  { induction l' as [|[k' v'] l' IH']; simpl; [done|].
    destruct (String.eqb_spec j k'); [done|apply IH']. }
  destruct (bt_get j (reverse l)); [done|]. by destruct (String.eqb j k).
Qed.

Lemma bt_get_filter j k l :
  bt_get j (List.filter (λ p, negb (String.eqb k p.1)) l)
  = if String.eqb j k then None else bt_get j l.
Proof.
  induction l as [|[k' v'] l IH]; simpl; [by destruct (String.eqb j k)|].
  destruct (String.eqb_spec k k') as [<-|Hk]; simpl; rewrite IH.
  - by destruct (String.eqb_spec j k).
  - destruct (String.eqb_spec j k), (String.eqb_spec j k'); congruence.
Qed.

Lemma bt_filter_sorted (f : string * V → bool) l : bt_sorted l → bt_sorted (List.filter f l).
Proof.
  induction 1 as [|p l Hl IH Hp]; simpl; [constructor|].
  destruct (f p); [|done]. constructor; [done|].
  rewrite Forall_forall in *. intros q Hq. apply Hp.
  rewrite list_elem_of_In in *. by apply filter_In in Hq as [? _].
Qed.

Lemma bt_get_lt_all j l : Forall (λ p, String.compare j p.1 = Lt) l → bt_get j l = None.
Proof.
  induction 1 as [|[k v] l Hk _ IH]; simpl; [done|].
  destruct (String.eqb_spec j k) as [->|]; [|done]. simpl in Hk. by rewrite key_cmp_refl in Hk.
Qed.

(** Ordered maps with the same entries are equal. *)
Lemma bt_sorted_ext l1 l2 :
  bt_sorted l1 → bt_sorted l2 → (∀ k, bt_get k l1 = bt_get k l2) → l1 = l2.
Proof.
  intros H1. revert l2. induction H1 as [|[k1 v1] l1 Hl1 IH Hk1]; intros l2 H2 Hext.
  - destruct l2 as [|[k v] l2]; [done|]. specialize (Hext k). simpl in Hext.
    by rewrite String.eqb_refl in Hext.
  - destruct H2 as [|[k2 v2] l2 Hl2 Hk2].
    { specialize (Hext k1). simpl in Hext. by rewrite String.eqb_refl in Hext. }
    assert (k1 = k2) as ->.
    { assert (E1 := Hext k1). assert (E2 := Hext k2). simpl in E1, E2.
      rewrite String.eqb_refl in E1, E2.
      destruct (String.compare k1 k2) eqn:E; [by apply String.compare_eq_iff|..].
      - destruct (String.eqb_spec k1 k2); [done|]. rewrite bt_get_lt_all in E1; [done|].
        eapply Forall_impl; [exact Hk2|]. intros p Hp. by eapply key_cmp_trans.
      - destruct (String.eqb_spec k2 k1); [done|]. rewrite bt_get_lt_all in E2; [done|].
        eapply Forall_impl; [exact Hk1|]. intros p Hp. eapply key_cmp_trans; [|exact Hp].
        by apply key_cmp_Gt. }
    assert (v1 = v2) as ->.
    { specialize (Hext k2). simpl in Hext. rewrite String.eqb_refl in Hext. by injection Hext. }
    f_equal. apply IH; [done|]. intros k.
    assert (E := Hext k). simpl in E. destruct (String.eqb_spec k k2) as [Hk|]; [|done].
    subst k. by rewrite (bt_get_lt_all k2 l1), (bt_get_lt_all k2 l2).
Qed.

Lemma bt_get_reverse_sorted j l : bt_sorted l → bt_get j (reverse l) = bt_get j l.
Proof.
  rewrite <-bt_get_collect. intros Hs. unfold bt_collect.
  assert (∀ acc, (∀ k, bt_get k l ≠ None → bt_get k acc = None) →
    bt_get j (fold_left (λ acc p, bt_insert p.1 p.2 acc) l acc)
    = match bt_get j l with Some v => Some v | None => bt_get j acc end) as H.
  { induction Hs as [|[k v] l Hl IH Hk]; intros acc Hacc; simpl; [done|].
    rewrite IH.
    - rewrite bt_get_insert. destruct (String.eqb_spec j k) as [->|]; [|done].
      by rewrite (bt_get_lt_all k l).
    - intros k' Hk'. rewrite bt_get_insert. destruct (String.eqb_spec k' k) as [->|Hne].
      + by rewrite (bt_get_lt_all k l) in Hk'.
      + apply Hacc. simpl. by destruct (String.eqb_spec k' k). }
  rewrite H by done. by destruct (bt_get j l).
Qed.

Lemma bt_get_app j l1 l2 :
  bt_get j (l1 ++ l2) = match bt_get j l1 with Some v => Some v | None => bt_get j l2 end.
Proof.
  induction l1 as [|[k v] l1 IH]; simpl; [done|]. by destruct (String.eqb j k).
Qed.
End btree_facts.

(** ** Round trip *)

Class DomainErrorLaws (E : Type) `{DomainError E} : Prop := {
  of_code_code_of e c : code_of e = inl c → of_code c = Some e;
  unknown_code_of e u : code_of e = inr u → e = unknown u;
  code_of_of_code c e : of_code c = Some e → code_of e = inl c;
  code_of_unknown u : code_of (unknown u) = inr u;
}.

#[local] Arguments String.eqb : simpl never.

Ltac domain_error_laws :=
  split; [intros [] ?; naive_solver|intros [] ?; naive_solver| |done];
  intros c e; cbn;
  repeat match goal with
    | |- (if String.eqb _ ?x then _ else _) = _ → _ =>
        destruct (String.eqb_spec c x) as [->|]; [by intros [= <-]|]
    end; done.

#[export] Instance create_error_laws : DomainErrorLaws CreateError.t.
Proof. domain_error_laws. Qed.
#[export] Instance get_error_laws : DomainErrorLaws GetError.t.
Proof. domain_error_laws. Qed.
#[export] Instance list_error_laws : DomainErrorLaws ListError.t.
Proof. domain_error_laws. Qed.
#[export] Instance revoke_error_laws : DomainErrorLaws RevokeError.t.
Proof. domain_error_laws. Qed.
#[export] Instance rotate_error_laws : DomainErrorLaws RotateSecretError.t.
Proof. domain_error_laws. Qed.
#[export] Instance exchange_error_laws : DomainErrorLaws ExchangeSecretError.t.
Proof. domain_error_laws. Qed.

(** An unknown error is an ordered map of extra members that does not reuse the two member
    names of the codec. *)
Definition wf_domain_error {E} `{DomainError E} (e : E) : Prop :=
  match code_of e with
  | inl _ => True
  | inr u => bt_sorted (u_extra u) ∧ bt_get "code" (u_extra u) = None
             ∧ bt_get "payload" (u_extra u) = None
  end.

Lemma deserialize_serialize {E} `{DomainErrorLaws E} (e : E) :
  wf_domain_error e → deserialize_error (serialize_error e) = Ok e.
Proof.
  unfold wf_domain_error, serialize_error, deserialize_error.
  destruct (code_of e) as [c|[code payload extra]] eqn:Ec; simpl; intros Hwf.
  { by rewrite (of_code_code_of e c Ec). }
  destruct Hwf as (Hs & Hc & Hp). rewrite (unknown_code_of e _ Ec).
  set (m := ("code", JString code) :: _).
  assert (∀ k, bt_get k (bt_collect m)
               = if String.eqb k "code" then Some (JString code)
                 else if String.eqb k "payload" then payload else bt_get k extra) as Hget.
  { intros k. unfold m. rewrite bt_get_collect, reverse_cons, reverse_app, !bt_get_app.
    rewrite bt_get_reverse_sorted by done. simpl.
    destruct payload as [p|]; simpl; destruct (String.eqb_spec k "code") as [->|];
      try (by rewrite Hc); destruct (String.eqb_spec k "payload") as [->|];
      try (by rewrite Hp); by destruct (bt_get k extra). }
  rewrite Hget, String.eqb_refl. do 2 f_equal.
  assert (List.filter (λ p, negb (String.eqb "payload" p.1))
            (List.filter (λ p, negb (String.eqb "code" p.1)) (bt_collect m)) = extra) as ->.
  { apply bt_sorted_ext; [|done|].
    - by do 2 apply bt_filter_sorted; apply bt_collect_sorted.
    - intros k. rewrite !bt_get_filter, Hget.
      destruct (String.eqb_spec k "payload") as [->|]; [done|].
      destruct (String.eqb_spec k "code") as [->|]; done. }
  rewrite bt_get_filter, Hget. done.
Qed.

(** What a decoder yields is well formed: the members left after the code and the payload are
    taken out are an ordered map without those names. *)
Lemma deserialize_wf {E} `{DomainErrorLaws E} j (e : E) :
  deserialize_error j = Ok e → wf_domain_error e.
Proof.
  unfold wf_domain_error, deserialize_error. destruct j as [| | |code| |m]; try done.
  - destruct (of_code code) as [e'|] eqn:Ec; intros [= <-].
    + by rewrite (code_of_of_code _ _ Ec).
    + rewrite code_of_unknown. by split; [constructor|].
  - destruct (bt_remove "code" _) as [[[| | |code| |]|] object] eqn:Er; try done.
    destruct (bt_remove "payload" object) as [payload object'] eqn:Ep. intros [= <-].
    rewrite code_of_unknown. injection Er as _ <-. injection Ep as _ <-. cbn [u_extra].
    split; [by do 2 apply bt_filter_sorted; apply bt_collect_sorted|].
    by rewrite !bt_get_filter.
Qed.
