(* ===== verification/Secret.v ===== *)
(** * Secret: credential secrets, verifiers and receipts

    [crypto.rs] and the hashing helpers of [management.rs].  Randomness is the outcome of
    [getrandom::fill], passed in. *)
From Stdlib Require Import Ascii.
From S2P Require Import Prelude Text Platform Contract.

Open Scope string_scope.
Open Scope list_scope.
Open Scope Z_scope.
Open Scope result_scope.

(** ** Errors *)

Module CryptoError.
Inductive t :=
  | Random (source : string)
  | PasswordHash (source : string)
  | Serialize (source : string)
  | Deserialize (source : string)
  | ReceiptEncryption
  | ReceiptDecryption
  | Invariant (what : string).

Definition to_string (e : t) : string :=
  match e with
  | Random s => "failed to generate secure random material: " +:+ s
  | PasswordHash s => "failed to create Argon2id verifier: " +:+ s
  | Serialize s => "failed to serialize encrypted receipt: " +:+ s
  | Deserialize s => "failed to deserialize encrypted receipt: " +:+ s
  | ReceiptEncryption => "failed to encrypt command receipt"
  | ReceiptDecryption => "failed to decrypt command receipt"
  | Invariant s => "cryptographic invariant failed: " +:+ s
  end.
End CryptoError.

(** [sqlx::Error] as the source inspects it: a database error with its unique-violation flag
    and constraint name, or anything else. *)
Inductive sqlx_Error :=
  | SqlxDatabase (unique_violation : bool) (constraint : option string) (display : string)
  | SqlxOther (display : string).
Definition sqlx_display (e : sqlx_Error) : string :=
  match e with SqlxDatabase _ _ d => d | SqlxOther d => d end.

(** [lib.rs: ServiceAccountPluginError]. *)
Module PluginError.
Inductive t :=
  | Database (operation : string) (source : sqlx_Error)
  | Crypto (source : CryptoError.t)
  | Random (source : string)
  | SerializeReceipt (source : string)
  | FormatTime (source : string)
  | Invariant (what : string).

Definition to_string (e : t) : string :=
  match e with
  | Database operation source => operation +:+ ": " +:+ sqlx_display source
  | Crypto source => CryptoError.to_string source
  | Random s => "failed to generate secure random material: " +:+ s
  | SerializeReceipt s => "failed to serialize idempotency intent: " +:+ s
  | FormatTime s => "failed to format UTC timestamp: " +:+ s
  | Invariant s => "Plugin invariant failed: " +:+ s
  end.
End PluginError.

(** [failure] and [runtime] of [lib.rs], [management.rs] and [authentication.rs]. *)
Definition failure (detail : string) : RuntimeFailure := PluginFailure detail.
Definition runtime (e : PluginError.t) : RuntimeFailure := failure (PluginError.to_string e).

(** ** Credential secrets *)

Definition SECRET_PREFIX : string := "lenso_sa_".

(** The byte class of the two halves of a secret. *)
Definition secret_byte (c : Ascii.ascii) : bool :=
  is_ascii_alphanumeric c || is_byte 45 c || is_byte 95 c.

(** [crypto.rs: credential_id]. *)
Definition credential_id (secret : string) : option string :=
  match strip_prefix SECRET_PREFIX secret with
  | None => None
  | Some rest =>
      match split_once "."%char rest with
      | None => None
      | Some (credential_id, material) =>
          if negb (is_empty credential_id) && (len credential_id <=? 128)
             && all_bytes secret_byte credential_id
             && (32 <=? len material) && (len material <=? 128)
             && all_bytes secret_byte material
          then Some credential_id else None
      end
  end.

Record CredentialSecret := { cs_credential_id : string; cs_wire : string }.
Definition expose (c : CredentialSecret) : string := cs_wire c.

(** [peppered]: the secret, a zero byte, the pepper. *)
Definition peppered (secret : string) (pepper : bytes) : bytes :=
  secret +:+ String Ascii.zero pepper.

Section crypto.
Context `{Platform}.

(** [CredentialSecret::generate], given the two outcomes of [getrandom::fill]. *)
Definition generate (id material : result bytes string) :
    result CredentialSecret CryptoError.t :=
  let? id := map_err CryptoError.Random id in
  let? material := map_err CryptoError.Random material in
  let credential_id := "sac_" +:+ base64_encode id in
  let wire := SECRET_PREFIX +:+ credential_id +:+ "." +:+ base64_encode material in
  Ok {| cs_credential_id := credential_id; cs_wire := wire |}.

(** [hash_secret], given the outcome of [getrandom::fill] on the salt. *)
Definition hash_secret (secret : string) (pepper : bytes) (salt : result bytes string) :
    result string CryptoError.t :=
  let input := peppered secret pepper in
  let? salt := map_err CryptoError.Random salt in
  let? salt := map_err CryptoError.PasswordHash (salt_encode_b64 salt) in
  map_err CryptoError.PasswordHash (argon2id_hash input salt).

Definition verifier (c : CredentialSecret) (pepper : bytes) (salt : result bytes string) :
    result string CryptoError.t := hash_secret (cs_wire c) pepper salt.

Definition verify_secret (secret : string) (pepper : bytes) (verifier : string) : bool :=
  match password_hash_algorithm verifier with
  | None => false
  | Some algorithm =>
      if negb (String.eqb algorithm "argon2id") then false
      else argon2id_verify (peppered secret pepper) verifier
  end.

(** ** Receipts: AES-256-GCM over the JSON text *)

Definition ReceiptCipher := bytes.
Definition derive (secret : bytes) : ReceiptCipher := sha256 secret.

(** The two halves of [encrypt]: the text of the receipt, and its encryption under a nonce
    drawn afterwards. *)
Definition receipt_text {T} `{Serialize T} (value : T) : result bytes CryptoError.t :=
  map_err CryptoError.Serialize (json_to_vec (to_value value)).
Definition seal (cipher : ReceiptCipher) (text aad : bytes) (nonce : result bytes string) :
    result (bytes * bytes) CryptoError.t :=
  let? nonce := map_err CryptoError.Random nonce in
  if negb (len cipher =? 32) then Err (CryptoError.Invariant "invalid receipt key") else
  let? ciphertext :=
    ok_or (aes_gcm_encrypt cipher nonce text aad) CryptoError.ReceiptEncryption in
  Ok (nonce, ciphertext).

Definition encrypt {T} `{Serialize T} (cipher : ReceiptCipher) (value : T) (aad : bytes)
    (nonce : result bytes string) : result (bytes * bytes) CryptoError.t :=
  let? text := receipt_text value in
  seal cipher text aad nonce.

Definition decrypt {T} `{Deserialize T} (cipher : ReceiptCipher) (nonce ciphertext aad : bytes) :
    result T CryptoError.t :=
  if negb (len nonce =? 12) then Err CryptoError.ReceiptDecryption else
  if negb (len cipher =? 32) then Err (CryptoError.Invariant "invalid receipt key") else
  let? text :=
    ok_or (aes_gcm_decrypt cipher nonce ciphertext aad) CryptoError.ReceiptDecryption in
  map_err CryptoError.Deserialize (bind_ok (json_from_slice text) from_value).

(** ** Intents and additional data ([management.rs]) *)

Definition digest (b : bytes) : bytes := sha256 b.

Definition actor_intent_hash {T} `{Serialize T} (actor : string) (request : T) :
    result bytes PluginError.t :=
  let? text := map_err PluginError.SerializeReceipt (json_to_vec (to_value (actor, request))) in
  Ok (digest text).

Definition request_intent_hash {T} `{Serialize T} (request : T) : result bytes PluginError.t :=
  let? text := map_err PluginError.SerializeReceipt (json_to_vec (to_value request)) in
  Ok (digest text).

(** [format_time]. *)
Definition format_time (value : time) : result string PluginError.t :=
  map_err PluginError.FormatTime (rfc3339_format value).

(** [random_id], given the outcome of [getrandom::fill] on 24 bytes. *)
Definition random_id (prefix : string) (random : result bytes string) :
    result string PluginError.t :=
  let? b := map_err PluginError.Random random in
  Ok (prefix +:+ base64_encode b).
End crypto.

(** [receipt_aad]. *)
Definition receipt_aad (caller operation idempotency_key : string) : bytes :=
  caller +:+ String Ascii.zero (operation +:+ String Ascii.zero idempotency_key).

(** ** Generated secrets parse *)

Lemma base64_secret_byte c : base64_byte c = true → secret_byte c = true.
Proof. done. Qed.

Lemma secret_byte_not_dot s : all_bytes secret_byte s = true → "."%char ∉ chars s.
Proof.
  rewrite all_bytes_forall, Forall_forall. intros Hs Hin. by specialize (Hs _ Hin).
Qed.

Lemma credential_id_Some secret id :
  credential_id secret = Some id ↔
  ∃ material, secret = SECRET_PREFIX +:+ id +:+ String "." material
    ∧ 1 ≤ len id ≤ 128 ∧ all_bytes secret_byte id = true
    ∧ 32 ≤ len material ≤ 128 ∧ all_bytes secret_byte material = true.
Proof.
  unfold credential_id. split.
  - destruct (strip_prefix _ _) as [rest|] eqn:E1; [|done].
    apply strip_prefix_Some in E1 as ->.
    destruct (split_once _ _) as [[id' material]|] eqn:E2; [|done].
    apply split_once_Some in E2 as [-> _]. destruct (_ && _) eqn:E3; [|done].
    intros [= <-]. bool_prop. exists material. rewrite is_empty_false_len in *.
    repeat split; auto; lia.
  - intros (material & -> & Hid & Bid & Hm & Bm).
    rewrite (proj2 (strip_prefix_Some _ _ _) eq_refl).
    rewrite (proj2 (split_once_Some _ _ id material)).
    + rewrite (proj2 (is_empty_false_len id)), Bid, Bm by lia.
      by rewrite !(proj2 (Z.leb_le _ _)) by lia.
    + split; [done|]. by apply secret_byte_not_dot.
Qed.

Lemma str_app_assoc (a b c : string) : (a +:+ b) +:+ c = a +:+ (b +:+ c).
Proof. apply chars_inj. by rewrite !chars_app, app_assoc. Qed.

Section secret_facts.
Context `{Platform}.

Lemma generate_Ok id material c :
  generate id material = Ok c ↔
  ∃ i m, id = Ok i ∧ material = Ok m ∧
    c = {| cs_credential_id := "sac_" +:+ base64_encode i;
           cs_wire := SECRET_PREFIX +:+ ("sac_" +:+ base64_encode i)
                      +:+ String "." (base64_encode m) |}.
Proof.
  unfold generate. rewrite bind_ok_Ok. setoid_rewrite bind_ok_Ok.
  destruct id as [i|e]; simpl; [|naive_solver]. destruct material as [m|e]; simpl; [|naive_solver].
  naive_solver.
Qed.

Lemma generated_parses `{!Base64Laws} i m c :
  len i = 18 → len m = 32 → generate (Ok i) (Ok m) = Ok c →
  credential_id (expose c) = Some (cs_credential_id c) ∧ len (cs_credential_id c) = 28.
Proof.
  intros Hi Hm (i' & m' & [= <-] & [= <-] & ->)%generate_Ok. unfold expose. cbn [cs_wire cs_credential_id].
  assert (len ("sac_" +:+ base64_encode i) = 28) as Hlen.
  { rewrite len_app, base64_length, Hi. done. }
  assert (all_bytes secret_byte ("sac_" +:+ base64_encode i) = true) as Hb.
  { rewrite all_bytes_app, (all_bytes_mono _ _ _ base64_secret_byte (base64_alphabet i)).
    reflexivity. }
  split; [|done]. apply credential_id_Some. exists (base64_encode m).
  rewrite Hlen, base64_length, Hm.
  repeat split; try done; try lia; try (by vm_compute).
  apply (all_bytes_mono _ _ _ base64_secret_byte), base64_alphabet.
Qed.

Lemma verify_own_verifier `{!PasswordLaws} secret pepper salt v :
  hash_secret secret pepper salt = Ok v → verify_secret secret pepper v = true.
Proof.
  unfold hash_secret. rewrite bind_ok_Ok. intros (s & _ & Hv).
  apply bind_ok_Ok in Hv as (s' & _ & Hv).
  destruct (argon2id_hash _ _) as [v'|] eqn:E; [|done]. injection Hv as ->.
  apply argon2id_correct in E as [E1 E2]. unfold verify_secret. by rewrite E2.
Qed.

Lemma decrypt_encrypt {T} `{Serialize T, Deserialize T} `{!CipherLaws, !JsonLaws}
    cipher (value : T) aad nonce n ct :
  from_value (to_value value) = Ok value → plain_json (to_value value) = true → len n = 12 →
  encrypt cipher value aad nonce = Ok (n, ct) → decrypt cipher n ct aad = Ok value.
Proof.
  intros Hrt Hplain Hn. unfold encrypt, seal, receipt_text. rewrite bind_ok_Ok. intros (text & Htext & Hv).
  apply bind_ok_Ok in Hv as (n' & Hn' & Hv).
  destruct (negb (len cipher =? 32)) eqn:Hk; [done|].
  destruct (aes_gcm_encrypt _ _ _ _) as [ct'|] eqn:E; [|done]. injection Hv as -> <-.
  unfold decrypt. rewrite Hn, Hk. simpl. rewrite (aes_gcm_correct _ _ _ _ _ E). simpl.
  destruct (json_to_vec _) as [b|] eqn:Ej; [|done]. injection Htext as <-.
  rewrite (json_round_trip _ _ Hplain Ej). simpl. by rewrite Hrt.
Qed.
End secret_facts.

(** ** Separators *)

(** A separator absent from the left parts makes a concatenation unambiguous. *)
Lemma separated_inj c a b x y :
  c ∉ chars a → c ∉ chars b →
  a +:+ String c x = b +:+ String c y → a = b ∧ x = y.
Proof.
  intros Ha Hb E.
  assert (split_once c (a +:+ String c x) = Some (a, x)) as H1 by (by apply split_once_Some).
  assert (split_once c (b +:+ String c y) = Some (b, y)) as H2 by (by apply split_once_Some).
  rewrite E, H2 in H1. by injection H1 as -> ->.
Qed.

Lemma token_no_nul s max : valid_token s max = true → Ascii.zero ∉ chars s.
Proof.
  rewrite valid_token_spec, Forall_forall. intros [_ Hs] Hin. by specialize (Hs _ Hin).
Qed.

Lemma caller_no_nul s : valid_caller s = true → Ascii.zero ∉ chars s.
Proof.
  unfold valid_caller. intros Hv Hin. bool_prop.
  destruct (split_spec "/"%char s) as [Hj _]. rewrite <-Hj in Hin.
  assert (Forall (λ p, Ascii.zero ∉ chars p) (split "/"%char s)) as Hall.
  { rewrite Forall_forall. intros p Hp. apply (token_no_nul _ 128).
    rewrite forallb_forall in Hv. apply Hv. by rewrite <-list_elem_of_In. }
  clear -Hall Hin. revert Hin. induction Hall as [|p ps Hp Hps IH]; simpl; [by apply not_elem_of_nil|].
  destruct ps as [|q ps]; [done|]. rewrite chars_app, elem_of_app.
  intros [?|Hin]; [done|]. change (chars (String "/" ?t)) with ("/"%char :: chars t) in Hin.
  rewrite elem_of_cons in Hin. destruct Hin as [Hz|?]; [discriminate Hz|]. by apply IH.
Qed.

(** ** Wire round trips and injectivity *)

(** The derived codecs write plain values only. *)
Lemma create_response_plain (r : CreateServiceAccountResponse) : plain_json (to_value r) = true.
Proof. destruct r as [[? [] ? ? ? [] [] ? [] ?] ? []]; reflexivity. Qed.
Lemma rotate_response_plain (r : RotateServiceAccountSecretResponse) : plain_json (to_value r) = true.
Proof. destruct r as [[? [] ? ? ? [] [] ? [] ?] ? []]; reflexivity. Qed.
Lemma revoke_response_plain (r : RevokeServiceAccountResponse) : plain_json (to_value r) = true.
Proof. destruct r as [[? [] ? ? ? [] [] ? [] ?] ?]; reflexivity. Qed.
Lemma exchange_response_plain (r : ExchangeServiceAccountSecretResponse) : plain_json (to_value r) = true.
Proof. by destruct r. Qed.

Lemma summary_wire (s : ServiceAccountSummary) : from_value (to_value s) = Ok s.
Proof. destruct s as [? [] ? ? ? [] [] ? [] ?]; reflexivity. Qed.
Lemma create_response_wire (r : CreateServiceAccountResponse) : from_value (to_value r) = Ok r.
Proof. destruct r as [[? [] ? ? ? [] [] ? [] ?] ? []]; reflexivity. Qed.
Lemma rotate_response_wire (r : RotateServiceAccountSecretResponse) : from_value (to_value r) = Ok r.
Proof. destruct r as [[? [] ? ? ? [] [] ? [] ?] ? []]; reflexivity. Qed.
Lemma revoke_response_wire (r : RevokeServiceAccountResponse) : from_value (to_value r) = Ok r.
Proof. destruct r as [[? [] ? ? ? [] [] ? [] ?] ?]; reflexivity. Qed.
Lemma exchange_response_wire (r : ExchangeServiceAccountSecretResponse) : from_value (to_value r) = Ok r.
Proof. by destruct r. Qed.
#[export] Hint Resolve summary_wire create_response_wire rotate_response_wire
  revoke_response_wire exchange_response_wire : lenso.
