(* ===== verification/Config.v ===== *)
(** * Config: the plug-in's configuration and its validation ([lib.rs]) *)
From S2P Require Import Prelude Text Platform.

Open Scope string_scope.
Open Scope list_scope.
Open Scope Z_scope.
Open Scope result_scope.

(** [u64] and [u32] fields are integers; [u64_max]/[u32_max] bound what their type can hold. *)
Record ServiceAccountConfig := {
  schema : string;
  database_url_secret : string;
  credential_pepper_secret : string;
  receipt_encryption_key_secret : string;
  directory_provider : string;
  auth_issuer : string;
  auth_public_key : string;
  management_callers : list string;
  authentication_callers : list string;
  token_audience : list string;
  credential_ttl_seconds : Z;
  rotation_overlap_seconds : Z;
  token_ttl_seconds : Z;
  receipt_ttl_seconds : Z;
  exchange_window_seconds : Z;
  max_exchanges_per_window : Z;
  exchange_lockout_seconds : Z;
  max_page_size : Z;
  max_accounts_per_organization : Z }.

Inductive ServiceAccountConfigError :=
  | InvalidSchema
  | InvalidSecretReferences
  | InvalidAuthorities
  | InvalidAuthPublicKey
  | InvalidAuthoritySet
  | InvalidLimits.

Definition config_error_string (e : ServiceAccountConfigError) : string :=
  match e with
  | InvalidSchema => "invalid owned PostgreSQL schema"
  | InvalidSecretReferences => "database, credential pepper, and receipt encryption need distinct secret references"
  | InvalidAuthorities => "invalid Identity Directory provider or Auth issuer"
  | InvalidAuthPublicKey => "invalid Auth actor assertion public key"
  | InvalidAuthoritySet => "caller or audience sets must contain unique exact Instance keys"
  | InvalidLimits => "invalid credential, token, receipt, rate, page, or organization limit"
  end.

(** [iter().collect::<BTreeSet<_>>().len()]. *)
Definition distinct_count (l : list string) : nat := length (remove_dups l).

(** [(lo..=hi).contains(&z)]. *)
Definition contains (lo hi z : Z) : bool := (lo <=? z) && (z <=? hi).

Definition validate_caller_set (values : list string) : result unit ServiceAccountConfigError :=
  if Nat.eqb (length values) 0 || negb (length values <=? 64)%nat
     || existsb (λ value, negb (valid_caller value)) values
     || negb (Nat.eqb (distinct_count values) (length values))
  then Err InvalidAuthoritySet
  else Ok tt.

Section config.
Context `{Platform}.

Definition validate (self : ServiceAccountConfig) : result unit ServiceAccountConfigError :=
  let? _ := map_err (λ _, InvalidSchema) (schema_plan_new (schema self)) in
  let secret_references :=
    [database_url_secret self; credential_pepper_secret self;
     receipt_encryption_key_secret self] in
  if existsb (λ reference, negb (valid_secret_reference reference)) secret_references
     || negb (Nat.eqb (distinct_count secret_references) (length secret_references))
  then Err InvalidSecretReferences
  else if negb (valid_authority (directory_provider self) 128)
          || negb (valid_authority (auth_issuer self) 128)
  then Err InvalidAuthorities
  else if is_empty (auth_public_key self) || negb (len (auth_public_key self) <=? 256)
  then Err InvalidAuthPublicKey
  else
  let? _ := ok_or (from_public_key_base64 (auth_issuer self) (auth_public_key self))
              InvalidAuthPublicKey in
  let? _ := validate_caller_set (management_callers self) in
  let? _ := validate_caller_set (authentication_callers self) in
  if Nat.eqb (length (token_audience self)) 0
     || negb (length (token_audience self) <=? 64)%nat
     || existsb (λ value, negb (valid_audience value)) (token_audience self)
     || negb (Nat.eqb (distinct_count (token_audience self)) (length (token_audience self)))
  then Err InvalidAuthoritySet
  else if negb (contains 300 31536000 (credential_ttl_seconds self))
          || negb (rotation_overlap_seconds self <=? 3600)
          || (credential_ttl_seconds self <=? rotation_overlap_seconds self)
          || negb (contains 1 86400 (token_ttl_seconds self))
          || negb (token_ttl_seconds self <=? credential_ttl_seconds self)
          || negb (contains 300 604800 (receipt_ttl_seconds self))
          || negb (contains 1 3600 (exchange_window_seconds self))
          || negb (contains 1 10000 (max_exchanges_per_window self))
          || negb (contains 1 86400 (exchange_lockout_seconds self))
          || negb (contains 1 200 (max_page_size self))
          || negb (contains 1 10000 (max_accounts_per_organization self))
  then Err InvalidLimits
  else Ok tt.

(** [validate_config]. *)
Definition validate_config (config : ServiceAccountConfig) : result unit RuntimeFailure :=
  map_err (λ e, InvalidResolvedPlan
                  ("Service Account configuration is invalid: " +:+ config_error_string e))
    (validate config).

(** [ServiceAccountConfig::new]: build, then validate. *)
Definition new (value : ServiceAccountConfig) :
    result ServiceAccountConfig ServiceAccountConfigError :=
  let? _ := validate value in Ok value.
End config.

(** ** What a validated configuration guarantees *)

Record caller_set_ok (values : list string) : Prop := {
  caller_set_size : (1 ≤ length values ≤ 64)%nat;
  caller_set_valid : Forall (λ v, valid_caller v = true) values;
  caller_set_nodup : NoDup values;
}.

(** The durations and limits every operation relies on. *)
Record limits_ok (c : ServiceAccountConfig) : Prop := {
  credential_ttl_bounds : 300 ≤ credential_ttl_seconds c ≤ 31536000;
  rotation_overlap_bounds :
    rotation_overlap_seconds c ≤ 3600 ∧ rotation_overlap_seconds c < credential_ttl_seconds c;
  token_ttl_bounds : 1 ≤ token_ttl_seconds c ≤ 86400 ∧ token_ttl_seconds c ≤ credential_ttl_seconds c;
  receipt_ttl_bounds : 300 ≤ receipt_ttl_seconds c ≤ 604800;
  exchange_window_bounds : 1 ≤ exchange_window_seconds c ≤ 3600;
  max_exchanges_bounds : 1 ≤ max_exchanges_per_window c ≤ 10000;
  exchange_lockout_bounds : 1 ≤ exchange_lockout_seconds c ≤ 86400;
  page_size_bounds : 1 ≤ max_page_size c ≤ 200;
  max_accounts_bounds : 1 ≤ max_accounts_per_organization c ≤ 10000;
}.

Record config_ok (c : ServiceAccountConfig) : Prop := {
  config_management_callers : caller_set_ok (management_callers c);
  config_authentication_callers : caller_set_ok (authentication_callers c);
  config_secrets :
    let references := [database_url_secret c; credential_pepper_secret c;
                       receipt_encryption_key_secret c] in
    NoDup references ∧ Forall (λ r, valid_secret_reference r = true) references;
  config_authorities :
    valid_authority (directory_provider c) 128 = true ∧ valid_authority (auth_issuer c) 128 = true;
  config_public_key : 1 ≤ len (auth_public_key c) ≤ 256;
  config_audience : (1 ≤ length (token_audience c) ≤ 64)%nat ∧ NoDup (token_audience c)
                    ∧ Forall (λ v, valid_audience v = true) (token_audience c);
  config_limits : limits_ok c;
}.

Lemma length_remove_dups_le (l : list string) : (length (remove_dups l) ≤ length l)%nat.
Proof. induction l as [|x l IH]; simpl; [lia|]. case_decide; simpl; lia. Qed.

Lemma distinct_count_nodup (l : list string) : distinct_count l = length l ↔ NoDup l.
Proof.
  unfold distinct_count. split.
  - induction l as [|x l IH]; simpl; [constructor|].
    assert (Hle := length_remove_dups_le l).
    case_decide; simpl; intros E; [lia|]. constructor; [done|]. apply IH. lia.
  - induction 1 as [|x l Hx Hl IH]; simpl; [done|]. case_decide; [done|]. simpl. lia.
Qed.

Lemma forallb_negb_existsb (p : string → bool) (l : list string) :
  existsb (λ v, negb (p v)) l = false ↔ Forall (λ v, p v = true) l.
Proof.
  induction l as [|x l IH]; simpl; [split; [constructor|done]|].
  rewrite orb_false_iff, negb_false_iff, IH, Forall_cons. done.
Qed.

Lemma validate_caller_set_spec values :
  match validate_caller_set values with
  | Ok _ => caller_set_ok values
  | Err e => e = InvalidAuthoritySet ∧ ¬ caller_set_ok values
  end.
Proof.
  unfold validate_caller_set. destruct (_ || _) eqn:E.
  - split; [done|]. intros [Hsize Hvalid Hnodup].
    rewrite !orb_true_iff, !negb_true_iff, Nat.leb_gt, !Nat.eqb_eq, Nat.eqb_neq in E.
    destruct E as [[[E|E]|E]|E]; [lia|lia| |by apply E, distinct_count_nodup].
    by rewrite (proj2 (forallb_negb_existsb _ _) Hvalid) in E.
  - rewrite !orb_false_iff, !negb_false_iff, Nat.leb_le, Nat.eqb_eq, Nat.eqb_neq in E.
    destruct E as [[[E1 E2] E3] E4]. split; [lia|by apply forallb_negb_existsb|].
    by apply distinct_count_nodup.
Qed.

Lemma caller_set_elem values v : caller_set_ok values → v ∈ values → valid_caller v = true.
Proof. intros [_ Hv _]. by rewrite Forall_forall in Hv; apply Hv. Qed.

Section config_facts.
Context `{Platform}.

Lemma bool_false_intro (b : bool) : ¬ (b = true) → b = false.
Proof. by destruct b. Qed.

Lemma limits_ok_spec c :
  limits_ok c ↔
  negb (contains 300 31536000 (credential_ttl_seconds c))
  || negb (rotation_overlap_seconds c <=? 3600)
  || (credential_ttl_seconds c <=? rotation_overlap_seconds c)
  || negb (contains 1 86400 (token_ttl_seconds c))
  || negb (token_ttl_seconds c <=? credential_ttl_seconds c)
  || negb (contains 300 604800 (receipt_ttl_seconds c))
  || negb (contains 1 3600 (exchange_window_seconds c))
  || negb (contains 1 10000 (max_exchanges_per_window c))
  || negb (contains 1 86400 (exchange_lockout_seconds c))
  || negb (contains 1 200 (max_page_size c))
  || negb (contains 1 10000 (max_accounts_per_organization c)) = false.
Proof.
  unfold contains.
  rewrite !orb_false_iff, !negb_false_iff, !andb_true_iff, !Z.leb_le, Z.leb_gt.
  split; [by intros []; lia|]. intros Hl. split; lia.
Qed.

(** [validate] accepts exactly the configurations of [config_ok] whose schema name and public key
    the two libraries accept. *)
Lemma validate_Ok_iff c :
  validate c = Ok tt ↔
  config_ok c ∧ is_ok (schema_plan_new (schema c)) = true
  ∧ is_Some (from_public_key_base64 (auth_issuer c) (auth_public_key c)).
Proof.
  unfold validate. assert (Hm := validate_caller_set_spec (management_callers c)).
  assert (Ha := validate_caller_set_spec (authentication_callers c)). split.
  - rewrite bind_ok_Ok. intros (u & Hschema & Hv). rewrite map_err_Ok in Hschema.
    destruct (_ || _) eqn:Esecrets in Hv; [done|].
    destruct (_ || _) eqn:Eauth in Hv; [done|].
    destruct (_ || _) eqn:Ekey in Hv; [done|].
    apply bind_ok_Ok in Hv as (v & Hkey & Hv). apply ok_or_Ok in Hkey.
    destruct (validate_caller_set (management_callers c)); [|done]. simpl in Hv.
    destruct (validate_caller_set (authentication_callers c)); [|done]. simpl in Hv.
    destruct (_ || _) eqn:Eaud in Hv; [done|].
    destruct (_ || _) eqn:Elim in Hv; [done|]. clear Hv. apply limits_ok_spec in Elim.
    rewrite !orb_false_iff, !negb_false_iff, ?Nat.leb_le, ?Z.leb_le, ?Nat.eqb_eq, ?Nat.eqb_neq in *.
    rewrite is_empty_false_len in Ekey. rewrite !forallb_negb_existsb, !distinct_count_nodup in *.
    split; [|by rewrite Hschema, Hkey].
    destruct Esecrets, Eaud as [[[? ?] ?] ?]. by split; [done|done|split|done|lia|split_and!; [lia|..]|].
  - intros ([Hc1 Hc2 [Hs1 Hs2] [Hd Hi] Hk (Ha1 & Ha2 & Ha3) Hl] & Hschema & [v Hkey]).
    destruct (schema_plan_new _); [|done]. cbn [map_err bind_ok].
    rewrite (proj2 (forallb_negb_existsb _ _) Hs2), (proj2 (distinct_count_nodup _) Hs1), Nat.eqb_refl, Hd, Hi.
    simpl. rewrite (proj2 (is_empty_false_len (auth_public_key c))), (proj2 (Z.leb_le (len (auth_public_key c)) 256)) by lia.
    simpl. rewrite Hkey. simpl.
    destruct (validate_caller_set _); [|tauto]. simpl.
    destruct (validate_caller_set _); [|tauto]. simpl.
    rewrite (proj2 (Nat.eqb_neq (length (token_audience c)) 0)), (proj2 (Nat.leb_le (length (token_audience c)) 64)) by lia.
    rewrite (proj2 (forallb_negb_existsb _ _) Ha3), (proj2 (distinct_count_nodup _) Ha2), Nat.eqb_refl.
    simpl. apply limits_ok_spec in Hl. by rewrite Hl.
Qed.

Lemma validate_Ok c : validate c = Ok tt → config_ok c.
Proof. by intros [? _]%validate_Ok_iff. Qed.

(** [i64::try_from(..).expect("validated")] cannot panic on a validated configuration. *)
Lemma validated_casts c : config_ok c →
  Forall (λ z, i64_try_from z = Some z)
    [credential_ttl_seconds c; token_ttl_seconds c; receipt_ttl_seconds c;
     exchange_window_seconds c; exchange_lockout_seconds c].
Proof.
  intros [_ _ _ _ _ _ []]. unfold i64_try_from, in_i64, i64_min, i64_max.
  repeat constructor; rewrite !(proj2 (Z.leb_le _ _)) by lia; done.
Qed.
End config_facts.
