(* ===== verification/Database.v ===== *)
(** * Database: the owned schema and its SQL statements

    The four tables of [migrations/001_create_service_account_state.sql] as finite maps keyed
    by their primary keys, their constraints, and the statements of [storage.rs], each a
    function of the statement's [now()] and the tables.  A statement either fails and leaves
    the tables alone or returns its result and the new tables. *)
From S2P Require Import Prelude Text Platform Contract Secret.

Open Scope string_scope.
Open Scope list_scope.
Open Scope Z_scope.
Open Scope result_scope.

(** ** Rows *)

Record AccountRec := mkAccount {
  a_organization_id : string; a_subject : string; a_name : string; a_name_key : string;
  a_status : string; a_revision : Z; a_created_at : time; a_updated_at : time;
  a_rotated_at : option time; a_revoked_at : option time }.

Record CredentialRec := mkCredential {
  c_service_account_id : string; c_verifier : string; c_valid_from : time;
  c_valid_until : time; c_created_at : time; c_superseded_at : option time;
  c_revoked_at : option time; c_last_used_at : option time }.

Record CommandRec := mkCommand {
  m_intent_hash : bytes; m_status : string; m_response_nonce : option bytes;
  m_response_ciphertext : option bytes; m_error_code : option string; m_created_at : time;
  m_updated_at : time; m_completed_at : option time }.

Record LimitRec := mkLimit {
  l_window_started_at : time; l_attempts : Z; l_locked_until : option time }.

(** Primary key of a command: caller, operation, idempotency key. *)
Notation command_key := (string * string * string)%type.

Record Db := mkDb {
  accounts : gmap string AccountRec;
  credentials : gmap string CredentialRec;
  commands : gmap command_key CommandRec;
  limits : gmap string LimitRec }.

Definition empty_db : Db := mkDb ∅ ∅ ∅ ∅.
Definition set_accounts (m : gmap string AccountRec) (db : Db) : Db :=
  mkDb m (credentials db) (commands db) (limits db).
Definition set_credentials (m : gmap string CredentialRec) (db : Db) : Db :=
  mkDb (accounts db) m (commands db) (limits db).
Definition set_commands (m : gmap command_key CommandRec) (db : Db) : Db :=
  mkDb (accounts db) (credentials db) m (limits db).
Definition set_limits (m : gmap string LimitRec) (db : Db) : Db :=
  mkDb (accounts db) (credentials db) (commands db) m.

(** ** CHECK constraints *)

(** [char_length] of a UTF-8 text: the bytes that do not continue a character. *)
Definition char_length (s : string) : Z :=
  Z.of_nat (length (List.filter (λ c, negb (in_range 128 191 c)) (chars s))).
Definition between (lo hi z : Z) : bool := (lo <=? z) && (z <=? hi).
Definition opt_all {A} (p : A → bool) (o : option A) : bool :=
  match o with Some x => p x | None => true end.

(** [btrim]: strip spaces at both ends. *)
Fixpoint drop_spaces (l : list Ascii.ascii) : list Ascii.ascii :=
  match l with c :: r => if is_byte 32 c then drop_spaces r else l | [] => [] end.
Definition btrim (s : string) : string :=
  of_chars (reverse (drop_spaces (reverse (drop_spaces (chars s))))).
(** [lower], on the ASCII texts the plug-in stores. *)
Definition lower (s : string) : string := to_ascii_lowercase s.

Definition account_check (id : string) (r : AccountRec) : bool :=
  between 1 128 (char_length id) && between 1 256 (char_length (a_organization_id r))
  && between 1 256 (char_length (a_subject r)) && between 1 128 (char_length (a_name r))
  && between 1 128 (char_length (a_name_key r)) && String.eqb (a_name r) (btrim (a_name r))
  && String.eqb (a_name_key r) (lower (a_name r))
  && (String.eqb (a_status r) "active" || String.eqb (a_status r) "revoked")
  && (0 <? a_revision r)
  && ((String.eqb (a_status r) "active" && is_none (a_revoked_at r))
      || (String.eqb (a_status r) "revoked" && negb (is_none (a_revoked_at r)))).

Definition credential_check (id : string) (r : CredentialRec) : bool :=
  between 1 128 (char_length id) && between 32 1024 (char_length (c_verifier r))
  && (c_valid_from r <=? c_valid_until r).

Definition open_status (s : string) : bool :=
  String.eqb s "reserved" || String.eqb s "verifying" || String.eqb s "issuing".

Definition command_check (key : command_key) (r : CommandRec) : bool :=
  let '(caller, operation, idempotency_key) := key in
  between 1 128 (char_length caller) && between 1 64 (char_length operation)
  && between 1 128 (char_length idempotency_key) && (len (m_intent_hash r) =? 32)
  && opt_all (λ n, len n =? 12) (m_response_nonce r)
  && opt_all (λ c, len c <=? 262144) (m_response_ciphertext r)
  && opt_all (λ e, between 1 64 (char_length e)) (m_error_code r)
  && ((String.eqb (m_status r) "completed_success" && negb (is_none (m_response_nonce r))
       && negb (is_none (m_response_ciphertext r)) && is_none (m_error_code r)
       && negb (is_none (m_completed_at r)))
      || (String.eqb (m_status r) "completed_error" && is_none (m_response_nonce r)
          && is_none (m_response_ciphertext r) && negb (is_none (m_error_code r))
          && negb (is_none (m_completed_at r)))
      || (open_status (m_status r) && is_none (m_response_nonce r)
          && is_none (m_response_ciphertext r) && is_none (m_error_code r)
          && is_none (m_completed_at r))).

Definition limit_check (caller : string) (r : LimitRec) : bool :=
  (0 <=? l_attempts r) && between 1 128 (char_length caller).

(** ** Statements *)

Inductive sql_error :=
  | UniqueViolation (constraint : string)
  | CheckViolation
  | ForeignKeyViolation
  | NumericValueOutOfRange
  | RowNotFound.

(** The driver's error for a failed statement; [text] is the message it carries. *)
Definition to_sqlx_error (text : string) (e : sql_error) : sqlx_Error :=
  match e with
  | UniqueViolation c => SqlxDatabase true (Some c) text
  | CheckViolation | ForeignKeyViolation | NumericValueOutOfRange => SqlxDatabase false None text
  | RowNotFound => SqlxOther text
  end.

Definition Stmt (A : Type) : Type := time → Db → result (A * Db) sql_error.

(** UPDATE: [f] gives the new row where the WHERE clause holds; every new row must pass the
    CHECK constraints. *)
Definition update_where {K A} `{Countable K} (check : K → A → bool) (f : K → A → option A)
    (m : gmap K A) : result (gmap K A) sql_error :=
  let updated := map_imap f m in
  if bool_decide (map_Forall (λ k r, check k r = true) updated)
  then Ok (updated ∪ m) else Err CheckViolation.

(** UPDATE by primary key, with the number of rows affected. *)
Definition update_row {K A} `{Countable K} (check : K → A → bool) (k : K)
    (f : A → option A) (m : gmap K A) : result (Z * gmap K A) sql_error :=
  match m !! k with
  | Some r =>
      match f r with
      | Some r' => if check k r' then Ok (1, <[k := r']> m) else Err CheckViolation
      | None => Ok (0, m)
      end
  | None => Ok (0, m)
  end.

(** BIGINT arithmetic. *)
Definition bigint (z : Z) : result Z sql_error :=
  if in_i64 z then Ok z else Err NumericValueOutOfRange.

(** *** service_account_commands *)

(** DELETE ... WHERE completed_at IS NOT NULL AND completed_at < now() - ttl. *)
Definition prunable (now : time) (ttl : Z) (r : CommandRec) : bool :=
  match m_completed_at r with Some t => t <? now - seconds ttl | None => false end.
Definition delete_expired_commands (ttl : Z) : Stmt unit := λ now db,
  Ok (tt, set_commands (filter (λ kr, prunable now ttl kr.2 = false) (commands db)) db).

(** INSERT ... VALUES (..., 'reserved') ON CONFLICT DO NOTHING; rows affected. *)
Definition insert_command (key : command_key) (intent_hash : bytes) : Stmt Z := λ now db,
  let r := mkCommand intent_hash "reserved" None None None now now None in
  if negb (command_check key r) then Err CheckViolation else
  match commands db !! key with
  | Some _ => Ok (0, db)
  | None => Ok (1, set_commands (<[key := r]> (commands db)) db)
  end.

(** SELECT ... fetched with [fetch_one]. *)
Definition select_command (key : command_key) : Stmt CommandRec := λ _ db,
  match commands db !! key with Some r => Ok (r, db) | None => Err RowNotFound end.

Definition complete_command_success (key : command_key) (nonce ciphertext : bytes) : Stmt Z := λ now db,
  let? p := update_row command_check key (λ r,
    if open_status (m_status r)
    then Some (mkCommand (m_intent_hash r) "completed_success" (Some nonce) (Some ciphertext)
                 (m_error_code r) (m_created_at r) now (Some now))
    else None) (commands db) in
  Ok (p.1, set_commands p.2 db).

Definition complete_command_error (key : command_key) (error_code : string) : Stmt Z := λ now db,
  let? p := update_row command_check key (λ r,
    if open_status (m_status r)
    then Some (mkCommand (m_intent_hash r) "completed_error" (m_response_nonce r)
                 (m_response_ciphertext r) (Some error_code) (m_created_at r) now (Some now))
    else None) (commands db) in
  Ok (p.1, set_commands p.2 db).

(** *** service_accounts *)

(** Unique indexes are checked in the order they were created. *)
Definition account_conflict (id : string) (r : AccountRec) (m : gmap string AccountRec) :
    option string :=
  if bool_decide (is_Some (m !! id)) then Some "service_accounts_pkey"
  else if bool_decide (map_Exists (λ _ r', a_subject r' = a_subject r) m)
  then Some "service_accounts_subject_unique"
  else if bool_decide (map_Exists (λ _ r', a_organization_id r' = a_organization_id r
                                         ∧ a_name_key r' = a_name_key r) m)
  then Some "service_accounts_organization_name_unique"
  else None.

Definition insert_account (id organization_id subject name name_key : string) : Stmt unit := λ now db,
  let r := mkAccount organization_id subject name name_key "active" 1 now now None None in
  if negb (account_check id r) then Err CheckViolation else
  match account_conflict id r (accounts db) with
  | Some c => Err (UniqueViolation c)
  | None => Ok (tt, set_accounts (<[id := r]> (accounts db)) db)
  end.

(** SELECT count( * ) ... WHERE organization_id = $1. *)
Definition org_accounts (organization_id : string) (db : Db) : gmap string AccountRec :=
  filter (λ kr, a_organization_id kr.2 = organization_id) (accounts db).
Definition count_accounts (organization_id : string) : Stmt Z := λ _ db,
  Ok (Z.of_nat (size (org_accounts organization_id db)), db).

Definition advance_account (id : string) (at_time : time) : Stmt unit := λ _ db,
  match accounts db !! id with
  | None => Ok (tt, db)
  | Some r =>
      let? revision := bigint (a_revision r + 1) in
      let? p := update_row account_check id (λ r,
        Some (mkAccount (a_organization_id r) (a_subject r) (a_name r) (a_name_key r)
                (a_status r) revision (a_created_at r) at_time (Some at_time)
                (a_revoked_at r))) (accounts db) in
      Ok (tt, set_accounts p.2 db)
  end.

Definition mark_account_revoked (id : string) (at_time : time) : Stmt unit := λ _ db,
  match accounts db !! id with
  | None => Ok (tt, db)
  | Some r =>
      let? revision := bigint (a_revision r + 1) in
      let? p := update_row account_check id (λ r,
        Some (mkAccount (a_organization_id r) (a_subject r) (a_name r) (a_name_key r)
                "revoked" revision (a_created_at r) at_time (a_rotated_at r)
                (Some at_time))) (accounts db) in
      Ok (tt, set_accounts p.2 db)
  end.

(** SELECT status ... WHERE service_account_id = $1 FOR UPDATE. *)
Definition select_account_status (id : string) : Stmt (option string) := λ _ db,
  Ok (a_status <$> accounts db !! id, db).

(** *** service_account_credentials *)

Definition insert_credential (id account_id verifier : string) (valid_from valid_until : time) :
    Stmt unit := λ now db,
  let r := mkCredential account_id verifier valid_from valid_until now None None None in
  if negb (credential_check id r) then Err CheckViolation else
  match credentials db !! id with
  | Some _ => Err (UniqueViolation "service_account_credentials_pkey")
  | None =>
      match accounts db !! account_id with
      | None => Err ForeignKeyViolation
      | Some _ => Ok (tt, set_credentials (<[id := r]> (credentials db)) db)
      end
  end.

(** Rotation: cap every live credential of the account at the end of the overlap. *)
Definition bound_credentials (account_id : string) (valid_from overlap_until : time) :
    Stmt unit := λ _ db,
  let? m := update_where credential_check (λ _ r,
    if String.eqb (c_service_account_id r) account_id && is_none (c_revoked_at r)
       && (valid_from <? c_valid_until r)
    then Some (mkCredential (c_service_account_id r) (c_verifier r) (c_valid_from r)
                 (Z.min (c_valid_until r) overlap_until) (c_created_at r)
                 (Some (default valid_from (c_superseded_at r)))
                 (c_revoked_at r) (c_last_used_at r))
    else None) (credentials db) in
  Ok (tt, set_credentials m db).

(** Revocation: end every credential of the account. *)
Definition revoke_credentials (account_id : string) (at_time : time) : Stmt unit := λ _ db,
  let? m := update_where credential_check (λ _ r,
    if String.eqb (c_service_account_id r) account_id
    then Some (mkCredential (c_service_account_id r) (c_verifier r) (c_valid_from r)
                 (Z.max (c_valid_from r) (Z.min (c_valid_until r) at_time)) (c_created_at r)
                 (c_superseded_at r) (Some (default at_time (c_revoked_at r)))
                 (c_last_used_at r))
    else None) (credentials db) in
  Ok (tt, set_credentials m db).

Definition record_credential_use (id : string) (at_time : time) : Stmt unit := λ _ db,
  let? p := update_row credential_check id (λ r,
    Some (mkCredential (c_service_account_id r) (c_verifier r) (c_valid_from r)
            (c_valid_until r) (c_created_at r) (c_superseded_at r) (c_revoked_at r)
            (Some at_time))) (credentials db) in
  Ok (tt, set_credentials p.2 db).

(** UPDATE ... SET status='issuing' ... WHERE status='reserved' AND EXISTS(credential). *)
Definition mark_command_issuing (caller idempotency_key credential_id : string) (at_time : time) :
    Stmt Z := λ _ db,
  let? p := update_row command_check (caller, "exchange_secret", idempotency_key) (λ r,
    if String.eqb (m_status r) "reserved"
       && bool_decide (is_Some (credentials db !! credential_id))
    then Some (mkCommand (m_intent_hash r) "issuing" (m_response_nonce r)
                 (m_response_ciphertext r) (m_error_code r) (m_created_at r) at_time
                 (m_completed_at r))
    else None) (commands db) in
  Ok (p.1, set_commands p.2 db).

(** *** service_account_exchange_limits *)

Definition insert_limit (caller : string) (now_arg : time) : Stmt unit := λ _ db,
  let r := mkLimit now_arg 0 None in
  if negb (limit_check caller r) then Err CheckViolation else
  match limits db !! caller with
  | Some _ => Ok (tt, db)
  | None => Ok (tt, set_limits (<[caller := r]> (limits db)) db)
  end.

Definition select_limit (caller : string) : Stmt LimitRec := λ _ db,
  match limits db !! caller with Some r => Ok (r, db) | None => Err RowNotFound end.

Definition lock_out_limit (caller : string) (window_started_at locked_until : time) :
    Stmt unit := λ _ db,
  let? p := update_row limit_check caller (λ r,
    Some (mkLimit window_started_at (l_attempts r) (Some locked_until))) (limits db) in
  Ok (tt, set_limits p.2 db).

Definition consume_limit (caller : string) (window_started_at : time) (attempts : Z) :
    Stmt unit := λ _ db,
  let? p := update_row limit_check caller (λ r,
    Some (mkLimit window_started_at attempts None)) (limits db) in
  Ok (tt, set_limits p.2 db).
