(* ===== verification/Effects.v ===== *)
(** * Effects: transactions, programs and their execution

    A [Tx] is what the source does over one database connection between two points where
    other tasks can run: a transaction, or one auto-committed statement.  A [prog] is an
    asynchronous handler: a finite tree whose nodes are its clock reads, random draws,
    database accesses and calls to bound capabilities, in the order the handler awaits them.
    [run] executes a program against a [World] that decides every answer, every connection
    failure, and what other tasks do to the tables before each access.

    Isolation: a transaction reads and writes as one step.  The source takes the locks that
    make this so (the advisory lock per organization, [FOR UPDATE] on the account, on the
    credential and on the rate row). *)
From S2P Require Import Prelude Text Platform Contract Secret Database.

Open Scope string_scope.
Open Scope list_scope.
Open Scope Z_scope.
Open Scope result_scope.

(** ** Transactions *)

(** What the outside decides during one connection use.  [tx_fault n] makes the [n]-th round
    trip fail; its flag says whether the server had already applied it. *)
Record TxEnv := {
  tx_now : time;                          (* SQL now(): the transaction's start *)
  tx_clock : time;                        (* OffsetDateTime::now_utc() *)
  tx_random : result bytes string;        (* getrandom::fill *)
  tx_fault : nat → option (string * bool);
  tx_text : string }.                     (* the server's error text *)

(** [durable] is what other connections see; [working] is the open transaction's view. *)
Record Conn := mkConn { durable : Db; working : Db; trips : nat }.

Definition Tx (A : Type) : Type := TxEnv → Conn → result A PluginError.t * Conn.

Definition tx_ret {A} (x : A) : Tx A := λ _ c, (Ok x, c).
Definition tx_fail {A} (e : PluginError.t) : Tx A := λ _ c, (Err e, c).
Definition tx_bind {A B} (m : Tx A) (k : A → Tx B) : Tx B := λ env c,
  match m env c with
  | (Ok x, c) => k x env c
  | (Err e, c) => (Err e, c)
  end.
Definition tx_lift {A} (r : result A PluginError.t) : Tx A := λ _ c, (r, c).
Definition tx_now_utc : Tx time := λ env c, (Ok (tx_clock env), c).

Declare Scope tx_scope.
Delimit Scope tx_scope with tx.
Notation "'let!' x := m 'in' k" := (tx_bind m (λ x, k))
  (at level 10, x pattern, m at level 100, k at level 200) : tx_scope.
Open Scope tx_scope.

(** [storage.rs: database]. *)
Definition database (operation : string) (source : sqlx_Error) : PluginError.t :=
  PluginError.Database operation source.

(** [query.execute(&mut *transaction)] and the fetching variants. *)
Definition execute {A} (operation : string) (s : Stmt A) : Tx A := λ env c,
  match tx_fault env (trips c) with
  | Some (d, _) =>
      (Err (database operation (SqlxOther d)), mkConn (durable c) (working c) (S (trips c)))
  | None =>
      match s (tx_now env) (working c) with
      | Ok (x, db) => (Ok x, mkConn (durable c) db (S (trips c)))
      | Err e => (Err (database operation (to_sqlx_error (tx_text env) e)),
                  mkConn (durable c) (working c) (S (trips c)))
      end
  end.

(** [query.execute(postgres.pool())]: the statement commits by itself. *)
Definition execute_pool {A} (operation : string) (s : Stmt A) : Tx A := λ env c,
  match tx_fault env (trips c), s (tx_now env) (durable c) with
  | Some (d, applied), r =>
      let db := match r with Ok (_, db) => if applied : bool then db else durable c | Err _ => durable c end in
      (Err (database operation (SqlxOther d)), mkConn db db (S (trips c)))
  | None, Ok (x, db) => (Ok x, mkConn db db (S (trips c)))
  | None, Err e => (Err (database operation (to_sqlx_error (tx_text env) e)),
                    mkConn (durable c) (working c) (S (trips c)))
  end.

Definition begin_transaction (operation : string) : Tx unit := λ env c,
  match tx_fault env (trips c) with
  | Some (d, _) =>
      (Err (database operation (SqlxOther d)), mkConn (durable c) (working c) (S (trips c)))
  | None => (Ok tt, mkConn (durable c) (durable c) (S (trips c)))
  end.

Definition commit (operation : string) : Tx unit := λ env c,
  match tx_fault env (trips c) with
  | Some (d, applied) =>
      let db := if applied : bool then working c else durable c in
      (Err (database operation (SqlxOther d)), mkConn db db (S (trips c)))
  | None => (Ok tt, mkConn (working c) (working c) (S (trips c)))
  end.

Definition rollback (operation : string) : Tx unit := λ env c,
  match tx_fault env (trips c) with
  | Some (d, _) =>
      (Err (database operation (SqlxOther d)), mkConn (durable c) (durable c) (S (trips c)))
  | None => (Ok tt, mkConn (durable c) (durable c) (S (trips c)))
  end.

(** A dropped transaction rolls back: only [durable] survives. *)
Definition run_tx {A} (body : Tx A) (env : TxEnv) (db : Db) : result A PluginError.t * Db :=
  let '(r, c) := body env (mkConn db db 0) in (r, durable c).

(** An environment without failures. *)
Definition reliable (env : TxEnv) : Prop := ∀ n, tx_fault env n = None.

(** ** Programs *)

Section programs.
Context `{Platform}.

Inductive prog (A : Type) : Type :=
  | Ret (x : A)
  | NowUtc (k : time → prog A)
  | Getrandom (size : nat) (k : result bytes string → prog A)
  | Sql {X : Type} (body : Tx X) (k : result X PluginError.t → prog A)
  | EnsureIdentity (ctx : InvocationContext) (req : EnsureIdentityRequest)
      (k : result EnsureIdentityResponse (InvocationError string) → prog A)
  | ReadStatus (ctx : InvocationContext) (req : ReadStatusRequest)
      (k : result ReadStatusResponse (InvocationError ReadStatusError) → prog A)
  | Issue (ctx : InvocationContext) (req : IssueRequest)
      (k : result IssuedSession (InvocationError IssueError) → prog A)
  | CheckMembership (ctx : InvocationContext) (req : CheckMembershipRequest)
      (k : result CheckMembershipResponse (InvocationError CheckMembershipError) → prog A)
  | CheckPermission (ctx : InvocationContext) (req : CheckPermissionRequest)
      (k : result CheckPermissionResponse (InvocationError CheckPermissionError) → prog A).

Fixpoint pbind {A B} (p : prog A) (f : A → prog B) : prog B :=
  match p with
  | Ret _ x => f x
  | NowUtc _ k => NowUtc _ (λ t, pbind (k t) f)
  | Getrandom _ size k => Getrandom _ size (λ r, pbind (k r) f)
  | Sql _ body k => Sql _ body (λ r, pbind (k r) f)
  | EnsureIdentity _ ctx req k => EnsureIdentity _ ctx req (λ r, pbind (k r) f)
  | ReadStatus _ ctx req k => ReadStatus _ ctx req (λ r, pbind (k r) f)
  | Issue _ ctx req k => Issue _ ctx req (λ r, pbind (k r) f)
  | CheckMembership _ ctx req k => CheckMembership _ ctx req (λ r, pbind (k r) f)
  | CheckPermission _ ctx req k => CheckPermission _ ctx req (λ r, pbind (k r) f)
  end.

Definition now_utc : prog time := NowUtc _ (λ t, Ret _ t).
Definition getrandom (size : nat) : prog (result bytes string) := Getrandom _ size (λ r, Ret _ r).
Definition sql {X} (body : Tx X) : prog (result X PluginError.t) := Sql _ body (λ r, Ret _ r).

(** ** Handlers with early return

    In [async fn .. -> R], [m?] and [return r] leave the function: a handler is a program
    that either continues with a value or has already returned. *)

Definition Handler (R A : Type) : Type := prog (result A R).
Definition hret {R A} (x : A) : Handler R A := Ret _ (Ok x).
Definition return_ {R A} (r : R) : Handler R A := Ret _ (Err r).
Definition hbind {R A B} (m : Handler R A) (k : A → Handler R B) : Handler R B :=
  pbind m (λ r, match r with Ok x => k x | Err e => Ret _ (Err e) end).
Definition await {R A} (p : prog A) : Handler R A := pbind p (λ x, Ret _ (Ok x)).
(** [p.await?] in a function that returns [Result<_, E>]. *)
Definition await_ok {E T A} (p : prog (result A E)) : Handler (result T E) A :=
  pbind p (λ r, match r with Ok x => Ret _ (Ok x) | Err e => Ret _ (Err (Err e)) end).
(** [r?] on a value. *)
Definition ok_ {E T A} (r : result A E) : Handler (result T E) A := await_ok (Ret _ r).
(** [p.await.map_err(runtime)?]. *)
Definition await_sql {T A} (p : prog (result A PluginError.t)) :
    Handler (result T RuntimeFailure) A :=
  await_ok (pbind p (λ r, Ret _ (map_err runtime r))).
(** The function's result. *)
Definition finish {R} (h : Handler R R) : prog R :=
  pbind h (λ r, match r with Ok x => Ret _ x | Err x => Ret _ x end).

Lemma hbind_ok {T E A B} (x : A) (k : A → Handler (result T E) B) :
  hbind (ok_ (Ok x)) k = k x.
Proof. done. Qed.
Lemma hbind_err {T E A B} (e : E) (k : A → Handler (result T E) B) :
  hbind (ok_ (Err e)) k = return_ (Err e).
Proof. done. Qed.

(** ** Execution *)

(** Everything the outside decides, indexed by the number of steps taken so far.
    [w_others n] is what other tasks commit right before the access at step [n]. *)
Record World := {
  w_clock : nat → time;
  w_random : nat → nat → result bytes string;
  w_tx : nat → TxEnv;
  w_others : nat → Db → Db;
  w_ensure : nat → EnsureIdentityRequest → result EnsureIdentityResponse (InvocationError string);
  w_status : nat → ReadStatusRequest → result ReadStatusResponse (InvocationError ReadStatusError);
  w_issue : nat → IssueRequest → result IssuedSession (InvocationError IssueError);
  w_member : nat → CheckMembershipRequest
             → result CheckMembershipResponse (InvocationError CheckMembershipError);
  w_permission : nat → CheckPermissionRequest
             → result CheckPermissionResponse (InvocationError CheckPermissionError) }.

(** The steps of an execution, as an outside observer sees them. *)
Inductive event : Type :=
  | EvClock
  | EvRandom
  | EvSql (before after : Db)
  | EvEnsure (req : EnsureIdentityRequest)
  | EvStatus (req : ReadStatusRequest)
  | EvIssue (req : IssueRequest)
  | EvMember (req : CheckMembershipRequest)
  | EvPermission (req : CheckPermissionRequest).

Fixpoint run {A} (w : World) (n : nat) (p : prog A) (db : Db) : A * Db * list event :=
  let next e q db := let '(x, db, t) := run w (S n) q db in (x, db, e :: t) in
  match p with
  | Ret _ x => (x, db, [])
  | NowUtc _ k => next EvClock (k (w_clock w n)) db
  | Getrandom _ size k => next EvRandom (k (w_random w n size)) db
  | Sql _ body k =>
      let db0 := w_others w n db in
      let '(r, db1) := run_tx body (w_tx w n) db0 in
      next (EvSql db0 db1) (k r) db1
  | EnsureIdentity _ _ req k => next (EvEnsure req) (k (w_ensure w n req)) db
  | ReadStatus _ _ req k => next (EvStatus req) (k (w_status w n req)) db
  | Issue _ _ req k => next (EvIssue req) (k (w_issue w n req)) db
  | CheckMembership _ _ req k => next (EvMember req) (k (w_member w n req)) db
  | CheckPermission _ _ req k => next (EvPermission req) (k (w_permission w n req)) db
  end.

(** One execution, as a relation. *)
Definition runs {A} (w : World) (n : nat) (p : prog A) (db : Db)
    (x : A) (db' : Db) (t : list event) : Prop := run w n p db = (x, db', t).

Lemma runs_ret {A} w n (x : A) db y db' t :
  runs w n (Ret _ x) db y db' t ↔ y = x ∧ db' = db ∧ t = [].
Proof. unfold runs. simpl. split; [by intros [= -> -> ->]|by intros (-> & -> & ->)]. Qed.

(** A sequential composition runs its parts one after the other. *)
Lemma runs_bind {A B} w n (p : prog A) (f : A → prog B) db y db' t :
  runs w n (pbind p f) db y db' t ↔
  ∃ x db1 t1 t2, runs w n p db x db1 t1 ∧ runs w (n + length t1) (f x) db1 y db' t2
                 ∧ t = t1 ++ t2.
Proof.
  assert (∀ p n db, run w n (pbind p f) db =
    let '(x, db1, t1) := run w n p db in
    let '(y, db2, t2) := run w (n + length t1) (f x) db1 in (y, db2, t1 ++ t2)) as E.
  { clear. intros p. induction p; intros n db; simpl;
      repeat (rewrite ?Nat.add_0_r; case_match; simplify_eq/=; try done).
    all: try (match goal with IH : ∀ _ _ _, run _ _ _ _ = _, E : run _ _ (pbind _ _) _ = _ |- _ =>
      rewrite IH in E end).
    all: repeat (case_match; simplify_eq/=; try done).
    all: rewrite ?Nat.add_succ_r in *; simpl in *; congruence. }
  unfold runs. rewrite E. destruct (run w n p db) as [[x db1] t1].
  destruct (run w (n + length t1) (f x) db1) as [[y2 db2] t2] eqn:E2. split.
  - intros [= <- <- <-]. exists x, db1, t1, t2. done.
  - intros (x' & db1' & t1' & t2' & [= <- <- <-] & E2' & ->). rewrite E2 in E2'. by simplify_eq.
Qed.

(** ** Programs with the same executions

    Two programs are equivalent when no world, no starting step and no tables tell them
    apart: same result, same tables, same events. *)
#[export] Instance prog_equiv {A} : Equiv (prog A) := λ p q, ∀ w n db, run w n p db = run w n q db.

#[export] Instance prog_equiv_equivalence {A} : Equivalence (≡@{prog A}).
Proof.
  split; [by intros p w n db|by intros p q E w n db; rewrite E|].
  intros p q r E1 E2 w n db. by rewrite E1.
Qed.

#[export] Instance runs_proper {A} w n : Proper ((≡) ==> eq ==> eq ==> eq ==> eq ==> iff) (@runs A w n).
Proof. intros p q E db _ <- x _ <- db' _ <- t _ <-. unfold runs. by rewrite E. Qed.

#[export] Instance pbind_proper {A B} :
  Proper ((≡) ==> pointwise_relation A (≡) ==> (≡@{prog B})) pbind.
Proof.
  intros p q Ep f g Ef w n db.
  destruct (run w n (pbind p f) db) as [[y db'] t] eqn:E. symmetry.
  change (runs w n (pbind q g) db y db' t). change (runs w n (pbind p f) db y db' t) in E.
  rewrite runs_bind in E |- *. destruct E as (x & db1 & t1 & t2 & E1 & E2 & ->).
  exists x, db1, t1, t2. rewrite <- Ep. split; [done|]. split; [|done].
  unfold runs. by rewrite <- (Ef x).
Qed.

Lemma pbind_ret {A} (p : prog A) : pbind p (Ret A) ≡ p.
Proof.
  intros w n db. destruct (run w n p db) as [[x db'] t] eqn:E.
  change (runs w n (pbind p (Ret A)) db x db' t). rewrite runs_bind.
  exists x, db', t, []. split; [done|]. split; [done|]. by rewrite app_nil_r.
Qed.

Lemma pbind_assoc {A B C} (p : prog A) (f : A → prog B) (g : B → prog C) :
  pbind (pbind p f) g ≡ pbind p (λ x, pbind (f x) g).
Proof.
  intros w n db. revert n db.
  induction p; intros n db; simpl; repeat case_match; simplify_eq; try done;
    by match goal with IH : ∀ _ _ _, run _ _ (pbind (pbind _ _) _) _ = _,
      E : run _ _ _ _ = _, E' : run _ _ _ _ = _ |- _ => rewrite IH in E; congruence end.
Qed.
End programs.

Arguments Ret {_ _} _.
Arguments NowUtc {_ _} _.
Arguments Getrandom {_ _} _ _.
Arguments Sql {_ _ _} _ _.
Arguments EnsureIdentity {_ _} _ _ _.
Arguments ReadStatus {_ _} _ _ _.
Arguments Issue {_ _} _ _ _.
Arguments CheckMembership {_ _} _ _ _.
Arguments CheckPermission {_ _} _ _ _.

Declare Scope handler_scope.
Delimit Scope handler_scope with handler.
Notation "'let*' x := m 'in' k" := (hbind m (λ x, k))
  (at level 10, x pattern, m at level 100, k at level 200) : handler_scope.
Open Scope handler_scope.
