(* ===== verification/TxLogic.v ===== *)
(** * TxLogic: reasoning about transactions and programs

    Inversion lemmas for the transaction combinators, and the preservation of an invariant
    and of a preorder on the tables: proved once per statement, it lifts to transactions, to
    programs, and to executions interleaved with other tasks that preserve it too. *)
From S2P Require Import Prelude Text Platform Contract Secret Database Effects.

Open Scope list_scope.
Open Scope Z_scope.
Open Scope tx_scope.

(** ** Inversion *)

Lemma tx_bind_inv {A B} (m : Tx A) (k : A → Tx B) env c r c' :
  tx_bind m k env c = (r, c') →
  (∃ e, m env c = (Err e, c') ∧ r = Err e)
  ∨ (∃ x c1, m env c = (Ok x, c1) ∧ k x env c1 = (r, c')).
Proof.
  unfold tx_bind. destruct (m env c) as [[x|e] c1]; [|intros [= <- <-]]; eauto.
Qed.

Lemma execute_inv {A} op (s : Stmt A) env c r c' :
  execute op s env c = (r, c') →
  (∃ e, r = Err e ∧ durable c' = durable c ∧ working c' = working c)
  ∨ (∃ x db, r = Ok x ∧ s (tx_now env) (working c) = Ok (x, db)
             ∧ durable c' = durable c ∧ working c' = db).
Proof.
  unfold execute. destruct (tx_fault env (trips c)) as [[d a]|]; [intros [= <- <-]; eauto|].
  destruct (s (tx_now env) (working c)) as [[x db]|e]; intros [= <- <-]; eauto 10.
Qed.

(** A statement that failed at the server, with the error it reported. *)
Lemma execute_Err_inv {A} op (s : Stmt A) env c e c' :
  execute op s env c = (Err e, c') →
  (∃ d, e = database op (SqlxOther d))
  ∨ (∃ e', s (tx_now env) (working c) = Err e' ∧ e = database op (to_sqlx_error (tx_text env) e')).
Proof.
  unfold execute. destruct (tx_fault env (trips c)) as [[d a]|]; [intros [= <- _]; eauto|].
  destruct (s (tx_now env) (working c)) as [[x db]|e']; intros [= <- _]; eauto.
Qed.

Lemma execute_pool_inv {A} op (s : Stmt A) env c r c' :
  execute_pool op s env c = (r, c') →
  (∃ e, r = Err e ∧ (durable c' = durable c
                     ∨ ∃ x db, s (tx_now env) (durable c) = Ok (x, db) ∧ durable c' = db))
  ∨ (∃ x db, r = Ok x ∧ s (tx_now env) (durable c) = Ok (x, db) ∧ durable c' = db).
Proof.
  unfold execute_pool. destruct (tx_fault env (trips c)) as [[d a]|];
    destruct (s (tx_now env) (durable c)) as [[x db]|e]; intros [= <- <-]; simpl; eauto 10.
  left. eexists. split; [done|]. destruct a; eauto.
Qed.

Lemma begin_inv op env c r c' :
  begin_transaction op env c = (r, c') →
  durable c' = durable c
  ∧ ((∃ e, r = Err e ∧ working c' = working c) ∨ (r = Ok tt ∧ working c' = durable c)).
Proof.
  unfold begin_transaction. destruct (tx_fault env (trips c)) as [[d a]|]; intros [= <- <-]; eauto.
Qed.

Lemma rollback_inv op env c r c' :
  rollback op env c = (r, c') →
  durable c' = durable c ∧ working c' = durable c ∧ ((∃ e, r = Err e) ∨ r = Ok tt).
Proof.
  unfold rollback. destruct (tx_fault env (trips c)) as [[d a]|]; intros [= <- <-]; eauto.
Qed.

Lemma commit_inv op env c r c' :
  commit op env c = (r, c') →
  working c' = durable c'
  ∧ ((∃ e, r = Err e ∧ (durable c' = durable c ∨ durable c' = working c))
     ∨ (r = Ok tt ∧ durable c' = working c)).
Proof.
  unfold commit. destruct (tx_fault env (trips c)) as [[d []]|]; intros [= <- <-]; simpl; eauto 10.
Qed.

(** Decompose a hypothesis [tx_bind .. env c = (r, c')] at its first step. *)
Ltac tx_step H :=
  apply tx_bind_inv in H as [(? & H & ->)|(? & ? & ? & H)].

(** Normalise what is known of a connection. *)
Ltac conn :=
  repeat match goal with
  | H : working ?c = _ |- _ => rewrite H in *; clear H
  | H : durable ?c = _ |- _ => rewrite H in *; clear H
  end.

(** ** Forward execution

    One lemma per transaction step.  Each says: either the step failed, the whole
    transaction fails and other connections see what they saw before, or it succeeded and
    the rest runs on the new view. *)

Section steps.
Context {A B : Type} (env : TxEnv) (d w : Db) (n : nat) (r : result B PluginError.t) (c' : Conn).

Notation failed := (∃ e, r = Err e ∧ durable c' = d).

Lemma begin_step op (k : unit → Tx B) :
  tx_bind (begin_transaction op) k env (mkConn d w n) = (r, c') →
  failed ∨ k tt env (mkConn d d (S n)) = (r, c').
Proof.
  unfold tx_bind, begin_transaction. simpl.
  destruct (tx_fault env n) as [[? ?]|]; [intros [= <- <-]; eauto|eauto].
Qed.

Lemma execute_step op (s : Stmt A) (k : A → Tx B) :
  tx_bind (execute op s) k env (mkConn d w n) = (r, c') →
  failed ∨ ∃ x w', s (tx_now env) w = Ok (x, w') ∧ k x env (mkConn d w' (S n)) = (r, c').
Proof.
  unfold tx_bind, execute. simpl. destruct (tx_fault env n) as [[? ?]|]; [intros [= <- <-]; eauto|].
  destruct (s (tx_now env) w) as [[x w']|e]; [eauto 10|intros [= <- <-]; eauto].
Qed.

Lemma lift_step (m : result A PluginError.t) (k : A → Tx B) :
  tx_bind (tx_lift m) k env (mkConn d w n) = (r, c') →
  failed ∨ ∃ x, m = Ok x ∧ k x env (mkConn d w n) = (r, c').
Proof. unfold tx_bind, tx_lift. destruct m; [eauto|intros [= <- <-]; eauto]. Qed.

Lemma now_step (k : time → Tx B) :
  tx_bind tx_now_utc k env (mkConn d w n) = (r, c') →
  k (tx_clock env) env (mkConn d w n) = (r, c').
Proof. done. Qed.

Lemma rollback_step op (y : B) :
  tx_bind (rollback op) (λ _, tx_ret y) env (mkConn d w n) = (r, c') →
  durable c' = d ∧ ((∃ e, r = Err e) ∨ r = Ok y).
Proof.
  unfold tx_bind, rollback, tx_ret. simpl.
  destruct (tx_fault env n) as [[? ?]|]; intros [= <- <-]; eauto.
Qed.

(** A lost commit: the client sees an error, the server may have committed. *)
Lemma commit_step op (y : B) :
  tx_bind (commit op) (λ _, tx_ret y) env (mkConn d w n) = (r, c') →
  (r = Ok y ∧ durable c' = w) ∨ (∃ e, r = Err e ∧ (durable c' = d ∨ durable c' = w)).
Proof.
  unfold tx_bind, commit, tx_ret. simpl.
  destruct (tx_fault env n) as [[? []]|]; intros [= <- <-]; simpl; eauto 10.
Qed.
End steps.

Lemma tx_bind_assoc {A B C} (m : Tx A) (f : A → Tx B) (g : B → Tx C) env c :
  tx_bind (tx_bind m f) g env c = tx_bind m (λ x, tx_bind (f x) g) env c.
Proof. unfold tx_bind. by destruct (m env c) as [[]]. Qed.

Lemma tx_bind_ret {A B} (x : A) (k : A → Tx B) env c : tx_bind (tx_ret x) k env c = k x env c.
Proof. done. Qed.

(** One step of a transaction known to have run; [Hs] says what the step did. *)
Tactic Notation "tx_forward" ident(H) "as" ident(Hs) :=
  rewrite ?tx_bind_assoc, ?tx_bind_ret in H;
  first
    [ apply execute_step in H as [(? & -> & H)|(? & ? & Hs & H)]
    | apply begin_step in H as [(? & -> & H)|H]
    | apply now_step in H
    | apply lift_step in H as [(? & -> & H)|(? & Hs & H)] ].

(** Transactions without failures: the same steps, computed. *)
Section reliable_steps.
Context {A B : Type} (env : TxEnv) (Hr : reliable env) (d w : Db) (n : nat).

Lemma begin_reliable op (k : unit → Tx B) :
  tx_bind (begin_transaction op) k env (mkConn d w n) = k tt env (mkConn d d (S n)).
Proof. unfold tx_bind, begin_transaction. by rewrite Hr. Qed.

Lemma execute_reliable op (s : Stmt A) (k : A → Tx B) :
  tx_bind (execute op s) k env (mkConn d w n) =
  match s (tx_now env) w with
  | Ok (x, w') => k x env (mkConn d w' (S n))
  | Err e => (Err (database op (to_sqlx_error (tx_text env) e)), mkConn d w (S n))
  end.
Proof. unfold tx_bind, execute. simpl. rewrite Hr. by destruct (s _ _) as [[]|]. Qed.

Lemma rollback_reliable op (y : B) :
  tx_bind (rollback op) (λ _, tx_ret y) env (mkConn d w n) = (Ok y, mkConn d d (S n)).
Proof. unfold tx_bind, rollback, tx_ret. by rewrite Hr. Qed.

Lemma commit_reliable op (y : B) :
  tx_bind (commit op) (λ _, tx_ret y) env (mkConn d w n) = (Ok y, mkConn w w (S n)).
Proof. unfold tx_bind, commit, tx_ret. by rewrite Hr. Qed.
End reliable_steps.

(** ** Updates *)

Section updates.
Context {K A : Type} `{Countable K}.
Implicit Types (check : K → A → bool) (f : K → A → option A) (m : gmap K A).

Lemma update_where_lookup check f m m' k :
  update_where check f m = Ok m' →
  m' !! k = match m !! k with
            | Some r => match f k r with Some r' => Some r' | None => Some r end
            | None => None
            end.
Proof.
  unfold update_where. case_bool_decide; [|done]. intros [= <-].
  rewrite lookup_union, map_lookup_imap. destruct (m !! k) as [r|]; simpl; [|done].
  by destruct (f k r).
Qed.

Lemma update_where_check check f m m' k r r' :
  update_where check f m = Ok m' → m !! k = Some r → f k r = Some r' → check k r' = true.
Proof.
  unfold update_where. case_bool_decide as Hc; [|done]. intros _ Hk Hf. apply (Hc k).
  by rewrite map_lookup_imap, Hk; simpl.
Qed.

Lemma update_where_Err check f m e : update_where check f m = Err e →
  e = CheckViolation ∧ ∃ k r r', m !! k = Some r ∧ f k r = Some r' ∧ check k r' = false.
Proof.
  unfold update_where. case_bool_decide as Hc; [done|]. intros [= <-]. split; [done|].
  apply map_not_Forall in Hc as (k & r' & Hk & Hr); [|apply _].
  rewrite map_lookup_imap in Hk. destruct (m !! k) as [r|] eqn:E; [|done]. simpl in Hk.
  exists k, r, r'. by apply not_true_is_false in Hr.
Qed.

Lemma update_row_inv check k (g : A → option A) m n m' :
  update_row check k g m = Ok (n, m') →
  (n = 0 ∧ m' = m ∧ ∀ r, m !! k = Some r → g r = None)
  ∨ (n = 1 ∧ ∃ r r', m !! k = Some r ∧ g r = Some r' ∧ check k r' = true ∧ m' = <[k := r']> m).
Proof.
  unfold update_row. destruct (m !! k) as [r|]; [|intros [= <- <-]; left; naive_solver].
  destruct (g r) as [r'|] eqn:E; [|intros [= <- <-]; left; naive_solver].
  destruct (check k r') eqn:Ec; [|done]. intros [= <- <-]. right. eauto 10.
Qed.
End updates.

(** ** Preservation *)

Section preservation.
Context (I : Db → Prop) (R : Db → Db → Prop) `{!PreOrder R}.

Definition stmt_preserves {A} (s : Stmt A) : Prop :=
  ∀ now db x db', I db → s now db = Ok (x, db') → I db' ∧ R db db'.

Definition conn_ok (c : Conn) : Prop :=
  I (durable c) ∧ I (working c) ∧ R (durable c) (working c).

Definition tx_preserves {A} (m : Tx A) : Prop :=
  ∀ env c r c', conn_ok c → m env c = (r, c') → conn_ok c' ∧ R (durable c) (durable c').

Lemma conn_ok_fresh db n : I db → conn_ok (mkConn db db n).
Proof. intros. repeat split; simpl; auto. reflexivity. Qed.

Lemma tx_preserves_pure {A} (m : Tx A) : (∀ env c, ∃ r, m env c = (r, c)) → tx_preserves m.
Proof. intros Hm env c r c' Hc E. destruct (Hm env c) as [r' E']. rewrite E' in E. simplify_eq. by split. Qed.

Lemma tx_preserves_ret {A} (x : A) : tx_preserves (tx_ret x).
Proof. apply tx_preserves_pure. unfold tx_ret. eauto. Qed.
Lemma tx_preserves_fail {A} e : tx_preserves (@tx_fail A e).
Proof. apply tx_preserves_pure. unfold tx_fail. eauto. Qed.
Lemma tx_preserves_lift {A} (r : result A _) : tx_preserves (tx_lift r).
Proof. apply tx_preserves_pure. unfold tx_lift. eauto. Qed.
Lemma tx_preserves_now : tx_preserves tx_now_utc.
Proof. apply tx_preserves_pure. unfold tx_now_utc. eauto. Qed.

Lemma tx_preserves_bind {A B} (m : Tx A) (k : A → Tx B) :
  tx_preserves m → (∀ x, tx_preserves (k x)) → tx_preserves (tx_bind m k).
Proof.
  intros Hm Hk env c r c' Hc E. tx_step E.
  - by eapply Hm.
  - edestruct Hm as [Hc1 HR1]; [exact Hc|eassumption|].
    edestruct Hk as [Hc2 HR2]; [exact Hc1|eassumption|].
    split; [done|]. by etrans.
Qed.

Lemma tx_preserves_execute {A} op (s : Stmt A) : stmt_preserves s → tx_preserves (execute op s).
Proof.
  intros Hs env c r c' (Hd & Hw & HR) E.
  apply execute_inv in E as [(e & -> & Ed & Ew)|(x & db & -> & E & Ed & Ew)].
  - unfold conn_ok. by rewrite Ed, Ew.
  - apply Hs in E as [HI HR']; [|done]. unfold conn_ok. rewrite Ed, Ew.
    split; [split; [done|split; [done|by etrans]]|done].
Qed.

Lemma tx_preserves_execute_pool {A} op (s : Stmt A) :
  stmt_preserves s → tx_preserves (execute_pool op s).
Proof.
  intros Hs env c r c' (Hd & Hw & HR). unfold execute_pool.
  destruct (s (tx_now env) (durable c)) as [[x db]|e] eqn:E.
  - apply Hs in E as [HI HR']; [|done].
    destruct (tx_fault env (trips c)) as [[d []]|]; intros [= <- <-];
      split; try (by apply conn_ok_fresh); simpl; done.
  - destruct (tx_fault env (trips c)) as [[d a]|]; intros [= <- <-]; split;
      try (by apply conn_ok_fresh); simpl; done.
Qed.

Lemma tx_preserves_begin op : tx_preserves (begin_transaction op).
Proof.
  intros env c r c' Hc E. apply begin_inv in E as (Ed & [(e & -> & Ew)|[-> Ew]]);
    unfold conn_ok; rewrite Ed, Ew; destruct Hc as (?&?&?); repeat split; done.
Qed.

Lemma tx_preserves_rollback op : tx_preserves (rollback op).
Proof.
  intros env c r c' Hc E. apply rollback_inv in E as (Ed & Ew & _);
    unfold conn_ok; rewrite Ed, Ew; destruct Hc as (?&?&?); repeat split; done.
Qed.

Lemma tx_preserves_commit op : tx_preserves (commit op).
Proof.
  intros env c r c' (Hd & Hw & HR) E. apply commit_inv in E as (Ew & E).
  assert (durable c' = durable c ∨ durable c' = working c) as [Ed|Ed]
    by (destruct E as [(?&_&?)|[_ ?]]; auto);
    unfold conn_ok; rewrite Ew, Ed; repeat split; done.
Qed.

Lemma run_tx_preserves {A} (m : Tx A) env db r db' :
  tx_preserves m → I db → run_tx m env db = (r, db') → I db' ∧ R db db'.
Proof.
  unfold run_tx. intros Hm Hdb. destruct (m env (mkConn db db 0)) as [r1 c1] eqn:E.
  intros [= <- <-]. apply Hm in E as [(?&?&?) ?]; [done|]. by apply conn_ok_fresh.
Qed.

(** The committed effect alone, for transactions whose intermediate states break the
    invariant. *)
Definition commits_preserve {A} (m : Tx A) : Prop :=
  ∀ env db r db', I db → run_tx m env db = (r, db') → I db' ∧ R db db'.

Lemma tx_preserves_commits {A} (m : Tx A) : tx_preserves m → commits_preserve m.
Proof. intros Hm env db r db' Hdb E. by eapply run_tx_preserves. Qed.

(** ** Programs *)

Section progs.
Context `{Platform}.

Fixpoint prog_preserves {A} (p : prog A) : Prop :=
  match p with
  | Ret _ => True
  | NowUtc k => ∀ t, prog_preserves (k t)
  | Getrandom _ k => ∀ r, prog_preserves (k r)
  | Sql body k => commits_preserve body ∧ ∀ r, prog_preserves (k r)
  | EnsureIdentity _ _ k => ∀ r, prog_preserves (k r)
  | ReadStatus _ _ k => ∀ r, prog_preserves (k r)
  | Issue _ _ k => ∀ r, prog_preserves (k r)
  | CheckMembership _ _ k => ∀ r, prog_preserves (k r)
  | CheckPermission _ _ k => ∀ r, prog_preserves (k r)
  end.

Lemma prog_preserves_bind {A B} (p : prog A) (f : A → prog B) :
  prog_preserves p → (∀ x, prog_preserves (f x)) → prog_preserves (pbind p f).
Proof.
  intros Hp Hf. induction p; simpl in *; eauto.
  destruct Hp as [? Hp]. eauto.
Qed.

Lemma hbind_preserves {T A B} (m : Handler T A) (k : A → Handler T B) :
  prog_preserves m → (∀ x, prog_preserves (k x)) → prog_preserves (hbind m k).
Proof. intros Hm Hk. apply prog_preserves_bind; [done|]. intros [x|e]; simpl; auto. Qed.

Lemma finish_preserves {T} (h : Handler T T) : prog_preserves h → prog_preserves (finish h).
Proof. intros Hh. apply prog_preserves_bind; [done|]. by intros []. Qed.

Lemma sql_preserves {X} (body : Tx X) : commits_preserve body → prog_preserves (sql body).
Proof. by split. Qed.

Lemma await_preserves {T A} (p : prog A) : prog_preserves p → prog_preserves (@await _ T A p).
Proof. intros Hp. by apply prog_preserves_bind. Qed.
Lemma await_ok_preserves {E T A} (p : prog (result A E)) :
  prog_preserves p → prog_preserves (@await_ok _ E T A p).
Proof. intros Hp. apply prog_preserves_bind; [done|]. by intros []. Qed.
Lemma await_sql_preserves {T A} (p : prog (result A PluginError.t)) :
  prog_preserves p → prog_preserves (@await_sql _ T A p).
Proof. intros Hp. by apply await_ok_preserves, prog_preserves_bind. Qed.

(** An execution preserves what its accesses and the other tasks preserve. *)
Lemma runs_preserves {A} (w : World) n (p : prog A) db x db' t :
  (∀ n db, I db → I (w_others w n db) ∧ R db (w_others w n db)) →
  prog_preserves p → I db → runs w n p db x db' t → I db' ∧ R db db'.
Proof.
  intros Hw. unfold runs. revert n db x db' t. induction p; intros n db y db' t Hp Hdb; simpl in *;
    try (case_match; simplify_eq/=; case_match; intros; simplify_eq/=; by eauto).
  - intros [= <- <- <-]. by split.
  - destruct Hp as [Hb Hk]. destruct (Hw n db Hdb) as [H1 R1].
    destruct (run_tx body (w_tx w n) (w_others w n db)) as [r db1] eqn:E1.
    destruct (Hb _ _ _ _ H1 E1) as [H2 R2].
    destruct (run w (S n) (k r) db1) as [[y' db2] t'] eqn:E2. intros [= <- <- <-].
    edestruct H0 as [H3 R3]; [apply Hk|exact H2|exact E2|]. split; [done|].
    etrans; [exact R1|]. by etrans.
Qed.
(** The same for the tables before and after each access of the execution. *)
Lemma runs_preserves_trace {A} (w : World) n (p : prog A) db x db' t d d' :
  (∀ n db, I db → I (w_others w n db) ∧ R db (w_others w n db)) →
  prog_preserves p → I db → runs w n p db x db' t → EvSql d d' ∈ t →
  I d ∧ R db d ∧ I d' ∧ R d d' ∧ R d' db'.
Proof.
  intros Hw. unfold runs. revert n db x db' t. induction p; intros n db y db' t Hp Hdb; simpl in *;
    try (match goal with |- context [run ?w ?m ?q ?e] => destruct (run w m q e) as [[??]?] eqn:? end;
      intros Heq Hin; injection Heq as <- <- <-; apply elem_of_cons in Hin as [?|?];
      [discriminate|by eauto]).
  - intros E Hin. injection E as <- <- <-. by apply not_elem_of_nil in Hin.
  - destruct Hp as [Hb Hk]. destruct (Hw n db Hdb) as [H1 R1].
    destruct (run_tx body (w_tx w n) (w_others w n db)) as [r db1] eqn:E1.
    destruct (Hb _ _ _ _ H1 E1) as [H2 R2].
    destruct (run w (S n) (k r) db1) as [[y' db2] t'] eqn:E2.
    intros E Hin. injection E as <- <- <-.
    apply elem_of_cons in Hin as [[= -> ->]|Hin].
    + by destruct (runs_preserves w (S n) (k r) db1 y' db2 t' Hw (Hk r) H2 E2) as [_ R3].
    + edestruct H0 as (HI & HR & HI' & HR' & HR2); [apply Hk|exact H2|exact E2|exact Hin|].
      split; [done|]. split; [|done]. etrans; [exact R1|]. by etrans.
Qed.
End progs.
End preservation.

Create HintDb tx_preserves.
#[export] Hint Resolve tx_preserves_ret tx_preserves_fail tx_preserves_lift tx_preserves_now
  tx_preserves_bind tx_preserves_execute tx_preserves_execute_pool tx_preserves_begin
  tx_preserves_rollback tx_preserves_commit : tx_preserves.
