(* ===== verification/Exec.v ===== *)
(** * Exec: symbolic execution of handlers

    Inversion of [runs] for each kind of step of a handler, and the tactic [prog_step] that
    applies the right one.  A handler is executed as [finish h]; each step leaves
    [finish (k x)] for the rest. *)
From S2P Require Import Prelude Text Platform Contract Secret Database Effects TxLogic.

Open Scope list_scope.
Open Scope Z_scope.

Section exec.
Context `{Platform} {R : Type} (w : World) (n : nat) (db : Db) (x : R) (db' : Db)
  (t : list event).

Notation result_of h n db t := (runs w n (finish h) db x db' t).

Lemma runs_finish_return (r : R) :
  result_of (return_ r) n db t → x = r ∧ db' = db ∧ t = [].
Proof. unfold finish, return_. simpl. by rewrite runs_ret. Qed.

Lemma runs_finish_hbind {A} (m : Handler R A) (k : A → Handler R R) :
  result_of (hbind m k) n db t →
  ∃ r db1 t1 t2, runs w n m db r db1 t1 ∧ t = t1 ++ t2
    ∧ match r with
      | Ok y => result_of (k y) (n + length t1)%nat db1 t2
      | Err e => x = e ∧ db' = db1 ∧ t2 = []
      end.
Proof.
  unfold finish, hbind. rewrite runs_bind. intros (r1 & d1 & t1 & t2 & E & E2 & ->).
  rewrite runs_bind in E. destruct E as (r & d & t3 & t4 & E & Ek & ->).
  exists r, d, t3, (t4 ++ t2). split; [done|]. split; [by rewrite app_assoc|].
  destruct r as [y|e].
  - rewrite runs_bind. exists r1, d1, t4, t2. rewrite length_app, Nat.add_assoc in E2. done.
  - apply runs_ret in Ek as (-> & -> & ->). simpl in E2. by apply runs_ret in E2 as (-> & -> & ->).
Qed.

Lemma step_hret {A} (y : A) (k : A → Handler R R) :
  result_of (hbind (hret y) k) n db t → result_of (k y) n db t.
Proof. done. Qed.

Lemma step_return {A} (r : R) (k : A → Handler R R) :
  result_of (hbind (return_ r) k) n db t → x = r ∧ db' = db ∧ t = [].
Proof. unfold finish, hbind, return_. simpl. by rewrite runs_ret. Qed.

(** A composition inside the first step. *)
Lemma step_assoc {A B} (m : Handler R A) (f : A → Handler R B) (k : B → Handler R R) :
  result_of (hbind (hbind m f) k) n db t → result_of (hbind m (λ y, hbind (f y) k)) n db t.
Proof.
  intros (r & d1 & t1 & t2 & E & -> & E2)%runs_finish_hbind.
  unfold hbind in E. rewrite runs_bind in E. destruct E as (r0 & d & t3 & t4 & E & Ek & ->).
  unfold finish, hbind. rewrite runs_bind.
  assert (∀ r2 d2 t5, runs w (n + length t3) (match r0 with Ok y => hbind (f y) k | Err e => Ret (Err e) end)
            d r2 d2 t5 →
          runs w n (hbind m (λ y, hbind (f y) k)) db r2 d2 (t3 ++ t5)) as Hcomp.
  { intros r2 d2 t5 Hr. unfold hbind at 1. rewrite runs_bind. eauto 10. }
  destruct r0 as [y|e].
  - destruct r as [z|e].
    + unfold finish in E2. rewrite runs_bind in E2. destruct E2 as (r2 & d2 & t5 & t6 & E3 & E4 & ->).
      exists r2, d2, (t3 ++ t4 ++ t5), t6.
      rewrite !length_app, !Nat.add_assoc in *. split; [|by rewrite <-!app_assoc].
      apply Hcomp. unfold hbind. rewrite runs_bind. eauto 10.
    + destruct E2 as (-> & -> & ->). exists (Err e), d1, (t3 ++ t4), [].
      split; [|by rewrite runs_ret, app_nil_r]. apply Hcomp. unfold hbind. rewrite runs_bind.
      exists (Err e), d1, t4, []. rewrite app_nil_r. by rewrite runs_ret.
  - apply runs_ret in Ek as (-> & -> & ->). destruct E2 as (-> & -> & ->).
    exists (Err e), d, (t3 ++ []), []. split; [by apply Hcomp, runs_ret|].
    by rewrite runs_ret, !app_nil_r.
Qed.

Lemma step_clock (k : time → Handler R R) :
  result_of (hbind (await now_utc) k) n db t →
  ∃ t', t = EvClock :: t' ∧ result_of (k (w_clock w n)) (S n) db t'.
Proof.
  unfold finish, hbind, await, now_utc, runs. simpl. destruct (run w (S n) _ db) as [[y d] t'] eqn:E.
  intros [= -> -> <-]. by exists t'.
Qed.

Lemma step_random size (k : result bytes string → Handler R R) :
  result_of (hbind (await (getrandom size)) k) n db t →
  ∃ t', t = EvRandom :: t' ∧ result_of (k (w_random w n size)) (S n) db t'.
Proof.
  unfold finish, hbind, await, getrandom, runs. simpl. destruct (run w (S n) _ db) as [[y d] t'] eqn:E.
  intros [= -> -> <-]. by exists t'.
Qed.

Lemma step_ensure ctx req k :
  result_of (hbind (await (EnsureIdentity ctx req (λ r, Ret r))) k) n db t →
  ∃ t', t = EvEnsure req :: t' ∧ result_of (k (w_ensure w n req)) (S n) db t'.
Proof.
  unfold finish, hbind, await, runs. simpl. destruct (run w (S n) _ db) as [[y d] t'] eqn:E.
  intros [= -> -> <-]. by exists t'.
Qed.

Lemma step_status ctx req k :
  result_of (hbind (await (ReadStatus ctx req (λ r, Ret r))) k) n db t →
  ∃ t', t = EvStatus req :: t' ∧ result_of (k (w_status w n req)) (S n) db t'.
Proof.
  unfold finish, hbind, await, runs. simpl. destruct (run w (S n) _ db) as [[y d] t'] eqn:E.
  intros [= -> -> <-]. by exists t'.
Qed.

Lemma step_issue ctx req k :
  result_of (hbind (await (Issue ctx req (λ r, Ret r))) k) n db t →
  ∃ t', t = EvIssue req :: t' ∧ result_of (k (w_issue w n req)) (S n) db t'.
Proof.
  unfold finish, hbind, await, runs. simpl. destruct (run w (S n) _ db) as [[y d] t'] eqn:E.
  intros [= -> -> <-]. by exists t'.
Qed.

Lemma step_sql {X} (body : Tx X) k :
  result_of (hbind (await (sql body)) k) n db t →
  ∃ r db1 t', run_tx body (w_tx w n) (w_others w n db) = (r, db1)
    ∧ t = EvSql (w_others w n db) db1 :: t' ∧ result_of (k r) (S n) db1 t'.
Proof.
  unfold finish, hbind, await, sql, runs. simpl.
  destruct (run_tx body (w_tx w n) (w_others w n db)) as [r db1].
  destruct (run w (S n) _ db1) as [[y d] t'] eqn:E.
  intros [= -> -> <-]. by exists r, db1, t'.
Qed.
End exec.

(** The steps of functions that return a [result]. *)
Section exec_result.
Context `{Platform} {T E : Type} (w : World) (n : nat) (db : Db) (x : result T E) (db' : Db)
  (t : list event).

Notation result_of h n db t := (runs w n (finish h) db x db' t).

Lemma step_ok {A} (r : result A E) (k : A → Handler (result T E) (result T E)) :
  result_of (hbind (ok_ r) k) n db t →
  (∃ e, r = Err e ∧ x = Err e ∧ db' = db ∧ t = [])
  ∨ ∃ y, r = Ok y ∧ result_of (k y) n db t.
Proof. destruct r as [y|e]; [eauto|]. intros Hr. left. eexists. split; [done|]. by apply (runs_finish_return w n). Qed.

Lemma step_await_ok {A} (p : prog (result A E)) k :
  result_of (hbind (await_ok p) k) n db t →
  ∃ r db1 t1 t2, runs w n p db r db1 t1 ∧ t = t1 ++ t2
    ∧ match r with
      | Ok y => result_of (k y) (n + length t1)%nat db1 t2
      | Err e => x = Err e ∧ db' = db1 ∧ t2 = []
      end.
Proof.
  intros (r & d1 & t1 & t2 & Er & -> & Ek)%runs_finish_hbind. unfold await_ok in Er.
  rewrite runs_bind in Er. destruct Er as (r0 & d & t3 & t4 & Er & Er2 & ->).
  exists r0, d, t3, t2.
  destruct r0 as [y|e]; apply runs_ret in Er2 as (-> & -> & ->); rewrite app_nil_r in *; done.
Qed.

Lemma step_await_ok_sql {A} (body : Tx A)
    (k : A → Handler (result T PluginError.t) (result T PluginError.t))
    (y : result T PluginError.t) :
  runs w n (finish (hbind (await_ok (sql body)) k)) db y db' t →
  ∃ r db1 t', run_tx body (w_tx w n) (w_others w n db) = (r, db1)
    ∧ t = EvSql (w_others w n db) db1 :: t'
    ∧ match r with
      | Ok v => runs w (S n) (finish (k v)) db1 y db' t'
      | Err e => y = Err e ∧ db' = db1 ∧ t' = []
      end.
Proof.
  unfold finish, hbind, await_ok, sql, runs. simpl.
  destruct (run_tx body (w_tx w n) (w_others w n db)) as [[v|e] db1]; simpl.
  - destruct (run w (S n) _ db1) as [[y0 d] t'] eqn:E1. intros [= -> -> <-]. by exists (Ok v), db1, t'.
  - intros [= <- <- <-]. by eexists (Err e), db1, [].
Qed.
End exec_result.

Section exec_runtime.
Context `{Platform} {T : Type} (w : World) (n : nat) (db : Db) (x : result T RuntimeFailure)
  (db' : Db) (t : list event).

Notation result_of h n db t := (runs w n (finish h) db x db' t).

Lemma step_await_sql {A} (p : prog (result A PluginError.t)) k :
  result_of (hbind (await_sql p) k) n db t →
  ∃ r db1 t1 t2, runs w n p db r db1 t1 ∧ t = t1 ++ t2
    ∧ match r with
      | Ok y => result_of (k y) (n + length t1)%nat db1 t2
      | Err e => x = Err (runtime e) ∧ db' = db1 ∧ t2 = []
      end.
Proof.
  intros (r & d1 & t1 & t2 & Er & -> & Ek)%step_await_ok.
  rewrite runs_bind in Er. destruct Er as (r0 & d & t3 & t4 & Er & Er2 & ->).
  exists r0, d, t3, t2.
  destruct r0 as [y|e]; apply runs_ret in Er2 as (-> & -> & ->); rewrite app_nil_r in *; done.
Qed.

Lemma step_tx {A} (body : Tx A) k :
  result_of (hbind (await_sql (sql body)) k) n db t →
  ∃ r db1 t', run_tx body (w_tx w n) (w_others w n db) = (r, db1)
    ∧ t = EvSql (w_others w n db) db1 :: t'
    ∧ match r with
      | Ok y => result_of (k y) (S n) db1 t'
      | Err e => x = Err (runtime e) ∧ db' = db1 ∧ t' = []
      end.
Proof.
  intros (r & d1 & t1 & t2 & Er & -> & Ek)%step_await_sql.
  unfold sql, runs in Er. simpl in Er.
  destruct (run_tx body (w_tx w n) (w_others w n db)) as [r1 db1]. injection Er as <- <- <-.
  exists r1, db1, t2. rewrite Nat.add_1_r in Ek. done.
Qed.
End exec_runtime.

(** ** Automation *)

(** Execute the first step of [H : runs w n (finish (let* x := m in k)) db r db' t].  The
    facts a step establishes about [m] are named [Hs]. *)
Tactic Notation "prog_step" ident(H) "as" ident(Hs) :=
  lazymatch type of H with
  | runs _ _ (finish (return_ _)) _ _ _ _ =>
      apply runs_finish_return in H as (Hs & ? & ?)
  | runs _ _ (finish (hbind (hbind _ _) _)) _ _ _ _ => apply step_assoc in H
  | runs _ _ (finish (hbind (hret _) _)) _ _ _ _ => apply step_hret in H
  | runs _ _ (finish (hbind (return_ _) _)) _ _ _ _ =>
      apply step_return in H as (Hs & ? & ?)
  | runs _ _ (finish (hbind (await now_utc) _)) _ _ _ _ =>
      apply step_clock in H as (? & ? & H)
  | runs _ _ (finish (hbind (await (getrandom _)) _)) _ _ _ _ =>
      apply step_random in H as (? & ? & H)
  | runs _ _ (finish (hbind (await (EnsureIdentity _ _ _)) _)) _ _ _ _ =>
      apply step_ensure in H as (? & ? & H)
  | runs _ _ (finish (hbind (await (ReadStatus _ _ _)) _)) _ _ _ _ =>
      apply step_status in H as (? & ? & H)
  | runs _ _ (finish (hbind (await (Issue _ _ _)) _)) _ _ _ _ =>
      apply step_issue in H as (? & ? & H)
  | runs _ _ (finish (hbind (await (sql _)) _)) _ _ _ _ =>
      apply step_sql in H as (? & ? & ? & Hs & ? & H)
  | runs _ _ (finish (hbind (await_sql (sql _)) _)) _ _ _ _ =>
      apply step_tx in H as ([?|?] & ? & ? & Hs & ? & H); [|destruct H as (? & ? & ?)]
  | runs _ _ (finish (hbind (ok_ _) _)) _ _ _ _ =>
      apply step_ok in H as [(? & Hs & ? & ? & ?)|(? & Hs & H)]
  | runs _ _ (finish (hbind (await_sql _) _)) _ _ _ _ =>
      apply step_await_sql in H as ([?|?] & ? & ? & ? & Hs & ? & H); [|destruct H as (? & ? & ?)]
  | runs _ _ (finish (hbind (await_ok _) _)) _ _ _ _ =>
      apply step_await_ok in H as ([?|?] & ? & ? & ? & Hs & ? & H); [|destruct H as (? & ? & ?)]
  end.

(** Case analysis on the test at the head of the handler. *)
Tactic Notation "prog_case" ident(H) "as" ident(Hc) :=
  lazymatch type of H with
  | runs _ _ (finish (if ?b then _ else _)) _ _ _ _ => destruct b eqn:Hc
  | runs _ _ (finish (match ?x with _ => _ end)) _ _ _ _ => destruct x eqn:Hc
  end.

(** Close a goal whose execution [E] cannot have returned the result it is said to return. *)
Ltac dead E :=
  repeat (let Hd := fresh "Hd" in prog_step E as Hd; try discriminate);
  solve [discriminate | simplify_eq].
