(* ===== verification/Storage.v ===== *)
(** * Storage: the transactions of [storage.rs] *)
From S2P Require Import Prelude Text Platform Contract Secret Database Effects.

Open Scope string_scope.
Open Scope list_scope.
Open Scope Z_scope.
Open Scope tx_scope.

(** ** Results *)

Inductive CommandClaim :=
  | Claimed
  | CompletedSuccess (nonce ciphertext : bytes)
  | CompletedError (code : string)
  | Conflict
  | InProgress.

Record AccountRow := {
  r_service_account_id : string; r_organization_id : string; r_subject : string;
  r_name : string; r_status : string; r_revision : Z; r_created_at : time;
  r_rotated_at : option time; r_revoked_at : option time;
  r_credential_expires_at : option time }.

Record CredentialRow := {
  k_credential_id : string; k_service_account_id : string; k_organization_id : string;
  k_subject : string; k_account_status : string; k_verifier : string;
  k_valid_from : time; k_valid_until : time; k_revoked_at : option time }.

Inductive Mutation (T : Type) :=
  | Updated (value : T)
  | NotFound
  | MutationRevoked
  | RevisionConflict.
Arguments Updated {T} _.
Arguments NotFound {T}.
Arguments MutationRevoked {T}.
Arguments RevisionConflict {T}.

(** ** Row selection *)

Section rows.
Context `{Platform}.

(** ORDER BY created_at DESC, credential_id DESC LIMIT 1. *)
Definition newer (p q : string * CredentialRec) : bool :=
  (c_created_at q.2 <? c_created_at p.2)
  || ((c_created_at p.2 =? c_created_at q.2) && text_ltb q.1 p.1).
Definition latest (l : list (string * CredentialRec)) : option (string * CredentialRec) :=
  foldr (λ p acc, match acc with
                  | Some q => if newer p q then Some p else Some q
                  | None => Some p end) None l.
Definition account_credentials (id : string) (db : Db) : gmap string CredentialRec :=
  filter (λ kr, c_service_account_id kr.2 = id) (credentials db).
Definition credential_expires_at (id : string) (db : Db) : option time :=
  (λ p, c_valid_until p.2) <$> latest (map_to_list (account_credentials id db)).

(** The columns every account query selects, decoded by [decode_account]. *)
Definition decode_account (db : Db) (id : string) (r : AccountRec) : AccountRow := {|
  r_service_account_id := id; r_organization_id := a_organization_id r;
  r_subject := a_subject r; r_name := a_name r; r_status := a_status r;
  r_revision := a_revision r; r_created_at := a_created_at r;
  r_rotated_at := a_rotated_at r; r_revoked_at := a_revoked_at r;
  r_credential_expires_at := credential_expires_at id db |}.

(** WHERE a.organization_id = $1 AND a.service_account_id = $2. *)
Definition select_account (organization_id id : string) : Stmt (option AccountRow) := λ _ db,
  Ok (match accounts db !! id with
      | Some r => if String.eqb (a_organization_id r) organization_id
                  then Some (decode_account db id r) else None
      | None => None
      end, db).

(** ORDER BY a.service_account_id under the database's collation. *)
Definition id_le (p q : string * AccountRec) : Prop := text_ltb q.1 p.1 = false.
#[export] Instance id_le_dec : RelDecision id_le.
Proof. intros p q. unfold id_le. apply _. Defined.

Definition select_accounts (organization_id : string) (after : option string) (limit : Z) :
    Stmt (list AccountRow) := λ _ db,
  let matching := filter
    (λ kr, a_organization_id kr.2 = organization_id
           ∧ opt_all (λ a, text_ltb a kr.1) after = true)
    (accounts db) in
  Ok (map (λ kr, decode_account db kr.1 kr.2)
        (take (Z.to_nat limit) (merge_sort id_le (map_to_list matching))), db).

(** The join of a credential with its account, decoded by [decode_credential]. *)
Definition decode_credential (id : string) (c : CredentialRec) (a : AccountRec) : CredentialRow := {|
  k_credential_id := id; k_service_account_id := c_service_account_id c;
  k_organization_id := a_organization_id a; k_subject := a_subject a;
  k_account_status := a_status a; k_verifier := c_verifier c;
  k_valid_from := c_valid_from c; k_valid_until := c_valid_until c;
  k_revoked_at := c_revoked_at c |}.

Definition join_credential (id : string) (db : Db) : option CredentialRow :=
  match credentials db !! id with
  | None => None
  | Some c =>
      match accounts db !! c_service_account_id c with
      | None => None
      | Some a => Some (decode_credential id c a)
      end
  end.

Definition select_credential (id : string) : Stmt (option CredentialRow) := λ _ db,
  Ok (join_credential id db, db).

(** The recheck of [mark_exchange_issuing]: same join, still usable at [at_time]. *)
Definition select_usable_credential (id account_id : string) (at_time : time) :
    Stmt (option CredentialRow) := λ _ db,
  Ok (opt_filter (λ k,
        String.eqb (k_service_account_id k) account_id
        && String.eqb (k_account_status k) "active"
        && is_none (k_revoked_at k)
        && (k_valid_from k <=? at_time) && (at_time <? k_valid_until k))
      (join_credential id db), db).

(** ** Commands *)

Definition prune (receipt_ttl_seconds : Z) : Tx unit :=
  execute_pool "prune service-account receipts" (delete_expired_commands receipt_ttl_seconds).

(** Two auto-committed statements: another task may run between them. *)
Definition claim_command (caller operation idempotency_key : string) (intent_hash : bytes) :
    prog (result CommandClaim PluginError.t) :=
  let key := (caller, operation, idempotency_key) in
  finish (
    let* inserted := await_ok (sql (execute_pool "reserve service-account command"
                                      (insert_command key intent_hash))) in
    if inserted =? 1 then return_ (Ok Claimed) else
    let* row := await_ok (sql (execute_pool "load service-account command"
                                 (select_command key))) in
    if negb (String.eqb (m_intent_hash row) intent_hash) then return_ (Ok Conflict) else
    if String.eqb (m_status row) "completed_success" then
      match m_response_nonce row, m_response_ciphertext row with
      | Some nonce, Some ciphertext => return_ (Ok (CompletedSuccess nonce ciphertext))
      | None, _ => return_ (Err (database "decode service-account receipt nonce" (SqlxOther "unexpected null")))
      | _, None => return_ (Err (database "decode service-account receipt ciphertext" (SqlxOther "unexpected null")))
      end
    else if String.eqb (m_status row) "completed_error" then
      match m_error_code row with
      | Some code => return_ (Ok (CompletedError code))
      | None => return_ (Err (database "decode service-account command error" (SqlxOther "unexpected null")))
      end
    else return_ (Ok InProgress)).

Definition complete_success (caller operation idempotency_key : string) (nonce ciphertext : bytes) :
    Tx unit :=
  let! changed := execute "complete service-account command"
    (complete_command_success (caller, operation, idempotency_key) nonce ciphertext) in
  if negb (changed =? 1)
  then tx_fail (PluginError.Invariant "service-account command was not completable")
  else tx_ret tt.

Definition complete_error (caller operation idempotency_key error_code : string) : Tx unit :=
  let! changed := execute_pool "complete failed service-account command"
    (complete_command_error (caller, operation, idempotency_key) error_code) in
  if negb (changed =? 1)
  then tx_fail (PluginError.Invariant "service-account command error was not completable")
  else tx_ret tt.

Definition complete_success_owned (caller operation idempotency_key : string)
    (nonce ciphertext : bytes) : Tx unit :=
  let! _ := begin_transaction "begin service-account receipt completion" in
  let! _ := complete_success caller operation idempotency_key nonce ciphertext in
  commit "commit service-account receipt completion".

(** ** Accounts *)

Definition load_account (organization_id id : string) : Tx (option AccountRow) :=
  execute_pool "load service account" (select_account organization_id id).

Definition list_accounts (organization_id : string) (after : option string) (limit_plus_one : Z) :
    Tx (list AccountRow) :=
  execute_pool "list service accounts" (select_accounts organization_id after limit_plus_one).

Definition load_account_in_transaction (organization_id id : string) : Tx (option AccountRow) :=
  execute "reload service account" (select_account organization_id id).

(** SELECT ... FOR UPDATE OF a. *)
Definition lock_account (organization_id id : string) : Tx (option AccountRow) :=
  execute "lock service account" (select_account organization_id id).

(** A receipt closure: it may draw the nonce and fails as encryption does. *)
Definition Receipt (T : Type) : Type :=
  T → result bytes string → result (bytes * bytes) PluginError.t.
Definition call_receipt {T} (receipt : Receipt T) (x : T) : Tx (bytes * bytes) :=
  λ env c, (receipt x (tx_random env), c).

Definition create_account (caller operation idempotency_key : string) (max_accounts : Z)
    (service_account_id organization_id subject name name_key credential_id verifier : string)
    (valid_from valid_until : time) (receipt : Receipt AccountRow) : Tx (option AccountRow) :=
  let! _ := begin_transaction "begin service-account creation" in
  let! _ := execute "lock service-account organization" (λ _ db, Ok (tt, db)) in
  let! count := execute "count service accounts" (count_accounts organization_id) in
  if max_accounts <=? count then
    let! _ := rollback "rollback service-account limit" in
    tx_ret None
  else
  let! _ := execute "insert service account"
    (insert_account service_account_id organization_id subject name name_key) in
  let! _ := execute "insert service-account credential"
    (insert_credential credential_id service_account_id verifier valid_from valid_until) in
  let! row := load_account_in_transaction organization_id service_account_id in
  let! row := tx_lift (ok_or row (PluginError.Invariant "created service account is missing")) in
  let! (nonce, ciphertext) := call_receipt receipt row in
  let! _ := complete_success caller operation idempotency_key nonce ciphertext in
  let! _ := commit "commit service-account creation" in
  tx_ret (Some row).

Definition rotate_account (caller operation idempotency_key organization_id service_account_id : string)
    (expected_revision : Z) (credential_id verifier : string)
    (valid_from overlap_until valid_until : time) (receipt : Receipt AccountRow) :
    Tx (Mutation AccountRow) :=
  let! _ := begin_transaction "begin service-account rotation" in
  let! current := lock_account organization_id service_account_id in
  match current with
  | None =>
      let! _ := rollback "rollback missing service account" in
      tx_ret NotFound
  | Some current =>
      if String.eqb (r_status current) "revoked" then
        let! _ := rollback "rollback revoked service account" in
        tx_ret MutationRevoked
      else if negb (r_revision current =? expected_revision) then
        let! _ := rollback "rollback rotation revision conflict" in
        tx_ret RevisionConflict
      else
        let! _ := execute "bound previous service-account credentials"
          (bound_credentials service_account_id valid_from overlap_until) in
        let! _ := execute "insert rotated service-account credential"
          (insert_credential credential_id service_account_id verifier valid_from valid_until) in
        let! _ := execute "advance rotated service account"
          (advance_account service_account_id valid_from) in
        let! row := load_account_in_transaction organization_id service_account_id in
        let! row := tx_lift (ok_or row (PluginError.Invariant "rotated service account is missing")) in
        let! (nonce, ciphertext) := call_receipt receipt row in
        let! _ := complete_success caller operation idempotency_key nonce ciphertext in
        let! _ := commit "commit service-account rotation" in
        tx_ret (Updated row)
  end.

Definition revoke_account (caller operation idempotency_key organization_id service_account_id : string)
    (expected_revision : Z) (receipt : Receipt (AccountRow * bool)) :
    Tx (Mutation (AccountRow * bool)) :=
  let! _ := begin_transaction "begin service-account revocation" in
  let! current := lock_account organization_id service_account_id in
  match current with
  | None =>
      let! _ := rollback "rollback missing service-account revocation" in
      tx_ret NotFound
  | Some current =>
      if negb (r_revision current =? expected_revision) then
        let! _ := rollback "rollback revocation revision conflict" in
        tx_ret RevisionConflict
      else
        let changed := negb (String.eqb (r_status current) "revoked") in
        let! _ :=
          if changed then
            let! now := tx_now_utc in
            let! _ := execute "revoke service account" (mark_account_revoked service_account_id now) in
            execute "revoke service-account credentials" (revoke_credentials service_account_id now)
          else tx_ret tt in
        let! row := load_account_in_transaction organization_id service_account_id in
        let! row := tx_lift (ok_or row (PluginError.Invariant "revoked service account is missing")) in
        let result := (row, changed) in
        let! (nonce, ciphertext) := call_receipt receipt result in
        let! _ := complete_success caller operation idempotency_key nonce ciphertext in
        let! _ := commit "commit service-account revocation" in
        tx_ret (Updated result)
  end.

(** ** Exchange *)

Definition load_credential (credential_id : string) : Tx (option CredentialRow) :=
  execute_pool "load service-account credential" (select_credential credential_id).

Definition mark_exchange_issuing (caller idempotency_key credential_id service_account_id : string)
    (now : time) : Tx (option CredentialRow) :=
  let! _ := begin_transaction "begin service-account exchange" in
  let! account_status := execute "lock exchanged service account"
    (select_account_status service_account_id) in
  if negb (is_some_and account_status (λ s, String.eqb s "active")) then
    let! _ := rollback "rollback inactive service-account exchange" in
    tx_ret None
  else
  let! row := execute "recheck service-account credential"
    (select_usable_credential credential_id service_account_id now) in
  match row with
  | None =>
      let! _ := rollback "rollback invalid service-account exchange" in
      tx_ret None
  | Some credential =>
      let! _ := execute "record service-account credential use"
        (record_credential_use credential_id now) in
      let! advanced := execute "mark service-account exchange issuing"
        (mark_command_issuing caller idempotency_key credential_id now) in
      if negb (advanced =? 1) then
        let! _ := rollback "rollback stale service-account exchange" in
        tx_ret None
      else
        let! _ := commit "commit verified service-account exchange" in
        tx_ret (Some credential)
  end.

Definition reserve_rate_slot (caller : string) (now : time)
    (window_seconds max_attempts lockout_seconds : Z) : Tx bool :=
  let! _ := begin_transaction "begin service-account rate admission" in
  let! _ := execute "initialize service-account rate limit" (insert_limit caller now) in
  let! row := execute "lock service-account rate limit" (select_limit caller) in
  if is_some_and (l_locked_until row) (λ until, now <? until) then
    let! _ := commit "commit active service-account lockout" in
    tx_ret false
  else
  let '(window_started_at, attempts) :=
    if l_window_started_at row + seconds window_seconds <=? now
    then (now, 0) else (l_window_started_at row, l_attempts row) in
  if max_attempts <=? attempts then
    let! _ := execute "lock out service-account caller"
      (lock_out_limit caller window_started_at (now + seconds lockout_seconds)) in
    let! _ := commit "commit service-account lockout" in
    tx_ret false
  else
    let! _ := execute "consume service-account rate slot"
      (consume_limit caller window_started_at (attempts + 1)) in
    let! _ := commit "commit service-account rate admission" in
    tx_ret true.
End rows.

(** [storage.rs: unique_constraint]. *)
Definition unique_constraint (error : PluginError.t) : option string :=
  match error with
  | PluginError.Database _ (SqlxDatabase true constraint _) => constraint
  | _ => None
  end.
