(* ===== verification/Integrity.v ===== *)
(** * Integrity: the schema constraints and the monotone evolution of the tables

    Every statement keeps the constraints of the migration and moves the tables forward:
    accounts and credentials are never deleted, identities never change, revisions grow,
    revocations and shortened validities are permanent. *)
From S2P Require Import Prelude Text Platform Contract Secret Database Effects TxLogic.
From S2P Require Import Storage.

Open Scope string_scope.
Open Scope list_scope.
Open Scope Z_scope.
Open Scope tx_scope.

(** ** The constraints of the migration *)

Record schema_ok (db : Db) : Prop := {
  accounts_checked : map_Forall (λ id r, account_check id r = true) (accounts db);
  subjects_unique : ∀ i j r s, accounts db !! i = Some r → accounts db !! j = Some s →
    a_subject r = a_subject s → i = j;
  names_unique : ∀ i j r s, accounts db !! i = Some r → accounts db !! j = Some s →
    a_organization_id r = a_organization_id s → a_name_key r = a_name_key s → i = j;
  credentials_checked : map_Forall (λ id c, credential_check id c = true) (credentials db);
  credentials_owned :
    map_Forall (λ _ c, is_Some (accounts db !! c_service_account_id c)) (credentials db);
  commands_checked : map_Forall (λ k m, command_check k m = true) (commands db);
  limits_checked : map_Forall (λ k l, limit_check k l = true) (limits db) }.

(** ** Evolution *)

Record account_le (a a' : AccountRec) : Prop := {
  al_organization : a_organization_id a' = a_organization_id a;
  al_subject : a_subject a' = a_subject a;
  al_name : a_name a' = a_name a;
  al_name_key : a_name_key a' = a_name_key a;
  al_created : a_created_at a' = a_created_at a;
  al_revision : a_revision a ≤ a_revision a';
  al_same : a_revision a' = a_revision a → a' = a;
  al_revoked : a_status a = "revoked" → a_status a' = "revoked" }.

Record credential_le (c c' : CredentialRec) : Prop := {
  cl_account : c_service_account_id c' = c_service_account_id c;
  cl_verifier : c_verifier c' = c_verifier c;
  cl_valid_from : c_valid_from c' = c_valid_from c;
  cl_created : c_created_at c' = c_created_at c;
  cl_valid_until : c_valid_until c' ≤ c_valid_until c;
  cl_revoked : ∀ t, c_revoked_at c = Some t → c_revoked_at c' = Some t }.

Record db_le (db db' : Db) : Prop := {
  le_accounts : ∀ id a, accounts db !! id = Some a →
    ∃ a', accounts db' !! id = Some a' ∧ account_le a a';
  le_credentials : ∀ id c, credentials db !! id = Some c →
    ∃ c', credentials db' !! id = Some c' ∧ credential_le c c' }.

#[export] Instance account_le_preorder : PreOrder account_le.
Proof.
  split.
  - intros a. by split.
  - intros a b c [] []. split; try congruence; try lia; auto.
    intros E. assert (a_revision b = a_revision a) by lia.
    assert (b = a) as -> by auto. auto.
Qed.

#[export] Instance credential_le_preorder : PreOrder credential_le.
Proof.
  split.
  - intros a. by split.
  - intros a b c [] []. split; try congruence; try lia; auto.
Qed.

#[export] Instance db_le_preorder : PreOrder db_le.
Proof.
  split.
  - intros db. split; intros id x Hx; eexists; (split; [exact Hx|reflexivity]).
  - intros d1 d2 d3 [A1 C1] [A2 C2]. split.
    + intros id a (a' & Ha' & H1)%A1. destruct (A2 _ _ Ha') as (a'' & ? & H2).
      exists a''. split; [done|]. by etrans.
    + intros id a (a' & Ha' & H1)%C1. destruct (C2 _ _ Ha') as (a'' & ? & H2).
      exists a''. split; [done|]. by etrans.
Qed.

(** Tables that only differ in commands and limits are interchangeable for evolution. *)
Lemma db_le_same db db' :
  accounts db' = accounts db → credentials db' = credentials db → db_le db db'.
Proof. intros Ha Hc. split; intros id x Hx; rewrite ?Ha, ?Hc; eexists; (split; [exact Hx|reflexivity]). Qed.

Lemma schema_ok_commands m db :
  schema_ok db → map_Forall (λ k r, command_check k r = true) m → schema_ok (set_commands m db).
Proof. intros [] Hm. by split. Qed.

Lemma schema_ok_limits m db :
  schema_ok db → map_Forall (λ k r, limit_check k r = true) m → schema_ok (set_limits m db).
Proof. intros [] Hm. by split. Qed.

(** ** Statements *)

Notation preserves := (stmt_preserves schema_ok db_le).

(** A query leaves the tables as they are. *)
Lemma query_preserves {A} (s : Stmt A) :
  (∀ now db x db', s now db = Ok (x, db') → db' = db) → preserves s.
Proof. intros Hs now db x db' Hdb E. rewrite (Hs _ _ _ _ E). by split. Qed.

Lemma commands_preserves {A} (s : Stmt A) :
  (∀ now db x db', schema_ok db → s now db = Ok (x, db') →
     ∃ m, db' = set_commands m db ∧ map_Forall (λ k r, command_check k r = true) m) →
  preserves s.
Proof.
  intros Hs now db x db' Hdb E. destruct (Hs _ _ _ _ Hdb E) as (m & -> & Hm).
  split; [by apply schema_ok_commands|by apply db_le_same].
Qed.

Lemma limits_preserves {A} (s : Stmt A) :
  (∀ now db x db', schema_ok db → s now db = Ok (x, db') →
     ∃ m, db' = set_limits m db ∧ map_Forall (λ k r, limit_check k r = true) m) →
  preserves s.
Proof.
  intros Hs now db x db' Hdb E. destruct (Hs _ _ _ _ Hdb E) as (m & -> & Hm).
  split; [by apply schema_ok_limits|by apply db_le_same].
Qed.

Lemma update_row_checked {K A} `{Countable K} check k f (m m' : gmap K A) n :
  map_Forall (λ k r, check k r = true) m → update_row check k f m = Ok (n, m') →
  map_Forall (λ k r, check k r = true) m'.
Proof.
  intros Hm [(_ & -> & _)|(_ & r & r' & _ & _ & Hc & ->)]%update_row_inv; [done|].
  by apply map_Forall_insert_2.
Qed.

Lemma set_commands_id db : set_commands (commands db) db = db.
Proof. by destruct db. Qed.
Lemma set_limits_id db : set_limits (limits db) db = db.
Proof. by destruct db. Qed.

Lemma delete_expired_preserves ttl : preserves (delete_expired_commands ttl).
Proof.
  apply commands_preserves. intros now db x db' Hdb [= <- <-]. eexists. split; [done|].
  intros k r [Hk _]%map_lookup_filter_Some. by eapply commands_checked.
Qed.

Lemma insert_command_preserves key h : preserves (insert_command key h).
Proof.
  apply commands_preserves. intros now db x db' Hdb. unfold insert_command.
  destruct (negb _) eqn:Hc; [done|]. apply negb_false_iff in Hc.
  destruct (commands db !! key); intros [= <- <-].
  - exists (commands db). rewrite set_commands_id. split; [done|by apply commands_checked].
  - eexists. split; [done|]. apply map_Forall_insert_2; [done|by apply commands_checked].
Qed.

(** The shape shared by the single-row updates of commands and limits. *)
Lemma command_update_preserves (key : command_key) (f : time → Db → CommandRec → option CommandRec) :
  preserves (λ now db,
    bind_ok (update_row command_check key (f now db) (commands db))
      (λ p, Ok (p.1, set_commands p.2 db))).
Proof.
  apply commands_preserves. intros now db x db' Hdb ([n m] & E & [= <- <-])%bind_ok_Ok.
  eexists. split; [done|]. eapply update_row_checked; [by apply commands_checked|exact E].
Qed.

Lemma limit_update_preserves (key : string) (f : LimitRec → option LimitRec) :
  preserves (λ now db,
    bind_ok (update_row limit_check key f (limits db)) (λ p, Ok (tt, set_limits p.2 db))).
Proof.
  apply limits_preserves. intros now db x db' Hdb ([n m] & E & [= <- <-])%bind_ok_Ok.
  eexists. split; [done|]. eapply update_row_checked; [by apply limits_checked|exact E].
Qed.

Lemma insert_limit_preserves caller t : preserves (insert_limit caller t).
Proof.
  apply limits_preserves. intros now db x db' Hdb. unfold insert_limit.
  destruct (negb _) eqn:Hc; [done|]. apply negb_false_iff in Hc.
  destruct (limits db !! caller); intros [= <- <-].
  - exists (limits db). rewrite set_limits_id. split; [done|by apply limits_checked].
  - eexists. split; [done|]. apply map_Forall_insert_2; [done|by apply limits_checked].
Qed.

(** *** Accounts *)

Lemma insert_account_preserves id org subject name name_key :
  preserves (insert_account id org subject name name_key).
Proof.
  intros now db x db' Hdb. unfold insert_account. set (r := mkAccount _ _ _ _ _ _ _ _ _ _).
  destruct (negb _) eqn:Hc; [done|]. apply negb_false_iff in Hc.
  unfold account_conflict. case_bool_decide as H1; [done|].
  case_bool_decide as H2; [done|]. case_bool_decide as H3; [done|]. intros [= <- <-].
  apply eq_None_not_Some in H1. rewrite map_not_Exists in H2, H3. split.
  - destruct Hdb. split; simpl; try done.
    + by apply map_Forall_insert_2.
    + intros i j ri rj Hi Hj E. rewrite lookup_insert in Hi, Hj.
      repeat case_decide; simplify_eq; eauto;
        first [by destruct (H2 _ _ Hj)|by destruct (H2 _ _ Hi)].
    + intros i j ri rj Hi Hj E1 E2. rewrite lookup_insert in Hi, Hj.
      repeat case_decide; simplify_eq; eauto;
        first [by destruct (H3 _ _ Hj)|by destruct (H3 _ _ Hi)].
    + intros k c Hk. destruct (credentials_owned0 _ _ Hk) as [a Ha]. rewrite lookup_insert.
      case_decide; eauto.
  - split; simpl; intros k y Hk; [|by eexists].
    exists y. split; [|done]. rewrite lookup_insert_ne; [done|]. intros ->. by rewrite H1 in Hk.
Qed.

(** The shape shared by the two account updates: the revision is increased. *)
Lemma account_update_preserves id (f : Z → AccountRec → AccountRec) :
  (∀ v r, a_organization_id (f v r) = a_organization_id r ∧ a_subject (f v r) = a_subject r
          ∧ a_name (f v r) = a_name r ∧ a_name_key (f v r) = a_name_key r
          ∧ a_created_at (f v r) = a_created_at r ∧ a_revision (f v r) = v
          ∧ (a_status r = "revoked" → a_status (f v r) = "revoked")) →
  preserves (λ _ db,
    match accounts db !! id with
    | None => Ok (tt, db)
    | Some r =>
        bind_ok (bigint (a_revision r + 1)) (λ v,
          bind_ok (update_row account_check id (λ r, Some (f v r)) (accounts db))
            (λ p, Ok (tt, set_accounts p.2 db)))
    end).
Proof.
  intros Hf now db x db' Hdb. destruct (accounts db !! id) as [r|] eqn:Hr;
    [|intros [= <- <-]; by split].
  intros (v & Ev & ([n m] & E & [= <- <-])%bind_ok_Ok)%bind_ok_Ok.
  unfold bigint in Ev. destruct (in_i64 _); [|done]. injection Ev as <-.
  apply update_row_inv in E as [(_ & -> & Hno)|(_ & r0 & r' & Hr0 & [= <-] & Hc & ->)];
    [by specialize (Hno _ Hr)|].
  rewrite Hr in Hr0. injection Hr0 as <-.
  destruct (Hf (a_revision r + 1) r) as (Eo & Es & En & Ek & Ec & Ev & Est). split.
  - destruct Hdb. split; simpl; try done.
    + by apply map_Forall_insert_2.
    + intros i j ri rj Hi Hj E. rewrite lookup_insert in Hi, Hj.
      repeat case_decide; simplify_eq; rewrite ?Es in *; eauto.
    + intros i j ri rj Hi Hj E1 E2. rewrite lookup_insert in Hi, Hj.
      repeat case_decide; simplify_eq; rewrite ?Eo, ?Ek in *; eauto.
    + intros k c Hk. destruct (credentials_owned0 _ _ Hk) as [a Ha]. rewrite lookup_insert.
      case_decide; eauto.
  - split; simpl; intros k y Hk; [|by eexists]. rewrite lookup_insert. case_decide; subst.
    + rewrite Hr in Hk. injection Hk as <-. eexists. split; [done|]. split; auto; lia.
    + by eexists.
Qed.

Lemma advance_account_preserves id t : preserves (advance_account id t).
Proof.
  apply (account_update_preserves id (λ v r, mkAccount (a_organization_id r) (a_subject r)
    (a_name r) (a_name_key r) (a_status r) v (a_created_at r) t (Some t) (a_revoked_at r))).
  by intros v r.
Qed.

Lemma mark_account_revoked_preserves id t : preserves (mark_account_revoked id t).
Proof.
  apply (account_update_preserves id (λ v r, mkAccount (a_organization_id r) (a_subject r)
    (a_name r) (a_name_key r) "revoked" v (a_created_at r) t (a_rotated_at r) (Some t))).
  by intros v r.
Qed.

(** *** Credentials *)

Lemma insert_credential_preserves id account verifier t1 t2 :
  preserves (insert_credential id account verifier t1 t2).
Proof.
  intros now db x db' Hdb. unfold insert_credential.
  destruct (negb _) eqn:Hc; [done|]. apply negb_false_iff in Hc.
  destruct (credentials db !! id) eqn:Hid; [done|].
  destruct (accounts db !! account) eqn:Ha; [|done]. intros [= <- <-]. split.
  - destruct Hdb. split; simpl; try done.
    + by apply map_Forall_insert_2.
    + apply map_Forall_insert_2; [simpl; eauto|done].
  - split; simpl; intros k y Hk; [by eexists|].
    exists y. split; [|done]. rewrite lookup_insert_ne; [done|]. intros ->. by rewrite Hid in Hk.
Qed.

(** The shape shared by the credential updates. *)
Lemma credential_evolution_preserves db m' :
  schema_ok db →
  (∀ id, match credentials db !! id, m' !! id with
         | Some c, Some c' => credential_check id c' = true ∧ credential_le c c'
         | None, None => True
         | _, _ => False
         end) →
  schema_ok (set_credentials m' db) ∧ db_le db (set_credentials m' db).
Proof.
  intros Hdb Hm. split.
  - destruct Hdb. split; simpl; try done; intros id c' Hc'; specialize (Hm id);
      rewrite Hc' in Hm; destruct (credentials db !! id) as [c|] eqn:E; try done;
      destruct Hm as [? []].
    + done.
    + rewrite cl_account0. by eapply credentials_owned0.
  - split; simpl; intros id x Hx; [by eexists|]. specialize (Hm id). rewrite Hx in Hm.
    destruct (m' !! id) as [c'|]; [|done]. exists c'. by destruct Hm.
Qed.

Lemma update_where_credentials db f m' :
  schema_ok db →
  (∀ id c c', credential_check id c = true → f id c = Some c' → credential_le c c') →
  update_where credential_check f (credentials db) = Ok m' →
  schema_ok (set_credentials m' db) ∧ db_le db (set_credentials m' db).
Proof.
  intros Hdb Hf E. apply credential_evolution_preserves; [done|]. intros id.
  rewrite (update_where_lookup _ _ _ _ id E).
  destruct (credentials db !! id) as [c|] eqn:Hc; [|done].
  assert (credential_check id c = true) as Hck by (by eapply credentials_checked).
  destruct (f id c) as [c'|] eqn:Hc'; [|by split].
  split; [by eapply update_where_check|by eapply Hf].
Qed.

Lemma bound_credentials_preserves id t1 t2 : preserves (bound_credentials id t1 t2).
Proof.
  intros now db x db' Hdb (m & E & [= <- <-])%bind_ok_Ok.
  eapply update_where_credentials; [done| |exact E]. intros k c c' _. simpl.
  destruct (_ && _) eqn:Hg; [|done]. intros [= <-]. split; simpl; try done. lia.
Qed.

Lemma revoke_credentials_preserves id t : preserves (revoke_credentials id t).
Proof.
  intros now db x db' Hdb (m & E & [= <- <-])%bind_ok_Ok.
  eapply update_where_credentials; [done| |exact E]. intros k c c' Hck. simpl.
  destruct (String.eqb _ _); [|done]. intros [= <-]. unfold credential_check in Hck. bool_prop.
  split; simpl; try done; [lia|]. by intros t' ->.
Qed.

Lemma record_credential_use_preserves id t : preserves (record_credential_use id t).
Proof.
  intros now db x db' Hdb ([n m] & E & [= <- <-])%bind_ok_Ok.
  apply update_row_inv in E as [(_ & -> & _)|(_ & r & r' & Hr & [= <-] & Hc & ->)].
  - simpl. by destruct db.
  - apply credential_evolution_preserves; [done|]. intros k. simpl. rewrite lookup_insert.
    case_decide; subst.
    + rewrite Hr. split; [done|]. by split.
    + destruct (credentials db !! k) eqn:E; [|done]. split; [by eapply credentials_checked|done].
Qed.
