(* ===== verification/Statements.v ===== *)
(** * Statements: what each successful SQL statement did

    Inversion lemmas for the statements of [Database], in the form the transaction proofs
    use: the guards that held and the new tables. *)
From S2P Require Import Prelude Text Platform Contract Secret Database Effects TxLogic.
From S2P Require Import Storage.

Open Scope string_scope.
Open Scope list_scope.
Open Scope Z_scope.

(** ** Rows written *)

Definition new_account (org subject name name_key : string) (now : time) : AccountRec :=
  mkAccount org subject name name_key "active" 1 now now None None.
Definition new_credential (id verifier : string) (valid_from valid_until now : time) : CredentialRec :=
  mkCredential id verifier valid_from valid_until now None None None.
Definition advanced (at_time : time) (a : AccountRec) : AccountRec :=
  mkAccount (a_organization_id a) (a_subject a) (a_name a) (a_name_key a) (a_status a)
    (a_revision a + 1) (a_created_at a) at_time (Some at_time) (a_revoked_at a).
Definition revoked_account_rec (at_time : time) (a : AccountRec) : AccountRec :=
  mkAccount (a_organization_id a) (a_subject a) (a_name a) (a_name_key a) "revoked"
    (a_revision a + 1) (a_created_at a) at_time (a_rotated_at a) (Some at_time).
(** A credential after a rotation at [valid_from] whose overlap ends at [overlap_until]. *)
Definition bounded (account_id : string) (valid_from overlap_until : time) (c : CredentialRec) :
    CredentialRec :=
  if String.eqb (c_service_account_id c) account_id && is_none (c_revoked_at c)
     && (valid_from <? c_valid_until c)
  then mkCredential (c_service_account_id c) (c_verifier c) (c_valid_from c)
         (Z.min (c_valid_until c) overlap_until) (c_created_at c)
         (Some (default valid_from (c_superseded_at c))) (c_revoked_at c) (c_last_used_at c)
  else c.
(** A credential after the revocation of its account. *)
Definition ended (account_id : string) (at_time : time) (c : CredentialRec) : CredentialRec :=
  if String.eqb (c_service_account_id c) account_id
  then mkCredential (c_service_account_id c) (c_verifier c) (c_valid_from c)
         (Z.max (c_valid_from c) (Z.min (c_valid_until c) at_time)) (c_created_at c)
         (c_superseded_at c) (Some (default at_time (c_revoked_at c))) (c_last_used_at c)
  else c.
Definition used (at_time : time) (c : CredentialRec) : CredentialRec :=
  mkCredential (c_service_account_id c) (c_verifier c) (c_valid_from c) (c_valid_until c)
    (c_created_at c) (c_superseded_at c) (c_revoked_at c) (Some at_time).
Definition succeeded (now : time) (nonce ciphertext : bytes) (m : CommandRec) : CommandRec :=
  mkCommand (m_intent_hash m) "completed_success" (Some nonce) (Some ciphertext)
    (m_error_code m) (m_created_at m) now (Some now).
Definition failed_with (now : time) (code : string) (m : CommandRec) : CommandRec :=
  mkCommand (m_intent_hash m) "completed_error" (m_response_nonce m) (m_response_ciphertext m)
    (Some code) (m_created_at m) now (Some now).
Definition issuing (at_time : time) (m : CommandRec) : CommandRec :=
  mkCommand (m_intent_hash m) "issuing" (m_response_nonce m) (m_response_ciphertext m)
    (m_error_code m) (m_created_at m) at_time (m_completed_at m).
Definition reserved (now : time) (intent : bytes) : CommandRec :=
  mkCommand intent "reserved" None None None now now None.

(** ** Inversion *)

Lemma update_where_fmap {K A} `{Countable K} (check : K → A → bool) (f : K → A → option A)
    (g : A → A) m m' :
  (∀ k r, default r (f k r) = g r) → update_where check f m = Ok m' → m' = g <$> m.
Proof.
  intros Hg E. apply map_eq. intros k. rewrite (update_where_lookup _ _ _ _ k E), lookup_fmap.
  destruct (m !! k) as [r|]; simpl; [|done]. rewrite <-(Hg k r). by destruct (f k r).
Qed.

Lemma insert_account_inv id org subject name name_key now db x db' :
  insert_account id org subject name name_key now db = Ok (x, db') →
  accounts db !! id = None
  ∧ map_Forall (λ _ r, a_subject r ≠ subject
                 ∧ ¬ (a_organization_id r = org ∧ a_name_key r = name_key)) (accounts db)
  ∧ db' = set_accounts (<[id := new_account org subject name name_key now]> (accounts db)) db.
Proof.
  unfold insert_account. destruct (negb _); [done|]. unfold account_conflict.
  case_bool_decide as H1; [done|]. case_bool_decide as H2; [done|].
  case_bool_decide as H3; [done|]. intros [= <- <-]. apply eq_None_not_Some in H1.
  rewrite map_not_Exists in H2, H3. split; [done|]. split; [|done].
  intros k r Hk. split; [by apply (H2 k)|by apply (H3 k)].
Qed.

Lemma insert_credential_inv id account verifier t1 t2 now db x db' :
  insert_credential id account verifier t1 t2 now db = Ok (x, db') →
  credentials db !! id = None ∧ is_Some (accounts db !! account)
  ∧ db' = set_credentials (<[id := new_credential account verifier t1 t2 now]> (credentials db)) db.
Proof.
  unfold insert_credential. destruct (negb _); [done|].
  destruct (credentials db !! id) eqn:E1; [done|].
  destruct (accounts db !! account) eqn:E2; [|done]. intros [= <- <-]. eauto.
Qed.

Lemma bound_credentials_inv id t1 t2 now db x db' :
  bound_credentials id t1 t2 now db = Ok (x, db') →
  db' = set_credentials (bounded id t1 t2 <$> credentials db) db.
Proof.
  intros (m & E & [= <- <-])%bind_ok_Ok. f_equal. eapply update_where_fmap; [|exact E].
  intros k r. unfold bounded. by destruct (_ && _).
Qed.

Lemma revoke_credentials_inv id t now db x db' :
  revoke_credentials id t now db = Ok (x, db') →
  db' = set_credentials (ended id t <$> credentials db) db.
Proof.
  intros (m & E & [= <- <-])%bind_ok_Ok. f_equal. eapply update_where_fmap; [|exact E].
  intros k r. unfold ended. by destruct (String.eqb _ _).
Qed.

Lemma advance_account_inv id t a now db x db' :
  accounts db !! id = Some a → advance_account id t now db = Ok (x, db') →
  db' = set_accounts (<[id := advanced t a]> (accounts db)) db.
Proof.
  intros Ha. unfold advance_account. rewrite Ha. intros (v & Ev & ([n m] & E & [= <- <-])%bind_ok_Ok)%bind_ok_Ok.
  unfold bigint in Ev. destruct (in_i64 _); [|done]. injection Ev as <-.
  apply update_row_inv in E as [(_ & _ & Hno)|(_ & r & r' & Hr & [= <-] & _ & ->)];
    [by specialize (Hno _ Ha)|]. rewrite Ha in Hr. by injection Hr as <-.
Qed.

Lemma mark_account_revoked_inv id t a now db x db' :
  accounts db !! id = Some a → mark_account_revoked id t now db = Ok (x, db') →
  db' = set_accounts (<[id := revoked_account_rec t a]> (accounts db)) db.
Proof.
  intros Ha. unfold mark_account_revoked. rewrite Ha.
  intros (v & Ev & ([n m] & E & [= <- <-])%bind_ok_Ok)%bind_ok_Ok.
  unfold bigint in Ev. destruct (in_i64 _); [|done]. injection Ev as <-.
  apply update_row_inv in E as [(_ & _ & Hno)|(_ & r & r' & Hr & [= <-] & _ & ->)];
    [by specialize (Hno _ Ha)|]. rewrite Ha in Hr. by injection Hr as <-.
Qed.

Lemma record_credential_use_inv id t c now db x db' :
  credentials db !! id = Some c → record_credential_use id t now db = Ok (x, db') →
  db' = set_credentials (<[id := used t c]> (credentials db)) db.
Proof.
  intros Hc ([n m] & E & [= <- <-])%bind_ok_Ok.
  apply update_row_inv in E as [(_ & _ & Hno)|(_ & r & r' & Hr & [= <-] & _ & ->)];
    [by specialize (Hno _ Hc)|]. rewrite Hc in Hr. by injection Hr as <-.
Qed.

(** A command is changed exactly when it was open. *)
Lemma command_update_inv key f db (n : Z) db' :
  bind_ok (update_row command_check key f (commands db))
    (λ p, Ok (p.1, set_commands p.2 db)) = Ok (n, db') →
  (n = 0 ∧ db' = db ∧ ∀ m, commands db !! key = Some m → f m = None)
  ∨ (n = 1 ∧ ∃ m m', commands db !! key = Some m ∧ f m = Some m' ∧ command_check key m' = true
             ∧ db' = set_commands (<[key := m']> (commands db)) db).
Proof.
  intros ([k m] & E & [= <- <-])%bind_ok_Ok. simpl.
  apply update_row_inv in E as [(-> & -> & Hno)|(-> & r & r' & Hr & Hf & Hc & ->)].
  - left. split; [done|]. split; [by destruct db|done].
  - right. split; [done|]. eauto 10.
Qed.

Lemma complete_command_success_inv key nonce ct now db (n : Z) db' :
  complete_command_success key nonce ct now db = Ok (n, db') → n = 1 →
  ∃ m, commands db !! key = Some m ∧ open_status (m_status m) = true
       ∧ command_check key (succeeded now nonce ct m) = true
       ∧ db' = set_commands (<[key := succeeded now nonce ct m]> (commands db)) db.
Proof.
  intros E ->. apply command_update_inv in E as [[? _]|(_ & m & m' & Hm & Hf & Hc & ->)]; [done|].
  destruct (open_status _) eqn:Ho; [|done]. injection Hf as <-. eauto.
Qed.

Lemma complete_command_error_inv key code now db (n : Z) db' :
  complete_command_error key code now db = Ok (n, db') →
  (n = 0 ∧ db' = db ∧ ∀ m, commands db !! key = Some m → open_status (m_status m) = false)
  ∨ (n = 1 ∧ ∃ m, commands db !! key = Some m ∧ open_status (m_status m) = true
       ∧ db' = set_commands (<[key := failed_with now code m]> (commands db)) db).
Proof.
  intros E. apply command_update_inv in E as [(-> & -> & Hno)|(-> & m & m' & Hm & Hf & Hc & ->)].
  - left. split; [done|]. split; [done|]. intros m Hm. specialize (Hno m Hm). by destruct (open_status _).
  - right. split; [done|]. destruct (open_status _) eqn:Ho; [|done]. injection Hf as <-. eauto.
Qed.

Lemma mark_command_issuing_inv caller key cid t now db (n : Z) db' :
  mark_command_issuing caller key cid t now db = Ok (n, db') →
  (n = 0 ∧ db' = db
   ∧ ∀ m, commands db !! (caller, "exchange_secret", key) = Some m → m_status m = "reserved" →
          credentials db !! cid = None)
  ∨ (n = 1 ∧ ∃ m, commands db !! (caller, "exchange_secret", key) = Some m
       ∧ m_status m = "reserved"
       ∧ db' = set_commands (<[(caller, "exchange_secret", key) := issuing t m]> (commands db)) db).
Proof.
  intros E. apply command_update_inv in E as [(-> & -> & Hno)|(-> & m & m' & Hm & Hf & Hc & ->)];
    [left|right].
  - split_and!; [done..|]. intros m Hm Hs. specialize (Hno _ Hm). simpl in Hno.
    rewrite Hs in Hno. simpl in Hno. case_bool_decide as Hc; [done|]. by apply eq_None_not_Some.
  - split; [done|]. destruct (_ && _) eqn:Ho; [|done]. injection Hf as <-. bool_prop. eauto.
Qed.
