(* ===== verification/Wire.v ===== *)
(** * Wire: the encoding functions of the two contracts

    The derived codecs of the remaining request and response types, and the [encode_*] and
    [decode_*] functions of both [generated.rs] files.  Text and syntax trees are exchanged by
    [lenso_contract_runtime], which is a parameter. *)
From S2P Require Import Prelude Text Platform Contract DomainErrors Secret.

Open Scope string_scope.
Open Scope list_scope.
Open Scope Z_scope.
Open Scope result_scope.

(** ** Derived codecs, continued from [Contract] *)

Definition ser_list {A} `{Serialize A} (l : list A) : json := JArray (map to_value l).
Definition de_list {A} `{Deserialize A} (j : json) : result (list A) string :=
  match j with JArray l => collect from_value l | _ => Err "invalid type: expected a sequence" end.

#[export] Instance ser_get_request : Serialize GetServiceAccountRequest := λ r, JObject [
  ("organization_id", JString (get_organization_id r));
  ("service_account_id", JString (get_service_account_id r))].
#[export] Instance ser_get_response : Serialize GetServiceAccountResponse := λ r, JObject [
  ("account", to_value (got_account r))].
#[export] Instance ser_list_request : Serialize ListServiceAccountsRequest := λ r, JObject [
  ("after", ser_option (list_after r));
  ("limit", JString (list_limit r));
  ("organization_id", JString (list_organization_id r))].
#[export] Instance ser_list_response : Serialize ListServiceAccountsResponse := λ r, JObject [
  ("accounts", ser_list (listed_accounts r));
  ("next_cursor", ser_option (next_cursor r))].

#[export] Instance de_create_request : Deserialize CreateServiceAccountRequest := λ j,
  let? m := members ["idempotency_key"; "name"; "organization_id"] j in
  let? key := bind_ok (field "idempotency_key" m) de_string in
  let? name := bind_ok (field "name" m) de_string in
  let? organization_id := bind_ok (field "organization_id" m) de_string in
  Ok {| create_idempotency_key := key; create_name := name;
        create_organization_id := organization_id |}.
#[export] Instance de_get_request : Deserialize GetServiceAccountRequest := λ j,
  let? m := members ["organization_id"; "service_account_id"] j in
  let? organization_id := bind_ok (field "organization_id" m) de_string in
  let? service_account_id := bind_ok (field "service_account_id" m) de_string in
  Ok {| get_organization_id := organization_id; get_service_account_id := service_account_id |}.
#[export] Instance de_get_response : Deserialize GetServiceAccountResponse := λ j,
  let? m := members ["account"] j in
  let? account := bind_ok (field "account" m) from_value in
  Ok {| got_account := account |}.
#[export] Instance de_list_request : Deserialize ListServiceAccountsRequest := λ j,
  let? m := members ["after"; "limit"; "organization_id"] j in
  let? after := bind_ok (field "after" m) de_option in
  let? limit := bind_ok (field "limit" m) de_string in
  let? organization_id := bind_ok (field "organization_id" m) de_string in
  Ok {| list_after := after; list_limit := limit; list_organization_id := organization_id |}.
#[export] Instance de_list_response : Deserialize ListServiceAccountsResponse := λ j,
  let? m := members ["accounts"; "next_cursor"] j in
  let? accounts := bind_ok (field "accounts" m) de_list in
  let? cursor := bind_ok (field "next_cursor" m) de_option in
  Ok {| listed_accounts := accounts; next_cursor := cursor |}.
#[export] Instance de_revoke_request : Deserialize RevokeServiceAccountRequest := λ j,
  let? m := members ["expected_revision"; "idempotency_key"; "organization_id";
    "service_account_id"] j in
  let? revision := bind_ok (field "expected_revision" m) de_string in
  let? key := bind_ok (field "idempotency_key" m) de_string in
  let? organization_id := bind_ok (field "organization_id" m) de_string in
  let? service_account_id := bind_ok (field "service_account_id" m) de_string in
  Ok {| revoke_expected_revision := revision; revoke_idempotency_key := key;
        revoke_organization_id := organization_id; revoke_service_account_id := service_account_id |}.
#[export] Instance de_rotate_request : Deserialize RotateServiceAccountSecretRequest := λ j,
  let? m := members ["expected_revision"; "idempotency_key"; "organization_id";
    "service_account_id"] j in
  let? revision := bind_ok (field "expected_revision" m) de_string in
  let? key := bind_ok (field "idempotency_key" m) de_string in
  let? organization_id := bind_ok (field "organization_id" m) de_string in
  let? service_account_id := bind_ok (field "service_account_id" m) de_string in
  Ok {| rotate_expected_revision := revision; rotate_idempotency_key := key;
        rotate_organization_id := organization_id; rotate_service_account_id := service_account_id |}.
#[export] Instance de_exchange_request : Deserialize ExchangeServiceAccountSecretRequest := λ j,
  let? m := members ["idempotency_key"; "secret"] j in
  let? key := bind_ok (field "idempotency_key" m) de_string in
  let? secret := bind_ok (field "secret" m) de_string in
  Ok {| exchange_idempotency_key := key; exchange_secret_text := secret |}.

(** The domain errors through their hand-written codec. *)
#[export] Instance ser_domain_error {E} `{!DomainError E} : Serialize E := serialize_error.
#[export] Instance de_domain_error {E} `{!DomainError E} : Deserialize E := deserialize_error.

(** ** Encoding and decoding *)

(** [lenso_contract_runtime]: text of a serialized value, and back.  The text is JSON written and
    read by [serde_json], so only a plain value is sure to come back unchanged. *)
Class ContractRuntime := {
  portable_encode : json → result string string;
  portable_decode : string → result json string }.
Class ContractRuntimeLaws `{ContractRuntime} : Prop := {
  portable_round_trip v wire :
    plain_json v = true → portable_encode v = Ok wire → portable_decode wire = Ok v }.

Section wire.
Context `{ContractRuntime}.

Definition encode_portable_json {A} `{!Serialize A} (value : A) : result string string :=
  portable_encode (to_value value).
Definition decode_portable_json {A} `{!Deserialize A} (wire : string) : result A string :=
  bind_ok (portable_decode wire) from_value.

Definition encode_create_request (value : CreateServiceAccountRequest) : result string string :=
  encode_portable_json value.
Definition decode_create_request (wire : string) : result CreateServiceAccountRequest string :=
  decode_portable_json wire.
Definition encode_create_response (value : CreateServiceAccountResponse) : result string string :=
  encode_portable_json value.
Definition decode_create_response (wire : string) : result CreateServiceAccountResponse string :=
  decode_portable_json wire.
Definition encode_create_error (value : CreateError.t) : result string string :=
  encode_portable_json value.
Definition decode_create_error (wire : string) : result CreateError.t string :=
  decode_portable_json wire.

Definition encode_get_request (value : GetServiceAccountRequest) : result string string :=
  encode_portable_json value.
Definition decode_get_request (wire : string) : result GetServiceAccountRequest string :=
  decode_portable_json wire.
Definition encode_get_response (value : GetServiceAccountResponse) : result string string :=
  encode_portable_json value.
Definition decode_get_response (wire : string) : result GetServiceAccountResponse string :=
  decode_portable_json wire.
Definition encode_get_error (value : GetError.t) : result string string :=
  encode_portable_json value.
Definition decode_get_error (wire : string) : result GetError.t string :=
  decode_portable_json wire.

Definition encode_list_request (value : ListServiceAccountsRequest) : result string string :=
  encode_portable_json value.
Definition decode_list_request (wire : string) : result ListServiceAccountsRequest string :=
  decode_portable_json wire.
Definition encode_list_response (value : ListServiceAccountsResponse) : result string string :=
  encode_portable_json value.
Definition decode_list_response (wire : string) : result ListServiceAccountsResponse string :=
  decode_portable_json wire.
Definition encode_list_error (value : ListError.t) : result string string :=
  encode_portable_json value.
Definition decode_list_error (wire : string) : result ListError.t string :=
  decode_portable_json wire.

Definition encode_revoke_request (value : RevokeServiceAccountRequest) : result string string :=
  encode_portable_json value.
Definition decode_revoke_request (wire : string) : result RevokeServiceAccountRequest string :=
  decode_portable_json wire.
Definition encode_revoke_response (value : RevokeServiceAccountResponse) : result string string :=
  encode_portable_json value.
Definition decode_revoke_response (wire : string) : result RevokeServiceAccountResponse string :=
  decode_portable_json wire.
Definition encode_revoke_error (value : RevokeError.t) : result string string :=
  encode_portable_json value.
Definition decode_revoke_error (wire : string) : result RevokeError.t string :=
  decode_portable_json wire.

Definition encode_rotate_secret_request (value : RotateServiceAccountSecretRequest) : result string string :=
  encode_portable_json value.
Definition decode_rotate_secret_request (wire : string) : result RotateServiceAccountSecretRequest string :=
  decode_portable_json wire.
Definition encode_rotate_secret_response (value : RotateServiceAccountSecretResponse) : result string string :=
  encode_portable_json value.
Definition decode_rotate_secret_response (wire : string) : result RotateServiceAccountSecretResponse string :=
  decode_portable_json wire.
Definition encode_rotate_secret_error (value : RotateSecretError.t) : result string string :=
  encode_portable_json value.
Definition decode_rotate_secret_error (wire : string) : result RotateSecretError.t string :=
  decode_portable_json wire.

Definition encode_exchange_secret_request (value : ExchangeServiceAccountSecretRequest) : result string string :=
  encode_portable_json value.
Definition decode_exchange_secret_request (wire : string) : result ExchangeServiceAccountSecretRequest string :=
  decode_portable_json wire.
Definition encode_exchange_secret_response (value : ExchangeServiceAccountSecretResponse) : result string string :=
  encode_portable_json value.
Definition decode_exchange_secret_response (wire : string) : result ExchangeServiceAccountSecretResponse string :=
  decode_portable_json wire.
Definition encode_exchange_secret_error (value : ExchangeSecretError.t) : result string string :=
  encode_portable_json value.
Definition decode_exchange_secret_error (wire : string) : result ExchangeSecretError.t string :=
  decode_portable_json wire.

(** ** Round trip *)

(** Decoding a text that [encode] produced gives the value back. *)
Definition round_trips {A} (wf : A → Prop) (encode : A → result string string)
    (decode : string → result A string) : Prop :=
  ∀ value wire, wf value → encode value = Ok wire → decode wire = Ok value.
Definition anything {A} (_ : A) : Prop := True.

Context `{!ContractRuntimeLaws}.

Lemma portable_round_trips {A} `{!Serialize A, !Deserialize A} (wf : A → Prop) :
  (∀ v : A, wf v → plain_json (to_value v) = true ∧ from_value (to_value v) = Ok v) →
  round_trips wf (encode_portable_json (A := A)) decode_portable_json.
Proof.
  intros Hv value wire Hwf E. unfold decode_portable_json. destruct (Hv value Hwf) as [Hp Hrt].
  by rewrite (portable_round_trip _ _ Hp E).
Qed.

Lemma collect_wire {A} `{!Serialize A, !Deserialize A} (l : list A) :
  (∀ v : A, from_value (to_value v) = Ok v) → de_list (ser_list l) = Ok l.
Proof. intros Hv. simpl. induction l as [|x l IH]; [done|]. simpl. by rewrite Hv, IH. Qed.

Lemma list_response_wire (r : ListServiceAccountsResponse) : from_value (to_value r) = Ok r.
Proof.
  destruct r as [accounts cursor]. unfold to_value, ser_list_response, from_value, de_list_response.
  cbn [members bind_ok]. unfold field. cbn [List.filter fst snd String.eqb Ascii.eqb Bool.eqb bind_ok].
  cbn [listed_accounts next_cursor]. rewrite (collect_wire accounts summary_wire).
  by destruct cursor.
Qed.

(** A page nests four deep, however many accounts it lists. *)
Lemma list_response_plain (r : ListServiceAccountsResponse) : plain_json (to_value r) = true.
Proof.
  destruct r as [accounts cursor]. unfold to_value, ser_list_response. cbn [listed_accounts next_cursor].
  assert (json_depth (ser_list accounts) ≤ 3 ∧ json_integers (ser_list accounts) = true)%nat as [Hd Hi].
  { unfold ser_list. cbn [json_depth json_integers]. induction accounts as [|s l [IHd IHi]]; [split; [simpl; lia|done]|].
    cbn [map fold_right forallb]. rewrite IHi, andb_true_r.
    split; [|by destruct s as [? [] ? ? ? [] [] ? [] ?]].
    assert (json_depth (to_value s) = 1%nat) as -> by (by destruct s as [? [] ? ? ? [] [] ? [] ?]).
    cbn [json_depth] in IHd. lia. }
  unfold plain_json. apply andb_true_iff. rewrite Nat.ltb_lt. cbn [json_depth json_integers fold_right forallb snd].
  unfold to_value, ser_list_response in *.
  split; [|by rewrite Hi; destruct cursor].
  unfold ser_list in Hd. cbn [json_depth] in Hd. destruct cursor; cbn -[Nat.max]; lia.
Qed.

(** A domain error that survives the wire: the members an unknown error carries beyond its code
    and payload are an ordered map without those two names, and the whole is plain. *)
Definition wire_domain_error {E} `{!DomainError E} (e : E) : Prop :=
  wf_domain_error e ∧ plain_json (to_value e) = true.

(** Every error that a decode function returns is a well formed domain error. *)
Definition decodes_well_formed {E} `{!DomainError E} (decode : string → result E string) : Prop :=
  ∀ wire e, decode wire = Ok e → wf_domain_error e.

Lemma portable_decodes_well_formed {E} `{!DomainError E, !DomainErrorLaws E} :
  decodes_well_formed (decode_portable_json (A := E)).
Proof. intros wire e (j & _ & E1)%bind_ok_Ok. by eapply deserialize_wf. Qed.

(** C37: every request, response and domain error of the six operations that an encode function
    writes is read back unchanged by the matching decode function. Of an unknown domain error
    this needs that its extra members are an ordered map without the names code and payload, and
    that its values are ones JSON keeps (signed 64-bit integers for numbers, fewer than 128
    nested containers); the first holds of every error a decode function returns. *)
Theorem wire_values_round_trip :
  round_trips anything encode_create_request decode_create_request
  ∧ round_trips anything encode_create_response decode_create_response
  ∧ round_trips wire_domain_error encode_create_error decode_create_error
  ∧ round_trips anything encode_get_request decode_get_request
  ∧ round_trips anything encode_get_response decode_get_response
  ∧ round_trips wire_domain_error encode_get_error decode_get_error
  ∧ round_trips anything encode_list_request decode_list_request
  ∧ round_trips anything encode_list_response decode_list_response
  ∧ round_trips wire_domain_error encode_list_error decode_list_error
  ∧ round_trips anything encode_revoke_request decode_revoke_request
  ∧ round_trips anything encode_revoke_response decode_revoke_response
  ∧ round_trips wire_domain_error encode_revoke_error decode_revoke_error
  ∧ round_trips anything encode_rotate_secret_request decode_rotate_secret_request
  ∧ round_trips anything encode_rotate_secret_response decode_rotate_secret_response
  ∧ round_trips wire_domain_error encode_rotate_secret_error decode_rotate_secret_error
  ∧ round_trips anything encode_exchange_secret_request decode_exchange_secret_request
  ∧ round_trips anything encode_exchange_secret_response decode_exchange_secret_response
  ∧ round_trips wire_domain_error encode_exchange_secret_error decode_exchange_secret_error
  ∧ decodes_well_formed decode_create_error ∧ decodes_well_formed decode_get_error
  ∧ decodes_well_formed decode_list_error ∧ decodes_well_formed decode_revoke_error
  ∧ decodes_well_formed decode_rotate_secret_error
  ∧ decodes_well_formed decode_exchange_secret_error.
Proof.
  split_and!; try apply portable_decodes_well_formed; apply portable_round_trips; intros v Hwf;
    first [by destruct Hwf; split; [|apply deserialize_serialize]|split];
    first [apply create_response_plain|apply list_response_plain|apply revoke_response_plain
          |apply rotate_response_plain|apply exchange_response_plain
          |first [apply create_response_wire|apply list_response_wire|apply revoke_response_wire
                 |apply rotate_response_wire|apply exchange_response_wire]
          |by destruct v|by destruct v as [[]]|destruct v as [[] ? ?]; done
          |destruct v as [[? [] ? ? ? [] [] ? [] ?]]; done].
Qed.
End wire.
