(* ===== verification/Validation.v ===== *)
(** * Validation: what the guards on requests guarantee

    Numbers have one accepted spelling; a request that passes the guards of [management.rs]
    cannot violate a CHECK constraint; the identifiers the plug-in generates pass its own
    guards; keys built by concatenation are unambiguous. *)
From Stdlib Require Import Ascii.
From S2P Require Import Prelude Text Platform Contract DomainErrors Secret Config.
From S2P Require Import Database Statements Integrity.

Open Scope string_scope.
Open Scope list_scope.
Open Scope Z_scope.

(** ** Numbers *)

(** [parse_revision] accepts exactly the canonical decimal spellings of the positive 64-bit
    integers. *)
Theorem parse_revision_canonical value r :
  parse_revision value = Some r ↔ 0 < r ≤ i64_max ∧ value = to_string r.
Proof.
  unfold parse_revision. rewrite opt_filter_Some, andb_true_iff, Z.ltb_lt, String.eqb_eq. split.
  - intros [Hp [Hr <-]]. apply parse_i64_range in Hp as Hb. split; [lia|done].
  - intros [Hr ->]. rewrite parse_i64_to_string by lia. split; [done|]. split; [lia|done].
Qed.

(** [parse_page_limit] accepts exactly the canonical decimal spellings of the integers from 1
    to the configured page size, within 32 bits. *)
Theorem parse_page_limit_canonical value max n :
  parse_page_limit value max = Some n ↔ 0 < n ≤ max ∧ n ≤ u32_max ∧ value = to_string n.
Proof.
  unfold parse_page_limit.
  rewrite opt_filter_Some, !andb_true_iff, Z.ltb_lt, Z.leb_le, String.eqb_eq. split.
  - intros [Hp [[Hr Hm] <-]]. apply parse_u32_range in Hp as Hb. split; [lia|]. split; [lia|done].
  - intros [Hr [Hm ->]]. rewrite parse_u32_to_string by lia. split; [done|]. split; [lia|done].
Qed.

(** C26: parse_revision accepts exactly the canonical decimal spellings of the positive 64-bit
    integers, and parse_page_limit those of the integers from 1 to the configured page size,
    within 32 bits. *)
Theorem numeric_fields_are_canonical :
  (∀ value r, parse_revision value = Some r ↔ 0 < r ≤ i64_max ∧ value = to_string r)
  ∧ (∀ value max n,
       parse_page_limit value max = Some n ↔ 0 < n ≤ max ∧ n ≤ u32_max ∧ value = to_string n).
Proof. split; [exact parse_revision_canonical|exact parse_page_limit_canonical]. Qed.

(** ** CHECK constraints *)

Lemma token_byte_ascii c : token_byte c = true → is_ascii c = true.
Proof.
  unfold token_byte, is_ascii_alphanumeric, is_ascii_digit, in_range, is_byte, is_ascii.
  rewrite !orb_true_iff, !andb_true_iff, !Z.leb_le, !Z.eqb_eq, Z.ltb_lt. lia.
Qed.

Lemma char_length_ascii s :
  Forall (λ c, is_ascii c = true) (chars s) → char_length s = len s.
Proof.
  unfold char_length. rewrite len_chars. intros Hs. f_equal. f_equal.
  induction Hs as [|c l Hc Hl IH]; simpl; [done|].
  unfold in_range, is_ascii in *. apply Z.ltb_lt in Hc.
  destruct (Z.leb_spec 128 (byte_val c)); [lia|]. simpl. by f_equal.
Qed.

Lemma char_length_token s max :
  valid_token s max = true → between 1 max (char_length s) = true.
Proof.
  rewrite valid_token_spec. intros [Hlen Hs]. rewrite char_length_ascii.
  - unfold between. apply andb_true_iff. rewrite !Z.leb_le. lia.
  - eapply Forall_impl; [exact Hs|]. apply token_byte_ascii.
Qed.

Lemma drop_spaces_id l : (∀ c r, l = c :: r → is_byte 32 c = false) → drop_spaces l = l.
Proof. destruct l as [|c r]; intros Hl; simpl; [done|]. by rewrite (Hl c r eq_refl). Qed.

Lemma btrim_trim s : btrim (trim s) = trim s.
Proof.
  assert (∀ c, (∃ r, chars (trim s) = c :: r) ∨ (∃ r, chars (trim s) = r ++ [c]) → is_byte 32 c = false)
    as Hends.
  { intros c Hc. apply trim_ends in Hc. unfold ws1 in Hc. by apply orb_false_iff in Hc as [_ ?]. }
  unfold btrim. rewrite (drop_spaces_id (chars (trim s))), drop_spaces_id.
  - by rewrite reverse_involutive, of_chars_chars.
  - intros c r Hr. apply Hends. right. exists (reverse r).
    by rewrite <-(reverse_involutive (chars (trim s))), Hr, reverse_cons.
  - intros c r Hr. apply Hends. left. by exists r.
Qed.

Lemma lower_chars s : chars (to_ascii_lowercase s) = map ascii_lower (chars s).
Proof. unfold to_ascii_lowercase. apply chars_of_chars. Qed.

Lemma ascii_lower_ascii c : is_ascii c = true → is_ascii (ascii_lower c) = true.
Proof.
  unfold ascii_lower, in_range, is_ascii, byte_val. rewrite Z.ltb_lt.
  destruct (andb _ _) eqn:E; [|by rewrite Z.ltb_lt]. bool_prop. intros Hc.
  rewrite Z.ltb_lt, Ascii.N_ascii_embedding by lia. lia.
Qed.

(** C25: a create request that passes the handler's validation, with an identifier and a subject
    the code accepts, builds an account row that passes every CHECK constraint of the migration.
    *)
Theorem valid_request_meets_the_constraints req id subject now :
  valid_name (create_name req) = true → valid_token (create_organization_id req) 256 = true →
  valid_token id 128 = true → valid_token subject 256 = true →
  account_check id
    (new_account (create_organization_id req) subject (trim (create_name req))
       (to_ascii_lowercase (trim (create_name req))) now) = true.
Proof.
  intros Hname%valid_name_spec Horg Hid Hsub. destruct Hname as [Hlen Hchars].
  assert (Forall (λ c, is_ascii c = true) (chars (trim (create_name req)))) as Hascii
    by (eapply Forall_impl; [exact Hchars|]; by intros c []).
  unfold account_check, new_account. simpl.
  rewrite (char_length_token id 128), (char_length_token _ 256 Horg), (char_length_token _ 256 Hsub) by done.
  rewrite !char_length_ascii; [|rewrite lower_chars; apply Forall_fmap; eapply Forall_impl;
    [exact Hascii|apply ascii_lower_ascii]|exact Hascii].
  assert (len (to_ascii_lowercase (trim (create_name req))) = len (trim (create_name req))) as ->
    by (by rewrite !len_chars, lower_chars, length_map).
  rewrite btrim_trim, !String.eqb_refl. unfold between.
  rewrite !(proj2 (Z.leb_le _ _)) by lia. done.
Qed.

(** ** Generated identifiers *)

Section generated.
Context `{Platform}.

Lemma base64_token_byte c : base64_byte c = true → token_byte c = true.
Proof.
  unfold base64_byte, token_byte. rewrite !orb_true_iff. tauto.
Qed.

Lemma base64_token `{!Base64Laws} prefix b max :
  all_bytes token_byte prefix = true → 1 ≤ len prefix →
  len prefix + (4 * len b + 2) / 3 ≤ max → valid_token (prefix +:+ base64_encode b) max = true.
Proof.
  intros Hp H1 Hmax. apply valid_token_spec. rewrite <-all_bytes_forall, all_bytes_app, Hp.
  rewrite (all_bytes_mono _ _ _ base64_token_byte (base64_alphabet b)).
  rewrite len_app, base64_length. pose proof (len_nonneg b).
  assert (0 ≤ (4 * len b + 2) / 3) by (apply Z.div_pos; lia). split; [lia|done].
Qed.

(** C30: the account identifiers, credential identifiers and secrets the plug-in generates pass
    its own parsers and length limits, and a secret parses back to its credential. *)
Theorem generated_identifiers_are_accepted `{!Base64Laws} random i m id cred :
  len random = 24 → len i = 18 → len m = 32 →
  random_id "sa_" (Ok random) = Ok id → generate (Ok i) (Ok m) = Ok cred →
  valid_token id 128 = true
  ∧ credential_id (expose cred) = Some (cs_credential_id cred)
  ∧ len (expose cred) = 81 ∧ 1 ≤ len (cs_credential_id cred) ≤ 128.
Proof.
  intros Hr Hi Hm Hid Hgen. unfold random_id in Hid. injection Hid as <-.
  split; [apply base64_token; [done|done|rewrite Hr; done]|].
  destruct (generated_parses i m cred Hi Hm Hgen) as [Hc Hl]. split; [done|].
  apply generate_Ok in Hgen as (i' & m' & [= <-] & [= <-] & ->). unfold expose in *. simpl in Hl.
  cbn [cs_wire cs_credential_id]. split; [|cbn; lia].
  rewrite !len_app. change (len (String "." ?s)) with (Z.of_nat (S (String.length s))).
  pose proof (base64_length m) as Hb. rewrite Hm in Hb.
  pose proof (base64_length i) as Hb2. rewrite Hi in Hb2. unfold len in *. simpl String.length.
  change ((4 * 32 + 2) / 3) with 43 in Hb. change ((4 * 18 + 2) / 3) with 24 in Hb2. lia.
Qed.

(** ** Unambiguous concatenations *)

(** For valid callers and operations the additional data of a receipt determines the
    caller, the operation and the idempotency key, so no receipt decrypts in the place of
    another. *)
Theorem receipt_aad_injective c o k c' o' k' :
  valid_caller c = true → valid_caller c' = true →
  valid_token o 64 = true → valid_token o' 64 = true →
  receipt_aad c o k = receipt_aad c' o' k' → c = c' ∧ o = o' ∧ k = k'.
Proof.
  intros Hc%caller_no_nul Hc'%caller_no_nul Ho%token_no_nul Ho'%token_no_nul E.
  unfold receipt_aad in E. apply separated_inj in E as [-> E]; [|done..].
  apply separated_inj in E as [-> ->]; done.
Qed.

Lemma secret_no_nul secret cid : credential_id secret = Some cid → Ascii.zero ∉ chars secret.
Proof.
  intros (m & -> & _ & Hid & _ & Hm)%credential_id_Some.
  rewrite all_bytes_forall, Forall_forall in Hid, Hm. rewrite !chars_app, !elem_of_app.
  change (chars (String "." m)) with ("."%char :: chars m). rewrite elem_of_cons.
  intros [Hin|[Hin|[Hin|Hin]]].
  - vm_compute in Hin. set_solver.
  - by specialize (Hid _ Hin).
  - discriminate.
  - by specialize (Hm _ Hin).
Qed.

(** For well-formed secrets the input of the password hash determines the secret and the
    pepper. *)
Theorem peppered_input_is_unambiguous s p s' p' cid cid' :
  credential_id s = Some cid → credential_id s' = Some cid' →
  peppered s p = peppered s' p' → s = s' ∧ p = p'.
Proof.
  intros Hs%secret_no_nul Hs'%secret_no_nul E. by apply separated_inj in E.
Qed.

(** C31: for valid callers and operations the additional data of a receipt determines the
    caller, the operation and the idempotency key; and for well-formed secrets the input of the
    password hash determines the secret and the pepper. *)
Theorem separated_texts_are_unambiguous c o k c' o' k' s p s' p' cid cid' :
  valid_caller c = true → valid_caller c' = true →
  valid_token o 64 = true → valid_token o' 64 = true →
  credential_id s = Some cid → credential_id s' = Some cid' →
  (receipt_aad c o k = receipt_aad c' o' k' ↔ c = c' ∧ o = o' ∧ k = k')
  ∧ (peppered s p = peppered s' p' ↔ s = s' ∧ p = p').
Proof.
  intros Hc Hc' Ho Ho' Hs Hs'. split; (split; [|naive_solver]).
  - by apply receipt_aad_injective.
  - by apply (peppered_input_is_unambiguous _ _ _ _ cid cid').
Qed.

(** ** Intents *)

(** The text an intent digests, and two requests whose texts differ and still collide. *)
Definition intent_text {T} `{Serialize T} (actor : string) (r : T) : result bytes string :=
  json_to_vec (to_value (actor, r)).
Definition collide {T} `{Serialize T} (actor : string) (r : T) (actor' : string) (r' : T) : Prop :=
  ∃ b b', intent_text actor r = Ok b ∧ intent_text actor' r' = Ok b' ∧ b ≠ b'
          ∧ sha256 b = sha256 b'.

Lemma intent_binds {T} `{Serialize T} `{!JsonLaws} (actor actor' : string) (r r' : T) h :
  (to_value r = to_value r' → r = r') →
  (∀ (a : string) (x : T), plain_json (to_value (a, x)) = true) →
  actor_intent_hash actor r = Ok h → actor_intent_hash actor' r' = Ok h →
  (actor = actor' ∧ r = r') ∨ collide actor r actor' r'.
Proof.
  intros Hinj Hplain (b & E1 & E2)%bind_ok_Ok (b' & E3 & E4)%bind_ok_Ok.
  rewrite map_err_Ok in E1, E3. unfold digest in *.
  destruct (decide (b = b')) as [<-|Hne]; [left|right; exists b, b'; split_and!; try done; congruence].
  apply json_round_trip in E1, E3; [|by apply Hplain..]. rewrite E1 in E3. injection E3 as -> Hv. split; [done|by apply Hinj].
Qed.

(** C32: two management intents with the same hash have the same actor and the same request,
    unless the digest collides on the two serialized intents themselves. *)
Theorem intents_bind_the_actor_and_the_request `{!JsonLaws} (actor actor' : string) h :
  (∀ r r' : CreateServiceAccountRequest,
     actor_intent_hash actor r = Ok h → actor_intent_hash actor' r' = Ok h →
     (actor = actor' ∧ r = r') ∨ collide actor r actor' r')
  ∧ (∀ r r' : RotateServiceAccountSecretRequest,
     actor_intent_hash actor r = Ok h → actor_intent_hash actor' r' = Ok h →
     (actor = actor' ∧ r = r') ∨ collide actor r actor' r')
  ∧ (∀ r r' : RevokeServiceAccountRequest,
     actor_intent_hash actor r = Ok h → actor_intent_hash actor' r' = Ok h →
     (actor = actor' ∧ r = r') ∨ collide actor r actor' r').
Proof.
  split_and!; intros r r'; apply intent_binds; try done; destruct r, r';
    unfold to_value, ser_create_request, ser_rotate_request, ser_revoke_request; simpl; congruence.
Qed.

(** ** Receipts and verifiers *)

(** Every response encrypted into a receipt decrypts, under the same key and additional
    data, to the same response. *)
Theorem receipts_decrypt `{!CipherLaws, !JsonLaws} secret aad nonce n ct n' ct' n2 ct2
    n3 ct3 (c : CreateServiceAccountResponse) (r : RotateServiceAccountSecretResponse)
    (v : RevokeServiceAccountResponse) (x : ExchangeServiceAccountSecretResponse) :
  (∀ b, nonce = Ok b → len b = 12) →
  encrypt (derive secret) c aad nonce = Ok (n, ct) →
  encrypt (derive secret) r aad nonce = Ok (n', ct') →
  encrypt (derive secret) v aad nonce = Ok (n2, ct2) →
  encrypt (derive secret) x aad nonce = Ok (n3, ct3) →
  decrypt (derive secret) n ct aad = Ok c ∧ decrypt (derive secret) n' ct' aad = Ok r
  ∧ decrypt (derive secret) n2 ct2 aad = Ok v ∧ decrypt (derive secret) n3 ct3 aad = Ok x.
Proof.
  assert (∀ {T} `{Serialize T} (y : T) m q, (∀ b, nonce = Ok b → len b = 12) →
            encrypt (derive secret) y aad nonce = Ok (m, q) → len m = 12) as Hlen.
  { intros T HT y m q Hn. unfold encrypt, seal, receipt_text. intros (? & _ & E)%bind_ok_Ok.
    apply bind_ok_Ok in E as (b & Hb & E). rewrite map_err_Ok in Hb.
    destruct (negb _); [done|]. apply bind_ok_Ok in E as (? & _ & [= <- _]). by apply Hn. }
  intros Hn E1 E2 E3 E4.
  split_and!.
  - eapply decrypt_encrypt; [apply create_response_wire|apply create_response_plain|exact (Hlen _ _ _ _ _ Hn E1)|exact E1].
  - eapply decrypt_encrypt; [apply rotate_response_wire|apply rotate_response_plain|exact (Hlen _ _ _ _ _ Hn E2)|exact E2].
  - eapply decrypt_encrypt; [apply revoke_response_wire|apply revoke_response_plain|exact (Hlen _ _ _ _ _ Hn E3)|exact E3].
  - eapply decrypt_encrypt; [apply exchange_response_wire|apply exchange_response_plain|exact (Hlen _ _ _ _ _ Hn E4)|exact E4].
Qed.

End generated.

(** ** Domain errors on the wire *)

(** The hand-written codecs of the six domain errors read back every error they write,
    unknown errors with a payload and extra members included. *)
Theorem domain_errors_round_trip (c : CreateError.t) (g : GetError.t) (l : ListError.t)
    (v : RevokeError.t) (r : RotateSecretError.t) (x : ExchangeSecretError.t) :
  wf_domain_error c → wf_domain_error g → wf_domain_error l → wf_domain_error v →
  wf_domain_error r → wf_domain_error x →
  deserialize_error (serialize_error c) = Ok c ∧ deserialize_error (serialize_error g) = Ok g
  ∧ deserialize_error (serialize_error l) = Ok l ∧ deserialize_error (serialize_error v) = Ok v
  ∧ deserialize_error (serialize_error r) = Ok r ∧ deserialize_error (serialize_error x) = Ok x.
Proof. intros. split_and!; by apply deserialize_serialize. Qed.

(** ** Configuration *)

Lemma caller_char_length v : valid_caller v = true → between 1 128 (char_length v) = true.
Proof.
  intros Hv. assert (1 ≤ len v ≤ 128 ∧ Forall (λ c, is_ascii c = true) (chars v)) as [Hlen Hascii].
  { unfold valid_caller in Hv. bool_prop. destruct (split_spec "/"%char v) as [Hj _].
    assert (Forall (λ p, valid_token p 128 = true) (split "/"%char v)) as Hall.
    { rewrite Forall_forall. intros p Hp. rewrite forallb_forall in Hv.
      apply Hv. by rewrite <-list_elem_of_In. }
    assert (1 ≤ len (join "/"%char (split "/"%char v))
            ∧ Forall (λ c, is_ascii c = true) (chars (join "/"%char (split "/"%char v)))) as Hjoin.
    { pose proof (split_nonempty "/"%char v) as Hne. revert Hall Hne. clear.
      generalize (split "/"%char v). intros l Hall Hne.
      induction Hall as [|p ps Hp Hps IH]; [done|].
      apply valid_token_spec in Hp as [Hp1 Hp2].
      assert (Forall (λ c, is_ascii c = true) (chars p)) as Hp3
        by (eapply Forall_impl; [exact Hp2|apply token_byte_ascii]).
      destruct ps as [|q ps]; simpl; [split; [lia|done]|].
      destruct (IH ltac:(done)) as [IH1 IH2]. rewrite len_app, chars_app. simpl in *. split.
      - pose proof (len_nonneg (String "/" (join "/"%char (q :: ps)))). simpl in *. lia.
      - apply Forall_app. split; [done|]. constructor; [done|exact IH2]. }
    rewrite Hj in Hjoin. destruct Hjoin as [Hj1 Hj2]. split; [lia|done]. }
  rewrite char_length_ascii by done. unfold between. apply andb_true_iff. rewrite !Z.leb_le. lia.
Qed.

(** C27: a configuration (whose rotation overlap, an unsigned integer, is not negative) that
    ServiceAccountConfig::new accepts is returned unchanged and has distinct valid callers,
    audiences and secret references, valid authorities, a public key and a schema name that the
    libraries accept, and bounded durations and limits; every cast of a duration to a signed
    64-bit integer succeeds, and every caller fits the column that stores it. *)
Theorem validated_configuration_is_safe `{Platform} c c' :
  0 ≤ rotation_overlap_seconds c →
  new c = Ok c' →
  c' = c ∧ config_ok c
  ∧ is_ok (schema_plan_new (schema c)) = true
  ∧ is_Some (from_public_key_base64 (auth_issuer c) (auth_public_key c))
  ∧ Forall (λ z, i64_try_from z = Some z)
      [credential_ttl_seconds c; rotation_overlap_seconds c; token_ttl_seconds c;
       receipt_ttl_seconds c; exchange_window_seconds c; exchange_lockout_seconds c]
  ∧ (∀ caller, caller ∈ management_callers c ++ authentication_callers c →
       between 1 128 (char_length caller) = true).
Proof.
  unfold new. intros Hov ([] & Hv & [= ->])%bind_ok_Ok. apply validate_Ok_iff in Hv as (Hok & Hs & Hk).
  do 4 (split; [done|]). split.
  - pose proof (validated_casts c' Hok) as Hcasts. destruct Hok as [_ _ _ _ _ _ [_ [Ho _] _ _ _ _ _ _ _]].
    rewrite !Forall_cons in Hcasts |- *. destruct Hcasts as (?&?&?&?&?&_).
    cbv beta in *. split_and!; try done; [|by repeat constructor]. unfold i64_try_from, in_i64, i64_min, i64_max.
    by rewrite !(proj2 (Z.leb_le _ _)) by lia.
  - intros v [Hin|Hin]%elem_of_app; apply caller_char_length;
      (eapply caller_set_elem; [|exact Hin]); by destruct Hok.
Qed.
