(* ===== verification/Commands.v ===== *)
(** * Commands: idempotency claims and their completion

    A command row is the idempotency record of one request: it is reserved once, completed
    once, and then answers every retry until it is pruned. *)
From S2P Require Import Prelude Text Platform Contract Secret Database Effects TxLogic.
From S2P Require Import Exec Storage Integrity Statements.

Open Scope string_scope.
Open Scope list_scope.
Open Scope Z_scope.

Lemma run_pool_Ok {A} op (s : Stmt A) env db x db' :
  run_tx (execute_pool op s) env db = (Ok x, db') → s (tx_now env) db = Ok (x, db').
Proof.
  unfold run_tx, execute_pool. simpl.
  destruct (tx_fault env 0) as [[d a]|]; [by intros [= ?]|].
  destruct (s (tx_now env) db) as [[y d]|e]; intros [=]; by subst.
Qed.

Lemma run_pool_reliable {A} op (s : Stmt A) env db :
  reliable env →
  run_tx (execute_pool op s) env db =
  match s (tx_now env) db with
  | Ok (x, db') => (Ok x, db')
  | Err e => (Err (database op (to_sqlx_error (tx_text env) e)), db)
  end.
Proof.
  intros Hr. unfold run_tx, execute_pool. simpl. rewrite Hr.
  by destruct (s (tx_now env) db) as [[y d]|e].
Qed.

(** What an existing row answers to a request whose intent hashes to [h]. *)
Definition claim_of (h : bytes) (m : CommandRec) : CommandClaim :=
  if negb (String.eqb (m_intent_hash m) h) then Conflict
  else if String.eqb (m_status m) "completed_success" then
    match m_response_nonce m, m_response_ciphertext m with
    | Some nonce, Some ciphertext => CompletedSuccess nonce ciphertext
    | _, _ => InProgress
    end
  else if String.eqb (m_status m) "completed_error" then
    match m_error_code m with Some code => CompletedError code | None => InProgress end
  else InProgress.

Lemma claim_of_existing h m : claim_of h m ≠ Claimed.
Proof.
  unfold claim_of. destruct (negb _); [done|].
  destruct (m_response_nonce m), (m_response_ciphertext m), (m_error_code m); by repeat case_match.
Qed.

(** Only a matching intent is answered with a receipt. *)
Lemma claim_of_intent h m nonce ct : claim_of h m = CompletedSuccess nonce ct → m_intent_hash m = h.
Proof. unfold claim_of. by destruct (String.eqb_spec (m_intent_hash m) h). Qed.

(** Accounts, credentials and limits are the same. *)
Definition same_tables (db db' : Db) : Prop :=
  accounts db' = accounts db ∧ credentials db' = credentials db ∧ limits db' = limits db.

(** Completed rows, which no statement but [prune] touches. *)
Definition completed (m : CommandRec) : Prop := open_status (m_status m) = false.

Section commands.
Context `{Platform}.

Lemma insert_command_inv key h now db (n : Z) db' :
  insert_command key h now db = Ok (n, db') →
  (n = 1 ∧ commands db !! key = None
   ∧ db' = set_commands (<[key := reserved now h]> (commands db)) db)
  ∨ (n = 0 ∧ db' = db ∧ is_Some (commands db !! key)).
Proof.
  unfold insert_command. destruct (negb _); [done|].
  destruct (commands db !! key) eqn:E; intros [= <- <-]; eauto.
Qed.

(** A claim reserves a free key, or reports the row that is there. *)
Lemma claim_command_inv w n caller op key h db c db' t :
  runs w n (claim_command caller op key h) db (Ok c) db' t →
  (c = Claimed ∧ commands (w_others w n db) !! (caller, op, key) = None
   ∧ db' = set_commands (<[(caller, op, key) := reserved (tx_now (w_tx w n)) h]>
                           (commands (w_others w n db))) (w_others w n db)
   ∧ t = [EvSql (w_others w n db) db'])
  ∨ (∃ m, commands (w_others w n db) !! (caller, op, key) ≠ None
       ∧ db' = w_others w (S n) (w_others w n db)
       ∧ commands db' !! (caller, op, key) = Some m ∧ c = claim_of h m
       ∧ t = [EvSql (w_others w n db) (w_others w n db); EvSql db' db']).
Proof.
  unfold claim_command. intros (r & d1 & t1 & Ei & -> & E)%step_await_ok_sql.
  destruct r as [k|e]; [|naive_solver].
  apply run_pool_Ok, insert_command_inv in Ei as [(-> & Hn & ->)|(-> & -> & [m0 Hm0])]; simpl in E.
  - apply runs_finish_return in E as ([= ->] & -> & ->). by left.
  - apply step_await_ok_sql in E as (r & d2 & t2 & Es & -> & E).
    destruct r as [m|e]; [|naive_solver]. apply run_pool_Ok in Es. unfold select_command in Es.
    destruct (commands _ !! _) as [m'|] eqn:Hm in Es; [|done]. injection Es as <- <-.
    right. exists m'. rewrite Hm0. unfold claim_of.
    destruct (negb _); [apply runs_finish_return in E as ([= ->] & -> & ->); done|].
    destruct (String.eqb _ _).
    { destruct (m_response_nonce m'), (m_response_ciphertext m');
        apply runs_finish_return in E as ([= ->] & -> & ->); done. }
    destruct (String.eqb _ _).
    { destruct (m_error_code m'); apply runs_finish_return in E as ([= ->] & -> & ->); done. }
    apply runs_finish_return in E as ([= ->] & -> & ->); done.
Qed.

(** Without failures and rivals, a claim always answers. *)
Lemma claim_command_reliable w n caller op key h db :
  (∀ k, reliable (w_tx w k)) → (∀ k d, w_others w k d = d) →
  schema_ok db →
  command_check (caller, op, key) (reserved (tx_now (w_tx w n)) h) = true →
  match commands db !! (caller, op, key) with
  | None => runs w n (claim_command caller op key h) db (Ok Claimed)
              (set_commands (<[(caller, op, key) := reserved (tx_now (w_tx w n)) h]> (commands db)) db)
              [EvSql db (set_commands (<[(caller, op, key) := reserved (tx_now (w_tx w n)) h]>
                           (commands db)) db)]
  | Some m => runs w n (claim_command caller op key h) db (Ok (claim_of h m)) db
                [EvSql db db; EvSql db db]
  end.
Proof.
  intros Hr Ho Hdb Hck. unfold claim_command, finish, hbind, await_ok, sql, runs. simpl.
  rewrite !Ho, (run_pool_reliable _ _ _ _ (Hr n)). unfold insert_command.
  unfold reserved in Hck. rewrite Hck. simpl.
  destruct (commands db !! (caller, op, key)) as [m|] eqn:Hm; simpl; [|done].
  rewrite Ho, (run_pool_reliable _ _ _ _ (Hr (S n))). unfold select_command. rewrite Hm. simpl.
  assert (command_check (caller, op, key) m = true) as Hc by (by eapply commands_checked).
  unfold claim_of. destruct (negb (String.eqb (m_intent_hash m) h)); [done|].
  destruct (String.eqb_spec (m_status m) "completed_success") as [Hs|Hs].
  { unfold command_check in Hc. rewrite Hs in Hc. unfold open_status in Hc. simpl in Hc.
    destruct (m_response_nonce m), (m_response_ciphertext m); simpl; try done;
      by rewrite ?andb_false_r in Hc. }
  destruct (String.eqb_spec (m_status m) "completed_error") as [He|He]; [|done].
  unfold command_check in Hc. rewrite He in Hc. unfold open_status in Hc. simpl in Hc.
  destruct (m_error_code m); simpl; [done|]. by rewrite ?andb_false_r in Hc.
Qed.

(** ** Retries *)

(** The completed command of a reservation answers the same intent with its receipt. *)
Lemma claim_of_succeeded now nonce ct m :
  claim_of (m_intent_hash m) (succeeded now nonce ct m) = CompletedSuccess nonce ct.
Proof. unfold claim_of. simpl. by rewrite String.eqb_refl. Qed.

(** An uneventful world: nothing fails and no other task runs. *)
Definition calm (w : World) : Prop :=
  (∀ k, reliable (w_tx w k)) ∧ ∀ k d, w_others w k d = d.

(** Other tasks leave alone the commands that are open: whoever reserved a command
    completes it. *)
Definition respects_claims (w : World) : Prop := ∀ k d key m,
  commands d !! key = Some m → open_status (m_status m) = true →
  commands (w_others w k d) !! key = Some m.

Lemma reserved_check key m now :
  command_check key m = true → command_check key (reserved now (m_intent_hash m)) = true.
Proof.
  unfold command_check. destruct key as [[c o] k]. simpl. rewrite !andb_true_iff.
  intuition auto.
Qed.

(** The head of a retried operation: receipts are pruned, then the stored row answers. *)
Lemma retry_head {T} w n ttl caller op key h m
    (k : CommandClaim → Handler (result T RuntimeFailure) (result T RuntimeFailure)) db x db' t :
  calm w → schema_ok db →
  commands db !! (caller, op, key) = Some m → m_intent_hash m = h →
  prunable (tx_now (w_tx w n)) ttl m = false →
  runs w n (finish (let* _ := await_sql (sql (prune ttl)) in
                    let* intent := ok_ (Ok h) in
                    let* c := await_sql (claim_command caller op key intent) in k c))
    db x db' t →
  ∃ d t', same_tables db d ∧ commands d !! (caller, op, key) = Some m
          ∧ runs w (n + 3)%nat (finish (k (claim_of h m))) d x db' t'
          ∧ t = EvSql db d :: EvSql d d :: EvSql d d :: t'.
Proof.
  intros [Hr Ho] Hdb Hm Hh Hp E.
  apply step_tx in E as (r & d & t1 & Es & -> & E).
  unfold prune in Es. rewrite Ho, (run_pool_reliable _ _ _ _ (Hr n)) in Es.
  injection Es as <- <-. apply step_ok in E as [(e & [=] & _)|(h' & [= <-] & E)].
  apply step_await_sql in E as (r & d2 & t2 & t3 & Ec & -> & E).
  set (d := set_commands _ db) in *.
  assert (schema_ok d) as Hd.
  { apply schema_ok_commands; [done|]. intros i r1 [Hi _]%map_lookup_filter_Some.
    by eapply commands_checked. }
  assert (commands d !! (caller, op, key) = Some m) as Hdm.
  { apply map_lookup_filter_Some. done. }
  pose proof (claim_command_reliable w (S n) caller op key h d Hr Ho Hd) as Hc.
  rewrite Hdm in Hc. unfold runs in Hc, Ec. rewrite Hc in Ec.
  - injection Ec as <- <- <-. simpl in E. exists d, t3. rewrite Ho.
    rewrite (Nat.add_comm n 2) in E. simpl in E. rewrite Nat.add_comm. done.
  - rewrite <-Hh. apply reserved_check. by eapply commands_checked.
Qed.

(** ** Retries among failures and rivals *)

(** The other tasks keep the row [m] of [key]. A completed row is changed by no statement but
    [prune], an open one only by the request that reserved it. *)
Definition others_hold (key : command_key) (m : CommandRec) (w : World) : Prop := ∀ k d,
  commands d !! key = Some m → commands (w_others w k d) !! key = Some m.

Lemma calm_holds key m w : calm w → others_hold key m w.
Proof. intros [_ Ho] k d Hd. by rewrite Ho. Qed.

Lemma open_row_held key m w : respects_claims w → open_status (m_status m) = true → others_hold key m w.
Proof. intros Hw Ho k d Hd. by apply Hw. Qed.

(** An access to the tables that leaves accounts, credentials and limits alone. *)
Definition quiet_access (e : event) : Prop :=
  match e with EvSql d d' => same_tables d d' | _ => False end.

(** The request [x] was answered [answer] from the row [m]: the row is still there, the request
    did nothing but quiet accesses, it can only have failed otherwise, and nothing in an
    uneventful world makes it fail. *)
Record answered_from_row {R} (key : command_key) (m : CommandRec) (answer : R) (w : World) (db : Db)
    (x : result R RuntimeFailure) (db' : Db) (t : list event) : Prop := {
  row_stays : commands db' !! key = Some m;
  only_quiet : Forall quiet_access t;
  answer_or_failure : x = Ok answer ∨ ∃ f, x = Err f;
  uneventful_answer : calm w → schema_ok db → x = Ok answer }.

Lemma run_pool_inv {A} op (s : Stmt A) env db r db' :
  run_tx (execute_pool op s) env db = (r, db') →
  db' = db ∨ ∃ x, s (tx_now env) db = Ok (x, db').
Proof.
  unfold run_tx, execute_pool. simpl.
  destruct (tx_fault env 0) as [[d []]|], (s (tx_now env) db) as [[y d']|e]; simpl;
    intros [= <- <-]; eauto.
Qed.

(** A claim of a key whose row stays answers from the row, or fails. *)
Lemma claim_command_held w n caller op key h m db r db' t :
  others_hold (caller, op, key) m w → commands db !! (caller, op, key) = Some m →
  runs w n (claim_command caller op key h) db r db' t →
  (r = Ok (claim_of h m) ∨ ∃ e, r = Err e)
  ∧ commands db' !! (caller, op, key) = Some m ∧ Forall quiet_access t.
Proof.
  intros Hw Hm E. assert (same_tables_refl : ∀ d, same_tables d d) by done.
  destruct r as [c|e].
  - apply claim_command_inv in E as [(_ & Hno & _)|(m' & _ & -> & Hm' & -> & ->)].
    { by rewrite (Hw n db Hm) in Hno. }
    rewrite (Hw (S n) _ (Hw n db Hm)) in Hm'. injection Hm' as <-.
    split; [by left|]. split; [by do 2 apply Hw|]. by repeat constructor.
  - split; [eauto|]. unfold claim_command in E.
    apply step_await_ok_sql in E as (r & d1 & t1 & Ei & -> & E).
    assert (d1 = w_others w n db) as ->.
    { apply run_pool_inv in Ei as [?|[x Ei]]; [done|].
      apply insert_command_inv in Ei as [(_ & Hno & _)|(_ & ? & _)]; [|done].
      by rewrite (Hw n db Hm) in Hno. }
    destruct r as [k|e']; [|destruct E as (_ & -> & ->); split; [by apply Hw|by repeat constructor]].
    prog_case E as Hk; [prog_step E as Hr; subst; split; [by apply Hw|by repeat constructor]|].
    apply step_await_ok_sql in E as (r & d2 & t2 & Es & -> & E).
    assert (d2 = w_others w (S n) (w_others w n db)) as ->.
    { apply run_pool_inv in Es as [?|[x Es]]; [done|]. unfold select_command in Es.
      destruct (commands _ !! _) in Es; [|done]. by injection Es. }
    destruct r as [m'|e']; [|destruct E as (_ & -> & ->); split; [by do 2 apply Hw|by repeat constructor]].
    repeat (case_match; simplify_eq/=); prog_step E as Hr; subst;
      (split; [by do 2 apply Hw|by repeat constructor]).
Qed.

(** A prune leaves the other tables, and the rows that are not prunable. *)
Lemma prune_inv ttl env db r db' :
  run_tx (prune ttl) env db = (r, db') →
  same_tables db db'
  ∧ ∀ key m, commands db !! key = Some m → prunable (tx_now env) ttl m = false →
             commands db' !! key = Some m.
Proof.
  unfold prune. intros [->|[x [= _ <-]]]%run_pool_inv; [done|]. split; [done|].
  intros key m Hm Hp. by apply map_lookup_filter_Some.
Qed.

(** An operation whose command is already decided, and that then answers from the row. *)
Lemma retry_answers {R} w n ttl caller op key h m (answer : R)
    (k : CommandClaim → Handler (result R RuntimeFailure) (result R RuntimeFailure)) db x db' t :
  others_hold (caller, op, key) m w →
  commands db !! (caller, op, key) = Some m → m_intent_hash m = h →
  prunable (tx_now (w_tx w n)) ttl m = false →
  k (claim_of h m) = return_ (Ok answer) →
  runs w n (finish (let* _ := await_sql (sql (prune ttl)) in
                    let* intent := ok_ (Ok h) in
                    let* c := await_sql (claim_command caller op key intent) in k c))
    db x db' t →
  answered_from_row (caller, op, key) m answer w db x db' t.
Proof.
  intros Hw Hm Hh Hp Hk E0.
  assert (calm w → schema_ok db → x = Ok answer) as Hcalm.
  { intros Hc Hdb. eapply retry_head in E0 as (d & t' & _ & _ & E & _); [|done..].
    rewrite Hk in E. by apply runs_finish_return in E as (-> & _). }
  apply step_tx in E0 as (r & d & t1 & Ep & -> & E). apply prune_inv in Ep as [Hsame Hrow].
  specialize (Hrow _ _ (Hw n db Hm) Hp).
  destruct r as [u|e].
  2: { destruct E as (-> & -> & ->). split; [done|by constructor|by right; eexists|done]. }
  apply step_ok in E as [(e & [=] & _)|(h' & [= <-] & E)].
  apply step_await_sql in E as (r & d2 & t2 & t3 & Ec & -> & E).
  destruct (claim_command_held _ _ _ _ _ _ _ _ _ _ _ Hw Hrow Ec) as ([->|[e ->]] & Hrow2 & Hq).
  - rewrite Hk in E. apply runs_finish_return in E as (-> & -> & ->). rewrite app_nil_r.
    split; [done|by constructor|by left|done].
  - destruct E as (-> & -> & ->). rewrite app_nil_r.
    split; [done|by constructor|by right; eexists|done].
Qed.

(** C22: a key whose claim succeeded was free, and while its command is open every later claim
    of the key is answered with in progress for the same request and with conflict for another
    one, and leaves the reservation as it is. *)
Theorem claims_are_exclusive w n w' n' caller op key h h' db db1 t c db2 t' :
  runs w n (claim_command caller op key h) db (Ok Claimed) db1 t →
  respects_claims w' →
  runs w' n' (claim_command caller op key h') db1 (Ok c) db2 t' →
  commands (w_others w n db) !! (caller, op, key) = None
  ∧ c = (if String.eqb h h' then InProgress else Conflict)
  ∧ commands db2 !! (caller, op, key) = Some (reserved (tx_now (w_tx w n)) h).
Proof.
  intros [(_ & Hfree & -> & _)|(m & _ & _ & _ & Hc & _)]%claim_command_inv Hw E;
    [|by destruct (claim_of_existing h m)].
  set (m := reserved (tx_now (w_tx w n)) h) in *.
  assert (∀ d k, commands d !! (caller, op, key) = Some m →
                 commands (w_others w' k d) !! (caller, op, key) = Some m) as Hkeep
    by (intros d k Hd; by apply Hw).
  apply claim_command_inv in E as [(_ & Hno & _)|(m' & _ & -> & Hm' & -> & _)].
  - rewrite (Hkeep _ n') in Hno; [done|]. apply lookup_insert_eq.
  - rewrite (Hkeep _ (S n')) in Hm' by (apply Hkeep, lookup_insert_eq).
    injection Hm' as <-. split; [done|].
    split; [unfold claim_of; simpl; by destruct (String.eqb h h')|].
    by apply Hkeep, Hkeep, lookup_insert_eq.
Qed.
End commands.
