(* ===== verification/Accounts.v ===== *)
(** * Accounts: what the account transactions promise, and that they keep it

    For each of [create_account], [rotate_account], [revoke_account] and
    [mark_exchange_issuing] an abstract specification relates the tables before and after in
    one step.  The transactions refine it whatever fails on the way: a result obeys the
    specification, and an error means that nothing happened or, when the acknowledgement of
    the commit was lost, that everything did. *)
From S2P Require Import Prelude Text Platform Contract Secret Database Effects TxLogic.
From S2P Require Import Storage Integrity Statements.

Open Scope string_scope.
Open Scope list_scope.
Open Scope Z_scope.
Open Scope tx_scope.

(** The outcome of a transaction against a specification [spec]: [quiet] results leave the
    tables alone, an error may hide a committed effect. *)
Definition refines {A} (spec : Db → A → Db → Prop) (db : Db) (r : result A PluginError.t)
    (db' : Db) : Prop :=
  match r with
  | Ok x => spec db x db'
  | Err _ => db' = db ∨ ∃ x, spec db x db'
  end.

Lemma refines_failed {A} (spec : Db → A → Db → Prop) db e : refines spec db (Err e) db.
Proof. by left. Qed.

Lemma run_tx_inv {A} (m : Tx A) env db r db' :
  run_tx m env db = (r, db') → ∃ c', m env (mkConn db db 0) = (r, c') ∧ db' = durable c'.
Proof. unfold run_tx. destruct (m env _) as [r1 c1]. intros [= <- <-]. eauto. Qed.

(** Start a refinement proof; close its failure branches; its last step. *)
Ltac refine_start H :=
  apply run_tx_inv in H as (? & H & ->).
Ltac refine_failed :=
  match goal with
  | H : durable _ = _ |- refines _ _ (Err _) _ => rewrite H; apply refines_failed
  end.
Tactic Notation "refine_step" ident(H) "as" ident(Hs) := tx_forward H as Hs; [try refine_failed..|].
Ltac refine_rollback H :=
  apply rollback_step in H as [-> [[? ->] | ->]]; [apply refines_failed|].
Ltac refine_commit H :=
  apply commit_step in H as [[-> ->]|(? & -> & [-> | ->])]; [|apply refines_failed|right; eexists].

Section accounts.
Context `{Platform}.

(** ** The latest credential *)

Lemma decode_account_ext db db' id a :
  credentials db' = credentials db → decode_account db' id a = decode_account db id a.
Proof. intros E. unfold decode_account, credential_expires_at, account_credentials. by rewrite E. Qed.

(** ** Completing the command in the same transaction *)

(** The command row [key] is open before and carries the receipt afterwards. *)
Definition receipt_stored (key : command_key) (now : time) (nonce ct : bytes) (db db' : Db) : Prop :=
  ∃ m, commands db !! key = Some m ∧ open_status (m_status m) = true
       ∧ len nonce = 12
       ∧ commands db' = <[key := succeeded now nonce ct m]> (commands db).

Lemma succeeded_nonce key now nonce ct m :
  command_check key (succeeded now nonce ct m) = true → len nonce = 12.
Proof.
  unfold command_check, succeeded. destruct key as [[caller op] k]. simpl. intros E.
  destruct (len nonce =? 12) eqn:Hl; [by apply Z.eqb_eq|].
  by rewrite !andb_false_r in E.
Qed.

Lemma complete_success_forward {B} env d w n caller op key nonce ct (k : unit → Tx B) r c' :
  tx_bind (complete_success caller op key nonce ct) k env (mkConn d w n) = (r, c') →
  (∃ e, r = Err e ∧ durable c' = d)
  ∨ ∃ m, commands w !! (caller, op, key) = Some m ∧ open_status (m_status m) = true
         ∧ len nonce = 12
         ∧ k tt env (mkConn d (set_commands
             (<[(caller, op, key) := succeeded (tx_now env) nonce ct m]> (commands w)) w) (S n))
           = (r, c').
Proof.
  unfold complete_success. intros E. tx_forward E as Hs; [eauto|].
  match type of Hs with _ = Ok (?x, _) =>
    destruct (Z.eqb_spec x 1) as [->|Hx];
    [apply complete_command_success_inv in Hs as (m & Hm & Ho & Hc & ->); [|done]|] end.
  - right. exists m. simpl in E. eauto using succeeded_nonce.
  - left. simpl in E. injection E as <- <-. eauto.
Qed.

Lemma receipt_step {T B} env d w n (receipt : Receipt T) (x : T) (k : bytes * bytes → Tx B) r c' :
  tx_bind (call_receipt receipt x) k env (mkConn d w n) = (r, c') →
  (∃ e, r = Err e ∧ durable c' = d)
  ∨ ∃ p, receipt x (tx_random env) = Ok p ∧ k p env (mkConn d w n) = (r, c').
Proof.
  unfold tx_bind, call_receipt. destruct (receipt x _); [eauto|intros [= <- <-]; eauto].
Qed.

(** ** Creation *)

Section create.
Context (caller operation key : string) (max : Z)
  (id org subject name name_key cid verifier : string) (valid_from valid_until : time)
  (receipt : Receipt AccountRow) (env : TxEnv).

Inductive create_spec (db : Db) : option AccountRow → Db → Prop :=
  | create_refused :
      max ≤ Z.of_nat (size (org_accounts org db)) → create_spec db None db
  | create_done row nonce ct db' :
      Z.of_nat (size (org_accounts org db)) < max →
      accounts db !! id = None → credentials db !! cid = None →
      map_Forall (λ _ r, a_subject r ≠ subject
         ∧ ¬ (a_organization_id r = org ∧ a_name_key r = name_key)) (accounts db) →
      accounts db' =
        <[id := new_account org subject name name_key (tx_now env)]> (accounts db) →
      credentials db' =
        <[cid := new_credential id verifier valid_from valid_until (tx_now env)]>
          (credentials db) →
      limits db' = limits db →
      row = decode_account db' id (new_account org subject name name_key (tx_now env)) →
      receipt row (tx_random env) = Ok (nonce, ct) →
      receipt_stored (caller, operation, key) (tx_now env) nonce ct db db' →
      create_spec db (Some row) db'.

Lemma create_account_refines db r db' :
  run_tx (create_account caller operation key max id org subject name name_key cid verifier
            valid_from valid_until receipt) env db = (r, db') →
  refines create_spec db r db'.
Proof.
  intros E. refine_start E. unfold create_account in E.
  refine_step E as Hs. refine_step E as Hs. injection Hs as <- <-.
  refine_step E as Hs. injection Hs as <- <-.
  destruct (Z.leb_spec max (Z.of_nat (size (org_accounts org db)))) as [Hle|Hlt].
  { refine_rollback E. by constructor. }
  refine_step E as Hs. apply insert_account_inv in Hs as (Hid & Huniq & ->).
  refine_step E as Hs. apply insert_credential_inv in Hs as (Hcid & _ & ->). simpl in *.
  unfold load_account_in_transaction in E. refine_step E as Hs.
  unfold select_account in Hs. simpl in Hs.
  rewrite lookup_insert_eq in Hs. simpl in Hs. rewrite String.eqb_refl in Hs.
  injection Hs as <- <-. refine_step E as Hs. simpl in Hs. injection Hs as <-.
  apply receipt_step in E as [(? & -> & ?)|([nonce ct] & Hrec & E)];
    [refine_failed|]. simpl in E.
  apply complete_success_forward in E as [(? & -> & ?)|(m & Hm & Ho & Hn & E)]; [refine_failed|].
  refine_commit E; eapply create_done; eauto; simpl;
    first [by apply decode_account_ext|by exists m].
Qed.
End create.

(** ** Finding an account of an organization *)

Definition owned (org id : string) (a : AccountRec) (db : Db) : Prop :=
  accounts db !! id = Some a ∧ a_organization_id a = org.
Definition not_owned (org id : string) (db : Db) : Prop := ∀ a, ¬ owned org id a db.

Lemma select_account_inv org id now db o db' :
  select_account org id now db = Ok (o, db') →
  db' = db ∧ match o with
             | Some row => ∃ a, owned org id a db ∧ row = decode_account db id a
             | None => not_owned org id db
             end.
Proof.
  unfold select_account, not_owned, owned. intros [= <- <-]. split; [done|].
  destruct (accounts db !! id) as [a|]; [|by intros ? []].
  destruct (String.eqb_spec (a_organization_id a) org); [by eauto|]. by intros ? [[= <-] ?].
Qed.

(** ** Rotation *)

Section rotate.
Context (caller operation key org id : string) (expected : Z) (cid verifier : string)
  (valid_from overlap_until valid_until : time) (receipt : Receipt AccountRow) (env : TxEnv).

Inductive rotate_spec (db : Db) : Mutation AccountRow → Db → Prop :=
  | rotate_not_found : not_owned org id db → rotate_spec db NotFound db
  | rotate_revoked a :
      owned org id a db → a_status a = "revoked" → rotate_spec db MutationRevoked db
  | rotate_conflict a :
      owned org id a db → a_status a ≠ "revoked" → a_revision a ≠ expected →
      rotate_spec db RevisionConflict db
  | rotate_done a row nonce ct db' :
      owned org id a db → a_status a ≠ "revoked" → a_revision a = expected →
      credentials db !! cid = None →
      accounts db' = <[id := advanced valid_from a]> (accounts db) →
      credentials db' =
        <[cid := new_credential id verifier valid_from valid_until (tx_now env)]>
          (bounded id valid_from overlap_until <$> credentials db) →
      limits db' = limits db →
      row = decode_account db' id (advanced valid_from a) →
      receipt row (tx_random env) = Ok (nonce, ct) →
      receipt_stored (caller, operation, key) (tx_now env) nonce ct db db' →
      rotate_spec db (Updated row) db'.

Lemma rotate_account_refines db r db' :
  run_tx (rotate_account caller operation key org id expected cid verifier
            valid_from overlap_until valid_until receipt) env db = (r, db') →
  refines rotate_spec db r db'.
Proof.
  intros E. refine_start E. unfold rotate_account, lock_account in E.
  refine_step E as Hs. refine_step E as Hs.
  apply select_account_inv in Hs as [-> Hrow].
  destruct x0 as [row|]; [destruct Hrow as (a & Ha & ->)|].
  2: { refine_rollback E. by constructor. }
  simpl in E. destruct (String.eqb_spec (a_status a) "revoked") as [Hst|Hst].
  { refine_rollback E. by econstructor. }
  destruct (Z.eqb_spec (a_revision a) expected) as [Hrev|Hrev]; simpl in E.
  2: { refine_rollback E. by econstructor. }
  refine_step E as Hs. apply bound_credentials_inv in Hs as ->.
  refine_step E as Hs. apply insert_credential_inv in Hs as (Hcid & _ & ->).
  refine_step E as Hs. apply (advance_account_inv _ _ a) in Hs as ->; [|by apply Ha].
  unfold load_account_in_transaction in E. refine_step E as Hs.
  apply select_account_inv in Hs as [-> Hrow].
  refine_step E as Hs. apply ok_or_Ok in Hs as ->.
  destruct Hrow as (a' & [Ha' _] & ->). simpl in Ha'. rewrite lookup_insert_eq in Ha'.
  injection Ha' as <-.
  apply receipt_step in E as [(? & -> & ?)|([nonce ct] & Hrec & E)]; [refine_failed|].
  simpl in E, Hcid. rewrite lookup_fmap, fmap_None in Hcid.
  apply complete_success_forward in E as [(? & -> & ?)|(m & Hm & Ho & Hn & E)]; [refine_failed|].
  refine_commit E; eapply rotate_done; eauto; simpl;
    first [by apply decode_account_ext|by exists m].
Qed.
End rotate.

(** ** Revocation *)

Section revoke.
Context (caller operation key org id : string) (expected : Z)
  (receipt : Receipt (AccountRow * bool)) (env : TxEnv).

Inductive revoke_spec (db : Db) : Mutation (AccountRow * bool) → Db → Prop :=
  | revoke_not_found : not_owned org id db → revoke_spec db NotFound db
  | revoke_conflict a :
      owned org id a db → a_revision a ≠ expected → revoke_spec db RevisionConflict db
  | revoke_again a row nonce ct db' :
      owned org id a db → a_revision a = expected → a_status a = "revoked" →
      accounts db' = accounts db → credentials db' = credentials db →
      limits db' = limits db →
      row = decode_account db' id a →
      receipt (row, false) (tx_random env) = Ok (nonce, ct) →
      receipt_stored (caller, operation, key) (tx_now env) nonce ct db db' →
      revoke_spec db (Updated (row, false)) db'
  | revoke_done a row nonce ct db' :
      owned org id a db → a_revision a = expected → a_status a ≠ "revoked" →
      accounts db' = <[id := revoked_account_rec (tx_clock env) a]> (accounts db) →
      credentials db' = ended id (tx_clock env) <$> credentials db →
      limits db' = limits db →
      row = decode_account db' id (revoked_account_rec (tx_clock env) a) →
      receipt (row, true) (tx_random env) = Ok (nonce, ct) →
      receipt_stored (caller, operation, key) (tx_now env) nonce ct db db' →
      revoke_spec db (Updated (row, true)) db'.

Lemma revoke_account_refines db r db' :
  run_tx (revoke_account caller operation key org id expected receipt) env db = (r, db') →
  refines revoke_spec db r db'.
Proof.
  intros E. refine_start E. unfold revoke_account, lock_account in E.
  refine_step E as Hs. refine_step E as Hs.
  apply select_account_inv in Hs as [-> Hrow].
  destruct x0 as [row|]; [destruct Hrow as (a & Ha & ->)|].
  2: { refine_rollback E. by constructor. }
  simpl in E. destruct (Z.eqb_spec (a_revision a) expected) as [Hrev|Hrev]; simpl in E.
  2: { refine_rollback E. by econstructor. }
  destruct (String.eqb_spec (a_status a) "revoked") as [Hst|Hst]; simpl in E.
  - unfold load_account_in_transaction in E. refine_step E as Hs.
    apply select_account_inv in Hs as [-> Hrow].
    refine_step E as Hs. apply ok_or_Ok in Hs as ->.
    destruct Hrow as (a' & [Ha' _] & ->). rewrite (proj1 Ha) in Ha'. injection Ha' as <-.
    apply receipt_step in E as [(? & -> & ?)|([nonce ct] & Hrec & E)]; [refine_failed|].
    apply complete_success_forward in E as [(? & -> & ?)|(m & Hm & Ho & Hn & E)]; [refine_failed|].
    refine_commit E; eapply revoke_again; eauto; simpl;
      first [by apply decode_account_ext|by exists m].
  - refine_step E as Hs. refine_step E as Hs.
    apply (mark_account_revoked_inv _ _ a) in Hs as ->; [|by apply Ha].
    refine_step E as Hs. apply revoke_credentials_inv in Hs as ->.
    unfold load_account_in_transaction in E. refine_step E as Hs.
    apply select_account_inv in Hs as [-> Hrow].
    refine_step E as Hs. apply ok_or_Ok in Hs as ->.
    destruct Hrow as (a' & [Ha' _] & ->). simpl in Ha'. rewrite lookup_insert_eq in Ha'.
    injection Ha' as <-.
    apply receipt_step in E as [(? & -> & ?)|([nonce ct] & Hrec & E)]; [refine_failed|].
    apply complete_success_forward in E as [(? & -> & ?)|(m & Hm & Ho & Hn & E)]; [refine_failed|].
    refine_commit E; eapply revoke_done; eauto; simpl;
      first [by apply decode_account_ext|by exists m].
Qed.
End revoke.

(** ** Exchange *)

(** What makes a credential acceptable at a time. *)
Definition usable_at (t : time) (c : CredentialRec) (a : AccountRec) : Prop :=
  a_status a = "active" ∧ c_revoked_at c = None ∧ c_valid_from c ≤ t < c_valid_until c.

Section issuing_spec.
Context (caller key cid id : string) (at_time : time).

Inductive issue_spec (db : Db) : option CredentialRow → Db → Prop :=
  | issue_refused :
      (∀ c a m, credentials db !! cid = Some c → c_service_account_id c = id →
         accounts db !! id = Some a → usable_at at_time c a →
         commands db !! (caller, "exchange_secret", key) = Some m →
         m_status m ≠ "reserved") →
      issue_spec db None db
  | issue_marked c a m :
      credentials db !! cid = Some c → c_service_account_id c = id →
      accounts db !! id = Some a → usable_at at_time c a →
      commands db !! (caller, "exchange_secret", key) = Some m → m_status m = "reserved" →
      issue_spec db (Some (decode_credential cid c a))
        (set_commands (<[(caller, "exchange_secret", key) := issuing at_time m]> (commands db))
           (set_credentials (<[cid := used at_time c]> (credentials db)) db)).

Lemma mark_exchange_issuing_refines env db r db' :
  run_tx (mark_exchange_issuing caller key cid id at_time) env db = (r, db') →
  refines issue_spec db r db'.
Proof.
  intros E. refine_start E. unfold mark_exchange_issuing in E.
  refine_step E as Hs. refine_step E as Hs. injection Hs as <- <-.
  destruct (is_some_and _ _) eqn:Hact; simpl in E.
  2: { refine_rollback E. constructor. intros c a m _ _ Ha [Hu _] _ _.
       rewrite Ha in Hact. simpl in Hact. by rewrite Hu in Hact. }
  refine_step E as Hs. injection Hs as <- <-. unfold join_credential in E.
  destruct (opt_filter _ _) as [row|] eqn:Hrow.
  2: { refine_rollback E. constructor. intros c a m Hc Hid Ha (Hu & Hv & Ht) _ _.
       rewrite Hc, Hid, Ha in Hrow. simpl in Hrow.
       rewrite Hid, Hu, Hv, String.eqb_refl in Hrow. simpl in Hrow.
       by rewrite (proj2 (Z.leb_le _ _)), (proj2 (Z.ltb_lt _ _)) in Hrow by lia. }
  apply opt_filter_Some in Hrow as [Hrow Hok].
  destruct (credentials db !! cid) as [c|] eqn:Hc; [|done].
  destruct (accounts db !! c_service_account_id c) as [a|] eqn:Ha; [|done].
  injection Hrow as <-. simpl in Hok. bool_prop.
  refine_step E as Hs. apply (record_credential_use_inv _ _ c) in Hs as ->; [|done].
  refine_step E as Hs.
  apply mark_command_issuing_inv in Hs as [(-> & -> & Hno)|(-> & m & Hm & Hst & ->)]; simpl in E.
  { refine_rollback E. constructor. intros c' a' m _ _ _ _ Hm Hst.
    specialize (Hno m Hm Hst). simpl in Hno. by rewrite lookup_insert_eq in Hno. }
  assert (c_revoked_at c = None) as Hnr by (by destruct (c_revoked_at c)).
  assert (c_service_account_id c = id) as Hid by done. rewrite Hid in Ha.
  refine_commit E; by eapply issue_marked; eauto; split_and!.
Qed.
End issuing_spec.

(** C23: the four account transactions implement their one-step specifications: a result obeys
    the specification, and an error, wherever it strikes, means that either nothing happened or,
    when only the acknowledgement of the commit was lost, everything did. *)
Theorem account_transactions_are_atomic caller op key cid env db db' :
  (∀ max id org subject name name_key verifier valid_from valid_until receipt r,
     run_tx (create_account caller op key max id org subject name name_key cid verifier
               valid_from valid_until receipt) env db = (r, db') →
     refines (create_spec caller op key max id org subject name name_key cid verifier
                valid_from valid_until receipt env) db r db')
  ∧ (∀ org id expected verifier valid_from overlap_until valid_until receipt r,
     run_tx (rotate_account caller op key org id expected cid verifier valid_from
               overlap_until valid_until receipt) env db = (r, db') →
     refines (rotate_spec caller op key org id expected cid verifier valid_from
                overlap_until valid_until receipt env) db r db')
  ∧ (∀ org id expected receipt r,
     run_tx (revoke_account caller op key org id expected receipt) env db = (r, db') →
     refines (revoke_spec caller op key org id expected receipt env) db r db')
  ∧ (∀ id at_time r,
     run_tx (mark_exchange_issuing caller key cid id at_time) env db = (r, db') →
     refines (issue_spec caller key cid id at_time) db r db').
Proof.
  split_and!; intros *;
    [apply create_account_refines|apply rotate_account_refines|apply revoke_account_refines
    |apply mark_exchange_issuing_refines].
Qed.
End accounts.
