(* ===== verification/RateLimit.v ===== *)
(** * RateLimit: admission of exchanges per caller

    [reserve_rate_slot] is a fixed-window counter with a lockout.  [admission] is the decision it
    takes on the caller's row; the transaction refines it, and a run of admissions obeys the
    two promises of the counter. *)
From S2P Require Import Prelude Text Platform Contract Secret Config Database Effects.
From S2P Require Import TxLogic Storage Integrity Statements Accounts.

Open Scope string_scope.
Open Scope list_scope.
Open Scope Z_scope.

(** ** The abstract counter *)

Section counter.
Context (window max lockout : Z).

Definition locked (now : time) (l : LimitRec) : bool :=
  is_some_and (l_locked_until l) (λ until, now <? until).

(** The window in force at [now], and the admissions it already holds. *)
Definition current_window (now : time) (l : LimitRec) : time * Z :=
  if l_window_started_at l + seconds window <=? now then (now, 0)
  else (l_window_started_at l, l_attempts l).

Definition admission (now : time) (l : LimitRec) : bool * LimitRec :=
  if locked now l then (false, l)
  else
    let '(start, attempts) := current_window now l in
    if max <=? attempts
    then (false, mkLimit start (l_attempts l) (Some (now + seconds lockout)))
    else (true, mkLimit start (attempts + 1) None).
End counter.

(** The row of a caller, before its first exchange too. *)
Definition limit_row (caller : string) (now : time) (db : Db) : LimitRec :=
  default (mkLimit now 0 None) (limits db !! caller).

Section rate.
Context `{Platform} (caller : string) (window max lockout : Z).

Definition rate_spec (now : time) (db : Db) (admitted : bool) (db' : Db) : Prop :=
  ∃ l, admission window max lockout now (limit_row caller now db) = (admitted, l)
       ∧ db' = set_limits (<[caller := l]> (limits db)) db.

Lemma insert_limit_inv now now' db x db' :
  insert_limit caller now now' db = Ok (x, db') →
  db' = set_limits (<[caller := limit_row caller now db]> (limits db)) db.
Proof.
  unfold insert_limit, limit_row. destruct (negb _); [done|].
  destruct (limits db !! caller) eqn:Hl; intros [= <- <-]; simpl; [|done].
  rewrite insert_id by done. by destruct db.
Qed.

Lemma limit_update_inv f l db x db' :
  limits db !! caller = Some l →
  bind_ok (update_row limit_check caller (λ r, Some (f r)) (limits db))
    (λ p, Ok (tt, set_limits p.2 db)) = Ok (x, db') →
  db' = set_limits (<[caller := f l]> (limits db)) db.
Proof.
  intros Hl ([k m] & E & [= <- <-])%bind_ok_Ok.
  apply update_row_inv in E as [(_ & _ & Hno)|(_ & r & r' & Hr & [= <-] & _ & ->)];
    [by specialize (Hno _ Hl)|]. rewrite Hl in Hr. by injection Hr as <-.
Qed.

Lemma reserve_rate_slot_refines now env db r db' :
  run_tx (reserve_rate_slot caller now window max lockout) env db = (r, db') →
  refines (rate_spec now) db r db'.
Proof.
  intros E. refine_start E. unfold reserve_rate_slot in E.
  refine_step E as Hs. refine_step E as Hs. apply insert_limit_inv in Hs as ->.
  set (l := limit_row caller now db) in *. set (db1 := set_limits _ db) in *.
  assert (limits db1 !! caller = Some l) as Hl by apply lookup_insert_eq.
  refine_step E as Hs. unfold select_limit in Hs. rewrite Hl in Hs. injection Hs as <- <-.
  assert (∀ b m, admission window max lockout now l = (b, m) →
            rate_spec now db b (set_limits (<[caller := m]> (limits db1)) db1)) as Hspec.
  { intros b m Hadm. exists m. split; [done|]. unfold db1. simpl. by rewrite insert_insert_eq. }
  assert (locked now l = true → rate_spec now db false db1) as Hlocked.
  { intros Hl'. exists l. unfold admission. fold l. by rewrite Hl'. }
  unfold admission, locked, current_window in Hspec, Hlocked.
  destruct (is_some_and _ _) in E, Hspec, Hlocked.
  { refine_commit E; by apply Hlocked. }
  clear Hlocked. destruct (_ <=? now) in E, Hspec; cbv beta iota zeta in E, Hspec;
    destruct (max <=? _) in E, Hspec; refine_step E as Hs;
    (apply (limit_update_inv _ l) in Hs as ->; [|done]);
    refine_commit E; by apply Hspec.
Qed.

Lemma reserve_rate_slot_commands now env db r db' :
  run_tx (reserve_rate_slot caller now window max lockout) env db = (r, db') →
  commands db' = commands db.
Proof.
  intros E%reserve_rate_slot_refines. unfold rate_spec in E.
  destruct r; simpl in E; naive_solver.
Qed.

(** ** Runs of attempts *)

(** Consecutive attempts of one caller: the environment and the clock of each. *)
Fixpoint attempts (l : list (TxEnv * time)) (db : Db) : list (result bool PluginError.t) * Db :=
  match l with
  | [] => ([], db)
  | (env, now) :: l =>
      let '(r, db) := run_tx (reserve_rate_slot caller now window max lockout) env db in
      let '(rs, db) := attempts l db in (r :: rs, db)
  end.

Definition admitted (r : result bool PluginError.t) : bool :=
  match r with Ok b => b | Err _ => false end.
Definition admissions (l : list (TxEnv * time)) (db : Db) : Z :=
  Z.of_nat (length (List.filter admitted (attempts l db).1)).

(** An attempt is admitted by the counter, refused, or lost with or without its effect. *)
Lemma attempt_cases now env db r db' :
  run_tx (reserve_rate_slot caller now window max lockout) env db = (r, db') →
  ∃ b l, admission window max lockout now (limit_row caller now db) = (b, l)
         ∧ (admitted r = true → b = true)
         ∧ ((∃ e, r = Err e) ∧ db' = db
            ∨ (r = Ok b ∨ ∃ e, r = Err e) ∧ limits db' !! caller = Some l).
Proof.
  intros E%reserve_rate_slot_refines. unfold rate_spec in E.
  destruct (admission window max lockout now (limit_row caller now db)) as [b l] eqn:Hadm.
  exists b, l. split; [done|]. destruct r as [b'|e]; simpl in *; setoid_rewrite Hadm in E.
  - destruct E as (l' & [= -> ->] & ->). split; [done|]. right. split; [by left|].
    apply lookup_insert_eq.
  - split; [done|]. destruct E as [->|(b' & l' & [= -> ->] & ->)]; [left; eauto|].
    right. split; [eauto|]. apply lookup_insert_eq.
Qed.

(** The potential of a row over the interval that starts at [s]: what the window in force
    still admits, and a whole further window unless one began in the interval. *)
Definition potential (s : time) (l : LimitRec) : Z :=
  Z.max 0 (max - l_attempts l) + (if s <=? l_window_started_at l then 0 else max).

Lemma admit_potential s now l b l' :
  1 ≤ max → s ≤ now < s + seconds window → admission window max lockout now l = (b, l') →
  (if b then 1 else 0) + potential s l' ≤ potential s l.
Proof.
  intros Hmax Hnow. unfold admission, current_window, potential.
  destruct (locked now l); [intros [= <- <-]; lia|].
  destruct (Z.leb_spec (l_window_started_at l + seconds window) now).
  - destruct (Z.leb_spec max 0); [lia|]. intros [= <- <-]. simpl.
    destruct (Z.leb_spec s now); [|lia]. destruct (Z.leb_spec s (l_window_started_at l)); lia.
  - destruct (Z.leb_spec max (l_attempts l)); intros [= <- <-]; simpl; lia.
Qed.

Lemma fresh_potential s now : s ≤ now → 0 ≤ max → potential s (mkLimit now 0 None) = max.
Proof. intros. unfold potential. simpl. destruct (Z.leb_spec s now); lia. Qed.

Lemma admissions_potential s l db :
  1 ≤ max → Forall (λ p, s ≤ p.2 < s + seconds window) l →
  admissions l db ≤ match limits db !! caller with Some r => potential s r | None => max end.
Proof.
  intros Hmax Hl. revert db. induction Hl as [|[env now] l Hnow Hl IH]; intros db.
  { unfold admissions. simpl. destruct (limits db !! caller) as [r|]; [|lia].
    unfold potential. destruct (s <=? l_window_started_at r); lia. }
  unfold admissions. simpl.
  destruct (run_tx _ env db) as [r db1] eqn:E. specialize (IH db1). unfold admissions in IH.
  destruct (attempts l db1) as [rs db2]. simpl in *.
  assert (match limits db !! caller with Some r => potential s r | None => max end
          = potential s (limit_row caller now db)) as ->.
  { unfold limit_row. destruct (limits db !! caller); simpl; [done|].
    symmetry. apply fresh_potential; lia. }
  destruct (attempt_cases _ _ _ _ _ E) as (b & l' & Hadm & Hb & Hcase).
  apply (admit_potential s) in Hadm as Hp; [|done|done].
  assert (match limits db !! caller with Some r => potential s r | None => max end
          ≤ potential s (limit_row caller now db)) as Hrow.
  { unfold limit_row. destruct (limits db !! caller); simpl; [done|].
    rewrite fresh_potential; lia. }
  destruct (admitted r) eqn:Hr; simpl.
  - rewrite (Hb eq_refl) in Hp. destruct Hcase as [[[e ->] _]|[_ Hc]]; [done|].
    rewrite Hc in IH. lia.
  - destruct Hcase as [[_ ->]|[_ Hc]]; [lia|]. rewrite Hc in IH. destruct b; lia.
Qed.

(** C17: of consecutive attempts of one caller whose clock readings, in whatever order, all lie
    within one period of the length of a window, at most twice the configured number is
    admitted, whatever the caller attempted before. *)
Theorem rate_window_bound s l db :
  1 ≤ max → schema_ok db → Forall (λ p, s ≤ p.2 < s + seconds window) l →
  admissions l db ≤ 2 * max.
Proof.
  intros Hmax Hdb Hl. pose proof (admissions_potential s l db Hmax Hl) as Hle.
  destruct (limits db !! caller) as [r|] eqn:Hr; [|lia].
  apply limits_checked in Hr as Hck; [|done]. unfold limit_check in Hck. bool_prop.
  unfold potential in Hle. destruct (s <=? l_window_started_at r); lia.
Qed.

(** A locked row refuses and stays as it is. *)
Lemma admissions_locked u l db r :
  limits db !! caller = Some r → l_locked_until r = Some u → Forall (λ p, p.2 < u) l →
  Forall (λ r, admitted r = false) (attempts l db).1.
Proof.
  intros Hr Hu Hl. revert db Hr. induction Hl as [|[env now] l Hnow Hl IH]; intros db Hr; [constructor|].
  simpl. destruct (run_tx _ env db) as [r1 db1] eqn:E.
  destruct (attempt_cases _ _ _ _ _ E) as (b & l' & Hadm & Hb & Hcase).
  unfold limit_row in Hadm. rewrite Hr in Hadm. simpl in Hadm.
  unfold admission, locked in Hadm. rewrite Hu in Hadm. simpl in *.
  rewrite (proj2 (Z.ltb_lt now u)) in Hadm by done. injection Hadm as <- <-.
  assert (limits db1 !! caller = Some r) as Hr1 by (destruct Hcase as [[_ ->]|[_ ?]]; done).
  specialize (IH db1 Hr1). destruct (attempts l db1) as [rs db2]. simpl in *.
  constructor; [|done]. destruct (admitted r1); [by specialize (Hb eq_refl)|done].
Qed.

(** C18: a refused attempt leaves the caller locked until a later time (the configured lockout
    from now when it was not locked already), and every attempt before that time is refused. *)
Theorem refusal_locks_out now env db db' l :
  run_tx (reserve_rate_slot caller now window max lockout) env db = (Ok false, db') →
  0 < lockout →
  ∃ until, now < until
    ∧ (locked now (limit_row caller now db) = false → until = now + seconds lockout)
    ∧ (Forall (λ p, p.2 < until) l →
       Forall (λ r, admitted r = false) (attempts l db').1).
Proof.
  intros E Hlock. destruct (attempt_cases _ _ _ _ _ E) as (b & r & Hadm & _ & Hcase).
  destruct Hcase as [[[e [=]] _]|[[[= <-]|[e [=]]] Hr]].
  unfold admission in Hadm. destruct (locked now (limit_row caller now db)) eqn:Hl.
  - injection Hadm as Hrow. unfold locked in Hl.
    destruct (l_locked_until (limit_row caller now db)) as [u|] eqn:Hu; [|done]. simpl in Hl.
    exists u. split; [lia|]. split; [done|]. intros Hall.
    rewrite Hrow in Hu. exact (admissions_locked u l db' _ Hr Hu Hall).
  - destruct (current_window window now (limit_row caller now db)) as [st at_].
    destruct (max <=? at_); [|done]. injection Hadm as <-.
    exists (now + seconds lockout). split; [unfold seconds; lia|]. split; [done|].
    intros Hall. exact (admissions_locked _ l db' _ Hr eq_refl Hall).
Qed.
End rate.
