(* ===== verification/Completeness.v ===== *)
(** * Completeness: the account transactions succeed whenever they may

    [Accounts] shows that a transaction does nothing but what its specification allows; here,
    that without failures it takes the branch its guards select and reaches its end. *)
From S2P Require Import Prelude Text Platform Contract Secret Database Effects TxLogic.
From S2P Require Import Storage Integrity Statements Accounts.

Open Scope string_scope.
Open Scope list_scope.
Open Scope Z_scope.
Open Scope tx_scope.

Section completeness.
Context `{Platform} (env : TxEnv) (Hr : reliable env).

(** The command can carry the receipt. *)
Definition completable (key : command_key) (nonce ct : bytes) (db : Db) : Prop :=
  ∃ m, commands db !! key = Some m ∧ open_status (m_status m) = true
       ∧ command_check key (succeeded (tx_now env) nonce ct m) = true.

Lemma complete_success_reliable {B} caller op key nonce ct d w n (k : unit → Tx B) :
  completable (caller, op, key) nonce ct w →
  ∃ w', tx_bind (complete_success caller op key nonce ct) k env (mkConn d w n)
        = k tt env (mkConn d w' (S n)).
Proof.
  intros (m & Hm & Ho & Hc). unfold complete_success.
  rewrite tx_bind_assoc, (execute_reliable _ Hr). unfold complete_command_success, update_row.
  rewrite Hm, Ho. unfold succeeded in Hc. rewrite Hc. simpl. eexists. reflexivity.
Qed.

Section create.
Context (caller operation key : string) (max : Z)
  (id org subject name name_key cid verifier : string) (valid_from valid_until : time)
  (receipt : Receipt AccountRow) (db : Db).

Notation creation := (run_tx (create_account caller operation key max id org subject name
  name_key cid verifier valid_from valid_until receipt) env db).
Notation account := (new_account org subject name name_key (tx_now env)).
Notation credential := (new_credential id verifier valid_from valid_until (tx_now env)).
(** The tables after the two inserts. *)
Definition inserted : Db :=
  set_credentials (<[cid := credential]> (credentials db))
    (set_accounts (<[id := account]> (accounts db)) db).

Lemma create_start :
  creation =
  (let '(r, c) :=
     (if max <=? Z.of_nat (size (org_accounts org db)) then
        (Ok None, mkConn db db 4)
      else
        tx_bind (execute "insert service account" (insert_account id org subject name name_key))
          (λ _, tx_bind (execute "insert service-account credential"
             (insert_credential cid id verifier valid_from valid_until))
          (λ _, tx_bind (load_account_in_transaction org id)
          (λ row, tx_bind (tx_lift (ok_or row (PluginError.Invariant "created service account is missing")))
          (λ row, tx_bind (call_receipt receipt row) (λ '(nonce, ciphertext),
             tx_bind (complete_success caller operation key nonce ciphertext)
          (λ _, tx_bind (commit "commit service-account creation") (λ _, tx_ret (Some row))))))))
          env (mkConn db db 3)) in (r, durable c)).
Proof.
  unfold run_tx, create_account.
  rewrite (begin_reliable _ Hr), (execute_reliable _ Hr). cbv beta.
  rewrite (execute_reliable _ Hr). cbn [count_accounts].
  destruct (max <=? _); [|done]. by rewrite (rollback_reliable _ Hr).
Qed.

Notation full := (max ≤ Z.of_nat (size (org_accounts org db))).
Notation subject_taken := (map_Exists (λ _ r, a_subject r = subject) (accounts db)).
Notation name_taken :=
  (map_Exists (λ _ r, a_organization_id r = org ∧ a_name_key r = name_key) (accounts db)).

Lemma create_full : full → creation = (Ok None, db).
Proof. rewrite create_start. intros Hm. by rewrite (proj2 (Z.leb_le _ _) Hm). Qed.

(** A violated unique index, in the order in which the table's indexes are checked. *)
Lemma create_conflicts c :
  ¬ full → account_check id account = true → account_conflict id account (accounts db) = Some c →
  ∃ e, creation = (Err e, db) ∧ unique_constraint e = Some c.
Proof.
  rewrite create_start. intros Hm Hck Hc.
  rewrite (proj2 (Z.leb_gt _ _)), (execute_reliable _ Hr) by lia.
  unfold insert_account. unfold new_account in Hck, Hc. rewrite Hck. cbn [negb]. rewrite Hc.
  simpl. by eexists.
Qed.

Lemma create_succeeds nonce ct :
  ¬ full → account_check id account = true → account_conflict id account (accounts db) = None →
  credential_check cid credential = true → credentials db !! cid = None →
  receipt (decode_account inserted id account) (tx_random env) = Ok (nonce, ct) →
  completable (caller, operation, key) nonce ct db →
  ∃ db', creation = (Ok (Some (decode_account inserted id account)), db').
Proof.
  rewrite create_start. intros Hm Hck Hc Hcck Hcid Hrec Hcmd.
  rewrite (proj2 (Z.leb_gt _ _)), (execute_reliable _ Hr) by lia.
  unfold insert_account. unfold new_account in Hck, Hc. rewrite Hck. cbn [negb]. rewrite Hc.
  rewrite (execute_reliable _ Hr). unfold insert_credential. unfold new_credential in Hcck.
  rewrite Hcck. cbn [negb set_accounts credentials accounts]. rewrite Hcid, lookup_insert_eq.
  unfold load_account_in_transaction. rewrite (execute_reliable _ Hr). unfold select_account.
  cbn [set_accounts set_credentials accounts a_organization_id].
  rewrite lookup_insert_eq, String.eqb_refl. unfold tx_bind at 1, tx_lift. cbn [ok_or].
  unfold tx_bind at 1, call_receipt.
  match goal with |- context [receipt ?row _] =>
    change row with (decode_account inserted id account) end.
  rewrite Hrec.
  match goal with |- context [tx_bind _ ?k env (mkConn db ?w ?n)] =>
    destruct (complete_success_reliable caller operation key nonce ct db w n k Hcmd) as [w' Hw]
  end.
  rewrite Hw, (commit_reliable _ Hr). by eexists.
Qed.

(** C24: without failures, and when the generated identifiers are new, both rows satisfy their
    CHECK constraints, the receipt can be computed and the reserved command can carry it, the
    creation transaction returns nothing exactly when the organization is full; fails with the
    unique violation of the subject index exactly when it is not full and the subject is taken;
    fails with that of the organization's name index exactly when it is not full, the subject is
    free and the name is taken; and succeeds and returns the stored account exactly in all other
    cases. The three refusals change nothing. *)
Theorem create_account_decides nonce ct :
  (* the generated identifiers are new *)
  accounts db !! id = None → credentials db !! cid = None →
  (* both rows satisfy the CHECK constraints *)
  account_check id account = true → credential_check cid credential = true →
  (* the receipt can be computed and the reserved command can carry it *)
  receipt (decode_account inserted id account) (tx_random env) = Ok (nonce, ct) →
  completable (caller, operation, key) nonce ct db →
  (creation = (Ok None, db) ↔ full)
  ∧ ((∃ e, creation = (Err e, db) ∧ unique_constraint e = Some "service_accounts_subject_unique")
     ↔ ¬ full ∧ subject_taken)
  ∧ ((∃ e, creation = (Err e, db)
           ∧ unique_constraint e = Some "service_accounts_organization_name_unique")
     ↔ ¬ full ∧ ¬ subject_taken ∧ name_taken)
  ∧ ((∃ db', creation = (Ok (Some (decode_account inserted id account)), db'))
     ↔ ¬ full ∧ ¬ subject_taken ∧ ¬ name_taken).
Proof.
  intros Hid Hcid Hck Hcck Hrec Hcmd.
  assert (account_conflict id account (accounts db)
          = if bool_decide subject_taken then Some "service_accounts_subject_unique"
            else if bool_decide name_taken then Some "service_accounts_organization_name_unique"
            else None) as Hconflict.
  { unfold account_conflict. by rewrite Hid, (bool_decide_eq_false_2 (is_Some None)) by (by intros [? [=]]). }
  destruct (decide full) as [Hfull|Hfull].
  { rewrite (create_full Hfull). naive_solver. }
  repeat case_bool_decide.
  1, 2: destruct (create_conflicts _ Hfull Hck Hconflict) as (e & -> & ?); naive_solver.
  destruct (create_succeeds _ _ Hfull Hck Hconflict Hcck Hcid Hrec Hcmd) as [db' ->]. naive_solver.
Qed.
End create.
End completeness.
