(* ===== verification/Invariants.v ===== *)
(** * Invariants: what every committed transaction keeps

    [healthy] is the invariant of the tables: the constraints of the migration, no live
    credential on a revoked account, and no organization above its account limit.
    [evolves] is the direction in which they move: [db_le], and revoked accounts are frozen
    together with their credentials.  Both hold of the committed states only: inside a
    revocation the account is already revoked while its credentials are still live. *)
From S2P Require Import Prelude Text Platform Contract Secret Database Effects TxLogic.
From S2P Require Import Storage Integrity Statements Accounts.

Open Scope string_scope.
Open Scope list_scope.
Open Scope Z_scope.
Open Scope tx_scope.

(** ** The invariant *)

(** A revoked account has no live credential. *)
Definition sealed (db : Db) : Prop := ∀ cid c a,
  credentials db !! cid = Some c → accounts db !! c_service_account_id c = Some a →
  a_status a = "revoked" → is_Some (c_revoked_at c).

(** No organization holds more than [max] accounts. *)
Definition capped (max : Z) (db : Db) : Prop := ∀ org,
  Z.of_nat (size (org_accounts org db)) ≤ max.

Record healthy (max : Z) (db : Db) : Prop := {
  healthy_schema : schema_ok db;
  healthy_sealed : sealed db;
  healthy_capped : capped max db }.

(** ** The direction *)

Definition frozen (db db' : Db) : Prop := ∀ id a,
  accounts db !! id = Some a → a_status a = "revoked" →
  accounts db' !! id = Some a
  ∧ ∀ cid c, c_service_account_id c = id →
      credentials db' !! cid = Some c ↔ credentials db !! cid = Some c.

Record evolves (db db' : Db) : Prop := {
  evolves_le : db_le db db';
  evolves_frozen : frozen db db' }.

#[export] Instance evolves_preorder : PreOrder evolves.
Proof.
  split.
  - intros db. split; [reflexivity|]. by intros id a Ha _.
  - intros d1 d2 d3 [L1 F1] [L2 F2]. split; [by etrans|]. intros id a Ha Hr.
    destruct (F1 _ _ Ha Hr) as [Ha2 C1]. destruct (F2 _ _ Ha2 Hr) as [Ha3 C2].
    split; [done|]. intros cid c Hc. by rewrite (C2 _ _ Hc), (C1 _ _ Hc).
Qed.

Lemma empty_healthy max : 0 ≤ max → healthy max empty_db.
Proof.
  intros Hmax. split.
  - split; simpl; try apply map_Forall_empty; intros ? ? ? ? Hi; by rewrite lookup_empty in Hi.
  - intros cid c a Hc. simpl in Hc. by rewrite lookup_empty in Hc.
  - intros org. unfold org_accounts. change (accounts empty_db) with (∅ : gmap string AccountRec).
    rewrite map_filter_empty, map_size_empty. lia.
Qed.

(** Structural descent through a transaction. *)
Ltac keep :=
  repeat first
    [ progress intros
    | apply tx_preserves_bind; [apply _| |]
    | progress auto with tx_preserves typeclass_instances
    | match goal with |- tx_preserves _ _ (if ?b then _ else _) => destruct b end
    | match goal with |- tx_preserves _ _ (match ?x with _ => _ end) => destruct x end ].

(** ** Transactions keep the schema *)

Section schema_preservation.
Context `{Platform}.

Notation keeps := (tx_preserves schema_ok db_le).

Lemma select_account_preserves org id : preserves (select_account org id).
Proof. apply query_preserves. by intros now db x db' [= _ <-]. Qed.
Lemma unit_preserves : preserves (λ _ db, Ok (tt, db)).
Proof. apply query_preserves. by intros now db x db' [= <-]. Qed.
Lemma count_accounts_preserves org : preserves (count_accounts org).
Proof. apply query_preserves. by intros now db x db' [= _ <-]. Qed.
Lemma select_accounts_preserves org after limit : preserves (select_accounts org after limit).
Proof. apply query_preserves. by intros now db x db' [= _ <-]. Qed.
Lemma select_credential_preserves id : preserves (select_credential id).
Proof. apply query_preserves. by intros now db x db' [= _ <-]. Qed.
Lemma select_usable_preserves id account t : preserves (select_usable_credential id account t).
Proof. apply query_preserves. by intros now db x db' [= _ <-]. Qed.
Lemma select_status_preserves id : preserves (select_account_status id).
Proof. apply query_preserves. by intros now db x db' [= _ <-]. Qed.
Lemma select_command_preserves key : preserves (select_command key).
Proof.
  apply query_preserves. intros now db x db'. unfold select_command.
  destruct (commands db !! key); [|done]. by intros [= _ <-].
Qed.
Lemma select_limit_preserves caller : preserves (select_limit caller).
Proof.
  apply query_preserves. intros now db x db'. unfold select_limit.
  destruct (limits db !! caller); [|done]. by intros [= _ <-].
Qed.
Lemma complete_command_success_preserves key nonce ct :
  preserves (complete_command_success key nonce ct).
Proof. apply command_update_preserves. Qed.
Lemma complete_command_error_preserves key code : preserves (complete_command_error key code).
Proof. apply command_update_preserves. Qed.
Lemma mark_command_issuing_preserves caller key cid t :
  preserves (mark_command_issuing caller key cid t).
Proof.
  apply (command_update_preserves _ (λ _ db r,
    if String.eqb (m_status r) "reserved" && bool_decide (is_Some (credentials db !! cid))
    then Some (issuing t r) else None)).
Qed.
Lemma lock_out_limit_preserves caller t1 t2 : preserves (lock_out_limit caller t1 t2).
Proof. apply limit_update_preserves. Qed.
Lemma consume_limit_preserves caller t n : preserves (consume_limit caller t n).
Proof. apply limit_update_preserves. Qed.

#[local] Hint Resolve select_account_preserves unit_preserves count_accounts_preserves
  select_accounts_preserves select_credential_preserves select_usable_preserves
  select_status_preserves select_command_preserves select_limit_preserves
  complete_command_success_preserves complete_command_error_preserves
  mark_command_issuing_preserves lock_out_limit_preserves consume_limit_preserves
  delete_expired_preserves insert_command_preserves insert_limit_preserves
  insert_account_preserves advance_account_preserves mark_account_revoked_preserves
  insert_credential_preserves bound_credentials_preserves revoke_credentials_preserves
  record_credential_use_preserves : tx_preserves.

Lemma call_receipt_keeps {T} (receipt : Receipt T) x : keeps (call_receipt receipt x).
Proof. apply tx_preserves_pure; [apply _|]. unfold call_receipt. eauto. Qed.
#[local] Hint Resolve call_receipt_keeps : tx_preserves.
Lemma complete_success_keeps caller op key nonce ct : keeps (complete_success caller op key nonce ct).
Proof. unfold complete_success. keep. Qed.
#[local] Hint Resolve complete_success_keeps : tx_preserves.

Lemma prune_keeps ttl : keeps (prune ttl).
Proof. unfold prune. keep. Qed.
Lemma complete_error_keeps caller op key code : keeps (complete_error caller op key code).
Proof. unfold complete_error. keep. Qed.
Lemma complete_success_owned_keeps caller op key nonce ct :
  keeps (complete_success_owned caller op key nonce ct).
Proof. unfold complete_success_owned. keep. Qed.
Lemma load_account_keeps org id : keeps (load_account org id).
Proof. unfold load_account. keep. Qed.
Lemma list_accounts_keeps org after limit : keeps (list_accounts org after limit).
Proof. unfold list_accounts. keep. Qed.
Lemma load_credential_keeps id : keeps (load_credential id).
Proof. unfold load_credential. keep. Qed.
Lemma create_account_keeps a b c d e f g h i j k l m n :
  keeps (create_account a b c d e f g h i j k l m n).
Proof. unfold create_account, load_account_in_transaction. keep. Qed.
Lemma rotate_account_keeps a b c d e f g h i j k l :
  keeps (rotate_account a b c d e f g h i j k l).
Proof. unfold rotate_account, lock_account, load_account_in_transaction. keep. Qed.
Lemma revoke_account_keeps a b c d e f g : keeps (revoke_account a b c d e f g).
Proof. unfold revoke_account, lock_account, load_account_in_transaction. keep. Qed.
Lemma mark_exchange_issuing_keeps a b c d e : keeps (mark_exchange_issuing a b c d e).
Proof. unfold mark_exchange_issuing. keep. Qed.
Lemma reserve_rate_slot_keeps a b c d e : keeps (reserve_rate_slot a b c d e).
Proof. unfold reserve_rate_slot. keep. Qed.
End schema_preservation.

(** ** Transactions that touch neither accounts nor credentials *)

Definition same_rows (db db' : Db) : Prop :=
  accounts db' = accounts db ∧ credentials db' = credentials db.

#[export] Instance same_rows_preorder : PreOrder same_rows.
Proof. split; [by intros db|]. intros a b c [] []. split; by etrans. Qed.

Lemma sealed_same db db' : same_rows db db' → sealed db → sealed db'.
Proof. intros [Ha Hc] Hs cid c a. rewrite Ha, Hc. apply Hs. Qed.

Lemma capped_same max db db' : same_rows db db' → capped max db → capped max db'.
Proof. intros [Ha _] Hs org. unfold org_accounts. rewrite Ha. apply Hs. Qed.

Lemma frozen_same db db' : same_rows db db' → frozen db db'.
Proof. intros [Ha Hc] id a. by rewrite Ha, Hc. Qed.

Section commits.
Context `{Platform}.

Notation quiet := (stmt_preserves (λ _, True) same_rows).

Lemma commands_quiet {A} (s : Stmt A) :
  (∀ now db x db', s now db = Ok (x, db') → ∃ m, db' = set_commands m db) → quiet s.
Proof. intros Hs now db x db' _ E. by destruct (Hs _ _ _ _ E) as [m ->]. Qed.
Lemma limits_quiet {A} (s : Stmt A) :
  (∀ now db x db', s now db = Ok (x, db') → ∃ m, db' = set_limits m db) → quiet s.
Proof. intros Hs now db x db' _ E. by destruct (Hs _ _ _ _ E) as [m ->]. Qed.
Lemma query_quiet {A} (s : Stmt A) :
  (∀ now db x db', s now db = Ok (x, db') → db' = db) → quiet s.
Proof. intros Hs now db x db' _ E. by rewrite (Hs _ _ _ _ E). Qed.

Ltac quiet_update :=
  intros now db x db' ([? ?] & _ & E)%bind_ok_Ok; injection E as <- <-; by eexists.

Lemma delete_expired_quiet ttl : quiet (delete_expired_commands ttl).
Proof. apply commands_quiet. intros now db x db' [= <- <-]. by eexists. Qed.
Lemma complete_command_success_quiet key nonce ct : quiet (complete_command_success key nonce ct).
Proof. apply commands_quiet. quiet_update. Qed.
Lemma complete_command_error_quiet key code : quiet (complete_command_error key code).
Proof. apply commands_quiet. quiet_update. Qed.
Lemma lock_out_limit_quiet caller t1 t2 : quiet (lock_out_limit caller t1 t2).
Proof. apply limits_quiet. quiet_update. Qed.
Lemma consume_limit_quiet caller t n : quiet (consume_limit caller t n).
Proof. apply limits_quiet. quiet_update. Qed.
Lemma insert_command_quiet key h : quiet (insert_command key h).
Proof.
  apply commands_quiet. intros now db x db'. unfold insert_command. destruct (negb _); [done|].
  destruct (commands db !! key); intros [= <- <-]; [exists (commands db); by destruct db|by eexists].
Qed.
Lemma insert_limit_quiet caller t : quiet (insert_limit caller t).
Proof.
  apply limits_quiet. intros now db x db'. unfold insert_limit. destruct (negb _); [done|].
  destruct (limits db !! caller); intros [= <- <-]; [exists (limits db); by destruct db|by eexists].
Qed.
Lemma select_command_quiet key : quiet (select_command key).
Proof.
  apply query_quiet. intros now db x db'. unfold select_command.
  destruct (commands db !! key); [|done]. by intros [= _ <-].
Qed.
Lemma select_limit_quiet caller : quiet (select_limit caller).
Proof.
  apply query_quiet. intros now db x db'. unfold select_limit.
  destruct (limits db !! caller); [|done]. by intros [= _ <-].
Qed.
Lemma select_account_quiet org id : quiet (select_account org id).
Proof. apply query_quiet. by intros now db x db' [= _ <-]. Qed.
Lemma select_accounts_quiet org after limit : quiet (select_accounts org after limit).
Proof. apply query_quiet. by intros now db x db' [= _ <-]. Qed.
Lemma select_credential_quiet id : quiet (select_credential id).
Proof. apply query_quiet. by intros now db x db' [= _ <-]. Qed.

#[local] Hint Resolve delete_expired_quiet complete_command_success_quiet
  complete_command_error_quiet lock_out_limit_quiet consume_limit_quiet insert_command_quiet
  insert_limit_quiet select_command_quiet select_limit_quiet select_account_quiet
  select_accounts_quiet select_credential_quiet : tx_preserves.

Ltac keep_quiet :=
  repeat first
    [ progress intros
    | apply tx_preserves_bind; [apply _| |]
    | progress auto with tx_preserves typeclass_instances
    | match goal with |- tx_preserves _ _ (if ?b then _ else _) => destruct b end
    | match goal with |- tx_preserves _ _ (match ?x with _ => _ end) => destruct x end ].

Notation keeps_quiet := (tx_preserves (λ _, True) same_rows).

Lemma prune_quiet ttl : keeps_quiet (prune ttl).
Proof. unfold prune. keep_quiet. Qed.
Lemma complete_error_quiet caller op key code : keeps_quiet (complete_error caller op key code).
Proof. unfold complete_error. keep_quiet. Qed.
Lemma complete_success_owned_quiet caller op key nonce ct :
  keeps_quiet (complete_success_owned caller op key nonce ct).
Proof. unfold complete_success_owned, complete_success. keep_quiet. Qed.
Lemma load_account_quiet org id : keeps_quiet (load_account org id).
Proof. unfold load_account. keep_quiet. Qed.
Lemma list_accounts_quiet org after limit : keeps_quiet (list_accounts org after limit).
Proof. unfold list_accounts. keep_quiet. Qed.
Lemma load_credential_quiet id : keeps_quiet (load_credential id).
Proof. unfold load_credential. keep_quiet. Qed.
Lemma reserve_rate_slot_quiet a b c d e : keeps_quiet (reserve_rate_slot a b c d e).
Proof. unfold reserve_rate_slot. keep_quiet. Qed.

Context (max : Z).
Notation commits := (commits_preserve (healthy max) evolves).

Lemma quiet_commits {A} (m : Tx A) :
  tx_preserves schema_ok db_le m → keeps_quiet m → commits m.
Proof.
  intros Hk Hq env db r db' [Hs Hl Hc] E.
  destruct (run_tx_preserves _ _ _ _ _ _ _ Hk Hs E) as [Hs' Hle].
  destruct (run_tx_preserves _ _ _ _ _ _ _ Hq I E) as [_ Hsame].
  split; split; eauto using sealed_same, capped_same, frozen_same.
Qed.

(** ** Transactions with a specification *)

Lemma spec_commits {A} (m : Tx A) (spec : TxEnv → Db → A → Db → Prop) :
  tx_preserves schema_ok db_le m →
  (∀ env db r db', run_tx m env db = (r, db') → refines (spec env) db r db') →
  (∀ env db x db', schema_ok db → sealed db → capped max db → spec env db x db' →
     sealed db' ∧ capped max db' ∧ frozen db db') →
  commits m.
Proof.
  intros Hk Hr Hspec env db r db' [Hs Hl Hc] E.
  destruct (run_tx_preserves _ _ _ _ _ _ _ Hk Hs E) as [Hs' Hle].
  assert (db' = db ∨ ∃ x, spec env db x db') as [->|[x Hx]].
  { specialize (Hr _ _ _ _ E). destruct r; simpl in Hr; eauto. }
  - by split; [split|reflexivity].
  - destruct (Hspec _ _ _ _ Hs Hl Hc Hx) as (?&?&?). by split; split.
Qed.

Lemma org_accounts_insert_fresh org id a db :
  accounts db !! id = None →
  Z.of_nat (size (org_accounts org (set_accounts (<[id := a]> (accounts db)) db)))
  = Z.of_nat (size (org_accounts org db)) + if decide (a_organization_id a = org) then 1 else 0.
Proof.
  intros Hid. unfold org_accounts. simpl. case_decide as Ho.
  - rewrite map_filter_insert_True by done. rewrite map_size_insert_None; [lia|].
    apply map_lookup_filter_None. by left.
  - rewrite map_filter_insert_not' by (simpl; naive_solver congruence). lia.
Qed.

Lemma org_accounts_update org id a a' db :
  accounts db !! id = Some a → a_organization_id a' = a_organization_id a →
  size (org_accounts org (set_accounts (<[id := a']> (accounts db)) db))
  = size (org_accounts org db).
Proof.
  intros Hid Ho. unfold org_accounts. simpl.
  destruct (decide (a_organization_id a = org)) as [E|E].
  - rewrite map_filter_insert_True by (simpl; congruence).
    rewrite map_size_insert_Some; [done|]. exists a. by apply map_lookup_filter_Some.
  - rewrite map_filter_insert_not'; simpl; [done|congruence|]. intros y Hy. by simplify_eq.
Qed.

Lemma org_accounts_eq org db m db' :
  accounts db' = m → org_accounts org db' = org_accounts org (set_accounts m db).
Proof. intros E. unfold org_accounts. by rewrite E. Qed.

Lemma create_account_commits caller op key id org subject name name_key cid verifier t1 t2 receipt :
  commits (create_account caller op key max id org subject name name_key cid verifier t1 t2 receipt).
Proof.
  eapply spec_commits; [apply create_account_keeps|apply create_account_refines|].
  intros env db x db' Hs Hl Hc [Hmax|row nonce ct db1 Hlt Hid Hcid _ Ea Ec _ _ _ _]; [by split_and!|].
  split_and!.
  - intros k c a. rewrite Ec, Ea, !lookup_insert. case_decide as Hk.
    + intros [= <-]. simpl. case_decide; [|done]. by intros [= <-].
    + intros Hck. case_decide as Hi; [|by eauto].
      destruct (credentials_owned _ Hs _ _ Hck) as [a' Ha']. by rewrite <-Hi, Hid in Ha'.
  - intros org'. rewrite (org_accounts_eq _ db _ _ Ea), org_accounts_insert_fresh by done. simpl.
    case_decide; [subst; lia|]. specialize (Hc org'). lia.
  - intros k a Ha Hr. rewrite Ea, lookup_insert_ne by congruence. split; [done|].
    intros c y Hy. rewrite Ec, lookup_insert. case_decide as Hk; [|done]. subst c. rewrite Hcid.
    split; [|done]. intros [= <-]. simpl in Hy. congruence.
Qed.

Lemma rotate_account_commits caller op key org id expected cid verifier t1 t2 t3 receipt :
  commits (rotate_account caller op key org id expected cid verifier t1 t2 t3 receipt).
Proof.
  eapply spec_commits; [apply rotate_account_keeps|apply rotate_account_refines|].
  intros env db x db' Hs Hl Hc Hspec.
  destruct Hspec as [| | |a row nonce ct db1 [Ha Ho] Hst _ Hcid Ea Ec _ _ _ _];
    [by split_and!..|].
  split_and!.
  - intros k c a'. rewrite Ec, Ea, !lookup_insert, lookup_fmap. case_decide as Hk.
    + intros [= <-]. simpl. case_decide; [|done]. by intros [= <-].
    + intros (c0 & Hc0 & ->)%fmap_Some.
      assert (c_service_account_id (bounded id t1 t2 c0) = c_service_account_id c0
              ∧ c_revoked_at (bounded id t1 t2 c0) = c_revoked_at c0) as [-> ->]
        by (unfold bounded; by destruct (_ && _)).
      case_decide as Hi; [by intros [= <-]|]. intros. by eapply Hl.
  - intros org'. by rewrite (org_accounts_eq _ db _ _ Ea), (org_accounts_update _ _ a) by done.
  - intros k b Hb Hr. assert (k ≠ id) as Hne by (intros ->; simplify_eq).
    rewrite Ea, lookup_insert_ne by done. split; [done|].
    intros c y Hy. rewrite Ec, lookup_insert, lookup_fmap.
    case_decide as Hk.
    + subst c. rewrite Hcid. split; [|done]. intros [= <-]. simpl in Hy. congruence.
    + rewrite fmap_Some. unfold bounded. split.
      * intros (c0 & Hc0 & Hy0). destruct (_ && _) eqn:Hg; [|by subst].
        exfalso. bool_prop. subst y. simpl in *. congruence.
      * intros Hc0. exists y. split; [done|]. destruct (_ && _) eqn:Hg; [|done].
        exfalso. bool_prop. congruence.
Qed.

Lemma revoke_account_commits caller op key org id expected receipt :
  commits (revoke_account caller op key org id expected receipt).
Proof.
  eapply spec_commits; [apply revoke_account_keeps|apply revoke_account_refines|].
  intros env db x db' Hs Hl Hc Hspec.
  destruct Hspec as [| |a row nonce ct db1 _ _ _ Ea Ec _ _ _ _
                    |a row nonce ct db1 [Ha Ho] _ Hst Ea Ec _ _ _ _]; [by split_and!..| |].
  { assert (same_rows db db1) by done.
    split_and!; eauto using sealed_same, capped_same, frozen_same. }
  split_and!.
  - intros k c a'. rewrite Ec, Ea, !lookup_insert, lookup_fmap.
    intros (c0 & Hc0 & ->)%fmap_Some. unfold ended.
    destruct (String.eqb_spec (c_service_account_id c0) id) as [E|E]; simpl.
    + intros _ _. by eexists.
    + rewrite decide_False by done. intros. by eapply Hl.
  - intros org'. by rewrite (org_accounts_eq _ db _ _ Ea), (org_accounts_update _ _ a) by done.
  - intros k b Hb Hr. assert (k ≠ id) as Hne by (intros ->; simplify_eq).
    rewrite Ea, lookup_insert_ne by done. split; [done|].
    intros c y Hy. rewrite Ec, lookup_fmap, fmap_Some. unfold ended. split.
    + intros (c0 & Hc0 & Hy0). destruct (String.eqb_spec (c_service_account_id c0) id);
        [|by subst]. subst y. simpl in *. congruence.
    + intros Hc0. exists y. split; [done|].
      destruct (String.eqb_spec (c_service_account_id y) id); [congruence|done].
Qed.

Lemma mark_exchange_issuing_commits caller key cid id t :
  commits (mark_exchange_issuing caller key cid id t).
Proof.
  eapply (spec_commits _ (λ _, issue_spec caller key cid id t));
    [apply mark_exchange_issuing_keeps|apply mark_exchange_issuing_refines|].
  intros env db x db' Hs Hl Hc Hspec.
  destruct Hspec as [|c a m Hcid Hid Ha [Hact _] _ _]; [by split_and!|]. simpl. split_and!.
  - intros k c' a'. simpl. rewrite lookup_insert. case_decide as Hk; [|by apply Hl].
    intros [= <-]. simpl. subst k. by apply (Hl cid).
  - intros org. apply Hc.
  - intros k b Hb Hr. simpl. split; [done|]. intros d y Hy. rewrite lookup_insert.
    case_decide as Hk; [|done]. subst d. rewrite Hcid. split.
    + intros [= <-]. simpl in Hy. congruence.
    + intros [= ->]. congruence.
Qed.

Lemma prune_commits ttl : commits (prune ttl).
Proof. apply quiet_commits; [apply prune_keeps|apply prune_quiet]. Qed.
Lemma complete_error_commits caller op key code : commits (complete_error caller op key code).
Proof. apply quiet_commits; [apply complete_error_keeps|apply complete_error_quiet]. Qed.
Lemma complete_success_owned_commits caller op key nonce ct :
  commits (complete_success_owned caller op key nonce ct).
Proof. apply quiet_commits; [apply complete_success_owned_keeps|apply complete_success_owned_quiet]. Qed.
Lemma load_account_commits org id : commits (load_account org id).
Proof. apply quiet_commits; [apply load_account_keeps|apply load_account_quiet]. Qed.
Lemma list_accounts_commits org after limit : commits (list_accounts org after limit).
Proof. apply quiet_commits; [apply list_accounts_keeps|apply list_accounts_quiet]. Qed.
Lemma load_credential_commits id : commits (load_credential id).
Proof. apply quiet_commits; [apply load_credential_keeps|apply load_credential_quiet]. Qed.
Lemma reserve_rate_slot_commits a b c d e : commits (reserve_rate_slot a b c d e).
Proof. apply quiet_commits; [apply reserve_rate_slot_keeps|apply reserve_rate_slot_quiet]. Qed.
Lemma insert_command_commits op key h : commits (execute_pool op (insert_command key h)).
Proof.
  apply quiet_commits; apply tx_preserves_execute_pool; try apply _;
    [apply insert_command_preserves|apply insert_command_quiet].
Qed.
Lemma select_command_commits op key : commits (execute_pool op (select_command key)).
Proof.
  apply quiet_commits; apply tx_preserves_execute_pool; try apply _;
    [apply select_command_preserves|apply select_command_quiet].
Qed.
End commits.

Create HintDb commits.
#[export] Hint Resolve create_account_commits rotate_account_commits revoke_account_commits
  mark_exchange_issuing_commits prune_commits complete_error_commits
  complete_success_owned_commits load_account_commits list_accounts_commits
  load_credential_commits reserve_rate_slot_commits insert_command_commits
  select_command_commits : commits.
