(* ===== verification/Authorization.v ===== *)
(** * Authorization: the four management factors ([authorization.rs]) and the active plug-in *)
From S2P Require Import Prelude Text Platform Contract Secret Config Database Effects.
From S2P Require Import Storage.

Open Scope string_scope.
Open Scope list_scope.
Open Scope Z_scope.

Definition READ_PERMISSION : string := "service-account.read".
Definition MANAGE_PERMISSION : string := "service-account.manage".

Record AuthorizedManagement := { caller : string; actor_subject : string }.

(** [UserActor], projected from an assertion of kind [user]. *)
Record UserActor := { user_subject : string }.
Definition from_assertion (assertion : ActorAssertion) : option UserActor :=
  if negb (String.eqb (actor_kind assertion) "user") then None
  else Some {| user_subject := assertion_subject assertion |}.

Module AuthorizationError.
Inductive t :=
  | Forbidden
  | OrganizationNotFound
  | MembershipRequired
  | AccessDenied
  | Runtime (error : RuntimeFailure).
End AuthorizationError.

Section authorization.
Context `{Platform}.

(** [lib.rs: ActiveServiceAccount]; the pool is the database of the execution. *)
Record ActiveServiceAccount := {
  config : ServiceAccountConfig;
  pepper : bytes;
  receipt_cipher : ReceiptCipher;
  actor_verifier : ActorAssertionVerifier;
  dummy_verifier : string }.

(** [lib.rs: ServiceAccountPlugin], the part a request reads. *)
Record ServiceAccountPlugin := { active_cell : option ActiveServiceAccount }.

(** [ServiceAccountPlugin::active]. *)
Definition active (self : ServiceAccountPlugin) : result ActiveServiceAccount RuntimeFailure :=
  ok_or (active_cell self) (failure "Service Account Plugin is not active").

(** [ActorAssertionVerifier::project_context::<UserActor>]. *)
Definition project_context (v : ActorAssertionVerifier) (context : InvocationContext)
    (capability_id operation : string) (now : time) : option UserActor :=
  match verified_assertion v context capability_id operation now with
  | Some assertion => from_assertion assertion
  | None => None
  end.

(** [context.caller_instance().filter(|caller| allowed.iter().any(..))]. *)
Definition allowed_caller (allowed : list string) (context : InvocationContext) : option string :=
  opt_filter (λ c, str_mem c allowed) (caller_instance context).

Definition membership_error (error : InvocationError CheckMembershipError) : AuthorizationError.t :=
  match error with
  | Domain MembershipOrganizationNotFound => AuthorizationError.OrganizationNotFound
  | Domain MembershipInvalidRequest => AuthorizationError.Runtime
      (failure "Organization Membership rejected a valid service-account request")
  | Domain (MembershipUnknown _) => AuthorizationError.Runtime
      (failure "Organization Membership returned an unknown service-account error")
  | Runtime error => AuthorizationError.Runtime error
  end.

Definition permission_error (error : InvocationError CheckPermissionError) : AuthorizationError.t :=
  match error with
  | Domain PermissionInvalidRequest => AuthorizationError.Runtime
      (failure "Access Control rejected a valid service-account permission request")
  | Domain (PermissionUnknown _) => AuthorizationError.Runtime
      (failure "Access Control returned an unknown service-account error")
  | Runtime error => AuthorizationError.Runtime error
  end.

Definition authorize_management (active : ActiveServiceAccount) (context : InvocationContext)
    (capability_id operation organization_id permission : string) :
    prog (result AuthorizedManagement AuthorizationError.t) :=
  finish (
    let* caller := ok_ (ok_or
      (allowed_caller (management_callers (config active)) context)
      AuthorizationError.Forbidden) in
    let* now := await now_utc in
    let* actor := ok_ (ok_or
      (project_context (actor_verifier active) context capability_id operation now)
      AuthorizationError.Forbidden) in
    if negb (valid_subject (user_subject actor)) then return_ (Err AuthorizationError.Forbidden)
    else
    let* membership := await_ok (pbind
      (CheckMembership context
         {| membership_organization_id := organization_id;
            membership_subject := user_subject actor |} (λ r, Ret r))
      (λ r, Ret (map_err membership_error r))) in
    if negb (membership_active membership) then return_ (Err AuthorizationError.MembershipRequired)
    else
    let* decision := await_ok (pbind
      (CheckPermission context
         {| permission_subject := user_subject actor;
            permission_scope_kind := "organization";
            permission_scope_id := organization_id;
            permission_name := permission |} (λ r, Ret r))
      (λ r, Ret (map_err permission_error r))) in
    if negb (permission_allowed decision) then return_ (Err AuthorizationError.AccessDenied)
    else
    return_ (Ok {| caller := caller; actor_subject := user_subject actor |})).
End authorization.
