(* ===== verification/Management.v ===== *)
(** * Management: create, get, list, rotate_secret and revoke ([management.rs]) *)
From S2P Require Import Prelude Text Platform Contract Secret Config Database Effects.
From S2P Require Import Storage Authorization.

Open Scope string_scope.
Open Scope list_scope.
Open Scope Z_scope.

(** ** Error mapping *)

Inductive AuthorizationDomain := DForbidden | DOrganizationNotFound | DMembershipRequired | DAccessDenied.

Definition map_authorization (error : AuthorizationError.t) : result AuthorizationDomain RuntimeFailure :=
  match error with
  | AuthorizationError.Forbidden => Ok DForbidden
  | AuthorizationError.OrganizationNotFound => Ok DOrganizationNotFound
  | AuthorizationError.MembershipRequired => Ok DMembershipRequired
  | AuthorizationError.AccessDenied => Ok DAccessDenied
  | AuthorizationError.Runtime error => Err error
  end.

Definition map_create_authorization (error : AuthorizationError.t) : result CreateError.t RuntimeFailure :=
  map_ok (λ e, match e with
    | DForbidden => CreateError.Forbidden
    | DOrganizationNotFound => CreateError.OrganizationNotFound
    | DMembershipRequired => CreateError.MembershipRequired
    | DAccessDenied => CreateError.AccessDenied end) (map_authorization error).
Definition map_get_authorization (error : AuthorizationError.t) : result GetError.t RuntimeFailure :=
  map_ok (λ e, match e with
    | DForbidden => GetError.Forbidden
    | DOrganizationNotFound => GetError.OrganizationNotFound
    | DMembershipRequired => GetError.MembershipRequired
    | DAccessDenied => GetError.AccessDenied end) (map_authorization error).
Definition map_list_authorization (error : AuthorizationError.t) : result ListError.t RuntimeFailure :=
  map_ok (λ e, match e with
    | DForbidden => ListError.Forbidden
    | DOrganizationNotFound => ListError.OrganizationNotFound
    | DMembershipRequired => ListError.MembershipRequired
    | DAccessDenied => ListError.AccessDenied end) (map_authorization error).
Definition map_rotate_authorization (error : AuthorizationError.t) : result RotateSecretError.t RuntimeFailure :=
  map_ok (λ e, match e with
    | DForbidden => RotateSecretError.Forbidden
    | DOrganizationNotFound => RotateSecretError.OrganizationNotFound
    | DMembershipRequired => RotateSecretError.MembershipRequired
    | DAccessDenied => RotateSecretError.AccessDenied end) (map_authorization error).
Definition map_revoke_authorization (error : AuthorizationError.t) : result RevokeError.t RuntimeFailure :=
  map_ok (λ e, match e with
    | DForbidden => RevokeError.Forbidden
    | DOrganizationNotFound => RevokeError.OrganizationNotFound
    | DMembershipRequired => RevokeError.MembershipRequired
    | DAccessDenied => RevokeError.AccessDenied end) (map_authorization error).

(** The domain error a completed receipt stands for. *)
Definition create_error (code : string) : result CreateError.t PluginError.t :=
  if String.eqb code "name_conflict" then Ok CreateError.NameConflict
  else if String.eqb code "directory_rejected" then Ok CreateError.DirectoryRejected
  else if String.eqb code "too_many_service_accounts" then Ok CreateError.TooManyServiceAccounts
  else Err (PluginError.Invariant "unknown create receipt error").
Definition rotate_error (code : string) : result RotateSecretError.t PluginError.t :=
  if String.eqb code "not_found" then Ok RotateSecretError.NotFound
  else if String.eqb code "revoked" then Ok RotateSecretError.Revoked
  else if String.eqb code "revision_conflict" then Ok RotateSecretError.RevisionConflict
  else Err (PluginError.Invariant "unknown rotate receipt error").
Definition revoke_error (code : string) : result RevokeError.t PluginError.t :=
  if String.eqb code "not_found" then Ok RevokeError.NotFound
  else if String.eqb code "revision_conflict" then Ok RevokeError.RevisionConflict
  else Err (PluginError.Invariant "unknown revoke receipt error").

Section management.
Context `{Platform}.

(** [summary]: the account as the contract shows it. *)
Definition summary (row : AccountRow) : result ServiceAccountSummary PluginError.t :=
  (let? status :=
     if String.eqb (r_status row) "active" then Ok Active
     else if String.eqb (r_status row) "revoked" then Ok Revoked
     else Err (PluginError.Invariant "unknown service-account status") in
   let? created_at := format_time (r_created_at row) in
   let? rotated_at := transpose (format_time <$> r_rotated_at row) in
   let? revoked_at := transpose (format_time <$> r_revoked_at row) in
   let? expires := transpose (format_time <$> r_credential_expires_at row) in
   Ok {| s_service_account_id := r_service_account_id row;
         s_organization_id := r_organization_id row;
         s_subject := r_subject row;
         s_name := r_name row;
         s_status := status;
         s_revision := to_string (r_revision row);
         s_created_at := created_at;
         s_rotated_at := rotated_at;
         s_revoked_at := revoked_at;
         s_credential_expires_at := expires |})%result.

(** [valid_rotation] and [valid_revocation]. *)
Definition valid_rotation (request : RotateServiceAccountSecretRequest) : option Z :=
  match parse_revision (rotate_expected_revision request) with
  | None => None
  | Some revision =>
      if valid_idempotency_key (rotate_idempotency_key request)
         && valid_token (rotate_organization_id request) 256
         && valid_token (rotate_service_account_id request) 128
      then Some revision else None
  end.
Definition valid_revocation (request : RevokeServiceAccountRequest) : option Z :=
  match parse_revision (revoke_expected_revision request) with
  | None => None
  | Some revision =>
      if valid_idempotency_key (revoke_idempotency_key request)
         && valid_token (revoke_organization_id request) 256
         && valid_token (revoke_service_account_id request) 128
      then Some revision else None
  end.

Definition record_create_error (caller idempotency_key code : string) :
    prog (result unit RuntimeFailure) :=
  pbind (sql (complete_error caller CREATE_OPERATION idempotency_key code))
    (λ r, Ret (map_err runtime r)).
Definition record_rotate_error (caller : string) (request : RotateServiceAccountSecretRequest)
    (code : string) : prog (result unit RuntimeFailure) :=
  pbind (sql (complete_error caller ROTATE_SECRET_OPERATION (rotate_idempotency_key request) code))
    (λ r, Ret (map_err runtime r)).
Definition record_revoke_error (caller : string) (request : RevokeServiceAccountRequest)
    (code : string) : prog (result unit RuntimeFailure) :=
  pbind (sql (complete_error caller REVOKE_OPERATION (revoke_idempotency_key request) code))
    (λ r, Ret (map_err runtime r)).

(** The result of an operation: a runtime failure, or the capability's own result. *)
Definition Outcome (T E : Type) : Type := result (result T E) RuntimeFailure.

(** [match authorize_management(..).await] followed by the operation's error mapping. *)
Definition authorized {T E} (map_error : AuthorizationError.t → result E RuntimeFailure)
    (p : prog (result AuthorizedManagement AuthorizationError.t)) :
    Handler (Outcome T E) AuthorizedManagement :=
  let* r := await p in
  match r with
  | Ok authorization => hret authorization
  | Err error =>
      match map_error error with
      | Ok error => return_ (Ok (Err error))
      | Err error => return_ (Err error)
      end
  end.

(** The end of [create], once the directory has answered with an identity. *)
Definition create_store (active : ActiveServiceAccount) (authorization : AuthorizedManagement)
    (request : CreateServiceAccountRequest) (aad : bytes) (service_account_id : string)
    (ensured_identity : EnsureIdentityResponse) :
    Handler (Outcome CreateServiceAccountResponse CreateError.t)
      (Outcome CreateServiceAccountResponse CreateError.t) :=
  let* id := await (getrandom 18) in
  let* id := ok_ (map_err runtime (map_err PluginError.Crypto (map_err CryptoError.Random id))) in
  let* material := await (getrandom 32) in
  let* credential := ok_ (map_err runtime (map_err PluginError.Crypto (generate (Ok id) material))) in
  let* salt := await (getrandom 16) in
  let* verifier := ok_ (map_err runtime (map_err PluginError.Crypto
                          (verifier credential (pepper active) salt))) in
  let* now := await now_utc in
  let valid_until := now + seconds (credential_ttl_seconds (config active)) in
  let name := trim (create_name request) in
  let name_key := to_ascii_lowercase name in
  let* stored := await (sql (create_account (caller authorization) CREATE_OPERATION
    (create_idempotency_key request) (max_accounts_per_organization (config active))
    service_account_id (create_organization_id request) (ensured_subject ensured_identity)
    name name_key (cs_credential_id credential) verifier now valid_until
    (λ row nonce, bind_ok (summary row) (λ account,
       map_err PluginError.Crypto
         (encrypt (receipt_cipher active)
            {| created_account := account; created := true; created_secret := None |}
            aad nonce))))) in
  let record code error : Handler (Outcome CreateServiceAccountResponse CreateError.t) AccountRow :=
    let* _ := await_ok (record_create_error (caller authorization)
                          (create_idempotency_key request) code) in
    return_ (Ok (Err error)) in
  let* row :=
    match stored with
    | Ok (Some row) => hret row
    | Ok None => record "too_many_service_accounts" CreateError.TooManyServiceAccounts
    | Err error =>
        if bool_decide (unique_constraint error = Some "service_accounts_organization_name_unique")
        then record "name_conflict" CreateError.NameConflict
        else if bool_decide (unique_constraint error = Some "service_accounts_subject_unique")
        then record "directory_rejected" CreateError.DirectoryRejected
        else return_ (Err (runtime error))
    end in
  let* account := ok_ (map_err runtime (summary row)) in
  return_ (Ok (Ok {| created_account := account; created := true;
                     created_secret := Some (expose credential) |})).

Definition create (plugin : ServiceAccountPlugin) (context : InvocationContext)
    (request : CreateServiceAccountRequest) :
    prog (Outcome CreateServiceAccountResponse CreateError.t) :=
  finish (
  let* active := ok_ (active plugin) in
  if negb (valid_idempotency_key (create_idempotency_key request))
     || negb (valid_token (create_organization_id request) 256)
     || negb (valid_name (create_name request))
  then return_ (Ok (Err CreateError.InvalidRequest)) else
  let* authorization := authorized map_create_authorization
    (authorize_management active context CAPABILITY_ID CREATE_OPERATION
       (create_organization_id request) MANAGE_PERMISSION) in
  let* _ := await_sql (sql (prune (receipt_ttl_seconds (config active)))) in
  let* intent := ok_ (map_err runtime (actor_intent_hash (actor_subject authorization) request)) in
  let aad := receipt_aad (caller authorization) CREATE_OPERATION (create_idempotency_key request) in
  let* claim := await_sql (claim_command (caller authorization) CREATE_OPERATION
                             (create_idempotency_key request) intent) in
  match claim with
  | CompletedSuccess nonce ciphertext =>
      let* response := ok_ (map_err runtime (map_err PluginError.Crypto
        (decrypt (T := CreateServiceAccountResponse) (receipt_cipher active) nonce ciphertext aad))) in
      return_ (Ok (Ok {| created_account := created_account response; created := false;
                         created_secret := None |}))
  | CompletedError code =>
      let* error := ok_ (map_err runtime (create_error code)) in
      return_ (Ok (Err error))
  | Conflict => return_ (Ok (Err CreateError.IdempotencyConflict))
  | InProgress => return_ (Ok (Err CreateError.OperationInProgress))
  | Claimed =>
  let* random := await (getrandom 24) in
  let* service_account_id := ok_ (map_err runtime (random_id "sa_" random)) in
  let external_subject := create_organization_id request +:+ ":" +:+ service_account_id in
  let* ensured := await (EnsureIdentity context
    {| provider := directory_provider (config active); external_subject := external_subject |}
    (λ r, Ret r)) in
  let rejected : Handler (Outcome CreateServiceAccountResponse CreateError.t) EnsureIdentityResponse :=
    let* _ := await_sql (sql (complete_error (caller authorization) CREATE_OPERATION
                                (create_idempotency_key request) "directory_rejected")) in
    return_ (Ok (Err CreateError.DirectoryRejected)) in
  let* ensured_identity :=
    match ensured with
    | Ok ensured_identity =>
        if valid_token (ensured_subject ensured_identity) 256
        then hret ensured_identity else rejected
    | Err (Domain _) => rejected
    | Err (Runtime error) => return_ (Err error)
    end in
  create_store active authorization request aad service_account_id ensured_identity
  end).

Definition get (plugin : ServiceAccountPlugin) (context : InvocationContext)
    (request : GetServiceAccountRequest) : prog (Outcome GetServiceAccountResponse GetError.t) :=
  finish (
  let* active := ok_ (active plugin) in
  if negb (valid_token (get_organization_id request) 256)
     || negb (valid_token (get_service_account_id request) 128)
  then return_ (Ok (Err GetError.InvalidRequest)) else
  let* _ := authorized map_get_authorization
    (authorize_management active context CAPABILITY_ID GET_OPERATION
       (get_organization_id request) READ_PERMISSION) in
  let* row := await_sql (sql (load_account (get_organization_id request)
                                (get_service_account_id request))) in
  match row with
  | None => return_ (Ok (Err GetError.NotFound))
  | Some row =>
      let* account := ok_ (map_err runtime (summary row)) in
      return_ (Ok (Ok {| got_account := account |}))
  end).

Definition list_ (plugin : ServiceAccountPlugin) (context : InvocationContext)
    (request : ListServiceAccountsRequest) : prog (Outcome ListServiceAccountsResponse ListError.t) :=
  finish (
  let* active := ok_ (active plugin) in
  match parse_page_limit (list_limit request) (max_page_size (config active)) with
  | None => return_ (Ok (Err ListError.InvalidRequest))
  | Some limit =>
  if negb (valid_token (list_organization_id request) 256)
     || is_some_and (list_after request) (λ cursor, negb (valid_token cursor 128))
  then return_ (Ok (Err ListError.InvalidRequest)) else
  let* _ := authorized map_list_authorization
    (authorize_management active context CAPABILITY_ID LIST_OPERATION
       (list_organization_id request) READ_PERMISSION) in
  let* rows := await_sql (sql (list_accounts (list_organization_id request)
                                 (list_after request) (limit + 1))) in
  let has_more := (Z.to_nat limit <? length rows)%nat in
  let rows := take (Z.to_nat limit) rows in
  let next_cursor := if has_more then r_service_account_id <$> last rows else None in
  let* accounts := ok_ (map_err runtime (collect summary rows)) in
  return_ (Ok (Ok {| listed_accounts := accounts; next_cursor := next_cursor |}))
  end).

Definition rotate_secret (plugin : ServiceAccountPlugin) (context : InvocationContext)
    (request : RotateServiceAccountSecretRequest) :
    prog (Outcome RotateServiceAccountSecretResponse RotateSecretError.t) :=
  finish (
  let* active := ok_ (active plugin) in
  match valid_rotation request with
  | None => return_ (Ok (Err RotateSecretError.InvalidRequest))
  | Some expected_revision =>
  let* authorization := authorized map_rotate_authorization
    (authorize_management active context CAPABILITY_ID ROTATE_SECRET_OPERATION
       (rotate_organization_id request) MANAGE_PERMISSION) in
  let* _ := await_sql (sql (prune (receipt_ttl_seconds (config active)))) in
  let* intent := ok_ (map_err runtime (actor_intent_hash (actor_subject authorization) request)) in
  let aad := receipt_aad (caller authorization) ROTATE_SECRET_OPERATION
               (rotate_idempotency_key request) in
  let* claim := await_sql (claim_command (caller authorization) ROTATE_SECRET_OPERATION
                             (rotate_idempotency_key request) intent) in
  match claim with
  | CompletedSuccess nonce ciphertext =>
      let* response := ok_ (map_err runtime (map_err PluginError.Crypto
        (decrypt (T := RotateServiceAccountSecretResponse) (receipt_cipher active) nonce ciphertext aad))) in
      return_ (Ok (Ok {| rotated_account := rotated_account response; rotated := false;
                         rotated_secret := None |}))
  | CompletedError code =>
      let* error := ok_ (map_err runtime (rotate_error code)) in
      return_ (Ok (Err error))
  | Conflict => return_ (Ok (Err RotateSecretError.IdempotencyConflict))
  | InProgress => return_ (Ok (Err RotateSecretError.OperationInProgress))
  | Claimed =>
  let* id := await (getrandom 18) in
  let* id := ok_ (map_err runtime (map_err PluginError.Crypto (map_err CryptoError.Random id))) in
  let* material := await (getrandom 32) in
  let* credential := ok_ (map_err runtime (map_err PluginError.Crypto (generate (Ok id) material))) in
  let* salt := await (getrandom 16) in
  let* verifier := ok_ (map_err runtime (map_err PluginError.Crypto
                          (verifier credential (pepper active) salt))) in
  let* now := await now_utc in
  let overlap_until := now + seconds (rotation_overlap_seconds (config active)) in
  let valid_until := now + seconds (credential_ttl_seconds (config active)) in
  let* result := await_sql (sql (rotate_account (caller authorization) ROTATE_SECRET_OPERATION
    (rotate_idempotency_key request) (rotate_organization_id request)
    (rotate_service_account_id request) expected_revision (cs_credential_id credential)
    verifier now overlap_until valid_until
    (λ row nonce, bind_ok (summary row) (λ account,
       map_err PluginError.Crypto
         (encrypt (receipt_cipher active)
            {| rotated_account := account; rotated := true; rotated_secret := None |}
            aad nonce))))) in
  let record code error : Handler (Outcome RotateServiceAccountSecretResponse RotateSecretError.t) AccountRow :=
    let* _ := await_ok (record_rotate_error (caller authorization) request code) in
    return_ (Ok (Err error)) in
  let* row :=
    match result with
    | Updated row => hret row
    | NotFound => record "not_found" RotateSecretError.NotFound
    | MutationRevoked => record "revoked" RotateSecretError.Revoked
    | RevisionConflict => record "revision_conflict" RotateSecretError.RevisionConflict
    end in
  let* account := ok_ (map_err runtime (summary row)) in
  return_ (Ok (Ok {| rotated_account := account; rotated := true;
                     rotated_secret := Some (expose credential) |}))
  end end).

Definition revoke (plugin : ServiceAccountPlugin) (context : InvocationContext)
    (request : RevokeServiceAccountRequest) :
    prog (Outcome RevokeServiceAccountResponse RevokeError.t) :=
  finish (
  let* active := ok_ (active plugin) in
  match valid_revocation request with
  | None => return_ (Ok (Err RevokeError.InvalidRequest))
  | Some expected_revision =>
  let* authorization := authorized map_revoke_authorization
    (authorize_management active context CAPABILITY_ID REVOKE_OPERATION
       (revoke_organization_id request) MANAGE_PERMISSION) in
  let* _ := await_sql (sql (prune (receipt_ttl_seconds (config active)))) in
  let* intent := ok_ (map_err runtime (actor_intent_hash (actor_subject authorization) request)) in
  let aad := receipt_aad (caller authorization) REVOKE_OPERATION (revoke_idempotency_key request) in
  let* claim := await_sql (claim_command (caller authorization) REVOKE_OPERATION
                             (revoke_idempotency_key request) intent) in
  match claim with
  | CompletedSuccess nonce ciphertext =>
      let* response := ok_ (map_err runtime (map_err PluginError.Crypto
        (decrypt (T := RevokeServiceAccountResponse) (receipt_cipher active) nonce ciphertext aad))) in
      return_ (Ok (Ok {| revoked_account := revoked_account response; revoked := false |}))
  | CompletedError code =>
      let* error := ok_ (map_err runtime (revoke_error code)) in
      return_ (Ok (Err error))
  | Conflict => return_ (Ok (Err RevokeError.IdempotencyConflict))
  | InProgress => return_ (Ok (Err RevokeError.OperationInProgress))
  | Claimed =>
  let* result := await_sql (sql (revoke_account (caller authorization) REVOKE_OPERATION
    (revoke_idempotency_key request) (revoke_organization_id request)
    (revoke_service_account_id request) expected_revision
    (λ rc nonce, bind_ok (summary rc.1) (λ account,
       map_err PluginError.Crypto
         (encrypt (receipt_cipher active)
            {| revoked_account := account; revoked := rc.2 |} aad nonce))))) in
  let record code error : Handler (Outcome RevokeServiceAccountResponse RevokeError.t) (AccountRow * bool) :=
    let* _ := await_ok (record_revoke_error (caller authorization) request code) in
    return_ (Ok (Err error)) in
  let* (row, changed) :=
    match result with
    | Updated value => hret value
    | NotFound => record "not_found" RevokeError.NotFound
    | RevisionConflict => record "revision_conflict" RevokeError.RevisionConflict
    | MutationRevoked => return_ (Err (runtime (PluginError.Invariant
        "revocation returned an impossible state")))
    end in
  let* account := ok_ (map_err runtime (summary row)) in
  return_ (Ok (Ok {| revoked_account := account; revoked := changed |}))
  end end).
End management.
