(* ===== verification/Authentication.v ===== *)
(** * Authentication: exchange_secret ([authentication.rs]) *)
From S2P Require Import Prelude Text Platform Contract Secret Config Database Effects.
From S2P Require Import Storage Authorization Management.

Open Scope string_scope.
Open Scope list_scope.
Open Scope Z_scope.

(** The domain error a completed exchange receipt stands for. *)
Definition exchange_error (code : string) : result ExchangeSecretError.t PluginError.t :=
  if String.eqb code "invalid_credentials" then Ok ExchangeSecretError.InvalidCredentials
  else if String.eqb code "rate_limited" then Ok ExchangeSecretError.RateLimited
  else if String.eqb code "disabled" then Ok ExchangeSecretError.Disabled
  else Err (PluginError.Invariant "unknown exchange receipt error").

Definition response (credential : CredentialRow) (session_id token expires_at : string) :
    ExchangeServiceAccountSecretResponse := {|
  x_service_account_id := k_service_account_id credential;
  x_organization_id := k_organization_id credential;
  x_subject := k_subject credential;
  x_session_id := session_id;
  x_credential := token;
  x_expires_at := expires_at |}.

(** The claims of an issued credential, in [BTreeMap] order. *)
Definition issue_claims_of (credential : CredentialRow) : list (string * json) :=
  [("organization_id", JString (k_organization_id credential));
   ("service_account_id", JString (k_service_account_id credential))].

Section authentication.
Context `{Platform}.

Definition record_error (caller idempotency_key code : string) : prog (result unit RuntimeFailure) :=
  pbind (sql (complete_error caller EXCHANGE_SECRET_OPERATION idempotency_key code))
    (λ r, Ret (map_err runtime r)).

(** The check of the loaded credential against the presented secret and the clock. *)
Definition usable_credential (active : ActiveServiceAccount) (secret : string) (now : time)
    (credential : option CredentialRow) : option CredentialRow :=
  let verifier := match credential with
                  | Some row => k_verifier row
                  | None => dummy_verifier active end in
  let secret_matches := verify_secret secret (pepper active) verifier in
  opt_filter (λ row, secret_matches && String.eqb (k_account_status row) "active"
                     && is_none (k_revoked_at row)
                     && (k_valid_from row <=? now) && (now <? k_valid_until row)) credential.

(** The end of [exchange_secret], once its command is marked as issuing. *)
Definition exchange_issue (active : ActiveServiceAccount) (context : InvocationContext)
    (caller key : string) (aad : bytes) (credential : CredentialRow) :
    Handler (Outcome ExchangeServiceAccountSecretResponse ExchangeSecretError.t)
      (Outcome ExchangeServiceAccountSecretResponse ExchangeSecretError.t) :=
  let fails {A} code error :
      Handler (Outcome ExchangeServiceAccountSecretResponse ExchangeSecretError.t) A :=
    let* _ := await_ok (record_error caller key code) in
    return_ (Ok (Err error)) in
  let* now := await now_utc in
  let requested_expiry := now + seconds (token_ttl_seconds (config active)) in
  let expires_at := Z.min requested_expiry (k_valid_until credential) in
  if expires_at <=? now then fails "invalid_credentials" ExchangeSecretError.InvalidCredentials else
  let* expires_text := ok_ (map_err runtime (format_time expires_at)) in
  let* issued := await (Issue context
    {| issue_subject := k_subject credential; issue_actor_kind := "service_account";
       issue_assurance := "service_account_secret";
       issue_audience := token_audience (config active);
       issue_claims := issue_claims_of credential; issue_expires_at := expires_text |}
    (λ r, Ret r)) in
  let* session :=
    match issued with
    | Ok session => hret session
    | Err (Domain IssueDisabled) => fails "disabled" ExchangeSecretError.Disabled
    | Err (Domain (IssueOther _)) =>
        return_ (Err (failure "Credential Issuer returned an indeterminate service-account result"))
    | Err (Runtime error) => return_ (Err error)
    end in
  if is_empty (session_id session) || negb (len (session_id session) <=? 256)
     || is_empty (session_credential session) || negb (len (session_credential session) <=? 65536)
  then return_ (Err (failure "Credential Issuer returned an invalid service-account credential")) else
  match rfc3339_parse (session_expires_at session) with
  | None => return_ (Err (failure "Credential Issuer returned an invalid service-account expiry"))
  | Some actual_expiry =>
  let* check_time := await now_utc in
  if (actual_expiry <=? check_time) || (expires_at <? actual_expiry)
  then return_ (Err (failure "Credential Issuer exceeded the bounded service-account expiry")) else
  let response := response credential (session_id session) (session_credential session)
                    (session_expires_at session) in
  let* text := ok_ (map_err runtime (map_err PluginError.Crypto (receipt_text response))) in
  let* nonce := await (getrandom 12) in
  let* (nonce, ciphertext) := ok_ (map_err runtime (map_err PluginError.Crypto
    (seal (receipt_cipher active) text aad nonce))) in
  let* _ := await_sql (sql (complete_success_owned caller EXCHANGE_SECRET_OPERATION key
                              nonce ciphertext)) in
  return_ (Ok (Ok response))
  end.

Definition exchange_secret (plugin : ServiceAccountPlugin) (context : InvocationContext)
    (request : ExchangeServiceAccountSecretRequest) :
    prog (Outcome ExchangeServiceAccountSecretResponse ExchangeSecretError.t) :=
  let key := exchange_idempotency_key request in
  let secret := exchange_secret_text request in
  finish (
  let* active := ok_ (active plugin) in
  match allowed_caller (authentication_callers (config active)) context with
  | None => return_ (Ok (Err ExchangeSecretError.Forbidden))
  | Some caller =>
  let fails {A} code error :
      Handler (Outcome ExchangeServiceAccountSecretResponse ExchangeSecretError.t) A :=
    let* _ := await_ok (record_error caller key code) in
    return_ (Ok (Err error)) in
  if negb (valid_idempotency_key key) || is_empty secret || negb (len secret <=? 512)
  then return_ (Ok (Err ExchangeSecretError.InvalidRequest)) else
  let* _ := await_sql (sql (prune (receipt_ttl_seconds (config active)))) in
  let* intent := ok_ (map_err runtime (request_intent_hash request)) in
  let aad := receipt_aad caller EXCHANGE_SECRET_OPERATION key in
  let* claim := await_sql (claim_command caller EXCHANGE_SECRET_OPERATION key intent) in
  match claim with
  | CompletedSuccess nonce ciphertext =>
      let* response := ok_ (map_err runtime (map_err PluginError.Crypto
        (decrypt (T := ExchangeServiceAccountSecretResponse) (receipt_cipher active) nonce ciphertext aad))) in
      return_ (Ok (Ok response))
  | CompletedError code =>
      let* error := ok_ (map_err runtime (exchange_error code)) in
      return_ (Ok (Err error))
  | Conflict => return_ (Ok (Err ExchangeSecretError.IdempotencyConflict))
  | InProgress => return_ (Ok (Err ExchangeSecretError.OperationInProgress))
  | Claimed =>
  let* now := await now_utc in
  let* admitted := await_sql (sql (reserve_rate_slot caller now
    (exchange_window_seconds (config active)) (max_exchanges_per_window (config active))
    (exchange_lockout_seconds (config active)))) in
  if negb admitted then fails "rate_limited" ExchangeSecretError.RateLimited else
  let* credential :=
    match credential_id secret with
    | Some credential_id => await_sql (sql (load_credential credential_id))
    | None => hret None
    end in
  match usable_credential active secret now credential with
  | None => fails "invalid_credentials" ExchangeSecretError.InvalidCredentials
  | Some credential =>
  let* status := await (ReadStatus context
    {| read_status_subject := k_subject credential |} (λ r, Ret r)) in
  let* _ :=
    match status with
    | Ok response =>
        if String.eqb (status_subject response) (k_subject credential) then
          match status_status response with
          | DirectoryActive => hret tt
          | DirectoryOtherStatus _ => fails "disabled" ExchangeSecretError.Disabled
          end
        else return_ (Err (failure "Identity Directory returned another subject for service-account status"))
    | Err (Domain ReadStatusNotFound) | Err (Domain ReadStatusInvalidSubject) =>
        fails "disabled" ExchangeSecretError.Disabled
    | Err (Domain (ReadStatusOther _)) =>
        return_ (Err (failure "Identity Directory returned an unknown service-account status error"))
    | Err (Runtime error) => return_ (Err error)
    end in
  let* recheck_time := await now_utc in
  let* marked := await_sql (sql (mark_exchange_issuing caller key
    (k_credential_id credential) (k_service_account_id credential) recheck_time)) in
  match marked with
  | None => fails "invalid_credentials" ExchangeSecretError.InvalidCredentials
  | Some credential =>
  exchange_issue active context caller key aad credential
  end end end end).
End authentication.
