(* ===== verification/Endpoint.v ===== *)
(** * Endpoint: the two capability endpoints and every request's effect on the tables

    The generated endpoints ([generated.rs] of the two capability crates) receive an
    operation name and a value of unknown type and dispatch to a provider.  The plug-in is
    the provider of both ([lib.rs]). *)
From S2P Require Import Prelude Text Platform Contract Secret Config Database Effects.
From S2P Require Import TxLogic Storage Integrity Statements Accounts Invariants.
From S2P Require Import Authorization Management Authentication.

Open Scope string_scope.
Open Scope list_scope.
Open Scope Z_scope.

(** [Box<dyn Any>]: the types the endpoints box or downcast to, and any other. *)
Inductive AnyValue : Type :=
  | AnyCreateRequest (r : CreateServiceAccountRequest)
  | AnyGetRequest (r : GetServiceAccountRequest)
  | AnyListRequest (r : ListServiceAccountsRequest)
  | AnyRevokeRequest (r : RevokeServiceAccountRequest)
  | AnyRotateRequest (r : RotateServiceAccountSecretRequest)
  | AnyExchangeRequest (r : ExchangeServiceAccountSecretRequest)
  | AnyCreateResponse (r : CreateServiceAccountResponse)
  | AnyGetResponse (r : GetServiceAccountResponse)
  | AnyListResponse (r : ListServiceAccountsResponse)
  | AnyRevokeResponse (r : RevokeServiceAccountResponse)
  | AnyRotateResponse (r : RotateServiceAccountSecretResponse)
  | AnyExchangeResponse (r : ExchangeServiceAccountSecretResponse)
  | AnyCreateError (e : CreateError.t)
  | AnyGetError (e : GetError.t)
  | AnyListError (e : ListError.t)
  | AnyRevokeError (e : RevokeError.t)
  | AnyRotateError (e : RotateSecretError.t)
  | AnyExchangeError (e : ExchangeSecretError.t)
  | AnyOther (type_name : string).

Section endpoint.
Context `{Platform}.

(** [trait ServiceAccountProvider] of the management capability. *)
Class ManagementProvider (P : Type) := {
  p_create : P → InvocationContext → CreateServiceAccountRequest →
             prog (Outcome CreateServiceAccountResponse CreateError.t);
  p_get : P → InvocationContext → GetServiceAccountRequest →
          prog (Outcome GetServiceAccountResponse GetError.t);
  p_list : P → InvocationContext → ListServiceAccountsRequest →
           prog (Outcome ListServiceAccountsResponse ListError.t);
  p_revoke : P → InvocationContext → RevokeServiceAccountRequest →
             prog (Outcome RevokeServiceAccountResponse RevokeError.t);
  p_rotate_secret : P → InvocationContext → RotateServiceAccountSecretRequest →
             prog (Outcome RotateServiceAccountSecretResponse RotateSecretError.t) }.

(** [trait ServiceAccountProvider] of the authentication capability. *)
Class AuthenticationProvider (P : Type) := {
  p_exchange_secret : P → InvocationContext → ExchangeServiceAccountSecretRequest →
             prog (Outcome ExchangeServiceAccountSecretResponse ExchangeSecretError.t) }.

(** [impl ServiceAccountPlugin] ([lib.rs]): each method calls the handler. *)
#[export] Instance plugin_management : ManagementProvider ServiceAccountPlugin := {
  p_create := create; p_get := get; p_list := list_; p_revoke := revoke;
  p_rotate_secret := rotate_secret }.
#[export] Instance plugin_authentication : AuthenticationProvider ServiceAccountPlugin := {
  p_exchange_secret := exchange_secret }.

(** Box the result of an invocation. *)
Definition boxed {T E} (value : T → AnyValue) (error : E → AnyValue)
    (invocation : prog (Outcome T E)) : prog (Outcome AnyValue AnyValue) :=
  pbind invocation (λ r, Ret (map_ok (λ o, map_err error (map_ok value o)) r)).

Definition protocol_violation (capability : string) : prog (Outcome AnyValue AnyValue) :=
  Ret (Err (ProtocolViolation capability)).

(** [ServiceAccountEndpoint::invoke] of the management capability. *)
Definition invoke_management {P} `{ManagementProvider P} (provider : P) (operation : string)
    (request : AnyValue) (context : InvocationContext) : prog (Outcome AnyValue AnyValue) :=
  if String.eqb operation CREATE_OPERATION then
    match request with
    | AnyCreateRequest r => boxed AnyCreateResponse AnyCreateError (p_create provider context r)
    | _ => protocol_violation CAPABILITY_ID
    end
  else if String.eqb operation GET_OPERATION then
    match request with
    | AnyGetRequest r => boxed AnyGetResponse AnyGetError (p_get provider context r)
    | _ => protocol_violation CAPABILITY_ID
    end
  else if String.eqb operation LIST_OPERATION then
    match request with
    | AnyListRequest r => boxed AnyListResponse AnyListError (p_list provider context r)
    | _ => protocol_violation CAPABILITY_ID
    end
  else if String.eqb operation REVOKE_OPERATION then
    match request with
    | AnyRevokeRequest r => boxed AnyRevokeResponse AnyRevokeError (p_revoke provider context r)
    | _ => protocol_violation CAPABILITY_ID
    end
  else if String.eqb operation ROTATE_SECRET_OPERATION then
    match request with
    | AnyRotateRequest r =>
        boxed AnyRotateResponse AnyRotateError (p_rotate_secret provider context r)
    | _ => protocol_violation CAPABILITY_ID
    end
  else Ret (Err (UnknownOperation CAPABILITY_ID operation)).

(** [ServiceAccountEndpoint::invoke] of the authentication capability. *)
Definition invoke_authentication {P} `{AuthenticationProvider P} (provider : P)
    (operation : string) (request : AnyValue) (context : InvocationContext) :
    prog (Outcome AnyValue AnyValue) :=
  if String.eqb operation EXCHANGE_SECRET_OPERATION then
    match request with
    | AnyExchangeRequest r =>
        boxed AnyExchangeResponse AnyExchangeError (p_exchange_secret provider context r)
    | _ => protocol_violation AUTH_CAPABILITY_ID
    end
  else Ret (Err (UnknownOperation AUTH_CAPABILITY_ID operation)).
End endpoint.

(** ** Handlers keep the invariant *)

(** Structural descent through a handler down to its transactions. *)
Ltac descend_step :=
  lazymatch goal with
  | |- prog_preserves _ _ (finish _) => apply finish_preserves
  | |- prog_preserves _ _ (hbind _ _) => apply hbind_preserves
  | |- prog_preserves _ _ (await _) => apply await_preserves
  | |- prog_preserves _ _ (await_ok _) => apply await_ok_preserves
  | |- prog_preserves _ _ (await_sql _) => apply await_sql_preserves
  | |- prog_preserves _ _ (sql _) => apply sql_preserves
  | |- prog_preserves _ _ (pbind _ _) => apply prog_preserves_bind
  | |- prog_preserves _ _ (return_ _) => exact Logic.I
  | |- prog_preserves _ _ (hret _) => exact Logic.I
  | |- prog_preserves _ _ (ok_ _) => apply await_ok_preserves; exact Logic.I
  | |- prog_preserves _ _ (Ret _) => exact Logic.I
  | |- prog_preserves _ _ now_utc => done
  | |- prog_preserves _ _ (getrandom _) => done
  | |- prog_preserves _ _ (if ?b then _ else _) => destruct b
  | |- prog_preserves _ _ (match ?x with _ => _ end) => destruct x
  | |- ∀ _, _ => intros
  | |- prog_preserves _ _ (let _ := _ in _) => progress cbv zeta
  | |- prog_preserves _ _ _ => progress simpl
  end.
Ltac descend := repeat first [ solve [auto with commits] | descend_step ].

Section preservation.
Context `{Platform} (max : Z).
Notation keeps := (prog_preserves (healthy max) evolves).

Lemma claim_command_keeps caller op key h : keeps (claim_command caller op key h).
Proof. unfold claim_command. descend. Qed.
#[local] Hint Resolve claim_command_keeps : commits.

Lemma authorize_keeps active ctx cap op org perm :
  keeps (authorize_management active ctx cap op org perm).
Proof. unfold authorize_management. descend. Qed.
#[local] Hint Resolve authorize_keeps : commits.

Lemma authorized_keeps {T E} f p : keeps p → keeps (@authorized _ T E f p).
Proof. intros Hp. unfold authorized. descend. Qed.
#[local] Hint Resolve authorized_keeps : commits.

(** The limit in force is the one of the active configuration. *)
Definition limited (plugin : ServiceAccountPlugin) : Prop :=
  ∀ a, active_cell plugin = Some a → max_accounts_per_organization (config a) = max.

(** The other tasks keep the invariant too. *)
Definition rivals_ok (w : World) : Prop := ∀ k d,
  healthy max d → healthy max (w_others w k d) ∧ evolves d (w_others w k d).

(** The tables at every access of an execution come after the first ones. *)
Lemma trace_evolves {A} w n (p : prog A) db x db' t d d' :
  rivals_ok w → keeps p → healthy max db → runs w n p db x db' t → EvSql d d' ∈ t →
  evolves db d.
Proof.
  intros Hw Hp Hdb E Hin.
  by destruct (runs_preserves_trace (healthy max) evolves w n p db x db' t d d' Hw Hp Hdb E Hin)
    as (_ & ? & _).
Qed.

Lemma trace_healthy {A} w n (p : prog A) db x db' t d d' :
  rivals_ok w → keeps p → healthy max db → runs w n p db x db' t → EvSql d d' ∈ t →
  healthy max d.
Proof.
  intros Hw Hp Hdb E Hin.
  by destruct (runs_preserves_trace (healthy max) evolves w n p db x db' t d d' Hw Hp Hdb E Hin).
Qed.

Context (plugin : ServiceAccountPlugin) (Hmax : limited plugin).

Lemma create_keeps ctx req : keeps (create plugin ctx req).
Proof.
  unfold create, create_store, active, record_create_error.
  destruct (active_cell plugin) as [a|] eqn:Ha; [|done].
  apply Hmax in Ha. cbn [ok_or]. rewrite hbind_ok, Ha. clear Ha. descend.
Qed.
Lemma get_keeps ctx req : keeps (get plugin ctx req).
Proof. unfold get, active. destruct (active_cell plugin) as [a|]; [|done]. cbn [ok_or]. rewrite hbind_ok. descend. Qed.
Lemma list_keeps ctx req : keeps (list_ plugin ctx req).
Proof. unfold list_, active. destruct (active_cell plugin) as [a|]; [|done]. cbn [ok_or]. rewrite hbind_ok. descend. Qed.
Lemma rotate_keeps ctx req : keeps (rotate_secret plugin ctx req).
Proof.
  unfold rotate_secret, active, record_rotate_error.
  destruct (active_cell plugin) as [a|]; [|done]. cbn [ok_or]. rewrite hbind_ok. descend.
Qed.
Lemma revoke_keeps ctx req : keeps (revoke plugin ctx req).
Proof.
  unfold revoke, active, record_revoke_error.
  destruct (active_cell plugin) as [a|]; [|done]. cbn [ok_or]. rewrite hbind_ok. descend.
Qed.
Lemma exchange_keeps ctx req : keeps (exchange_secret plugin ctx req).
Proof.
  unfold exchange_secret, exchange_issue, active, record_error.
  destruct (active_cell plugin) as [a|]; [|done]. cbn [ok_or]. rewrite hbind_ok. descend.
Qed.
#[local] Hint Resolve create_keeps get_keeps list_keeps rotate_keeps revoke_keeps
  exchange_keeps : commits.

Lemma boxed_keeps {T E} (f : T → AnyValue) (g : E → AnyValue) p : keeps p → keeps (boxed f g p).
Proof. intros Hp. by apply prog_preserves_bind. Qed.
#[local] Hint Resolve boxed_keeps : commits.

Lemma invoke_management_keeps op req ctx : keeps (invoke_management plugin op req ctx).
Proof. unfold invoke_management. descend. Qed.
Lemma invoke_authentication_keeps op req ctx : keeps (invoke_authentication plugin op req ctx).
Proof. unfold invoke_authentication. descend. Qed.

(** C1: every request to either endpoint, whatever its outcome, whatever fails on the way and
    whatever healthy transactions other tasks commit in between, leaves the tables healthy: the
    constraints of the migration hold, the credentials of a revoked account are closed, and no
    organization has more accounts than the configured limit. The tables only evolve: identities
    never change, revisions never decrease, and revoked accounts are frozen. The same holds for
    each single transaction. *)
Theorem invocations_keep_the_tables_healthy w n op req ctx db out db' t :
  rivals_ok w → healthy max db →
  runs w n (invoke_management plugin op req ctx) db out db' t
  ∨ runs w n (invoke_authentication plugin op req ctx) db out db' t →
  healthy max db' ∧ evolves db db'
  ∧ ∀ d d', EvSql d d' ∈ t → healthy max d ∧ healthy max d' ∧ evolves d d'.
Proof.
  intros Hw Hdb. assert (∀ p : prog (Outcome AnyValue AnyValue), keeps p →
    runs w n p db out db' t →
    healthy max db' ∧ evolves db db'
    ∧ ∀ d d', EvSql d d' ∈ t → healthy max d ∧ healthy max d' ∧ evolves d d') as Hall.
  { intros p Hp E. destruct (runs_preserves _ _ w n p db out db' t Hw Hp Hdb E) as [Hh He].
    split; [done|]. split; [done|]. intros d d' Hin.
    by destruct (runs_preserves_trace _ _ w n p db out db' t d d' Hw Hp Hdb E Hin) as (?&_&?&?&_). }
  intros [E|E]; eapply Hall; [|exact E| |exact E];
    [apply invoke_management_keeps|apply invoke_authentication_keeps].
Qed.
End preservation.

(** ** Types at the endpoint *)

(** The request type of an operation of the management capability. *)
Definition request_type (operation : string) (v : AnyValue) : bool :=
  match v with
  | AnyCreateRequest _ => String.eqb operation CREATE_OPERATION
  | AnyGetRequest _ => String.eqb operation GET_OPERATION
  | AnyListRequest _ => String.eqb operation LIST_OPERATION
  | AnyRevokeRequest _ => String.eqb operation REVOKE_OPERATION
  | AnyRotateRequest _ => String.eqb operation ROTATE_SECRET_OPERATION
  | _ => false
  end.
Definition is_exchange_request (v : AnyValue) : bool :=
  match v with AnyExchangeRequest _ => true | _ => false end.
Definition management_operations : list string :=
  [CREATE_OPERATION; GET_OPERATION; LIST_OPERATION; REVOKE_OPERATION; ROTATE_SECRET_OPERATION].

(** An outcome with its value or its domain error boxed. *)
Definition box {T E} (value : T → AnyValue) (error : E → AnyValue) (o : Outcome T E) :
    Outcome AnyValue AnyValue := map_ok (λ o, map_err error (map_ok value o)) o.

Lemma runs_boxed `{Platform} {T E} (f : T → AnyValue) (g : E → AnyValue) w n p db out db' t :
  runs w n (boxed f g p) db out db' t ↔ ∃ o, runs w n p db o db' t ∧ out = box f g o.
Proof.
  unfold boxed. rewrite runs_bind. split.
  - intros (o & d & t1 & t2 & Ho & (-> & -> & ->)%runs_ret & ->). rewrite app_nil_r. by exists o.
  - intros (o & Ho & ->). exists o, db', t, []. by rewrite runs_ret, app_nil_r.
Qed.

Section typing.
Context `{Platform} (w : World) (n : nat) (ctx : InvocationContext) (db : Db).

(** What the management endpoint promises: a request of an operation's own type is one execution
    of the provider's method for it; anything else fails at once. *)
Inductive management_call {P} `{!ManagementProvider P} (provider : P) :
    string → AnyValue → Outcome AnyValue AnyValue → Db → list event → Prop :=
  | call_create r o db' t : runs w n (p_create provider ctx r) db o db' t →
      management_call provider CREATE_OPERATION (AnyCreateRequest r)
        (box AnyCreateResponse AnyCreateError o) db' t
  | call_get r o db' t : runs w n (p_get provider ctx r) db o db' t →
      management_call provider GET_OPERATION (AnyGetRequest r)
        (box AnyGetResponse AnyGetError o) db' t
  | call_list r o db' t : runs w n (p_list provider ctx r) db o db' t →
      management_call provider LIST_OPERATION (AnyListRequest r)
        (box AnyListResponse AnyListError o) db' t
  | call_revoke r o db' t : runs w n (p_revoke provider ctx r) db o db' t →
      management_call provider REVOKE_OPERATION (AnyRevokeRequest r)
        (box AnyRevokeResponse AnyRevokeError o) db' t
  | call_rotate_secret r o db' t : runs w n (p_rotate_secret provider ctx r) db o db' t →
      management_call provider ROTATE_SECRET_OPERATION (AnyRotateRequest r)
        (box AnyRotateResponse AnyRotateError o) db' t
  | call_mistyped op req : op ∈ management_operations → request_type op req = false →
      management_call provider op req (Err (ProtocolViolation CAPABILITY_ID)) db []
  | call_unknown op req : op ∉ management_operations →
      management_call provider op req (Err (UnknownOperation CAPABILITY_ID op)) db [].

(** The same for the authentication endpoint and its one operation. *)
Inductive authentication_call {P} `{!AuthenticationProvider P} (provider : P) :
    string → AnyValue → Outcome AnyValue AnyValue → Db → list event → Prop :=
  | call_exchange_secret r o db' t : runs w n (p_exchange_secret provider ctx r) db o db' t →
      authentication_call provider EXCHANGE_SECRET_OPERATION (AnyExchangeRequest r)
        (box AnyExchangeResponse AnyExchangeError o) db' t
  | call_auth_mistyped req : is_exchange_request req = false →
      authentication_call provider EXCHANGE_SECRET_OPERATION req
        (Err (ProtocolViolation AUTH_CAPABILITY_ID)) db []
  | call_auth_unknown op req : op ≠ EXCHANGE_SECRET_OPERATION →
      authentication_call provider op req (Err (UnknownOperation AUTH_CAPABILITY_ID op)) db [].

Lemma invoke_management_calls {P} `{!ManagementProvider P} (provider : P) op req out db' t :
  runs w n (invoke_management provider op req ctx) db out db' t →
  management_call provider op req out db' t.
Proof.
  unfold invoke_management.
  destruct (String.eqb_spec op CREATE_OPERATION) as [->|N1];
    [|destruct (String.eqb_spec op GET_OPERATION) as [->|N2];
    [|destruct (String.eqb_spec op LIST_OPERATION) as [->|N3];
    [|destruct (String.eqb_spec op REVOKE_OPERATION) as [->|N4];
    [|destruct (String.eqb_spec op ROTATE_SECRET_OPERATION) as [->|N5]]]]].
  6: { intros (-> & -> & ->)%runs_ret. apply call_unknown. unfold management_operations.
       rewrite !elem_of_cons. intros Hin. destruct_or?; try done. by apply not_elem_of_nil in Hin. }
  all: destruct req; intros E;
    first [apply runs_boxed in E as (o & E & ->); by constructor
          |apply runs_ret in E as (-> & -> & ->); apply call_mistyped; [|done];
           unfold management_operations; rewrite !elem_of_cons; tauto].
Qed.

Lemma invoke_authentication_calls {P} `{!AuthenticationProvider P} (provider : P) op req out db' t :
  runs w n (invoke_authentication provider op req ctx) db out db' t →
  authentication_call provider op req out db' t.
Proof.
  unfold invoke_authentication.
  destruct (String.eqb_spec op EXCHANGE_SECRET_OPERATION) as [->|N].
  2: { intros (-> & -> & ->)%runs_ret. by constructor. }
  destruct req; intros E;
    first [apply runs_boxed in E as (o & E & ->); by constructor
          |apply runs_ret in E as (-> & -> & ->); by constructor].
Qed.

Lemma call_invokes_management {P} `{!ManagementProvider P} (provider : P) op req out db' t :
  management_call provider op req out db' t →
  runs w n (invoke_management provider op req ctx) db out db' t.
Proof.
  destruct 1 as [| | | | |op req Hop Hreq|op req Hop];
    [apply runs_boxed; by eexists..| |].
  - unfold management_operations in Hop. rewrite !elem_of_cons, elem_of_nil in Hop.
    destruct_or?; subst; try done; by destruct req.
  - assert (∀ o, o ∈ management_operations → String.eqb op o = false) as Hne
      by (intros o Ho; apply String.eqb_neq; by intros ->).
    unfold invoke_management. rewrite !Hne by (unfold management_operations; set_solver). done.
Qed.

Lemma call_invokes_authentication {P} `{!AuthenticationProvider P} (provider : P) op req out db' t :
  authentication_call provider op req out db' t →
  runs w n (invoke_authentication provider op req ctx) db out db' t.
Proof.
  destruct 1 as [|req Hreq|op req Hop]; [apply runs_boxed; by eexists|by destruct req|].
  unfold invoke_authentication. by rewrite (proj2 (String.eqb_neq _ _) Hop).
Qed.

(** C34: an execution of either endpoint on a request of an operation's own type is exactly one
    execution of the provider's method for that operation, with its answer boxed; a value of any
    other type is a protocol violation and any other operation is unknown, both at once and
    without effect; and the endpoints have no other executions. *)
Theorem endpoint_is_typed {P Q} `{!ManagementProvider P, !AuthenticationProvider Q}
    (manager : P) (authenticator : Q) op req out db' t :
  (runs w n (invoke_management manager op req ctx) db out db' t
   ↔ management_call manager op req out db' t)
  ∧ (runs w n (invoke_authentication authenticator op req ctx) db out db' t
     ↔ authentication_call authenticator op req out db' t).
Proof.
  split; split; [apply invoke_management_calls|apply call_invokes_management
    |apply invoke_authentication_calls|apply call_invokes_authentication].
Qed.
End typing.
