(* ===== verification/Dispatch.v ===== *)
(** * Dispatch: typed and erased requests ([generated.rs] of both capability crates)

    A generated endpoint answers requests in two ways: erased, through
    [NativeRequestEndpoint::invoke] on boxed values ([Endpoint]), and typed, when a caller
    that knows the capability finds the provider behind [typed_endpoint] and calls it
    without boxing.  The runtime kernel is outside the repository: what the generated code
    uses of it is the class [Kernel]. *)
From S2P Require Import Prelude Text Platform Contract Secret Config Database Effects.
From S2P Require Import Authorization Management Authentication Endpoint.

Open Scope string_scope.
Open Scope list_scope.
Open Scope Z_scope.

(** [DESCRIPTOR_VERSION] of both capabilities. *)
Definition DESCRIPTOR_VERSION : string := "1.0.0".

Section dispatch.
Context `{Platform}.

(** ** Endpoints *)

(** [Rc<dyn ServiceAccountProvider>]: a provider of a hidden type. *)
Record DynManagementProvider := {
  management_type : Type;
  management_impl : ManagementProvider management_type;
  management_self : management_type }.
Record DynAuthenticationProvider := {
  authentication_type : Type;
  authentication_impl : AuthenticationProvider authentication_type;
  authentication_self : authentication_type }.

(** What [typed_endpoint] refers to: the private [ServiceAccountRequestEndpoint] of either
    crate, or a type of another crate. *)
Inductive AnyRef :=
  | ManagementRequestEndpoint (provider : DynManagementProvider)
  | AuthenticationRequestEndpoint (provider : DynAuthenticationProvider)
  | OtherRef (type_name : string).

(** [trait NativeRequestEndpoint]. *)
Record NativeRequestEndpoint := {
  capability_id : string;
  descriptor_version : string;
  operations : list string;
  typed_endpoint : option AnyRef;
  endpoint_invoke : string → AnyValue → InvocationContext → prog (Outcome AnyValue AnyValue) }.

(** [ServiceAccountEndpoint::new] and its [impl NativeRequestEndpoint]: management. *)
Definition ServiceAccountEndpoint {P} `{!ManagementProvider P} (provider : P) :
    NativeRequestEndpoint := {|
  capability_id := CAPABILITY_ID;
  descriptor_version := DESCRIPTOR_VERSION;
  operations := management_operations;
  typed_endpoint := Some (ManagementRequestEndpoint
    {| management_type := P; management_impl := _; management_self := provider |});
  endpoint_invoke := invoke_management provider |}.

(** The same of the authentication crate. *)
Definition AuthServiceAccountEndpoint {P} `{!AuthenticationProvider P} (provider : P) :
    NativeRequestEndpoint := {|
  capability_id := AUTH_CAPABILITY_ID;
  descriptor_version := DESCRIPTOR_VERSION;
  operations := [EXCHANGE_SECRET_OPERATION];
  typed_endpoint := Some (AuthenticationRequestEndpoint
    {| authentication_type := P; authentication_impl := _; authentication_self := provider |});
  endpoint_invoke := invoke_authentication provider |}.

(** ** Request capabilities *)

(** The associated types and constants of [trait RequestCapability], with the boxes of its
    types and [downcast]. *)
Record CapabilityTypes := {
  Request : Type; Response : Type; DomainError : Type;
  ID : string; VERSION : string;
  any_request : Request → AnyValue;
  any_response : Response → AnyValue;
  any_error : DomainError → AnyValue;
  downcast_response : AnyValue → option Response;
  downcast_error : AnyValue → option DomainError;
  downcast_any_response r : downcast_response (any_response r) = Some r;
  downcast_any_error e : downcast_error (any_error e) = Some e }.

(** The answers of a capability, boxed as an endpoint boxes them. *)
Definition boxed_answers (C : CapabilityTypes) (p : prog (Outcome (Response C) (DomainError C))) :
    prog (Outcome AnyValue AnyValue) := boxed (any_response C) (any_error C) p.

(** [lenso_kernel]: sending a request through the boxes of an endpoint. *)
Class Kernel := {
  invoke_typed_or_erased_native_request (C : CapabilityTypes) :
    NativeRequestEndpoint → string → Request C → InvocationContext →
    prog (Outcome (Response C) (DomainError C)) }.

(** The kernel has no typed access to the endpoints of these crates. *)
Definition opaque_to_kernel (endpoint : NativeRequestEndpoint) : Prop :=
  match typed_endpoint endpoint with Some (OtherRef _) => False | _ => True end.

(** What the kernel promises for those: it boxes the request, invokes the endpoint and
    unboxes an answer of the capability's types. *)
Class KernelLaws `{Kernel} : Prop := {
  erased_request C endpoint operation request context answer :
    opaque_to_kernel endpoint →
    endpoint_invoke endpoint operation (any_request C request) context ≡ boxed_answers C answer →
    invoke_typed_or_erased_native_request C endpoint operation request context ≡ answer }.

(** [impl RequestCapability for ..]: the six request types. *)
Definition ServiceAccountCreate : CapabilityTypes := {|
  Request := CreateServiceAccountRequest; Response := CreateServiceAccountResponse;
  DomainError := CreateError.t; ID := CAPABILITY_ID; VERSION := DESCRIPTOR_VERSION;
  any_request := AnyCreateRequest; any_response := AnyCreateResponse; any_error := AnyCreateError;
  downcast_response v := match v with AnyCreateResponse r => Some r | _ => None end;
  downcast_error v := match v with AnyCreateError e => Some e | _ => None end;
  downcast_any_response _ := eq_refl; downcast_any_error _ := eq_refl |}.
Definition ServiceAccountGet : CapabilityTypes := {|
  Request := GetServiceAccountRequest; Response := GetServiceAccountResponse;
  DomainError := GetError.t; ID := CAPABILITY_ID; VERSION := DESCRIPTOR_VERSION;
  any_request := AnyGetRequest; any_response := AnyGetResponse; any_error := AnyGetError;
  downcast_response v := match v with AnyGetResponse r => Some r | _ => None end;
  downcast_error v := match v with AnyGetError e => Some e | _ => None end;
  downcast_any_response _ := eq_refl; downcast_any_error _ := eq_refl |}.
Definition ServiceAccountList : CapabilityTypes := {|
  Request := ListServiceAccountsRequest; Response := ListServiceAccountsResponse;
  DomainError := ListError.t; ID := CAPABILITY_ID; VERSION := DESCRIPTOR_VERSION;
  any_request := AnyListRequest; any_response := AnyListResponse; any_error := AnyListError;
  downcast_response v := match v with AnyListResponse r => Some r | _ => None end;
  downcast_error v := match v with AnyListError e => Some e | _ => None end;
  downcast_any_response _ := eq_refl; downcast_any_error _ := eq_refl |}.
Definition ServiceAccountRevoke : CapabilityTypes := {|
  Request := RevokeServiceAccountRequest; Response := RevokeServiceAccountResponse;
  DomainError := RevokeError.t; ID := CAPABILITY_ID; VERSION := DESCRIPTOR_VERSION;
  any_request := AnyRevokeRequest; any_response := AnyRevokeResponse; any_error := AnyRevokeError;
  downcast_response v := match v with AnyRevokeResponse r => Some r | _ => None end;
  downcast_error v := match v with AnyRevokeError e => Some e | _ => None end;
  downcast_any_response _ := eq_refl; downcast_any_error _ := eq_refl |}.
Definition ServiceAccountRotateSecret : CapabilityTypes := {|
  Request := RotateServiceAccountSecretRequest; Response := RotateServiceAccountSecretResponse;
  DomainError := RotateSecretError.t; ID := CAPABILITY_ID; VERSION := DESCRIPTOR_VERSION;
  any_request := AnyRotateRequest; any_response := AnyRotateResponse; any_error := AnyRotateError;
  downcast_response v := match v with AnyRotateResponse r => Some r | _ => None end;
  downcast_error v := match v with AnyRotateError e => Some e | _ => None end;
  downcast_any_response _ := eq_refl; downcast_any_error _ := eq_refl |}.
Definition ServiceAccountExchange : CapabilityTypes := {|
  Request := ExchangeServiceAccountSecretRequest; Response := ExchangeServiceAccountSecretResponse;
  DomainError := ExchangeSecretError.t; ID := AUTH_CAPABILITY_ID; VERSION := DESCRIPTOR_VERSION;
  any_request := AnyExchangeRequest; any_response := AnyExchangeResponse; any_error := AnyExchangeError;
  downcast_response v := match v with AnyExchangeResponse r => Some r | _ => None end;
  downcast_error v := match v with AnyExchangeError e => Some e | _ => None end;
  downcast_any_response _ := eq_refl; downcast_any_error _ := eq_refl |}.

(** ** [invoke_native] *)

Context `{Kernel}.

(** [endpoint.typed_endpoint().and_then(|e| e.downcast_ref::<ServiceAccountRequestEndpoint>())]. *)
Definition management_endpoint (endpoint : NativeRequestEndpoint) : option DynManagementProvider :=
  match typed_endpoint endpoint with
  | Some (ManagementRequestEndpoint provider) => Some provider
  | _ => None
  end.
Definition authentication_endpoint (endpoint : NativeRequestEndpoint) :
    option DynAuthenticationProvider :=
  match typed_endpoint endpoint with
  | Some (AuthenticationRequestEndpoint provider) => Some provider
  | _ => None
  end.

(** The methods of the trait object. *)
#[local] Instance dyn_management (d : DynManagementProvider) :
  ManagementProvider (management_type d) := management_impl d.
#[local] Instance dyn_authentication (d : DynAuthenticationProvider) :
  AuthenticationProvider (authentication_type d) := authentication_impl d.

(** [ServiceAccountCreate::invoke_native]. *)
Definition create_invoke_native (endpoint : NativeRequestEndpoint) (operation : string)
    (request : CreateServiceAccountRequest) (context : InvocationContext) :
    prog (Outcome CreateServiceAccountResponse CreateError.t) :=
  let erased := invoke_typed_or_erased_native_request ServiceAccountCreate endpoint operation request context in
  if negb (String.eqb operation CREATE_OPERATION) then erased
  else match management_endpoint endpoint with
       | None => erased
       | Some provider => p_create (management_self provider) context request
       end.
(** [ServiceAccountGet::invoke_native]. *)
Definition get_invoke_native (endpoint : NativeRequestEndpoint) (operation : string)
    (request : GetServiceAccountRequest) (context : InvocationContext) :
    prog (Outcome GetServiceAccountResponse GetError.t) :=
  let erased := invoke_typed_or_erased_native_request ServiceAccountGet endpoint operation request context in
  if negb (String.eqb operation GET_OPERATION) then erased
  else match management_endpoint endpoint with
       | None => erased
       | Some provider => p_get (management_self provider) context request
       end.
(** [ServiceAccountList::invoke_native]. *)
Definition list_invoke_native (endpoint : NativeRequestEndpoint) (operation : string)
    (request : ListServiceAccountsRequest) (context : InvocationContext) :
    prog (Outcome ListServiceAccountsResponse ListError.t) :=
  let erased := invoke_typed_or_erased_native_request ServiceAccountList endpoint operation request context in
  if negb (String.eqb operation LIST_OPERATION) then erased
  else match management_endpoint endpoint with
       | None => erased
       | Some provider => p_list (management_self provider) context request
       end.
(** [ServiceAccountRevoke::invoke_native]. *)
Definition revoke_invoke_native (endpoint : NativeRequestEndpoint) (operation : string)
    (request : RevokeServiceAccountRequest) (context : InvocationContext) :
    prog (Outcome RevokeServiceAccountResponse RevokeError.t) :=
  let erased := invoke_typed_or_erased_native_request ServiceAccountRevoke endpoint operation request context in
  if negb (String.eqb operation REVOKE_OPERATION) then erased
  else match management_endpoint endpoint with
       | None => erased
       | Some provider => p_revoke (management_self provider) context request
       end.
(** [ServiceAccountRotateSecret::invoke_native]. *)
Definition rotate_secret_invoke_native (endpoint : NativeRequestEndpoint) (operation : string)
    (request : RotateServiceAccountSecretRequest) (context : InvocationContext) :
    prog (Outcome RotateServiceAccountSecretResponse RotateSecretError.t) :=
  let erased := invoke_typed_or_erased_native_request ServiceAccountRotateSecret endpoint operation request context in
  if negb (String.eqb operation ROTATE_SECRET_OPERATION) then erased
  else match management_endpoint endpoint with
       | None => erased
       | Some provider => p_rotate_secret (management_self provider) context request
       end.
(** [ServiceAccount::invoke_native] of the authentication crate. *)
Definition exchange_invoke_native (endpoint : NativeRequestEndpoint) (operation : string)
    (request : ExchangeServiceAccountSecretRequest) (context : InvocationContext) :
    prog (Outcome ExchangeServiceAccountSecretResponse ExchangeSecretError.t) :=
  let erased := invoke_typed_or_erased_native_request ServiceAccountExchange endpoint operation request context in
  if negb (String.eqb operation EXCHANGE_SECRET_OPERATION) then erased
  else match authentication_endpoint endpoint with
       | None => erased
       | Some provider => p_exchange_secret (authentication_self provider) context request
       end.

(** The implementors of [RequestCapability]. *)
Class RequestCapability (C : CapabilityTypes) :=
  invoke_native : NativeRequestEndpoint → string → Request C → InvocationContext →
                  prog (Outcome (Response C) (DomainError C)).
#[export] Instance create_capability : RequestCapability ServiceAccountCreate := create_invoke_native.
#[export] Instance get_capability : RequestCapability ServiceAccountGet := get_invoke_native.
#[export] Instance list_capability : RequestCapability ServiceAccountList := list_invoke_native.
#[export] Instance revoke_capability : RequestCapability ServiceAccountRevoke := revoke_invoke_native.
#[export] Instance rotate_capability : RequestCapability ServiceAccountRotateSecret :=
  rotate_secret_invoke_native.
#[export] Instance exchange_capability : RequestCapability ServiceAccountExchange :=
  exchange_invoke_native.
End dispatch.

(** ** Typed and erased requests agree *)

Section agreement.
Context `{Platform} `{!Kernel} `{!KernelLaws}.

(** The endpoint with its typed access hidden, as behind a proxy that only forwards boxes. *)
Definition erase (endpoint : NativeRequestEndpoint) : NativeRequestEndpoint := {|
  capability_id := capability_id endpoint;
  descriptor_version := descriptor_version endpoint;
  operations := operations endpoint;
  typed_endpoint := None;
  endpoint_invoke := endpoint_invoke endpoint |}.

(** Whatever the operation, the typed request answers what the boxes answer, and whether the
    typed access is there makes no difference. *)
Definition typed_and_erased_agree (endpoint : NativeRequestEndpoint) (C : CapabilityTypes)
    `{!RequestCapability C} : Prop := ∀ operation request context,
  boxed_answers C (invoke_native endpoint operation request context)
    ≡ endpoint_invoke endpoint operation (any_request C request) context
  ∧ invoke_native endpoint operation request context
    ≡ invoke_native (erase endpoint) operation request context.

Lemma boxed_err {T E} (f : T → AnyValue) (g : E → AnyValue) e : boxed f g (Ret (Err e)) = Ret (Err e).
Proof. done. Qed.

(** A capability whose own operation calls [call], and whose other operations fail. *)
Lemma agree_intro C `{!RequestCapability C} endpoint own call :
  opaque_to_kernel endpoint →
  (∀ op req ctx, invoke_native endpoint op req ctx =
     if negb (String.eqb op own)
     then invoke_typed_or_erased_native_request C endpoint op req ctx else call ctx req) →
  (∀ op req ctx, invoke_native (erase endpoint) op req ctx =
     invoke_typed_or_erased_native_request C (erase endpoint) op req ctx) →
  (∀ req ctx, endpoint_invoke endpoint own (any_request C req) ctx = boxed_answers C (call ctx req)) →
  (∀ op req ctx, op ≠ own →
     ∃ e, endpoint_invoke endpoint op (any_request C req) ctx = Ret (Err e)) →
  typed_and_erased_agree endpoint C.
Proof.
  intros Hopaque Htyped Herased Hown Hother op req ctx.
  rewrite Htyped, Herased. destruct (String.eqb_spec op own) as [->|Hop]; simpl.
  - split; [by rewrite Hown|]. symmetry. apply erased_request; [done|]. simpl. by rewrite Hown.
  - destruct (Hother op req ctx Hop) as [e He].
    assert (∀ ep, opaque_to_kernel ep → endpoint_invoke ep = endpoint_invoke endpoint →
      invoke_typed_or_erased_native_request C ep op req ctx ≡ Ret (Err e)) as Hfail.
    { intros ep Hep E. apply erased_request; [done|]. by rewrite E, He. }
    split.
    + rewrite He. unfold boxed_answers, boxed. by rewrite (Hfail endpoint).
    + rewrite (Hfail endpoint), (Hfail (erase endpoint)); done.
Qed.

(** The endpoint answers an operation that is not the request's own with an error. *)
Ltac other_operation :=
  unfold ServiceAccountEndpoint, AuthServiceAccountEndpoint, invoke_management,
    invoke_authentication; simpl; intros op req ctx Hop;
  repeat match goal with |- context [String.eqb ?o ?c] => destruct (String.eqb_spec o c) end;
  try done; eexists; reflexivity.

Ltac agree C own call := apply (agree_intro C _ own call);
  [exact Logic.I|reflexivity
  |intros op req ctx; unfold invoke_native, create_capability, get_capability, list_capability,
     revoke_capability, rotate_capability, exchange_capability, create_invoke_native,
     get_invoke_native, list_invoke_native, revoke_invoke_native, rotate_secret_invoke_native,
     exchange_invoke_native; by destruct (String.eqb op own)
  |reflexivity|other_operation].

Section providers.
Context {P Q} `{!ManagementProvider P, !AuthenticationProvider Q} (manager : P) (authenticator : Q).

Lemma create_agrees : typed_and_erased_agree (ServiceAccountEndpoint manager) ServiceAccountCreate.
Proof. agree ServiceAccountCreate CREATE_OPERATION (p_create manager). Qed.
Lemma get_agrees : typed_and_erased_agree (ServiceAccountEndpoint manager) ServiceAccountGet.
Proof. agree ServiceAccountGet GET_OPERATION (p_get manager). Qed.
Lemma list_agrees : typed_and_erased_agree (ServiceAccountEndpoint manager) ServiceAccountList.
Proof. agree ServiceAccountList LIST_OPERATION (p_list manager). Qed.
Lemma revoke_agrees : typed_and_erased_agree (ServiceAccountEndpoint manager) ServiceAccountRevoke.
Proof. agree ServiceAccountRevoke REVOKE_OPERATION (p_revoke manager). Qed.
Lemma rotate_agrees : typed_and_erased_agree (ServiceAccountEndpoint manager) ServiceAccountRotateSecret.
Proof. agree ServiceAccountRotateSecret ROTATE_SECRET_OPERATION (p_rotate_secret manager). Qed.
Lemma exchange_agrees :
  typed_and_erased_agree (AuthServiceAccountEndpoint authenticator) ServiceAccountExchange.
Proof. agree ServiceAccountExchange EXCHANGE_SECRET_OPERATION (p_exchange_secret authenticator). Qed.
End providers.

(** C35: for each of the six capabilities, any provider, operation and request, the generated
    typed dispatch is the same program as the endpoint's dispatch on boxes, up to boxing the
    answer, and the same whether the endpoint offers its typed access or hides it: the same
    answers, effects and tables in every world, for a kernel whose fallback boxes the request
    and unboxes the answer. *)
Theorem typed_dispatch_is_erased_dispatch {P Q} `{!ManagementProvider P, !AuthenticationProvider Q}
    (manager : P) (authenticator : Q) :
  typed_and_erased_agree (ServiceAccountEndpoint manager) ServiceAccountCreate
  ∧ typed_and_erased_agree (ServiceAccountEndpoint manager) ServiceAccountGet
  ∧ typed_and_erased_agree (ServiceAccountEndpoint manager) ServiceAccountList
  ∧ typed_and_erased_agree (ServiceAccountEndpoint manager) ServiceAccountRevoke
  ∧ typed_and_erased_agree (ServiceAccountEndpoint manager) ServiceAccountRotateSecret
  ∧ typed_and_erased_agree (AuthServiceAccountEndpoint authenticator) ServiceAccountExchange.
Proof.
  split_and!; [apply create_agrees|apply get_agrees|apply list_agrees|apply revoke_agrees
    |apply rotate_agrees|apply exchange_agrees].
Qed.
End agreement.
