(* ===== verification/Clients.v ===== *)
(** * Clients: lowered providers, generated clients and their wiring

    The generated crates also contain the code around an endpoint: macros that turn a
    plug-in's own methods into a provider ([__lenso_native_lower_*]), and clients that find
    the handles of a bound capability and call its operations ([ServiceAccountClient]).
    Handles and dependencies belong to the kernel and are parameters. *)
From S2P Require Import Prelude Text Platform Contract Secret Config Database Effects.
From S2P Require Import Authorization Management Authentication Endpoint Dispatch.

Open Scope string_scope.
Open Scope list_scope.
Open Scope Z_scope.
Open Scope result_scope.

(** ** Results of plug-in methods *)

(** [lenso_plugin_authoring::PluginError]. *)
Inductive AuthoringError (D R : Type) : Type :=
  | DomainPart (error : D)
  | RuntimePart (error : R).
Arguments DomainPart {D R} _.
Arguments RuntimePart {D R} _.

(** The generated [..InvocationError] enums. *)
Definition ServiceAccountCreateInvocationError := InvocationError CreateError.t.
Definition ServiceAccountGetInvocationError := InvocationError GetError.t.
Definition ServiceAccountListInvocationError := InvocationError ListError.t.
Definition ServiceAccountRevokeInvocationError := InvocationError RevokeError.t.
Definition ServiceAccountRotateSecretInvocationError := InvocationError RotateSecretError.t.
Definition ServiceAccountInvocationError := InvocationError ExchangeSecretError.t.

(** The traits [__LensoIntoServiceAccount..Result], one per operation with the same four
    implementations. *)
Class LensoIntoResult (A T E : Type) := lenso_into_result : A → Outcome T E.
#[export] Instance into_domain_result {T E} : LensoIntoResult (result T E) T E := λ self, Ok self.
#[export] Instance into_nested_result {T E} : LensoIntoResult (Outcome T E) T E := λ self, self.
#[export] Instance into_plugin_result {T E} :
    LensoIntoResult (result T (AuthoringError E RuntimeFailure)) T E := λ self,
  match self with
  | Ok value => Ok (Ok value)
  | Err (DomainPart error) => Ok (Err error)
  | Err (RuntimePart error) => Err error
  end.
#[export] Instance into_invocation_result {T E} :
    LensoIntoResult (result T (InvocationError E)) T E := λ self,
  match self with
  | Ok value => Ok (Ok value)
  | Err (Domain error) => Ok (Err error)
  | Err (Runtime error) => Err error
  end.

Definition create_into_result {A} `{!LensoIntoResult A CreateServiceAccountResponse CreateError.t}
    (self : A) : Outcome CreateServiceAccountResponse CreateError.t := lenso_into_result self.
Definition get_into_result {A} `{!LensoIntoResult A GetServiceAccountResponse GetError.t}
    (self : A) : Outcome GetServiceAccountResponse GetError.t := lenso_into_result self.
Definition list_into_result {A} `{!LensoIntoResult A ListServiceAccountsResponse ListError.t}
    (self : A) : Outcome ListServiceAccountsResponse ListError.t := lenso_into_result self.
Definition revoke_into_result {A} `{!LensoIntoResult A RevokeServiceAccountResponse RevokeError.t}
    (self : A) : Outcome RevokeServiceAccountResponse RevokeError.t := lenso_into_result self.
Definition rotate_secret_into_result {A}
    `{!LensoIntoResult A RotateServiceAccountSecretResponse RotateSecretError.t}
    (self : A) : Outcome RotateServiceAccountSecretResponse RotateSecretError.t :=
  lenso_into_result self.
Definition exchange_secret_into_result {A}
    `{!LensoIntoResult A ExchangeServiceAccountSecretResponse ExchangeSecretError.t}
    (self : A) : Outcome ExchangeServiceAccountSecretResponse ExchangeSecretError.t :=
  lenso_into_result self.

(** [.await.map_err(..::Runtime)?.map_err(..::Domain)]. *)
Definition invocation_result {T E} (outcome : Outcome T E) : result T (InvocationError E) :=
  let? answer := map_err Runtime outcome in map_err Domain answer.

Lemma into_invocation_result_inv {T E} (outcome : Outcome T E) :
  lenso_into_result (invocation_result outcome) = outcome.
Proof. by destruct outcome as [[]|]. Qed.

Section clients.
Context `{Platform}.

(** ** Lowered providers *)

(** The inherent methods of a plug-in type, with results of any convertible type. *)
Record InherentMethods (P : Type) := {
  create_result : Type;
  create_converts : LensoIntoResult create_result CreateServiceAccountResponse CreateError.t;
  i_create : P → InvocationContext → CreateServiceAccountRequest → prog create_result;
  get_result : Type;
  get_converts : LensoIntoResult get_result GetServiceAccountResponse GetError.t;
  i_get : P → InvocationContext → GetServiceAccountRequest → prog get_result;
  list_result : Type;
  list_converts : LensoIntoResult list_result ListServiceAccountsResponse ListError.t;
  i_list : P → InvocationContext → ListServiceAccountsRequest → prog list_result;
  revoke_result : Type;
  revoke_converts : LensoIntoResult revoke_result RevokeServiceAccountResponse RevokeError.t;
  i_revoke : P → InvocationContext → RevokeServiceAccountRequest → prog revoke_result;
  rotate_result : Type;
  rotate_converts :
    LensoIntoResult rotate_result RotateServiceAccountSecretResponse RotateSecretError.t;
  i_rotate_secret : P → InvocationContext → RotateServiceAccountSecretRequest → prog rotate_result }.
#[local] Existing Instances create_converts get_converts list_converts revoke_converts
  rotate_converts.

(** [let result = ..await; __lenso_into_result(result)]. *)
Definition converted {A B} (invocation : prog A) (into : A → B) : prog B :=
  pbind invocation (λ r, Ret (into r)).

(** [__lenso_native_lower_service_account!]. *)
Definition lower_service_account {P} (m : InherentMethods P) : ManagementProvider P := {|
  p_create plugin context request := converted (i_create P m plugin context request) create_into_result;
  p_get plugin context request := converted (i_get P m plugin context request) get_into_result;
  p_list plugin context request := converted (i_list P m plugin context request) list_into_result;
  p_revoke plugin context request := converted (i_revoke P m plugin context request) revoke_into_result;
  p_rotate_secret plugin context request :=
    converted (i_rotate_secret P m plugin context request) rotate_secret_into_result |}.

(** [let plugin = object.get()?]: the object may be gone. *)
Definition with_plugin {O P T E} (get : O → result P RuntimeFailure) (object : O)
    (k : P → prog (Outcome T E)) : prog (Outcome T E) :=
  match get object with Ok plugin => k plugin | Err e => Ret (Err e) end.

(** [__lenso_native_lower_object_service_account!]. *)
Definition lower_object_service_account {O P} (get : O → result P RuntimeFailure)
    (m : InherentMethods P) : ManagementProvider O := {|
  p_create object context request := with_plugin get object (λ plugin,
    converted (i_create P m plugin context request) create_into_result);
  p_get object context request := with_plugin get object (λ plugin,
    converted (i_get P m plugin context request) get_into_result);
  p_list object context request := with_plugin get object (λ plugin,
    converted (i_list P m plugin context request) list_into_result);
  p_revoke object context request := with_plugin get object (λ plugin,
    converted (i_revoke P m plugin context request) revoke_into_result);
  p_rotate_secret object context request := with_plugin get object (λ plugin,
    converted (i_rotate_secret P m plugin context request) rotate_secret_into_result) |}.

(** [__lenso_native_lower_trait_object_service_account!]. *)
Definition lower_trait_object_service_account {O P} `{!ManagementProvider P}
    (get : O → result P RuntimeFailure) : ManagementProvider O := {|
  p_create object context request :=
    with_plugin get object (λ plugin, p_create plugin context request);
  p_get object context request :=
    with_plugin get object (λ plugin, p_get plugin context request);
  p_list object context request :=
    with_plugin get object (λ plugin, p_list plugin context request);
  p_revoke object context request :=
    with_plugin get object (λ plugin, p_revoke plugin context request);
  p_rotate_secret object context request :=
    with_plugin get object (λ plugin, p_rotate_secret plugin context request) |}.

(** The three macros of the authentication crate. *)
Record AuthInherentMethods (P : Type) := {
  exchange_result : Type;
  exchange_converts :
    LensoIntoResult exchange_result ExchangeServiceAccountSecretResponse ExchangeSecretError.t;
  i_exchange_secret :
    P → InvocationContext → ExchangeServiceAccountSecretRequest → prog exchange_result }.
#[local] Existing Instance exchange_converts.

Definition lower_auth_service_account {P} (m : AuthInherentMethods P) : AuthenticationProvider P := {|
  p_exchange_secret plugin context request :=
    converted (i_exchange_secret P m plugin context request) exchange_secret_into_result |}.
Definition lower_auth_object_service_account {O P} (get : O → result P RuntimeFailure)
    (m : AuthInherentMethods P) : AuthenticationProvider O := {|
  p_exchange_secret object context request := with_plugin get object (λ plugin,
    converted (i_exchange_secret P m plugin context request) exchange_secret_into_result) |}.
Definition lower_auth_trait_object_service_account {O P} `{!AuthenticationProvider P}
    (get : O → result P RuntimeFailure) : AuthenticationProvider O := {|
  p_exchange_secret object context request :=
    with_plugin get object (λ plugin, p_exchange_secret plugin context request) |}.

(** The methods of [ServiceAccountPlugin] ([lib.rs]) already return nested results. *)
Definition plugin_methods : InherentMethods ServiceAccountPlugin := {|
  create_converts := into_nested_result; i_create := create;
  get_converts := into_nested_result; i_get := get;
  list_converts := into_nested_result; i_list := list_;
  revoke_converts := into_nested_result; i_revoke := revoke;
  rotate_converts := into_nested_result; i_rotate_secret := rotate_secret |}.
Definition plugin_auth_methods : AuthInherentMethods ServiceAccountPlugin := {|
  exchange_converts := into_nested_result; i_exchange_secret := exchange_secret |}.

(** [__lenso_native_endpoints_service_account!]: the request endpoints of a provider; it has
    no stream and no event endpoints. *)
Definition native_endpoints {P} `{!ManagementProvider P} (provider : P) :
    list NativeRequestEndpoint * list Empty_set * list Empty_set :=
  ([ServiceAccountEndpoint provider], [], []).
Definition auth_native_endpoints {P} `{!AuthenticationProvider P} (provider : P) :
    list NativeRequestEndpoint * list Empty_set * list Empty_set :=
  ([AuthServiceAccountEndpoint provider], [], []).

(** ** Handles and dependencies of the kernel *)

(** [NativeRequestHandle<C>]: a bound capability, with the context of a new invocation or
    with a given one. *)
Record NativeRequestHandle (C : CapabilityTypes) := {
  handle_invoke : string → Request C → prog (Outcome (Response C) (DomainError C));
  handle_invoke_with_context : string → InvocationContext → Request C →
    prog (Outcome (Response C) (DomainError C)) }.

(** A handle of unknown capability. *)
Record AnyHandle := { typed : ∀ C, result (NativeRequestHandle C) RuntimeFailure }.
Record Binding := {
  binding_capability_id : string; provider_instance : string; binding_handle : option AnyHandle }.

(** [PluginDependencies]. *)
Class Dependencies (D : Type) := {
  one : D → ∀ C, result (NativeRequestHandle C) RuntimeFailure;
  requirement : D → string → result D RuntimeFailure;
  bindings : D → list Binding }.

(** [lenso_plugin_authoring::BoundCapabilityClient]. *)
Record BoundCapabilityClient (A : Type) := { bound_instance : string; bound_client : A }.
Arguments bound_instance {A} _.
Arguments bound_client {A} _.

(** ** The management client *)

Record ServiceAccountClient := {
  c_create : NativeRequestHandle ServiceAccountCreate;
  c_get : NativeRequestHandle ServiceAccountGet;
  c_list : NativeRequestHandle ServiceAccountList;
  c_revoke : NativeRequestHandle ServiceAccountRevoke;
  c_rotate_secret : NativeRequestHandle ServiceAccountRotateSecret }.

(** A client method: invoke the handle, then [invocation_result]. *)
Definition called {T E} (invocation : prog (Outcome T E)) : prog (result T (InvocationError E)) :=
  pbind invocation (λ o, Ret (invocation_result o)).

Definition client_create (self : ServiceAccountClient) (request : CreateServiceAccountRequest) :
    prog (result CreateServiceAccountResponse ServiceAccountCreateInvocationError) :=
  called (handle_invoke _ (c_create self) CREATE_OPERATION request).
Definition client_create_with_context (self : ServiceAccountClient) (context : InvocationContext)
    (request : CreateServiceAccountRequest) :
    prog (result CreateServiceAccountResponse ServiceAccountCreateInvocationError) :=
  called (handle_invoke_with_context _ (c_create self) CREATE_OPERATION context request).
Definition client_get (self : ServiceAccountClient) (request : GetServiceAccountRequest) :
    prog (result GetServiceAccountResponse ServiceAccountGetInvocationError) :=
  called (handle_invoke _ (c_get self) GET_OPERATION request).
Definition client_get_with_context (self : ServiceAccountClient) (context : InvocationContext)
    (request : GetServiceAccountRequest) :
    prog (result GetServiceAccountResponse ServiceAccountGetInvocationError) :=
  called (handle_invoke_with_context _ (c_get self) GET_OPERATION context request).
Definition client_list (self : ServiceAccountClient) (request : ListServiceAccountsRequest) :
    prog (result ListServiceAccountsResponse ServiceAccountListInvocationError) :=
  called (handle_invoke _ (c_list self) LIST_OPERATION request).
Definition client_list_with_context (self : ServiceAccountClient) (context : InvocationContext)
    (request : ListServiceAccountsRequest) :
    prog (result ListServiceAccountsResponse ServiceAccountListInvocationError) :=
  called (handle_invoke_with_context _ (c_list self) LIST_OPERATION context request).
Definition client_revoke (self : ServiceAccountClient) (request : RevokeServiceAccountRequest) :
    prog (result RevokeServiceAccountResponse ServiceAccountRevokeInvocationError) :=
  called (handle_invoke _ (c_revoke self) REVOKE_OPERATION request).
Definition client_revoke_with_context (self : ServiceAccountClient) (context : InvocationContext)
    (request : RevokeServiceAccountRequest) :
    prog (result RevokeServiceAccountResponse ServiceAccountRevokeInvocationError) :=
  called (handle_invoke_with_context _ (c_revoke self) REVOKE_OPERATION context request).
Definition client_rotate_secret (self : ServiceAccountClient)
    (request : RotateServiceAccountSecretRequest) :
    prog (result RotateServiceAccountSecretResponse ServiceAccountRotateSecretInvocationError) :=
  called (handle_invoke _ (c_rotate_secret self) ROTATE_SECRET_OPERATION request).
Definition client_rotate_secret_with_context (self : ServiceAccountClient)
    (context : InvocationContext) (request : RotateServiceAccountSecretRequest) :
    prog (result RotateServiceAccountSecretResponse ServiceAccountRotateSecretInvocationError) :=
  called (handle_invoke_with_context _ (c_rotate_secret self) ROTATE_SECRET_OPERATION context request).

(** [impl CapabilityClient for ServiceAccountClient]. *)
Definition from_dependencies {D} `{!Dependencies D} (dependencies : D) :
    result ServiceAccountClient RuntimeFailure :=
  let? create := one dependencies ServiceAccountCreate in
  let? get := one dependencies ServiceAccountGet in
  let? list := one dependencies ServiceAccountList in
  let? revoke := one dependencies ServiceAccountRevoke in
  let? rotate_secret := one dependencies ServiceAccountRotateSecret in
  Ok {| c_create := create; c_get := get; c_list := list; c_revoke := revoke;
        c_rotate_secret := rotate_secret |}.
Definition from_requirement {D} `{!Dependencies D} (dependencies : D) (requirement_id : string) :
    result ServiceAccountClient RuntimeFailure :=
  let? dependencies := requirement dependencies requirement_id in
  from_dependencies dependencies.
Definition already_connected : RuntimeFailure :=
  PluginFailure ("Capability Port " +:+ CAPABILITY_ID +:+ " was connected more than once").

(** [binding.handle().ok_or(Unavailable)?.typed::<C>()?]. *)
Definition typed_handle (capability : string) (binding : Binding) (C : CapabilityTypes) :
    result (NativeRequestHandle C) RuntimeFailure :=
  let? handle := ok_or (binding_handle binding) (Unavailable capability) in typed handle C.

(** [impl CapabilityClientMany for ServiceAccountClient]. *)
Definition many_from_dependencies {D} `{!Dependencies D} (dependencies : D) :
    result (list (BoundCapabilityClient ServiceAccountClient)) RuntimeFailure :=
  collect (λ binding,
      let? create := typed_handle CAPABILITY_ID binding ServiceAccountCreate in
      let? get := typed_handle CAPABILITY_ID binding ServiceAccountGet in
      let? list := typed_handle CAPABILITY_ID binding ServiceAccountList in
      let? revoke := typed_handle CAPABILITY_ID binding ServiceAccountRevoke in
      let? rotate_secret := typed_handle CAPABILITY_ID binding ServiceAccountRotateSecret in
      Ok {| bound_instance := provider_instance binding;
            bound_client := {| c_create := create; c_get := get; c_list := list;
                               c_revoke := revoke; c_rotate_secret := rotate_secret |} |})
    (List.filter (λ binding, String.eqb (binding_capability_id binding) CAPABILITY_ID)
       (bindings dependencies)).
Definition many_from_requirement {D} `{!Dependencies D} (dependencies : D) (requirement_id : string) :
    result (list (BoundCapabilityClient ServiceAccountClient)) RuntimeFailure :=
  let? dependencies := requirement dependencies requirement_id in
  many_from_dependencies dependencies.

(** ** The authentication client *)

Record AuthServiceAccountClient := { c_exchange_secret : NativeRequestHandle ServiceAccountExchange }.
Definition auth_client_new (handle : NativeRequestHandle ServiceAccountExchange) :
    AuthServiceAccountClient := {| c_exchange_secret := handle |}.
Definition client_exchange_secret (self : AuthServiceAccountClient)
    (request : ExchangeServiceAccountSecretRequest) :
    prog (result ExchangeServiceAccountSecretResponse ServiceAccountInvocationError) :=
  called (handle_invoke _ (c_exchange_secret self) EXCHANGE_SECRET_OPERATION request).
Definition client_exchange_secret_with_context (self : AuthServiceAccountClient)
    (context : InvocationContext) (request : ExchangeServiceAccountSecretRequest) :
    prog (result ExchangeServiceAccountSecretResponse ServiceAccountInvocationError) :=
  called (handle_invoke_with_context _ (c_exchange_secret self) EXCHANGE_SECRET_OPERATION
            context request).
Definition auth_from_dependencies {D} `{!Dependencies D} (dependencies : D) :
    result AuthServiceAccountClient RuntimeFailure :=
  let? exchange_secret := one dependencies ServiceAccountExchange in
  Ok {| c_exchange_secret := exchange_secret |}.
Definition auth_from_requirement {D} `{!Dependencies D} (dependencies : D)
    (requirement_id : string) : result AuthServiceAccountClient RuntimeFailure :=
  let? dependencies := requirement dependencies requirement_id in
  auth_from_dependencies dependencies.
Definition auth_already_connected : RuntimeFailure :=
  PluginFailure ("Capability Port " +:+ AUTH_CAPABILITY_ID +:+ " was connected more than once").
Definition auth_many_from_dependencies {D} `{!Dependencies D} (dependencies : D) :
    result (list (BoundCapabilityClient AuthServiceAccountClient)) RuntimeFailure :=
  collect (λ binding,
      let? exchange_secret := typed_handle AUTH_CAPABILITY_ID binding ServiceAccountExchange in
      Ok {| bound_instance := provider_instance binding;
            bound_client := {| c_exchange_secret := exchange_secret |} |})
    (List.filter (λ binding, String.eqb (binding_capability_id binding) AUTH_CAPABILITY_ID)
       (bindings dependencies)).
Definition auth_many_from_requirement {D} `{!Dependencies D} (dependencies : D)
    (requirement_id : string) :
    result (list (BoundCapabilityClient AuthServiceAccountClient)) RuntimeFailure :=
  let? dependencies := requirement dependencies requirement_id in
  auth_many_from_dependencies dependencies.
End clients.
Arguments bound_instance {A} _.
Arguments bound_client {A} _.

(** ** Clients reach the provider *)

Section transparency.
Context `{Platform} `{!Kernel} `{!KernelLaws}.

(** ** What the kernel does with an invocation

    Between a client's handle and the endpoint stands the kernel: it admits an invocation or
    refuses it ([default_admission] of the two contracts), and may drop one that it admitted. *)

(** The tables after the accesses of [t], when they were [db] before. *)
Fixpoint tables_after (db : Db) (t : list event) : Db :=
  match t with
  | [] => db
  | EvSql _ d :: t => tables_after d t
  | _ :: t => tables_after db t
  end.

(** The executions of [p] are executions of [q], or end early with a runtime failure: at once
    when the kernel refuses the invocation, after some steps of [q] when it drops it. *)
Definition delivers {T E} (p q : prog (Outcome T E)) : Prop :=
  ∀ w n db x db' t, runs w n p db x db' t →
    runs w n q db x db' t
    ∨ ∃ f y d t0, x = Err f ∧ runs w n q db y d t0 ∧ t `prefix_of` t0 ∧ db' = tables_after db t.

(** A guarantee of the kernel: a relation between what a handle does and what the endpoint
    does, up to programs with the same executions. *)
Class Transport (R : ∀ T E, relation (prog (Outcome T E))) : Prop :=
  transport_proper T E : Proper ((≡) ==> (≡) ==> iff) (R T E).
#[export] Existing Instance transport_proper.

Definition exactly T E : relation (prog (Outcome T E)) := λ p q, p ≡ q.
Definition delivered T E : relation (prog (Outcome T E)) := delivers.

#[export] Instance exactly_transport : Transport exactly.
Proof. intros T E p p' Hp q q' Hq. unfold exactly. by rewrite Hp, Hq. Qed.
#[export] Instance delivered_transport : Transport delivered.
Proof.
  intros T E p p' Hp q q' Hq. unfold delivered, delivers.
  split; intros Hd w n db x db' t Hr; [rewrite <-Hp in Hr|rewrite Hp in Hr];
    destruct (Hd _ _ _ _ _ _ Hr) as [?|(f & y & d & t0 & -> & Hy & ?)];
    first [left; by rewrite <-Hq|left; by rewrite Hq
          |right; exists f, y, d, t0; rewrite <-Hq; done|right; exists f, y, d, t0; rewrite Hq; done].
Qed.

(** A kernel that always delivers, and one that refuses. *)
Lemma exactly_delivers {T E} (p q : prog (Outcome T E)) : p ≡ q → delivers p q.
Proof. intros Hpq w n db x db' t Hr. left. by rewrite <-Hpq. Qed.
Lemma refusal_delivers {T E} f (q : prog (Outcome T E)) : delivers (Ret (Err f)) q.
Proof.
  intros w n db x db' t (-> & -> & ->)%runs_ret. right.
  destruct (run w n q db) as [[y d] t0] eqn:Hq. exists f, y, d, t0.
  split; [done|]. split; [exact Hq|]. split; [apply prefix_nil|done].
Qed.

Context (R : ∀ T E, relation (prog (Outcome T E))) `{!Transport R}.
Arguments R {T E} _ _.

(** The handle sends its requests to the endpoint, with its own context or a given one. *)
Definition bound_to (endpoint : NativeRequestEndpoint) {C} `{!RequestCapability C}
    (h : NativeRequestHandle C) : Prop :=
  (∀ op ctx req, R (handle_invoke_with_context C h op ctx req) (invoke_native endpoint op req ctx))
  ∧ ∀ op req, ∃ ctx, R (handle_invoke C h op req) (invoke_native endpoint op req ctx).

(** Two providers whose answers to every request are so related. *)
Definition same_provider {P Q} `{!ManagementProvider P, !ManagementProvider Q} (p : P) (q : Q) : Prop :=
  (∀ ctx req, R (p_create p ctx req) (p_create q ctx req))
  ∧ (∀ ctx req, R (p_get p ctx req) (p_get q ctx req))
  ∧ (∀ ctx req, R (p_list p ctx req) (p_list q ctx req))
  ∧ (∀ ctx req, R (p_revoke p ctx req) (p_revoke q ctx req))
  ∧ (∀ ctx req, R (p_rotate_secret p ctx req) (p_rotate_secret q ctx req)).
Definition same_authenticator {P Q} `{!AuthenticationProvider P, !AuthenticationProvider Q}
    (p : P) (q : Q) : Prop :=
  ∀ ctx req, R (p_exchange_secret p ctx req) (p_exchange_secret q ctx req).

(** A plug-in that forwards its requests with a client, as a provider. *)
Definition forwarding_methods : InherentMethods ServiceAccountClient := {|
  create_converts := into_invocation_result; i_create := client_create_with_context;
  get_converts := into_invocation_result; i_get := client_get_with_context;
  list_converts := into_invocation_result; i_list := client_list_with_context;
  revoke_converts := into_invocation_result; i_revoke := client_revoke_with_context;
  rotate_converts := into_invocation_result; i_rotate_secret := client_rotate_secret_with_context |}.
Definition auth_forwarding_methods : AuthInherentMethods AuthServiceAccountClient := {|
  exchange_converts := into_invocation_result;
  i_exchange_secret := client_exchange_secret_with_context |}.

(** The client's method [m] is the invocation of the provider's method [q], with the two kinds of
    failure in one error. *)
Definition calls {T E} (m : prog (result T (InvocationError E))) (q : prog (Outcome T E)) : Prop :=
  ∃ p, m ≡ called p ∧ R p q.

(** The client's methods invoke the provider's; so a plug-in that forwards with the client is the
    provider again. *)
Definition reaches {P} `{!ManagementProvider P} (client : ServiceAccountClient) (provider : P) : Prop :=
  (∀ ctx req, calls (client_create_with_context client ctx req) (p_create provider ctx req))
  ∧ (∀ ctx req, calls (client_get_with_context client ctx req) (p_get provider ctx req))
  ∧ (∀ ctx req, calls (client_list_with_context client ctx req) (p_list provider ctx req))
  ∧ (∀ ctx req, calls (client_revoke_with_context client ctx req) (p_revoke provider ctx req))
  ∧ (∀ ctx req, calls (client_rotate_secret_with_context client ctx req)
                  (p_rotate_secret provider ctx req))
  ∧ (∀ req, ∃ ctx, calls (client_create client req) (p_create provider ctx req))
  ∧ (∀ req, ∃ ctx, calls (client_get client req) (p_get provider ctx req))
  ∧ (∀ req, ∃ ctx, calls (client_list client req) (p_list provider ctx req))
  ∧ (∀ req, ∃ ctx, calls (client_revoke client req) (p_revoke provider ctx req))
  ∧ (∀ req, ∃ ctx, calls (client_rotate_secret client req) (p_rotate_secret provider ctx req))
  ∧ same_provider (ManagementProvider0 := lower_service_account forwarding_methods) client provider.
Definition auth_reaches {P} `{!AuthenticationProvider P} (client : AuthServiceAccountClient)
    (provider : P) : Prop :=
  (∀ ctx req, calls (client_exchange_secret_with_context client ctx req)
                (p_exchange_secret provider ctx req))
  ∧ (∀ req, ∃ ctx, calls (client_exchange_secret client req) (p_exchange_secret provider ctx req))
  ∧ same_authenticator (AuthenticationProvider0 := lower_auth_service_account auth_forwarding_methods)
      client provider.

#[export] Instance called_proper {T E} : Proper ((≡) ==> (≡)) (@called _ T E).
Proof. intros p q Hpq. unfold called. by rewrite Hpq. Qed.
#[export] Instance converted_proper {A B} : Proper ((≡) ==> eq ==> (≡)) (@converted _ A B).
Proof. intros p q Hpq f _ <-. unfold converted. by rewrite Hpq. Qed.

(** Calling and converting back loses nothing. *)
Lemma converted_called {T E} (p : prog (Outcome T E)) : converted (called p) lenso_into_result ≡ p.
Proof.
  unfold converted, called. rewrite pbind_assoc. etransitivity; [|apply pbind_ret].
  apply pbind_proper; [done|]. intros o. simpl. by rewrite into_invocation_result_inv.
Qed.

(** The endpoint of a provider, or that endpoint without its typed access. *)
Definition endpoint_of {P} `{!ManagementProvider P} (provider : P) (endpoint : NativeRequestEndpoint) : Prop :=
  endpoint ∈ (native_endpoints provider).1.1 ∨ endpoint = erase (ServiceAccountEndpoint provider).
Definition auth_endpoint_of {P} `{!AuthenticationProvider P} (provider : P)
    (endpoint : NativeRequestEndpoint) : Prop :=
  endpoint ∈ (auth_native_endpoints provider).1.1
  ∨ endpoint = erase (AuthServiceAccountEndpoint provider).

(** The request of a capability's own operation reaches the method [call]. *)
Lemma native_reaches C `{!RequestCapability C} endpoint base own call :
  endpoint ∈ [base] ∨ endpoint = erase base → typed_and_erased_agree base C →
  (∀ req ctx, invoke_native base own req ctx = call ctx req) →
  ∀ req ctx, invoke_native endpoint own req ctx ≡ call ctx req.
Proof.
  intros [->%list_elem_of_singleton| ->] Hagree Hcall req ctx; rewrite <- Hcall; [done|].
  symmetry. apply Hagree.
Qed.

(** So do the methods of a client whose handle is bound to the endpoint. *)
Lemma handle_reaches C `{!RequestCapability C} endpoint base own call (h : NativeRequestHandle C) :
  endpoint ∈ [base] ∨ endpoint = erase base → typed_and_erased_agree base C →
  (∀ req ctx, invoke_native base own req ctx = call ctx req) → bound_to endpoint h →
  (∀ ctx req, calls (called (handle_invoke_with_context C h own ctx req)) (call ctx req))
  ∧ (∀ req, ∃ ctx, calls (called (handle_invoke C h own req)) (call ctx req)).
Proof.
  intros Hep Hagree Hbase [Hwith Hown].
  pose proof (native_reaches C endpoint base own call Hep Hagree Hbase) as Hcall. split.
  - intros ctx req. eexists. split; [done|]. by rewrite <-Hcall.
  - intros req. destruct (Hown own req) as [ctx E]. exists ctx. eexists. split; [done|].
    by rewrite <-Hcall.
Qed.

Definition client_bound (endpoint : NativeRequestEndpoint) (client : ServiceAccountClient) : Prop :=
  bound_to endpoint (c_create client) ∧ bound_to endpoint (c_get client)
  ∧ bound_to endpoint (c_list client) ∧ bound_to endpoint (c_revoke client)
  ∧ bound_to endpoint (c_rotate_secret client).

(** A forwarded request, once the client's method is known to be the provider's. *)
Lemma forwarded {T E} (m : prog (result T (InvocationError E))) (q : prog (Outcome T E)) :
  calls m q → R (converted m (lenso_into_result (LensoIntoResult := into_invocation_result))) q.
Proof. intros (p & Hm & Hp). by rewrite Hm, converted_called. Qed.

Lemma client_reaches {P} `{!ManagementProvider P} (provider : P) endpoint client :
  endpoint_of provider endpoint → client_bound endpoint client → reaches client provider.
Proof.
  intros Hep (B1 & B2 & B3 & B4 & B5).
  destruct (handle_reaches ServiceAccountCreate _ _ CREATE_OPERATION (p_create provider) _ Hep
    (create_agrees provider) (λ _ _, eq_refl) B1) as [W1 O1].
  destruct (handle_reaches ServiceAccountGet _ _ GET_OPERATION (p_get provider) _ Hep
    (get_agrees provider) (λ _ _, eq_refl) B2) as [W2 O2].
  destruct (handle_reaches ServiceAccountList _ _ LIST_OPERATION (p_list provider) _ Hep
    (list_agrees provider) (λ _ _, eq_refl) B3) as [W3 O3].
  destruct (handle_reaches ServiceAccountRevoke _ _ REVOKE_OPERATION (p_revoke provider) _ Hep
    (revoke_agrees provider) (λ _ _, eq_refl) B4) as [W4 O4].
  destruct (handle_reaches ServiceAccountRotateSecret _ _ ROTATE_SECRET_OPERATION
    (p_rotate_secret provider) _ Hep (rotate_agrees provider) (λ _ _, eq_refl) B5) as [W5 O5].
  do 10 (split; [assumption|]).
  split_and!; intros ctx req;
    [exact (forwarded _ _ (W1 ctx req))|exact (forwarded _ _ (W2 ctx req))
    |exact (forwarded _ _ (W3 ctx req))|exact (forwarded _ _ (W4 ctx req))
    |exact (forwarded _ _ (W5 ctx req))].
Qed.

Lemma auth_client_reaches {P} `{!AuthenticationProvider P} (provider : P) endpoint client :
  auth_endpoint_of provider endpoint → bound_to endpoint (c_exchange_secret client) →
  auth_reaches client provider.
Proof.
  intros Hep B.
  destruct (handle_reaches ServiceAccountExchange _ _ EXCHANGE_SECRET_OPERATION
    (p_exchange_secret provider) _ Hep (exchange_agrees provider) (λ _ _, eq_refl) B) as [W O].
  split; [assumption|]. split; [assumption|]. intros ctx req.
  exact (forwarded _ _ (W ctx req)).
Qed.

(** ** Wiring *)

(** Every handle a lookup finds is bound to the endpoint. *)
Definition finds (lookup : ∀ C, result (NativeRequestHandle C) RuntimeFailure)
    (endpoint : NativeRequestEndpoint) : Prop :=
  (∀ h, lookup ServiceAccountCreate = Ok h → bound_to endpoint h)
  ∧ (∀ h, lookup ServiceAccountGet = Ok h → bound_to endpoint h)
  ∧ (∀ h, lookup ServiceAccountList = Ok h → bound_to endpoint h)
  ∧ (∀ h, lookup ServiceAccountRevoke = Ok h → bound_to endpoint h)
  ∧ (∀ h, lookup ServiceAccountRotateSecret = Ok h → bound_to endpoint h).
Definition auth_finds (lookup : ∀ C, result (NativeRequestHandle C) RuntimeFailure)
    (endpoint : NativeRequestEndpoint) : Prop :=
  ∀ h, lookup ServiceAccountExchange = Ok h → bound_to endpoint h.

End transparency.

Section lowering.
Context `{Platform} `{!Kernel}.

(** ** Lowering the plug-in *)

(** A nested result is converted to itself. *)
Ltac nested :=
  unfold converted, create_into_result, get_into_result, list_into_result, revoke_into_result,
    rotate_secret_into_result, exchange_secret_into_result, lenso_into_result; simpl;
  exact (pbind_ret _).

Lemma lowered_plugin plugin :
  same_provider exactly (ManagementProvider0 := lower_service_account plugin_methods) plugin plugin
  ∧ same_authenticator exactly (AuthenticationProvider0 := lower_auth_service_account plugin_auth_methods)
      plugin plugin.
Proof. split; [split_and!|]; intros ctx req; simpl; nested. Qed.

Lemma with_plugin_ok {O P T E} (get : O → result P RuntimeFailure) object plugin
    (k : P → prog (Outcome T E)) : get object = Ok plugin → with_plugin get object k = k plugin.
Proof. unfold with_plugin. by intros ->. Qed.

(** An object that holds the plug-in is the plug-in, by either macro. *)
Lemma lowered_objects {O} (get : O → result ServiceAccountPlugin RuntimeFailure) object plugin :
  get object = Ok plugin →
  same_provider exactly (ManagementProvider0 := lower_object_service_account get plugin_methods) object plugin
  ∧ same_provider exactly (ManagementProvider0 := lower_trait_object_service_account get) object plugin
  ∧ same_authenticator exactly
      (AuthenticationProvider0 := lower_auth_object_service_account get plugin_auth_methods)
      object plugin
  ∧ same_authenticator exactly (AuthenticationProvider0 := lower_auth_trait_object_service_account get)
      object plugin.
Proof.
  intros Hget. split; [|split; [|split]]; [split_and!|split_and!| |]; intros ctx req; simpl; rewrite (with_plugin_ok _ _ _ _ Hget);
    first [done|nested].
Qed.

End lowering.

Section wiring.
Context `{Platform} `{!Kernel} `{!KernelLaws}
  (R : ∀ T E, relation (prog (Outcome T E))) `{!Transport R}.
Context {D} `{!Dependencies D} (deps : D).

Lemma from_dependencies_bound endpoint client :
  finds R (one deps) endpoint → from_dependencies deps = Ok client → client_bound R endpoint client.
Proof.
  unfold from_dependencies. intros (F1 & F2 & F3 & F4 & F5)
    (h1 & E1 & (h2 & E2 & (h3 & E3 & (h4 & E4 & (h5 & E5 & [= <-])%bind_ok_Ok)%bind_ok_Ok)%bind_ok_Ok)
     %bind_ok_Ok)%bind_ok_Ok.
  split_and!; simpl; auto.
Qed.

Lemma many_from_dependencies_bound clients :
  many_from_dependencies deps = Ok clients →
  Forall2 (λ binding client,
    bound_instance client = provider_instance binding
    ∧ ∀ endpoint, finds R (typed_handle CAPABILITY_ID binding) endpoint →
        client_bound R endpoint (bound_client client))
    (List.filter (λ b, String.eqb (binding_capability_id b) CAPABILITY_ID) (bindings deps)) clients.
Proof.
  intros H2%collect_Ok. eapply Forall2_impl; [exact H2|]. intros binding client
    (h1 & E1 & (h2 & E2 & (h3 & E3 & (h4 & E4 & (h5 & E5 & [= <-])%bind_ok_Ok)%bind_ok_Ok)%bind_ok_Ok)
     %bind_ok_Ok)%bind_ok_Ok.
  split; [done|]. intros endpoint (F1 & F2 & F3 & F4 & F5). split_and!; simpl; auto.
Qed.

Lemma auth_many_from_dependencies_bound clients :
  auth_many_from_dependencies deps = Ok clients →
  Forall2 (λ binding client,
    bound_instance client = provider_instance binding
    ∧ ∀ endpoint, auth_finds R (typed_handle AUTH_CAPABILITY_ID binding) endpoint →
        bound_to R endpoint (c_exchange_secret (bound_client client)))
    (List.filter (λ b, String.eqb (binding_capability_id b) AUTH_CAPABILITY_ID) (bindings deps))
    clients.
Proof.
  intros H2%collect_Ok. eapply Forall2_impl; [exact H2|].
  intros binding client (h & E & [= <-])%bind_ok_Ok.
  split; [done|]. intros endpoint F. simpl. auto.
Qed.

(** The bindings a client is made from, and the client made from each. *)
Definition clients_of (capability : string) {A} (clients : list (BoundCapabilityClient A))
    (good : Binding → A → Prop) : Prop :=
  Forall2 (λ binding client, bound_instance client = provider_instance binding
                             ∧ good binding (bound_client client))
    (List.filter (λ b, String.eqb (binding_capability_id b) capability) (bindings deps)) clients.

End wiring.
