(* ===== verification/Lifecycle.v ===== *)
(** * Lifecycle: activation and deactivation ([lib.rs])

    The plug-in holds two cells, the connection pool and the active state.  Activation asks
    the secrets capability three times, opens the pool, and fills both cells at its very end;
    deactivation empties them and closes the pool. *)
From S2P Require Import Prelude Text Platform Contract Secret Config Database Effects.
From S2P Require Import TxLogic Exec Storage Invariants Authorization Management Authentication.
From S2P Require Import Endpoint.

Open Scope string_scope.
Open Scope list_scope.
Open Scope Z_scope.
Open Scope result_scope.

(** An open pool, by the URL and the schema it was prepared for. *)
Record OwnedPostgres := { pool_url : string; pool_schema : string }.

(** The text [dummy_verifier] is made from. *)
Definition DUMMY_SECRET : string := "invalid service-account credential".

(** [secret_error]. *)
Definition secret_error (label : string) (error : InvocationError string) : RuntimeFailure :=
  match error with
  | Domain _ => failure ("Service Account " +:+ label +:+ " secret was rejected")
  | Runtime error => error
  end.

Section lifecycle.
Context `{Platform}.

(** The cells of the plug-in; [active] is the cell [ServiceAccountPlugin::active] reads. *)
Record Cells := { postgres_cell : option OwnedPostgres; cell_active : option ActiveServiceAccount }.
Definition plugin_of (cells : Cells) : ServiceAccountPlugin := {| active_cell := cell_active cells |}.

(** What activation meets outside: the [n]-th invocation context, the [n]-th answer of the
    secrets capability, the PostgreSQL kit, and randomness. *)
Record ActivateContext := {
  invocation_context_after : nat → result unit RuntimeFailure;
  resolve : nat → ResolveRequest → result string (InvocationError string);
  prepare : string → string → result unit string;
  random_salt : result bytes string }.

(** One secret: a context with a deadline, then the call. *)
Definition resolve_secret (context : ActivateContext) (n : nat) (reference label : string) :
    result string RuntimeFailure :=
  let? _ := invocation_context_after context n in
  map_err (secret_error label) (resolve context n {| resolve_reference := reference |}).

(** The state activation builds. *)
Definition prepare_active (context : ActivateContext) (config : ServiceAccountConfig) :
    result (OwnedPostgres * ActiveServiceAccount) RuntimeFailure :=
  let? database_url := resolve_secret context 0 (database_url_secret config) "database URL" in
  let? pepper := resolve_secret context 1 (credential_pepper_secret config) "credential pepper" in
  let? receipt_key :=
    resolve_secret context 2 (receipt_encryption_key_secret config) "receipt encryption key" in
  if (len pepper <? 32) || (len receipt_key <? 32)
  then Err (failure "Service Account pepper and receipt encryption key must each contain at least 32 bytes")
  else
  let? _ := map_err InvalidResolvedPlan (schema_plan_new (schema config)) in
  let? _ := map_err failure (prepare context database_url (schema config)) in
  let? actor_verifier := ok_or (from_public_key_base64 (auth_issuer config) (auth_public_key config))
    (InvalidResolvedPlan "invalid Service Account Auth verification key") in
  let? dummy_verifier := map_err runtime (map_err PluginError.Crypto
    (hash_secret DUMMY_SECRET pepper (random_salt context))) in
  Ok ({| pool_url := database_url; pool_schema := schema config |},
      {| Authorization.config := config; Authorization.pepper := pepper;
         receipt_cipher := derive receipt_key; Authorization.actor_verifier := actor_verifier;
         Authorization.dummy_verifier := dummy_verifier |}).

(** [Lifecycle::activate]. *)
Definition activate (context : ActivateContext) (config : ServiceAccountConfig) (self : Cells) :
    result unit RuntimeFailure * Cells :=
  match prepare_active context config with
  | Err e => (Err e, self)
  | Ok (postgres, active) =>
      (Ok tt, {| postgres_cell := Some postgres; cell_active := Some active |})
  end.

(** [Lifecycle::deactivate], with the pool it closes. *)
Definition deactivate (self : Cells) : result unit RuntimeFailure * Cells * option OwnedPostgres :=
  (Ok tt, {| postgres_cell := None; cell_active := None |}, postgres_cell self).

Lemma resolve_secret_Ok context n reference label s :
  resolve_secret context n reference label = Ok s →
  resolve context n {| resolve_reference := reference |} = Ok s.
Proof. unfold resolve_secret. intros (u & _ & E)%bind_ok_Ok. by rewrite map_err_Ok in E. Qed.

Lemma prepare_active_Ok context config postgres active :
  prepare_active context config = Ok (postgres, active) →
  Authorization.config active = config
  ∧ resolve context 1 {| resolve_reference := credential_pepper_secret config |} = Ok (pepper active)
  ∧ 32 ≤ len (pepper active)
  ∧ (∃ key, resolve context 2 {| resolve_reference := receipt_encryption_key_secret config |} = Ok key
            ∧ 32 ≤ len key ∧ receipt_cipher active = derive key)
  ∧ from_public_key_base64 (auth_issuer config) (auth_public_key config) = Some (actor_verifier active)
  ∧ hash_secret DUMMY_SECRET (pepper active) (random_salt context) = Ok (dummy_verifier active)
  ∧ resolve context 0 {| resolve_reference := database_url_secret config |} = Ok (pool_url postgres)
  ∧ pool_schema postgres = schema config.
Proof.
  unfold prepare_active.
  intros (url & Hurl & (pep & Hpep & (key & Hkey & E)%bind_ok_Ok)%bind_ok_Ok)%bind_ok_Ok.
  apply resolve_secret_Ok in Hurl, Hpep, Hkey.
  destruct (_ || _) eqn:Hlen in E; [done|]. apply orb_false_iff in Hlen as [Hl1 Hl2].
  apply Z.ltb_ge in Hl1, Hl2.
  apply bind_ok_Ok in E as (u & _ & (u' & _ & (v & Hv & (d & Hd & E)%bind_ok_Ok)%bind_ok_Ok)%bind_ok_Ok).
  apply ok_or_Ok in Hv. rewrite !map_err_Ok in Hd. injection E as <- <-. simpl. eauto 12.
Qed.

(** C28: activation either fails and leaves both cells as they were, or fills them with a state
    of the given configuration whose pepper has at least 32 bytes, whose receipt key has exactly
    the 32 bytes the cipher needs, whose account limit is the configured one, and whose dummy
    verifier is an Argon2id verifier of a text that cannot be a secret. *)
Theorem activation_is_all_or_nothing `{!PasswordLaws, !DigestLaws} context config self r self' :
  activate context config self = (r, self') →
  (∃ e, r = Err e ∧ self' = self)
  ∨ (r = Ok tt ∧ ∃ active postgres,
       self' = {| postgres_cell := Some postgres; cell_active := Some active |}
       ∧ Authorization.config active = config ∧ pool_schema postgres = schema config
       ∧ limited (max_accounts_per_organization config) (plugin_of self')
       (* the keys are long enough, and no receipt fails for its key *)
       ∧ 32 ≤ len (pepper active) ∧ len (receipt_cipher active) = 32
       (* an unknown credential costs a real verification, of a text that is no secret *)
       ∧ password_hash_algorithm (dummy_verifier active) = Some "argon2id"
       ∧ verify_secret DUMMY_SECRET (pepper active) (dummy_verifier active) = true
       ∧ credential_id DUMMY_SECRET = None).
Proof.
  unfold activate. destruct (prepare_active context config) as [[postgres active]|e] eqn:E;
    intros [= <- <-]; [right|left; eauto].
  apply prepare_active_Ok in E as (Hc & _ & Hp & (key & _ & _ & Hk) & _ & Hd & _ & Hs).
  split; [done|]. exists active, postgres. split_and!; try done.
  - intros a [= <-]. by rewrite Hc.
  - rewrite Hk. apply sha256_length.
  - unfold hash_secret in Hd. apply bind_ok_Ok in Hd as (salt & _ & Hd).
    apply bind_ok_Ok in Hd as (salt' & _ & Hd). rewrite map_err_Ok in Hd.
    by apply argon2id_correct in Hd as [_ ?].
  - by eapply verify_own_verifier.
Qed.

(** ** Without an active state *)

Definition inactive_failure : RuntimeFailure := failure "Service Account Plugin is not active".

(** The program ends at once with the failure. *)
Definition refuses {T E} (p : prog (Outcome T E)) : Prop := p = Ret (Err inactive_failure).

Lemma boxed_refuses {T E} (f : T → AnyValue) (g : E → AnyValue) p : refuses p → refuses (boxed f g p).
Proof. by intros ->. Qed.

Lemma inactive_refuses plugin : active_cell plugin = None →
  (∀ ctx req, refuses (create plugin ctx req)) ∧ (∀ ctx req, refuses (get plugin ctx req))
  ∧ (∀ ctx req, refuses (list_ plugin ctx req)) ∧ (∀ ctx req, refuses (revoke plugin ctx req))
  ∧ (∀ ctx req, refuses (rotate_secret plugin ctx req))
  ∧ (∀ ctx req, refuses (exchange_secret plugin ctx req)).
Proof.
  intros Hn. unfold create, create_store, get, list_, revoke, rotate_secret, exchange_secret,
    exchange_issue, active.
  rewrite Hn. split_and!; by intros.
Qed.

(** C29: deactivation succeeds and closes the pool that was open, and afterwards every well-
    typed request to either endpoint fails with the not-active failure without any effect. *)
Theorem deactivated_plugin_refuses self r self' closed w n op req ctx db out db' t :
  deactivate self = (r, self', closed) →
  request_type op req = true
    ∧ runs w n (invoke_management (plugin_of self') op req ctx) db out db' t
  ∨ (∃ q, req = AnyExchangeRequest q)
    ∧ runs w n (invoke_authentication (plugin_of self') EXCHANGE_SECRET_OPERATION req ctx) db out db' t →
  r = Ok tt ∧ closed = postgres_cell self ∧ out = Err inactive_failure ∧ db' = db ∧ t = [].
Proof.
  intros [= <- <- <-] Hrun. do 2 (split; [done|]). apply (runs_ret w n).
  destruct (inactive_refuses (plugin_of {| postgres_cell := None; cell_active := None |}) eq_refl)
    as (H1 & H2 & H3 & H4 & H5 & H6).
  destruct Hrun as [[Hty E]|[[q ->] E]].
  - destruct req; try discriminate Hty; apply String.eqb_eq in Hty as ->;
      unfold invoke_management in E; simpl in E;
      by rewrite boxed_refuses in E by auto.
  - unfold invoke_authentication in E. simpl in E. by rewrite boxed_refuses in E by auto.
Qed.
End lifecycle.
