(* ===== verification/Access.v ===== *)
(** * Access: who may reach the tables

    A management operation touches the tables only after four checks: the caller is listed,
    the assertion it carries projects to a user, that user is an active member of the
    organization, and holds the permission. *)
From S2P Require Import Prelude Text Platform Contract Secret Config Database Effects.
From S2P Require Import TxLogic Exec Storage Integrity Statements Accounts Invariants.
From S2P Require Import Authorization Management Authentication Endpoint.

Open Scope string_scope.
Open Scope list_scope.
Open Scope Z_scope.

Section access.
Context `{Platform}.

(** The four factors, as decided by the world at steps [n], [n+1] and [n+2]. *)
Record authorized_by (w : World) (n : nat) (active : ActiveServiceAccount)
    (ctx : InvocationContext) (operation org permission : string)
    (a : AuthorizedManagement) : Prop := {
  factor_caller : caller_instance ctx = Some (caller a)
                  ∧ caller a ∈ management_callers (config active);
  factor_user : ∃ assertion,
    verified_assertion (actor_verifier active) ctx CAPABILITY_ID operation (w_clock w n)
      = Some assertion
    ∧ actor_kind assertion = "user" ∧ assertion_subject assertion = actor_subject a
    ∧ valid_subject (actor_subject a) = true;
  factor_member :
    w_member w (S n) {| membership_organization_id := org; membership_subject := actor_subject a |}
    = Ok {| membership_active := true |};
  factor_permission :
    w_permission w (S (S n)) {| permission_subject := actor_subject a;
      permission_scope_kind := "organization"; permission_scope_id := org;
      permission_name := permission |}
    = Ok {| permission_allowed := true |} }.

(** An outcome that is not a success. *)
Definition is_err_outcome {T E} (x : Outcome T E) : Prop := ∀ v, x ≠ Ok (Ok v).

Definition is_sql (e : event) : bool := match e with EvSql _ _ => true | _ => false end.
(** No access to the tables. *)
Definition no_sql (t : list event) : Prop := Forall (λ e, is_sql e = false) t.

Lemma project_context_Some v ctx cap op now u :
  project_context v ctx cap op now = Some u ↔
  ∃ assertion, verified_assertion v ctx cap op now = Some assertion
    ∧ actor_kind assertion = "user" ∧ assertion_subject assertion = user_subject u.
Proof.
  unfold project_context, from_assertion.
  destruct (verified_assertion v ctx cap op now) as [assertion|]; [|naive_solver].
  destruct (String.eqb_spec (actor_kind assertion) "user") as [E|E]; simpl.
  - destruct u as [u]. simpl. split; [intros [= <-]; eauto|].
    intros (a & [= <-] & _ & <-). done.
  - split; [done|]. intros (a & [= <-] & ? & _). done.
Qed.

(** The steps of a check that succeeds. *)
Definition authorization_trace (t : list event) : Prop :=
  ∃ member permission, t = [EvClock; EvMember member; EvPermission permission].

(** The check succeeds exactly when all four factors hold, and reads no table. *)
Lemma authorize_inv w n active ctx op org perm db r db' t :
  runs w n (authorize_management active ctx CAPABILITY_ID op org perm) db r db' t →
  db' = db ∧ no_sql t
  ∧ (∀ a, r = Ok a → authorized_by w n active ctx op org perm a ∧ authorization_trace t)
  ∧ (∀ a, authorized_by w n active ctx op org perm a → r = Ok a).
Proof.
  intros E. unfold authorize_management in E. prog_step E as Hc.
  { subst. split_and!; [done|by constructor|done|]. intros a [[Hcaller Hin] _ _ _].
    unfold allowed_caller in Hc. rewrite Hcaller in Hc. simpl in Hc.
    apply str_mem_spec in Hin. by rewrite Hin in Hc. }
  apply ok_or_Ok in Hc. unfold allowed_caller in Hc. apply opt_filter_Some in Hc as [Hcaller Hin].
  apply str_mem_spec in Hin. prog_step E as Hs. prog_step E as Hu.
  { subst. split_and!; [done|by repeat constructor|done|].
    intros a [_ (asr & Ha & Hk & Hsub & Hv) _ _]. unfold project_context, from_assertion in Hu.
    by rewrite Ha, Hk in Hu. }
  apply ok_or_Ok in Hu as Hu'. apply project_context_Some in Hu' as (asr & Ha & Hk & Hsub).
  assert (∀ b, authorized_by w n active ctx op org perm b →
               caller b = x ∧ actor_subject b = user_subject x1) as Huniq.
  { intros b [[Hb _] (asr' & Ha' & Hk' & Hsub' & _) _ _].
    split; [congruence|]. rewrite Ha in Ha'. injection Ha' as <-. congruence. }
  destruct (valid_subject (user_subject x1)) eqn:Hv; simpl in E.
  2: { prog_step E as Hr. subst. split_and!; [done|by repeat constructor|done|].
       intros b Hb. destruct (Huniq b Hb) as [_ Hsb]. destruct Hb as [_ (?&_&_&_&Hv') _ _].
       by rewrite Hsb, Hv in Hv'. }
  apply step_await_ok in E as (r1 & d1 & t1 & t2 & E1 & -> & E).
  unfold runs in E1. simpl in E1. injection E1 as <- <- <-.
  destruct (w_member w (S n) _) as [[[]]|e] eqn:Hm; simpl in E.
  2-3: (try prog_step E as Hr); destruct_and?; subst;
       (split_and!; [done|by repeat constructor|done|]);
       intros b Hb; destruct (Huniq b Hb) as [_ Hsb]; destruct Hb as [_ _ Hm' _];
       rewrite Hsb, Hm in Hm'; done.
  apply step_await_ok in E as (r1 & d1 & t1 & t3 & E1 & -> & E).
  unfold runs in E1. simpl in E1. injection E1 as <- <- <-.
  rewrite Nat.add_1_r in E.
  destruct (w_permission w _ _) as [[[]]|e] eqn:Hp; simpl in E.
  2-3: (try prog_step E as Hr); destruct_and?; subst;
       (split_and!; [done|by repeat constructor|done|]);
       intros b Hb; destruct (Huniq b Hb) as [_ Hsb]; destruct Hb as [_ _ _ Hp'];
       rewrite Hsb, Hp in Hp'; done.
  prog_step E as Hr. subst. split_and!; [done|by repeat constructor| |].
  - intros a [= <-]. split; [|by do 2 eexists]. split; simpl; eauto 10.
  - intros b Hb. destruct (Huniq b Hb) as [Hcb Hsb]. destruct b. simpl in *. by subst.
Qed.

(** The caller and the actor are determined by the request. *)
Lemma authorized_by_unique w n active ctx op org perm a b :
  authorized_by w n active ctx op org perm a → authorized_by w n active ctx op org perm b → a = b.
Proof.
  intros [[Hc _] (u & Hu & _ & Hs & _) _ _] [[Hc' _] (u' & Hu' & _ & Hs' & _) _ _].
  destruct a, b. simpl in *. congruence.
Qed.

(** The check at the head of a handler: refused, nothing was touched; admitted, the rest
    runs three steps later. *)
Lemma step_authorized {T U} (f : AuthorizationError.t → result U RuntimeFailure)
    w n active ctx op org perm (k : AuthorizedManagement → Handler (Outcome T U) (Outcome T U))
    db x db' t :
  runs w n (finish (hbind (authorized f
    (authorize_management active ctx CAPABILITY_ID op org perm)) k)) db x db' t →
  (db' = db ∧ no_sql t ∧ is_err_outcome x)
  ∨ ∃ a t0 t', authorized_by w n active ctx op org perm a ∧ t = t0 ++ t' ∧ no_sql t0
               ∧ runs w (n + 3)%nat (finish (k a)) db x db' t'.
Proof.
  unfold authorized. intros Hr. prog_step Hr as Hs.
  apply runs_finish_hbind in Hr as (r0 & d1 & t1 & t2 & E & -> & Hr).
  unfold await in E. rewrite runs_bind in E. destruct E as (r & d & t3 & t4 & E & E2 & ->).
  apply runs_ret in E2 as (-> & -> & ->). rewrite app_nil_r in *.
  destruct (authorize_inv _ _ _ _ _ _ _ _ _ _ _ E) as (-> & Ht & Hok & _).
  destruct r as [a|e].
  - right. destruct (Hok a eq_refl) as [Ha (? & ? & ->)]. prog_step Hr as Hs.
    by eexists a, _, t2.
  - left. destruct (f e) as [e'|e']; prog_step Hr as Hs; subst; rewrite app_nil_r; done.
Qed.

(** When all four factors hold, the handler goes on. *)
Lemma step_authorized_ok {T U} (f : AuthorizationError.t → result U RuntimeFailure)
    w n active ctx op org perm a (k : AuthorizedManagement → Handler (Outcome T U) (Outcome T U))
    db x db' t :
  authorized_by w n active ctx op org perm a →
  runs w n (finish (hbind (authorized f
    (authorize_management active ctx CAPABILITY_ID op org perm)) k)) db x db' t →
  ∃ t0 t', t = t0 ++ t' ∧ authorization_trace t0 ∧ runs w (n + 3)%nat (finish (k a)) db x db' t'.
Proof.
  unfold authorized. intros Ha Hr. prog_step Hr as Hs.
  apply runs_finish_hbind in Hr as (r0 & d1 & t1 & t2 & E & -> & Hr).
  unfold await in E. rewrite runs_bind in E. destruct E as (r & d & t3 & t4 & E & E2 & ->).
  apply runs_ret in E2 as (-> & -> & ->). rewrite app_nil_r in *.
  destruct (authorize_inv _ _ _ _ _ _ _ _ _ _ _ E) as (-> & Ht & Hok & Hall).
  rewrite (Hall a Ha) in Hr, Hok. destruct (Hok a eq_refl) as [_ Htrace].
  prog_step Hr as Hs. exists t3, t2. do 2 (split; [done|]).
  by destruct Htrace as (? & ? & ->).
Qed.

(** ** Every management operation *)

(** Refused without touching the tables, or authorized. *)
Definition guarded {T E} (plugin : ServiceAccountPlugin) (ctx : InvocationContext)
    (operation org permission : string) (w : World) (n : nat) (db : Db)
    (x : Outcome T E) (db' : Db) (t : list event) : Prop :=
  (db' = db ∧ no_sql t ∧ is_err_outcome x)
  ∨ ∃ active a, active_cell plugin = Some active
                ∧ authorized_by w n active ctx operation org permission a.

Ltac refuse := subst; left; split_and!; [done|by repeat constructor|intros ?; discriminate].
Ltac guard_active E :=
  prog_step E as Hact; [refuse|];
  match goal with H : active _ = Ok _ |- _ => apply ok_or_Ok in H end.
Ltac guard_authorized E :=
  apply step_authorized in E as [?|(? & ? & ? & ? & _)]; [by left|right; by eexists _, _].
Ltac guard_invalid E := prog_step E as Hr; refuse.

Lemma create_guarded w n plugin ctx req db x db' t :
  runs w n (create plugin ctx req) db x db' t →
  guarded plugin ctx CREATE_OPERATION (create_organization_id req) MANAGE_PERMISSION w n db x db' t.
Proof.
  unfold create, create_store. intros E. guard_active E. destruct (_ || _) in E; [guard_invalid E|]. guard_authorized E.
Qed.
Lemma get_guarded w n plugin ctx req db x db' t :
  runs w n (get plugin ctx req) db x db' t →
  guarded plugin ctx GET_OPERATION (get_organization_id req) READ_PERMISSION w n db x db' t.
Proof.
  unfold get. intros E. guard_active E. destruct (_ || _) in E; [guard_invalid E|]. guard_authorized E.
Qed.
Lemma list_guarded w n plugin ctx req db x db' t :
  runs w n (list_ plugin ctx req) db x db' t →
  guarded plugin ctx LIST_OPERATION (list_organization_id req) READ_PERMISSION w n db x db' t.
Proof.
  unfold list_. intros E. guard_active E. destruct (parse_page_limit _ _) in E; [|guard_invalid E].
  destruct (_ || _) in E; [guard_invalid E|]. guard_authorized E.
Qed.
Lemma rotate_guarded w n plugin ctx req db x db' t :
  runs w n (rotate_secret plugin ctx req) db x db' t →
  guarded plugin ctx ROTATE_SECRET_OPERATION (rotate_organization_id req) MANAGE_PERMISSION
    w n db x db' t.
Proof.
  unfold rotate_secret. intros E. guard_active E.
  destruct (valid_rotation _) in E; [|guard_invalid E]. guard_authorized E.
Qed.
Lemma revoke_guarded w n plugin ctx req db x db' t :
  runs w n (revoke plugin ctx req) db x db' t →
  guarded plugin ctx REVOKE_OPERATION (revoke_organization_id req) MANAGE_PERMISSION
    w n db x db' t.
Proof.
  unfold revoke. intros E. guard_active E.
  destruct (valid_revocation _) in E; [|guard_invalid E]. guard_authorized E.
Qed.

Lemma boxed_guarded {T E} (f : T → AnyValue) (g : E → AnyValue) plugin ctx op org perm w n p
    db x db' t :
  (∀ o, runs w n p db o db' t → guarded plugin ctx op org perm w n db o db' t) →
  runs w n (boxed f g p) db x db' t → guarded plugin ctx op org perm w n db x db' t.
Proof.
  intros Hp (o & Ho' & ->)%runs_boxed. destruct (Hp o Ho') as [(-> & Ht & Ho)|?]; [left|by right].
  split_and!; [done..|]. destruct o as [[v|e]|e]; simpl; try done. by destruct (Ho v).
Qed.

(** The organization and the permission a request of the management capability concerns. *)
Definition request_organization (request : AnyValue) : string :=
  match request with
  | AnyCreateRequest r => create_organization_id r
  | AnyGetRequest r => get_organization_id r
  | AnyListRequest r => list_organization_id r
  | AnyRevokeRequest r => revoke_organization_id r
  | AnyRotateRequest r => rotate_organization_id r
  | _ => ""
  end.
Definition operation_permission (operation : string) : string :=
  if str_mem operation [GET_OPERATION; LIST_OPERATION] then READ_PERMISSION
  else MANAGE_PERMISSION.

Lemma invoke_management_guarded w n plugin op req ctx db x db' t :
  runs w n (invoke_management plugin op req ctx) db x db' t →
  guarded plugin ctx op (request_organization req) (operation_permission op) w n db x db' t.
Proof.
  assert (∀ e, runs w n (Ret (Err e)) db x db' t →
    guarded plugin ctx op (request_organization req) (operation_permission op) w n db x db' t) as Herr.
  { intros e (-> & -> & ->)%runs_ret. left. split_and!; [done|constructor|done]. }
  unfold invoke_management.
  destruct (String.eqb_spec op CREATE_OPERATION) as [->|_];
    [|destruct (String.eqb_spec op GET_OPERATION) as [->|_];
    [|destruct (String.eqb_spec op LIST_OPERATION) as [->|_];
    [|destruct (String.eqb_spec op REVOKE_OPERATION) as [->|_];
    [|destruct (String.eqb_spec op ROTATE_SECRET_OPERATION) as [->|_]]]]]; try apply Herr;
    destruct req; try apply Herr; apply boxed_guarded; intros o;
    [apply create_guarded|apply get_guarded|apply list_guarded|apply revoke_guarded
    |apply rotate_guarded].
Qed.

(** C2: a management request that reaches the tables, or succeeds, was authorized by all four
    factors: the plug-in is active, the calling Instance is a configured management caller, the
    context carries a verified assertion of a user for this capability and operation,
    Organization Membership reported that user an active member of the requested organization,
    and Access Control allowed the permission of the operation (read for get and list, manage
    for the others). *)
Theorem tables_need_the_four_factors w n plugin op req ctx db out db' t :
  runs w n (invoke_management plugin op req ctx) db out db' t →
  (∃ d d', EvSql d d' ∈ t) ∨ (∃ v, out = Ok (Ok v)) →
  ∃ active a, active_cell plugin = Some active
    ∧ authorized_by w n active ctx op (request_organization req) (operation_permission op) a.
Proof.
  intros E Hev. destruct (invoke_management_guarded _ _ _ _ _ _ _ _ _ _ E) as [(_ & Ht & Ho)|?];
    [|done]. exfalso. destruct Hev as [(d & d' & Hin)|[v ->]]; [|by destruct (Ho v)].
  unfold no_sql in Ht. rewrite Forall_forall in Ht. by specialize (Ht _ Hin).
Qed.
End access.
