(* ===== verification/Listing.v ===== *)
(** * Listing: keyset pagination of an organization's accounts *)
From S2P Require Import Prelude Text Platform Contract Secret Config Database Effects.
From S2P Require Import TxLogic Exec Storage Integrity Statements Accounts Commands.
From S2P Require Import Authorization Management Authentication Endpoint Access.

Open Scope string_scope.
Open Scope list_scope.
Open Scope Z_scope.

Section listing.
Context `{Platform} `{!CollationLaws}.

(** ** Strictly sorted listings *)

Definition id_lt (p q : string * AccountRec) : Prop := text_ltb p.1 q.1 = true.

(** The accounts of an organization in the order of the listing. *)
Definition listing (org : string) (db : Db) : list (string * AccountRec) :=
  merge_sort id_le (map_to_list (org_accounts org db)).

Definition after_cursor (after : option string) (p : string * AccountRec) : Prop :=
  opt_all (λ a, text_ltb a p.1) after = true.
#[export] Instance after_cursor_dec after p : Decision (after_cursor after p).
Proof. unfold after_cursor. apply _. Defined.

Instance id_le_trans : Transitive id_le.
Proof.
  intros p q r. unfold id_le. intros Hpq Hqr. destruct (text_ltb r.1 p.1) eqn:E; [|done].
  destruct (text_ltb p.1 q.1) eqn:E2.
  - by rewrite (text_ltb_trans _ _ _ E E2) in Hqr.
  - rewrite (text_ltb_total _ _ E2 Hpq) in E. congruence.
Qed.
Instance id_le_total : Total id_le.
Proof.
  intros p q. unfold id_le. destruct (text_ltb q.1 p.1) eqn:E; [right|by left].
  destruct (text_ltb p.1 q.1) eqn:E2; [|done].
  pose proof (text_ltb_trans _ _ _ E E2) as Hx. by rewrite text_ltb_irrefl in Hx.
Qed.

Lemma strictly_sorted (l : list (string * AccountRec)) :
  StronglySorted id_le l → NoDup l.*1 → StronglySorted id_lt l.
Proof.
  induction 1 as [|p l Hl IH Hp]; simpl; [constructor|].
  intros [Hn Hd]%NoDup_cons. constructor; [by apply IH|].
  rewrite Forall_forall in Hp |- *. intros q Hq. specialize (Hp q Hq).
  unfold id_le, id_lt in *. destruct (text_ltb p.1 q.1) eqn:E; [done|].
  destruct Hn. rewrite (text_ltb_total _ _ E Hp). by apply list_elem_of_fmap_2.
Qed.

(** Sorting the accounts that satisfy [P] is filtering the sorted accounts. *)
Lemma sort_filter (P : string * AccountRec → Prop) `{Hdec : ∀ p, Decision (P p)}
    (m : gmap string AccountRec) :
  merge_sort id_le (map_to_list (filter P m)) = filter P (merge_sort id_le (map_to_list m)).
Proof.
  apply (StronglySorted_unique_strong id_le).
  - intros p q Hp Hq Hle1 Hle2. rewrite merge_sort_Permutation in Hp. apply list_elem_of_filter in Hq as [_ Hq].
    rewrite merge_sort_Permutation in Hq. destruct p as [i a], q as [j b].
    apply elem_of_map_to_list in Hp, Hq. apply map_lookup_filter_Some in Hp as [Hp _].
    unfold id_le in *. simpl in *. assert (i = j) as -> by (symmetry; by apply text_ltb_total).
    congruence.
  - by apply StronglySorted_merge_sort; apply _.
  - assert (StronglySorted id_le (merge_sort id_le (map_to_list m))) as Hs
      by (by apply StronglySorted_merge_sort; apply _).
    induction Hs as [|p l Hl IH Hp]; [constructor|]. rewrite filter_cons. case_decide; [|done].
    constructor; [done|].
    rewrite Forall_forall in Hp |- *. intros q [_ Hq]%list_elem_of_filter. by apply Hp.
  - rewrite merge_sort_Permutation, merge_sort_Permutation.
    apply NoDup_Permutation; [apply NoDup_map_to_list|apply NoDup_filter, NoDup_map_to_list|].
    intros [i a]. rewrite list_elem_of_filter, !elem_of_map_to_list, map_lookup_filter_Some. tauto.
Qed.

Lemma listing_sorted org db : StronglySorted id_lt (listing org db).
Proof.
  apply strictly_sorted; [by apply StronglySorted_merge_sort; apply _|].
  unfold listing. rewrite merge_sort_Permutation. apply NoDup_fst_map_to_list.
Qed.

(** ** Pages *)

Lemma filter_after_split (l1 l2 : list (string * AccountRec)) p :
  StronglySorted id_lt (l1 ++ p :: l2) →
  filter (after_cursor (Some p.1)) (l1 ++ p :: l2) = l2.
Proof.
  intros [Hlt [_ [Hp _]%StronglySorted_cons]]%StronglySorted_app.
  rewrite filter_app, filter_cons_False by (unfold after_cursor; simpl; by rewrite text_ltb_irrefl).
  assert (filter (after_cursor (Some p.1)) l1 = []) as ->.
  { apply filter_none. intros q Hq Ha.
    assert (id_lt q p) as Hqp by (apply Hlt; [done|by left]).
    unfold id_lt, after_cursor in *. simpl in Ha.
    pose proof (text_ltb_trans _ _ _ Hqp Ha) as Hx. by rewrite text_ltb_irrefl in Hx. }
  simpl. apply filter_all. rewrite Forall_forall in Hp. exact Hp.
Qed.

(** What remains to list after a cursor. *)
Definition remaining (org : string) (after : option string) (db : Db) :
    list (string * AccountRec) := filter (after_cursor after) (listing org db).

Lemma remaining_start org db : remaining org None db = listing org db.
Proof. by apply filter_all. Qed.

(** The rows of the query are the head of what remains. *)
Lemma select_accounts_spec org after limit now db :
  select_accounts org after limit now db =
  Ok (map (λ p, decode_account db p.1 p.2) (take (Z.to_nat limit) (remaining org after db)), db).
Proof.
  unfold select_accounts, remaining, listing, org_accounts. do 4 f_equal.
  rewrite <-sort_filter, map_filter_filter. f_equal. f_equal. apply map_filter_ext.
  intros i a _. simpl. unfold after_cursor. simpl. tauto.
Qed.

(** After the last row of a page, what remains is what the page left. *)
Lemma remaining_next org after db l p l2 :
  remaining org after db = l ++ p :: l2 → remaining org (Some p.1) db = l2.
Proof.
  intros E. assert (∃ l0, listing org db = l0 ++ l ++ p :: l2) as [l0 El].
  { destruct after as [c|]; [|exists []; by rewrite <-remaining_start].
    unfold remaining in E. pose proof (listing_sorted org db) as Hs.
    revert Hs E. generalize (listing org db). intros L. induction L as [|q L IH]; intros Hs E.
    - simpl in E. by destruct l.
    - apply StronglySorted_cons in Hs as [Hq Hs].
      destruct (decide (after_cursor (Some c) q)) as [Hc|Hc].
      + exists []. rewrite <-E. symmetry. apply filter_all. rewrite Forall_forall in Hq.
        intros q' [->|Hq']%elem_of_cons; [done|]. specialize (Hq q' Hq').
        unfold after_cursor, id_lt in *. simpl in *. by eapply text_ltb_trans.
      + rewrite filter_cons_False in E by done. destruct (IH Hs E) as [l0 ->]. by exists (q :: l0). }
  unfold remaining. pose proof (listing_sorted org db) as Hs. rewrite El in Hs |- *.
  rewrite app_assoc in Hs |- *. by apply filter_after_split.
Qed.

(** ** The operation *)

Definition page (limit : Z) (org : string) (after : option string) (db : Db) :
    list (string * AccountRec) := take (Z.to_nat limit) (remaining org after db).
Definition rows_of (db : Db) (l : list (string * AccountRec)) : list AccountRow :=
  map (λ p, decode_account db p.1 p.2) l.

Lemma list_inv w n plugin ctx req db resp db' t :
  runs w n (list_ plugin ctx req) db (Ok (Ok resp)) db' t →
  ∃ active limit,
    active_cell plugin = Some active
    ∧ parse_page_limit (list_limit req) (max_page_size (config active)) = Some limit
    ∧ db' = w_others w (n + 3)%nat db
    ∧ collect summary (rows_of db' (page limit (list_organization_id req) (list_after req) db'))
      = Ok (listed_accounts resp)
    ∧ next_cursor resp =
      if (Z.to_nat limit <? length (remaining (list_organization_id req) (list_after req) db'))%nat
      then fst <$> last (page limit (list_organization_id req) (list_after req) db') else None.
Proof.
  unfold list_. intros E. prog_step E as Hact; [done|]. apply ok_or_Ok in Hact.
  prog_case E as Hlim; [|by prog_step E as Hr]. prog_case E as Hv; [by prog_step E as Hr|].
  apply step_authorized in E as [(_ & _ & Hx)|(a & t0 & t1 & _ & -> & _ & E)];
    [by destruct (Hx resp)|].
  prog_step E as Hs; [|by simplify_eq]. apply run_pool_Ok in Hs.
  rewrite select_accounts_spec in Hs. injection Hs as <- <-. cbv zeta in E.
  prog_step E as Hcol; [by simplify_eq|]. rewrite map_err_Ok in Hcol.
  prog_step E as Hr. injection Hr as ->. subst. simpl. eexists _, _.
  split; [exact Hact|]. split; [exact Hlim|]. split; [done|].
  assert (0 ≤ z) as Hz.
  { unfold parse_page_limit in Hlim. apply opt_filter_Some in Hlim as [_ Hb]. bool_prop. lia. }
  set (R := remaining _ _ _) in *. unfold page, rows_of. fold R.
  rewrite firstn_map, take_take in Hcol. replace (Z.to_nat (z + 1)) with (S (Z.to_nat z)) in * by lia.
  rewrite Nat.min_l in Hcol by lia. split; [exact Hcol|].
  rewrite length_map, length_take, firstn_map, take_take, (Nat.min_l (Z.to_nat z) (S _)) by lia.
  destruct (Nat.ltb_spec (Z.to_nat z) (Nat.min (S (Z.to_nat z)) (length R)));
    destruct (Nat.ltb_spec (Z.to_nat z) (length R)); try lia; [|done].
  change (map ?f ?l) with (f <$> l). rewrite fmap_last. by destruct (last _).
Qed.

(** A client that follows the cursors to the end, the tables [db] staying as they are. *)
Inductive walk (plugin : ServiceAccountPlugin) (org limit : string) (db : Db) :
    option string → list ServiceAccountSummary → Prop :=
  | walk_last after w n ctx resp t :
      runs w n (list_ plugin ctx {| list_organization_id := org; list_after := after;
                                    list_limit := limit |}) db (Ok (Ok resp)) db t →
      next_cursor resp = None →
      walk plugin org limit db after (listed_accounts resp)
  | walk_more after w n ctx resp t cursor rest :
      runs w n (list_ plugin ctx {| list_organization_id := org; list_after := after;
                                    list_limit := limit |}) db (Ok (Ok resp)) db t →
      next_cursor resp = Some cursor →
      walk plugin org limit db (Some cursor) rest →
      walk plugin org limit db after (listed_accounts resp ++ rest).

Lemma page_limit_pos value max limit : parse_page_limit value max = Some limit → 0 < limit ≤ max.
Proof. unfold parse_page_limit. intros [_ Hb]%opt_filter_Some. bool_prop. lia. Qed.

(** A page with a successor ends at the cursor. *)
Lemma page_cut (limit : Z) (R : list (string * AccountRec)) :
  0 < limit → (Z.to_nat limit < length R)%nat →
  ∃ l p l2, R = l ++ p :: l2 ∧ take (Z.to_nat limit) R = l ++ [p] ∧ last (take (Z.to_nat limit) R) = Some p.
Proof.
  intros Hl Hlen. set (T := take (Z.to_nat limit) R).
  assert (R = T ++ drop (Z.to_nat limit) R) as HR by (symmetry; apply take_drop).
  destruct (last T) as [p|] eqn:Hlast.
  - apply last_Some in Hlast as [l HT]. exists l, p, (drop (Z.to_nat limit) R).
    split; [|done]. rewrite HR at 1. by rewrite HT, <-app_assoc.
  - apply last_None in Hlast. apply (f_equal length) in Hlast.
    unfold T in Hlast. rewrite length_take in Hlast. simpl in Hlast. lia.
Qed.

Lemma listing_elem org db id a :
  (id, a) ∈ listing org db ↔ accounts db !! id = Some a ∧ a_organization_id a = org.
Proof.
  unfold listing, org_accounts. rewrite merge_sort_Permutation, elem_of_map_to_list.
  by rewrite map_lookup_filter_Some.
Qed.

Lemma walk_listing plugin org limit db after all :
  walk plugin org limit db after all →
  Forall2 (λ p s, summary (decode_account db p.1 p.2) = Ok s) (remaining org after db) all.
Proof.
  induction 1 as [after w n ctx resp t E Hn|after w n ctx resp t c rest E Hn _ IH];
    apply list_inv in E as (active & lim & _ & Hlim & _ & Hcol & Hnext); simpl in *;
    apply page_limit_pos in Hlim; apply collect_Ok, Forall2_fmap_l in Hcol; unfold page in *;
    rewrite Hn in Hnext;
    destruct (Nat.ltb_spec (Z.to_nat lim) (length (remaining org after db))) as [Hlt|Hge]; try done.
  - destruct (page_cut lim _ (proj1 Hlim) Hlt) as (l & p & l2 & _ & _ & Hlast).
    by rewrite Hlast in Hnext.
  - by rewrite take_ge in Hcol by lia.
  - destruct (page_cut lim _ (proj1 Hlim) Hlt) as (l & p & l2 & HR & HT & Hlast).
    rewrite Hlast in Hnext. injection Hnext as ->. rewrite HT in Hcol.
    rewrite (remaining_next _ _ _ _ _ _ HR) in IH. rewrite HR.
    change (l ++ p :: l2) with (l ++ [p] ++ l2). rewrite app_assoc. by apply Forall2_app.
Qed.

(** C20: following the cursors from the first page to the last over unchanged tables lists every
    account of the organization exactly once, in the order of their identifiers, each as its
    summary. *)
Theorem pages_list_every_account_once plugin org limit db all :
  walk plugin org limit db None all →
  ∃ ps, StronglySorted id_lt ps
    ∧ (∀ id a, (id, a) ∈ ps ↔ accounts db !! id = Some a ∧ a_organization_id a = org)
    ∧ Forall2 (λ p s, summary (decode_account db p.1 p.2) = Ok s) ps all.
Proof.
  intros Hw%walk_listing. rewrite remaining_start in Hw. exists (listing org db).
  split; [apply listing_sorted|]. split; [apply listing_elem|done].
Qed.

(** C21: a page that carries a cursor is full, its cursor is its last account, and strictly
    fewer accounts, but at least one, remain after it: following cursors terminates and no
    cursor leads to an empty page. *)
Theorem pages_make_progress w n plugin ctx req db resp db' t cursor :
  runs w n (list_ plugin ctx req) db (Ok (Ok resp)) db' t → next_cursor resp = Some cursor →
  ∃ active limit,
    active_cell plugin = Some active
    ∧ parse_page_limit (list_limit req) (max_page_size (config active)) = Some limit
    ∧ Z.of_nat (length (listed_accounts resp)) = limit
    ∧ s_service_account_id <$> last (listed_accounts resp) = Some cursor
    ∧ length (remaining (list_organization_id req) (list_after req) db')
      = (length (listed_accounts resp)
         + length (remaining (list_organization_id req) (Some cursor) db'))%nat
    ∧ remaining (list_organization_id req) (Some cursor) db' ≠ [].
Proof.
  intros E Hc. apply list_inv in E as (active & lim & Hact & Hlim & _ & Hcol & Hnext).
  exists active, lim. split; [done|]. split; [done|]. apply page_limit_pos in Hlim.
  rewrite Hc in Hnext. set (R := remaining _ (list_after req) db') in *.
  destruct (Nat.ltb_spec (Z.to_nat lim) (length R)) as [Hlt|]; [|done].
  destruct (page_cut lim R (proj1 Hlim) Hlt) as (l & p & l2 & HR & HT & Hlast).
  unfold page in *. fold R in Hcol, Hnext. rewrite Hlast in Hnext. injection Hnext as ->.
  rewrite HT in Hcol. rewrite (remaining_next _ _ _ _ _ _ HR).
  pose proof (collect_length _ _ _ Hcol) as Hlen. unfold rows_of in Hlen, Hcol.
  rewrite length_map, length_app in Hlen. simpl in Hlen.
  apply (f_equal length) in HT. rewrite length_take, length_app in HT. simpl in HT.
  split; [lia|]. split.
  - apply collect_Ok, Forall2_fmap_l, Forall2_app_inv_l in Hcol as (l1 & s1 & _ & Hs & ->).
    inversion Hs as [|? s ? ? Hsum Hnil]. inversion Hnil. subst. rewrite last_snoc. simpl.
    f_equal. unfold summary in Hsum. by repeat (apply bind_ok_Ok in Hsum as (? & _ & Hsum)); injection Hsum as <-.
  - rewrite HR, length_app in Hlt |- *. simpl in *. split; [lia|]. intros ->. simpl in Hlt. lia.
Qed.
End listing.
