(* ===== verification/Creation.v ===== *)
(** * Creation: the create operation from request to tables *)
From S2P Require Import Prelude Text Platform Contract Secret Config Database Effects.
From S2P Require Import TxLogic Exec Storage Integrity Statements Accounts Commands.
From S2P Require Import Authorization Management Authentication Endpoint Access.

Open Scope string_scope.
Open Scope list_scope.
Open Scope Z_scope.

Section creation.
Context `{Platform}.

(** The stored receipt of a creation: the response without the secret. *)
Definition create_receipt (active : ActiveServiceAccount) (aad : bytes) : Receipt AccountRow :=
  λ row nonce, bind_ok (summary row) (λ account,
    map_err PluginError.Crypto
      (encrypt (receipt_cipher active)
         {| created_account := account; created := true; created_secret := None |} aad nonce)).

Lemma create_receipt_Ok active aad row r nonce ct :
  create_receipt active aad row r = Ok (nonce, ct) →
  ∃ account, summary row = Ok account
    ∧ encrypt (receipt_cipher active)
        {| created_account := account; created := true; created_secret := None |} aad r
      = Ok (nonce, ct).
Proof.
  unfold create_receipt. intros (account & Hs & He)%bind_ok_Ok. exists account.
  split; [done|]. by destruct (encrypt _ _ _ _) as [p|e]; simplify_eq/=.
Qed.

Definition create_aad (a : AuthorizedManagement) (req : CreateServiceAccountRequest) : bytes :=
  receipt_aad (caller a) CREATE_OPERATION (create_idempotency_key req).

(** A successful creation: the command is reserved in [d0], later the account transaction
    takes [d] to [db']. *)
Inductive created_fresh (w : World) (active : ActiveServiceAccount) (a : AuthorizedManagement)
    (intent : bytes) (req : CreateServiceAccountRequest) (resp : CreateServiceAccountResponse)
    (db' : Db) : Prop :=
  | created_fresh_intro d0 d l reserved_at env id subject cred v now row i m k j salt :
      commands d0 !! (caller a, CREATE_OPERATION, create_idempotency_key req)
        = Some (reserved reserved_at intent) → d = w_others w l d0 →
      w_random w k 18 = Ok i → w_random w j 32 = Ok m → generate (Ok i) (Ok m) = Ok cred →
      verifier cred (pepper active) salt = Ok v →
      valid_token subject 256 = true →
      create_spec (caller a) CREATE_OPERATION (create_idempotency_key req)
        (max_accounts_per_organization (config active)) id (create_organization_id req)
        subject (trim (create_name req)) (to_ascii_lowercase (trim (create_name req)))
        (cs_credential_id cred) v now
        (now + seconds (credential_ttl_seconds (config active)))
        (create_receipt active (create_aad a req)) env d (Some row) db' →
      summary row = Ok (created_account resp) →
      created resp = true → created_secret resp = Some (expose cred) →
      created_fresh w active a intent req resp db'.

(** A retry: the stored receipt, without a secret. *)
Definition created_replay (active : ActiveServiceAccount) (a : AuthorizedManagement)
    (intent : bytes) (req : CreateServiceAccountRequest) (resp : CreateServiceAccountResponse)
    (db' : Db) : Prop :=
  ∃ m nonce ct stored,
    commands db' !! (caller a, CREATE_OPERATION, create_idempotency_key req) = Some m
    ∧ claim_of intent m = CompletedSuccess nonce ct
    ∧ decrypt (T := CreateServiceAccountResponse) (receipt_cipher active) nonce ct
        (create_aad a req) = Ok stored
    ∧ resp = {| created_account := created_account stored; created := false;
                created_secret := None |}.

Lemma create_inv w n plugin ctx req db resp db' t :
  runs w n (create plugin ctx req) db (Ok (Ok resp)) db' t →
  ∃ active a intent,
    active_cell plugin = Some active
    ∧ authorized_by w n active ctx CREATE_OPERATION (create_organization_id req)
        MANAGE_PERMISSION a
    ∧ actor_intent_hash (actor_subject a) req = Ok intent
    ∧ valid_idempotency_key (create_idempotency_key req) = true
    ∧ valid_token (create_organization_id req) 256 = true
    ∧ valid_name (create_name req) = true
    ∧ (created_fresh w active a intent req resp db'
       ∨ created_replay active a intent req resp db').
Proof.
  unfold create, create_store. intros E. prog_step E as Hact; [done|]. rename x into active0.
  apply ok_or_Ok in Hact. destruct (_ || _) eqn:Hvalid in E; [by prog_step E as Hr|].
  apply step_authorized in E as [(_ & _ & Hx)|(a & t0 & t1 & Ha & -> & _ & E)];
    [by destruct (Hx resp)|].
  prog_step E as Hp; [|by simplify_eq]. prog_step E as Hi; [by simplify_eq|].
  destruct (actor_intent_hash (actor_subject a) req) as [intent|] eqn:Hintent; [|done].
  injection Hi as <-.
  exists active0, a, intent. apply orb_false_iff in Hvalid as [Hvalid ?].
  apply orb_false_iff in Hvalid as [? ?]. bool_prop. split_and!; try done.
  apply step_await_sql in E as (r & d2 & t3 & t4 & Ec & -> & E).
  destruct r as [c|e]; [|naive_solver].
  apply claim_command_inv in Ec as [(-> & Hnone & -> & ->)|(m & _ & -> & Hm & -> & ->)].
  - left. cbn [length] in E. cbv zeta in E.
    prog_step E as Hr. prog_step E as Hid; [by simplify_eq|]. prog_step E as He.
    destruct (w_ensure w _ _) as [identity|[e|e]] in E; [|dead E|dead E].
    destruct (valid_token (ensured_subject identity) 256) eqn:Hsub; [|dead E].
    do 2 prog_step E as Hs. prog_step E as Hd; [by simplify_eq|]. rewrite !map_err_Ok in Hd.
    prog_step E as Hs. prog_step E as Hg; [by simplify_eq|].
    prog_step E as Hs. prog_step E as Hv; [by simplify_eq|].
    prog_step E as Hs. prog_step E as Hst. rewrite !map_err_Ok in Hg. rewrite !map_err_Ok in Hv.
    apply create_account_refines in Hst.
    match type of E with context [match ?r with _ => _ end] => destruct r as [[row|]|e] end.
    2: dead E. 2: { repeat case_bool_decide; dead E. }
    prog_step E as Hs. prog_step E as Hsum; [by simplify_eq|]. rewrite map_err_Ok in Hsum.
    prog_step E as Hs. injection Hs as ->. subst db'.
    apply generate_Ok in Hg as Hg'. destruct Hg' as (i & m & Hi & Hm & _). injection Hi as ->. rewrite Hm in Hg.
    eapply created_fresh_intro; eauto. simpl. by rewrite lookup_insert_eq.
  - right. exists m. destruct (claim_of intent m) eqn:Hc; try dead E; [by apply claim_of_existing in Hc|].
    prog_step E as Hd; [by simplify_eq|]. rewrite !map_err_Ok in Hd.
    prog_step E as Hs. injection Hs as ->. subst db'. by eexists _, _, _.
Qed.

(** ** The stored receipt *)

Lemma created_fresh_receipt `{!CipherLaws, !JsonLaws} w active a intent req resp db' :
  respects_claims w → created_fresh w active a intent req resp db' →
  ∃ m nonce ct,
    commands db' !! (caller a, CREATE_OPERATION, create_idempotency_key req) = Some m
    ∧ m_intent_hash m = intent ∧ claim_of intent m = CompletedSuccess nonce ct
    ∧ decrypt (receipt_cipher active) nonce ct (create_aad a req)
      = Ok {| created_account := created_account resp; created := true; created_secret := None |}.
Proof.
  intros Hw [d0 d l rat env id subject cred v now row i m k j salt Hres -> _ _ _ _ _ Hspec
             Hsum _ _].
  apply (Hw l) in Hres; [|done].
  inversion Hspec as [|row' nonce ct db1 _ _ _ _ _ _ _ _ Hrec (m0 & Hm0 & _ & Hnonce & Hcmd)]; subst.
  rewrite Hres in Hm0. injection Hm0 as <-.
  apply create_receipt_Ok in Hrec as (account & Hsum' & Henc).
  rewrite Hsum in Hsum'. injection Hsum' as <-.
  eexists _, nonce, ct. rewrite Hcmd, lookup_insert_eq. split; [done|].
  split; [done|]. split; [apply (claim_of_succeeded (tx_now env) nonce ct (reserved rat intent))|].
  eapply decrypt_encrypt; [apply create_response_wire|apply create_response_plain|done|exact Henc].
Qed.

(** ** The secret works *)

(** [getrandom::fill] fills the whole buffer. *)
Definition fills (w : World) : Prop :=
  ∀ k size b, w_random w k size = Ok b → len b = Z.of_nat size.

Lemma summary_fields row s : summary row = Ok s →
  s_service_account_id s = r_service_account_id row ∧ s_organization_id s = r_organization_id row
  ∧ s_subject s = r_subject row ∧ s_name s = r_name row
  ∧ s_revision s = to_string (r_revision row).
Proof.
  unfold summary. intros (st & _ & Hs)%bind_ok_Ok.
  repeat (apply bind_ok_Ok in Hs as (? & _ & Hs)). by injection Hs as <-.
Qed.

(** C3: when create returns a secret, that secret names a credential that is stored, belongs to
    the created account, expires after the configured lifetime, is not revoked and accepts the
    secret; the account is stored as active with the requested organization and the trimmed
    name. *)
Theorem created_secret_authenticates `{!Base64Laws, !PasswordLaws} w n plugin ctx req db resp
    secret db' t :
  fills w →
  runs w n (create plugin ctx req) db (Ok (Ok resp)) db' t →
  created_secret resp = Some secret →
  ∃ active cid c a,
    active_cell plugin = Some active
    ∧ credential_id secret = Some cid ∧ credentials db' !! cid = Some c
    ∧ verify_secret secret (pepper active) (c_verifier c) = true
    ∧ c_valid_until c = c_valid_from c + seconds (credential_ttl_seconds (config active))
    ∧ c_revoked_at c = None
    ∧ c_service_account_id c = s_service_account_id (created_account resp)
    ∧ accounts db' !! s_service_account_id (created_account resp) = Some a
    ∧ a_status a = "active" ∧ a_organization_id a = create_organization_id req
    ∧ a_name a = trim (create_name req).
Proof.
  intros Hw E Hsec.
  apply create_inv in E as (active & a & intent & Hact & _ & _ & _ & _ & _ & E).
  destruct E as [[d0 d l rat env id subject cred v now row i m k j salt _ _ Hi Hm Hgen Hver _
                  Hspec Hsum _ Hexp]|(?&?&?&?&_&_&_&->)]; [|done].
  rewrite Hexp in Hsec. injection Hsec as <-.
  destruct (generated_parses i m cred (Hw _ _ _ Hi) (Hw _ _ _ Hm) Hgen) as [Hid _].
  inversion Hspec as [|row' nonce ct db1 _ _ _ _ Ea Ec _ Hrow _ _]; subst.
  apply summary_fields in Hsum as (Hsid & _). simpl in Hsid. rewrite Hsid.
  eexists active, _, _, _. split; [done|]. split; [exact Hid|].
  rewrite Ec, Ea, !lookup_insert_eq. split; [done|]. simpl.
  split; [by eapply verify_own_verifier|]. done.
Qed.

(** C4: a create that succeeded and returned a secret, while other tasks left open commands
    alone, is retried with the same key by the same caller and user, again authorized, against
    any later tables in which the command's row is still the one the first request left, no
    other task removes that row, and it is not yet old enough for the retry's own prune. Then,
    after the authorization, the retry only makes accesses that leave accounts, credentials and
    rate limits as they are (neither the directory nor the random generator is called), the row
    stays, and the retry either fails at runtime or answers with the same account, created false
    and no secret; in a world without failures and rivals it does answer so. *)
Theorem create_replays `{!CipherLaws, !JsonLaws} w n w' n' plugin active ctx ctx' req a db resp
    db1 t m later out db2 t' :
  active_cell plugin = Some active →
  authorized_by w n active ctx CREATE_OPERATION (create_organization_id req) MANAGE_PERMISSION a →
  respects_claims w →
  runs w n (create plugin ctx req) db (Ok (Ok resp)) db1 t →
  created resp = true →
  (* the command's row is still there when the retry starts, and no rival prunes it *)
  let key := (caller a, CREATE_OPERATION, create_idempotency_key req) in
  commands db1 !! key = Some m → commands later !! key = Some m → others_hold key m w' →
  prunable (tx_now (w_tx w' (n' + 3))) (receipt_ttl_seconds (config active)) m = false →
  authorized_by w' n' active ctx' CREATE_OPERATION (create_organization_id req)
    MANAGE_PERMISSION a →
  runs w' n' (create plugin ctx' req) later out db2 t' →
  ∃ t0 t1, t' = t0 ++ t1 ∧ authorization_trace t0
    ∧ answered_from_row key m
        (Ok {| created_account := created_account resp; created := false; created_secret := None |})
        w' later out db2 t1.
Proof.
  intros Hact Ha Hw E Hcr key Hm1 Hm Hhold Hprune Ha' E'.
  apply create_inv in E as (active' & a' & intent & Hact' & Hau & Hintent & Hk & Ho & Hn & E).
  rewrite Hact in Hact'. injection Hact' as <-.
  rewrite (authorized_by_unique _ _ _ _ _ _ _ _ _ Hau Ha) in *.
  destruct E as [E|(?&?&?&?&_&_&_&->)]; [|done].
  destruct (created_fresh_receipt _ _ _ _ _ _ _ Hw E) as (m' & nonce & ct & Hm' & Hmi & Hcl & Hdec).
  unfold key in Hm1. rewrite Hm1 in Hm'. injection Hm' as <-.
  unfold create, Authorization.active in E'. rewrite Hact in E'. cbn [ok_or] in E'.
  rewrite hbind_ok, Hk, Ho, Hn in E'. cbn [negb orb] in E'.
  apply (step_authorized_ok _ _ _ _ _ _ _ _ a) in E' as (t0 & t1 & -> & Ht0 & E'); [|done].
  exists t0, t1. do 2 (split; [done|]).
  rewrite Hintent in E'. cbv zeta in E'. cbn [map_err] in E'.
  eapply retry_answers; [exact Hhold|exact Hm|exact Hmi|exact Hprune| |exact E'].
  cbv beta. rewrite Hcl. unfold create_aad in Hdec. by rewrite Hdec.
Qed.
End creation.
