(* ===== verification/Rotation.v ===== *)
(** * Rotation: the rotate_secret operation from request to tables *)
From S2P Require Import Prelude Text Platform Contract Secret Config Database Effects.
From S2P Require Import TxLogic Exec Storage Integrity Statements Accounts Commands.
From S2P Require Import Invariants Authorization Management Authentication Endpoint.
From S2P Require Import Access Creation.

Open Scope string_scope.
Open Scope list_scope.
Open Scope Z_scope.

Section rotation.
Context `{Platform}.

Definition rotate_receipt (active : ActiveServiceAccount) (aad : bytes) : Receipt AccountRow :=
  λ row nonce, bind_ok (summary row) (λ account,
    map_err PluginError.Crypto
      (encrypt (receipt_cipher active)
         {| rotated_account := account; rotated := true; rotated_secret := None |} aad nonce)).

Definition rotate_aad (a : AuthorizedManagement) (req : RotateServiceAccountSecretRequest) : bytes :=
  receipt_aad (caller a) ROTATE_SECRET_OPERATION (rotate_idempotency_key req).

Lemma rotate_receipt_Ok active aad row r nonce ct :
  rotate_receipt active aad row r = Ok (nonce, ct) →
  ∃ account, summary row = Ok account
    ∧ encrypt (receipt_cipher active)
        {| rotated_account := account; rotated := true; rotated_secret := None |} aad r
      = Ok (nonce, ct).
Proof.
  unfold rotate_receipt. intros (account & Hs & He)%bind_ok_Ok. exists account.
  split; [done|]. by rewrite map_err_Ok in He.
Qed.

(** A successful rotation: the command is reserved in [d0], later the account transaction
    takes [d] to [db']. *)
Inductive rotated_fresh (w : World) (active : ActiveServiceAccount) (a : AuthorizedManagement)
    (intent : bytes) (revision : Z) (req : RotateServiceAccountSecretRequest)
    (resp : RotateServiceAccountSecretResponse) (d db' : Db) : Prop :=
  | rotated_fresh_intro d0 l reserved_at env cred v now row i m k j salt :
      commands d0 !! (caller a, ROTATE_SECRET_OPERATION, rotate_idempotency_key req)
        = Some (reserved reserved_at intent) → d = w_others w l d0 →
      w_random w k 18 = Ok i → w_random w j 32 = Ok m → generate (Ok i) (Ok m) = Ok cred →
      verifier cred (pepper active) salt = Ok v →
      rotate_spec (caller a) ROTATE_SECRET_OPERATION (rotate_idempotency_key req)
        (rotate_organization_id req) (rotate_service_account_id req) revision
        (cs_credential_id cred) v now
        (now + seconds (rotation_overlap_seconds (config active)))
        (now + seconds (credential_ttl_seconds (config active)))
        (rotate_receipt active (rotate_aad a req)) env d (Updated row) db' →
      summary row = Ok (rotated_account resp) →
      rotated resp = true → rotated_secret resp = Some (expose cred) →
      rotated_fresh w active a intent revision req resp d db'.

Definition rotated_replay (active : ActiveServiceAccount) (a : AuthorizedManagement)
    (intent : bytes) (req : RotateServiceAccountSecretRequest)
    (resp : RotateServiceAccountSecretResponse) (db' : Db) : Prop :=
  ∃ m nonce ct stored,
    commands db' !! (caller a, ROTATE_SECRET_OPERATION, rotate_idempotency_key req) = Some m
    ∧ claim_of intent m = CompletedSuccess nonce ct
    ∧ decrypt (T := RotateServiceAccountSecretResponse) (receipt_cipher active) nonce ct
        (rotate_aad a req) = Ok stored
    ∧ resp = {| rotated_account := rotated_account stored; rotated := false;
                rotated_secret := None |}.

Lemma rotate_inv w n plugin ctx req db resp db' t :
  runs w n (rotate_secret plugin ctx req) db (Ok (Ok resp)) db' t →
  ∃ active a intent revision,
    active_cell plugin = Some active
    ∧ authorized_by w n active ctx ROTATE_SECRET_OPERATION (rotate_organization_id req)
        MANAGE_PERMISSION a
    ∧ actor_intent_hash (actor_subject a) req = Ok intent
    ∧ valid_rotation req = Some revision
    ∧ ((∃ d, rotated_fresh w active a intent revision req resp d db' ∧ EvSql d db' ∈ t)
       ∨ rotated_replay active a intent req resp db').
Proof.
  unfold rotate_secret. intros E. prog_step E as Hact; [done|]. rename x into active0.
  apply ok_or_Ok in Hact.
  destruct (valid_rotation req) as [revision|] eqn:Hvalid; [|by prog_step E as Hr].
  apply step_authorized in E as [(_ & _ & Hx)|(a & t0 & t1 & Ha & -> & _ & E)];
    [by destruct (Hx resp)|].
  prog_step E as Hp; [|by simplify_eq]. prog_step E as Hi; [by simplify_eq|].
  destruct (actor_intent_hash (actor_subject a) req) as [intent|] eqn:Hintent; [|done].
  injection Hi as <-. exists active0, a, intent, revision. split_and!; try done.
  prog_step E as Hc; [|by simplify_eq].
  apply claim_command_inv in Hc as [(-> & Hnone & -> & ->)|(m & _ & -> & Hm & -> & ->)].
  - left. cbn [length] in E. cbv zeta in E.
    prog_step E as Hs. prog_step E as Hd; [by simplify_eq|]. rewrite !map_err_Ok in Hd.
    prog_step E as Hs. prog_step E as Hg; [by simplify_eq|].
    prog_step E as Hs. prog_step E as Hv; [by simplify_eq|].
    prog_step E as Hs. prog_step E as Hst; [|by simplify_eq].
    rewrite !map_err_Ok in Hg. rewrite !map_err_Ok in Hv.
    apply rotate_account_refines in Hst.
    match type of E with context [match ?r with _ => _ end] => destruct r as [row| | |] end.
    2-4: dead E.
    prog_step E as Hs. prog_step E as Hsum; [by simplify_eq|]. rewrite map_err_Ok in Hsum.
    prog_step E as Hs. injection Hs as ->. subst db'.
    apply generate_Ok in Hg as Hg'. destruct Hg' as (i & m & Hi' & Hm & _). injection Hi' as ->. rewrite Hm in Hg.
    eexists. split; [eapply rotated_fresh_intro; eauto; simpl; by rewrite lookup_insert_eq|].
    subst. rewrite !elem_of_app, !elem_of_cons, elem_of_app, !elem_of_cons. tauto.
  - right. exists m. destruct (claim_of intent m) eqn:Hc; try dead E;
      [by apply claim_of_existing in Hc|].
    prog_step E as Hd; [by simplify_eq|]. rewrite !map_err_Ok in Hd.
    prog_step E as Hs. injection Hs as ->. subst db'. by eexists _, _, _.
Qed.

Lemma rotated_fresh_receipt `{!CipherLaws, !JsonLaws} w active a intent rev req resp d db' :
  respects_claims w → rotated_fresh w active a intent rev req resp d db' →
  ∃ m nonce ct,
    commands db' !! (caller a, ROTATE_SECRET_OPERATION, rotate_idempotency_key req) = Some m
    ∧ m_intent_hash m = intent ∧ claim_of intent m = CompletedSuccess nonce ct
    ∧ decrypt (receipt_cipher active) nonce ct (rotate_aad a req)
      = Ok {| rotated_account := rotated_account resp; rotated := true; rotated_secret := None |}.
Proof.
  intros Hw [d0 l rat env cred v now row i m k j salt Hres -> _ _ _ _ Hspec Hsum _ _].
  apply (Hw l) in Hres; [|done].
  inversion Hspec as [| | |b row' nonce ct db1 _ _ _ _ _ _ _ _ Hrec (m0 & Hm0 & _ & Hnonce & Hcmd)];
    subst.
  rewrite Hres in Hm0. injection Hm0 as <-.
  apply rotate_receipt_Ok in Hrec as (account & Hsum' & Henc).
  rewrite Hsum in Hsum'. injection Hsum' as <-.
  eexists _, nonce, ct. rewrite Hcmd, lookup_insert_eq. split; [done|].
  split; [done|]. split; [apply (claim_of_succeeded (tx_now env) nonce ct (reserved rat intent))|].
  eapply decrypt_encrypt; [apply rotate_response_wire|apply rotate_response_plain|done|exact Henc].
Qed.

Lemma valid_rotation_revision req revision :
  valid_rotation req = Some revision →
  parse_revision (rotate_expected_revision req) = Some revision.
Proof. unfold valid_rotation. by repeat case_match; simplify_eq. Qed.

(** C14: when rotate_secret returns a secret, that secret verifies against a new stored
    credential of the account with the full lifetime, every other live credential of the account
    ends with the overlap or had ended already, and the account, which was not revoked, is one
    revision further than expected. *)
Theorem rotated_secret_replaces_the_old `{!Base64Laws, !PasswordLaws} w n plugin ctx req db resp
    secret db' t :
  fills w →
  runs w n (rotate_secret plugin ctx req) db (Ok (Ok resp)) db' t →
  rotated_secret resp = Some secret →
  ∃ active cid c a now revision,
    active_cell plugin = Some active
    ∧ credential_id secret = Some cid ∧ credentials db' !! cid = Some c
    ∧ verify_secret secret (pepper active) (c_verifier c) = true
    ∧ c_service_account_id c = rotate_service_account_id req
    ∧ c_valid_from c = now ∧ c_revoked_at c = None
    ∧ c_valid_until c = now + seconds (credential_ttl_seconds (config active))
    ∧ (∀ cid' c', credentials db' !! cid' = Some c' →
         c_service_account_id c' = rotate_service_account_id req → c_revoked_at c' = None →
         cid' ≠ cid → c_valid_until c' ≤ now + seconds (rotation_overlap_seconds (config active))
                      ∨ c_valid_until c' ≤ now)
    ∧ parse_revision (rotate_expected_revision req) = Some revision
    ∧ accounts db' !! rotate_service_account_id req = Some a
    ∧ a_status a ≠ "revoked" ∧ a_organization_id a = rotate_organization_id req
    ∧ a_revision a = revision + 1.
Proof.
  intros Hw E Hsec.
  apply rotate_inv in E as (active & a & intent & rev & Hact & _ & _ & Hv & E).
  apply valid_rotation_revision in Hv.
  destruct E as [[d [[d0 l rat env cred v now row i m k j salt _ _ Hi Hm Hgen Hver
                     Hspec Hsum _ Hexp] _]]|(?&?&?&?&_&_&_&->)]; [|done].
  rewrite Hexp in Hsec. injection Hsec as <-.
  destruct (generated_parses i m cred (Hw _ _ _ Hi) (Hw _ _ _ Hm) Hgen) as [Hid _].
  inversion Hspec as [| | |b row' nonce ct db1 [Hb Hbo] Hst Hrev Hcid Ea Ec _ Hrow _ _]; subst.
  eexists active, _, _, _, now, _. split; [done|]. split; [exact Hid|].
  rewrite Ec, Ea, !lookup_insert_eq. split; [done|]. simpl.
  split; [by eapply verify_own_verifier|]. do 4 (split; [done|]).
  split; [|done]. intros cid' c' Hc' Hac Hrc Hne. rewrite lookup_insert_ne, lookup_fmap in Hc' by done.
  apply fmap_Some in Hc' as (c0 & _ & ->). unfold bounded in *.
  destruct (_ && _) eqn:Hg; simpl in *; [lia|].
  rewrite Hac, String.eqb_refl, Hrc in Hg. simpl in Hg. bool_prop. lia.
Qed.

(** C16: a rotation that succeeded and returned a secret, while other tasks left open commands
    alone, is retried with the same key by the same caller and user, again authorized, against
    any later tables in which the command's row is still the one the first request left, no
    other task removes that row, and it is not yet old enough for the retry's own prune. Then,
    after the authorization, the retry only makes accesses that leave accounts, credentials and
    rate limits as they are, the row stays, and the retry either fails at runtime or answers
    with the same account, rotated false and no secret; in a world without failures and rivals
    it does answer so. *)
Theorem rotate_replays `{!CipherLaws, !JsonLaws} w n w' n' plugin active ctx ctx' req a db resp
    db1 t m later out db2 t' :
  active_cell plugin = Some active →
  authorized_by w n active ctx ROTATE_SECRET_OPERATION (rotate_organization_id req)
    MANAGE_PERMISSION a →
  respects_claims w →
  runs w n (rotate_secret plugin ctx req) db (Ok (Ok resp)) db1 t →
  rotated resp = true →
  (* the command's row is still there when the retry starts, and no rival prunes it *)
  let key := (caller a, ROTATE_SECRET_OPERATION, rotate_idempotency_key req) in
  commands db1 !! key = Some m → commands later !! key = Some m → others_hold key m w' →
  prunable (tx_now (w_tx w' (n' + 3))) (receipt_ttl_seconds (config active)) m = false →
  authorized_by w' n' active ctx' ROTATE_SECRET_OPERATION (rotate_organization_id req)
    MANAGE_PERMISSION a →
  runs w' n' (rotate_secret plugin ctx' req) later out db2 t' →
  ∃ t0 t1, t' = t0 ++ t1 ∧ authorization_trace t0
    ∧ answered_from_row key m
        (Ok {| rotated_account := rotated_account resp; rotated := false; rotated_secret := None |})
        w' later out db2 t1.
Proof.
  intros Hact Ha Hw E Hcr key Hm1 Hm Hhold Hprune Ha' E'.
  apply rotate_inv in E as (active' & a' & intent & rev & Hact' & Hau & Hintent & Hv & E).
  rewrite Hact in Hact'. injection Hact' as <-.
  rewrite (authorized_by_unique _ _ _ _ _ _ _ _ _ Hau Ha) in *.
  destruct E as [(d & E & _)|(?&?&?&?&_&_&_&->)]; [|done].
  destruct (rotated_fresh_receipt _ _ _ _ _ _ _ _ _ Hw E) as (m' & nonce & ct & Hm' & Hmi & Hcl & Hdec).
  unfold key in Hm1. rewrite Hm1 in Hm'. injection Hm' as <-.
  unfold rotate_secret, Authorization.active in E'. rewrite Hact in E'. cbn [ok_or] in E'.
  rewrite hbind_ok, Hv in E'.
  apply (step_authorized_ok _ _ _ _ _ _ _ _ a) in E' as (t0 & t1 & -> & Ht0 & E'); [|done].
  exists t0, t1. do 2 (split; [done|]).
  rewrite Hintent in E'. cbv zeta in E'. cbn [map_err] in E'.
  eapply retry_answers; [exact Hhold|exact Hm|exact Hmi|exact Hprune| |exact E'].
  cbv beta. rewrite Hcl. unfold rotate_aad in Hdec. by rewrite Hdec.
Qed.

End rotation.
