(* ===== verification/Revocation.v ===== *)
(** * Revocation: the revoke operation from request to tables *)
From S2P Require Import Prelude Text Platform Contract Secret Config Database Effects.
From S2P Require Import TxLogic Exec Storage Integrity Statements Accounts Commands.
From S2P Require Import Invariants Authorization Management Authentication Endpoint.
From S2P Require Import Access Creation.

Open Scope string_scope.
Open Scope list_scope.
Open Scope Z_scope.

Section revocation.
Context `{Platform}.

Definition revoke_receipt (active : ActiveServiceAccount) (aad : bytes) :
    Receipt (AccountRow * bool) :=
  λ rc nonce, bind_ok (summary rc.1) (λ account,
    map_err PluginError.Crypto
      (encrypt (receipt_cipher active)
         {| revoked_account := account; revoked := rc.2 |} aad nonce)).

Definition revoke_aad (a : AuthorizedManagement) (req : RevokeServiceAccountRequest) : bytes :=
  receipt_aad (caller a) REVOKE_OPERATION (revoke_idempotency_key req).

Lemma revoke_receipt_Ok active aad row changed r nonce ct :
  revoke_receipt active aad (row, changed) r = Ok (nonce, ct) →
  ∃ account, summary row = Ok account
    ∧ encrypt (receipt_cipher active) {| revoked_account := account; revoked := changed |} aad r
      = Ok (nonce, ct).
Proof.
  unfold revoke_receipt. intros (account & Hs & He)%bind_ok_Ok. exists account.
  split; [done|]. by rewrite map_err_Ok in He.
Qed.

(** A revocation that went through: the command is reserved in [d0], later the account
    transaction takes [d] to [db']; [changed] says whether the account was still active. *)
Inductive revoked_fresh (w : World) (active : ActiveServiceAccount) (a : AuthorizedManagement)
    (intent : bytes) (revision : Z) (req : RevokeServiceAccountRequest)
    (resp : RevokeServiceAccountResponse) (d db' : Db) : Prop :=
  | revoked_fresh_intro d0 l reserved_at env row :
      commands d0 !! (caller a, REVOKE_OPERATION, revoke_idempotency_key req)
        = Some (reserved reserved_at intent) → d = w_others w l d0 →
      revoke_spec (caller a) REVOKE_OPERATION (revoke_idempotency_key req)
        (revoke_organization_id req) (revoke_service_account_id req) revision
        (revoke_receipt active (revoke_aad a req)) env d (Updated (row, revoked resp)) db' →
      summary row = Ok (revoked_account resp) →
      revoked_fresh w active a intent revision req resp d db'.

Definition revoked_replay (active : ActiveServiceAccount) (a : AuthorizedManagement)
    (intent : bytes) (req : RevokeServiceAccountRequest)
    (resp : RevokeServiceAccountResponse) (db' : Db) : Prop :=
  ∃ m nonce ct stored,
    commands db' !! (caller a, REVOKE_OPERATION, revoke_idempotency_key req) = Some m
    ∧ claim_of intent m = CompletedSuccess nonce ct
    ∧ decrypt (T := RevokeServiceAccountResponse) (receipt_cipher active) nonce ct
        (revoke_aad a req) = Ok stored
    ∧ resp = {| revoked_account := revoked_account stored; revoked := false |}.

Lemma revoke_inv w n plugin ctx req db resp db' t :
  runs w n (revoke plugin ctx req) db (Ok (Ok resp)) db' t →
  ∃ active a intent revision,
    active_cell plugin = Some active
    ∧ authorized_by w n active ctx REVOKE_OPERATION (revoke_organization_id req)
        MANAGE_PERMISSION a
    ∧ actor_intent_hash (actor_subject a) req = Ok intent
    ∧ valid_revocation req = Some revision
    ∧ ((∃ d, revoked_fresh w active a intent revision req resp d db')
       ∨ revoked_replay active a intent req resp db').
Proof.
  unfold revoke. intros E. prog_step E as Hact; [done|]. rename x into active0.
  apply ok_or_Ok in Hact.
  destruct (valid_revocation req) as [revision|] eqn:Hvalid; [|by prog_step E as Hr].
  apply step_authorized in E as [(_ & _ & Hx)|(a & t0 & t1 & Ha & -> & _ & E)];
    [by destruct (Hx resp)|].
  prog_step E as Hp; [|by simplify_eq]. prog_step E as Hi; [by simplify_eq|].
  destruct (actor_intent_hash (actor_subject a) req) as [intent|] eqn:Hintent; [|done].
  injection Hi as <-. exists active0, a, intent, revision. split_and!; try done.
  prog_step E as Hc; [|by simplify_eq].
  apply claim_command_inv in Hc as [(-> & Hnone & -> & ->)|(m & _ & -> & Hm & -> & ->)].
  - left. cbn [length] in E. cbv zeta in E. prog_step E as Hst; [|by simplify_eq].
    apply revoke_account_refines in Hst.
    match type of E with context [match ?r with _ => _ end] =>
      destruct r as [[row changed]| | |] end; [|dead E..].
    prog_step E as Hs. prog_step E as Hsum; [by simplify_eq|]. rewrite map_err_Ok in Hsum.
    prog_step E as Hs. injection Hs as ->. subst db'. eexists.
    eapply revoked_fresh_intro; eauto. simpl. by rewrite lookup_insert_eq.
  - right. exists m. destruct (claim_of intent m) eqn:Hc; try dead E;
      [by apply claim_of_existing in Hc|].
    prog_step E as Hd; [by simplify_eq|]. rewrite !map_err_Ok in Hd.
    prog_step E as Hs. injection Hs as ->. subst db'. by eexists _, _, _.
Qed.

Lemma revoked_fresh_receipt `{!CipherLaws, !JsonLaws} w active a intent rev req resp d db' :
  respects_claims w → revoked_fresh w active a intent rev req resp d db' →
  ∃ m nonce ct,
    commands db' !! (caller a, REVOKE_OPERATION, revoke_idempotency_key req) = Some m
    ∧ m_intent_hash m = intent ∧ claim_of intent m = CompletedSuccess nonce ct
    ∧ decrypt (receipt_cipher active) nonce ct (revoke_aad a req) = Ok resp.
Proof.
  intros Hw [d0 l rat env row Hres -> Hspec Hsum]. apply (Hw l) in Hres; [|done].
  assert (∃ nonce ct, revoke_receipt active (revoke_aad a req) (row, revoked resp) (tx_random env)
            = Ok (nonce, ct)
          ∧ receipt_stored (caller a, REVOKE_OPERATION, revoke_idempotency_key req) (tx_now env)
              nonce ct (w_others w l d0) db') as (nonce & ct & Hrec & m0 & Hm0 & _ & Hnonce & Hcmd)
    by (inversion Hspec; subst; eauto).
  rewrite Hres in Hm0. injection Hm0 as <-.
  apply revoke_receipt_Ok in Hrec as (account & Hsum' & Henc).
  rewrite Hsum in Hsum'. injection Hsum' as <-.
  eexists _, nonce, ct. rewrite Hcmd, lookup_insert_eq. split; [done|].
  split; [done|]. split; [apply (claim_of_succeeded (tx_now env) nonce ct (reserved rat intent))|]. destruct resp as [acc ch].
  eapply decrypt_encrypt; [apply revoke_response_wire|apply revoke_response_plain|done|exact Henc].
Qed.

Lemma valid_revocation_revision req revision :
  valid_revocation req = Some revision →
  parse_revision (revoke_expected_revision req) = Some revision.
Proof. unfold valid_revocation. by repeat case_match; simplify_eq. Qed.

(** C12: after a successful first revocation the account is revoked one revision further and
    stays so in every later state, and each of its credentials is revoked and ends no later than
    the revocation (or than its own start). *)
Theorem revocation_is_final w n plugin ctx req db resp db' t later :
  runs w n (revoke plugin ctx req) db (Ok (Ok resp)) db' t →
  revoked resp = true → evolves db' later →
  ∃ a revision,
    parse_revision (revoke_expected_revision req) = Some revision
    ∧ accounts later !! revoke_service_account_id req = Some a
    ∧ a_organization_id a = revoke_organization_id req
    ∧ a_status a = "revoked" ∧ a_revision a = revision + 1
    ∧ s_status (revoked_account resp) = Revoked
    ∧ ∀ cid c, credentials later !! cid = Some c →
        c_service_account_id c = revoke_service_account_id req →
        is_Some (c_revoked_at c) ∧ c_valid_until c ≤ Z.max (c_valid_from c) (default 0 (a_revoked_at a)).
Proof.
  intros E Hch [_ Hfr].
  apply revoke_inv in E as (active & a & intent & rev & _ & _ & _ & Hv & E).
  apply valid_revocation_revision in Hv.
  destruct E as [(d & [d0 l rat env row _ _ Hspec Hsum])|(?&?&?&?&_&_&_&->)]; [|done].
  rewrite Hch in Hspec.
  inversion Hspec as [| | |b row' nonce ct db1 [Hb Hbo] Hrev Hst Ea Ec _ Hrow _ _]; subst.
  destruct (Hfr (revoke_service_account_id req) (revoked_account_rec (tx_clock env) b)) as [Hacc Hcred];
    [by rewrite Ea, lookup_insert_eq|done|].
  eexists _, _. split; [done|]. split; [exact Hacc|]. do 3 (split; [done|]). split.
  - unfold summary in Hsum. simpl in Hsum. by repeat (apply bind_ok_Ok in Hsum as (? & _ & Hsum)); injection Hsum as <-.
  - intros cid c Hc Hcid. apply (Hcred _ _ Hcid) in Hc. rewrite Ec, lookup_fmap in Hc.
    apply fmap_Some in Hc as (c0 & _ & ->). unfold ended in *.
    destruct (String.eqb_spec (c_service_account_id c0) (revoke_service_account_id req)) as [He|He];
      [simpl; split; [by eexists|lia]|done].
Qed.

(** C13: a revocation that revoked the account, while other tasks left open commands alone, is
    retried with the same key by the same caller and user, again authorized, against any later
    tables in which the command's row is still the one the first request left, no other task
    removes that row, and it is not yet old enough for the retry's own prune. Then, after the
    authorization, the retry only makes accesses that leave accounts, credentials and rate
    limits as they are, the row stays, and the retry either fails at runtime or answers with the
    same account and revoked false; in a world without failures and rivals it does answer so. *)
Theorem revoke_replays `{!CipherLaws, !JsonLaws} w n w' n' plugin active ctx ctx' req a db resp
    db1 t m later out db2 t' :
  active_cell plugin = Some active →
  authorized_by w n active ctx REVOKE_OPERATION (revoke_organization_id req)
    MANAGE_PERMISSION a →
  respects_claims w →
  runs w n (revoke plugin ctx req) db (Ok (Ok resp)) db1 t →
  revoked resp = true →
  (* the command's row is still there when the retry starts, and no rival prunes it *)
  let key := (caller a, REVOKE_OPERATION, revoke_idempotency_key req) in
  commands db1 !! key = Some m → commands later !! key = Some m → others_hold key m w' →
  prunable (tx_now (w_tx w' (n' + 3))) (receipt_ttl_seconds (config active)) m = false →
  authorized_by w' n' active ctx' REVOKE_OPERATION (revoke_organization_id req)
    MANAGE_PERMISSION a →
  runs w' n' (revoke plugin ctx' req) later out db2 t' →
  ∃ t0 t1, t' = t0 ++ t1 ∧ authorization_trace t0
    ∧ answered_from_row key m
        (Ok {| revoked_account := revoked_account resp; revoked := false |})
        w' later out db2 t1.
Proof.
  intros Hact Ha Hw E Hcr key Hm1 Hm Hhold Hprune Ha' E'.
  apply revoke_inv in E as (active' & a' & intent & rev & Hact' & Hau & Hintent & Hv & E).
  rewrite Hact in Hact'. injection Hact' as <-.
  rewrite (authorized_by_unique _ _ _ _ _ _ _ _ _ Hau Ha) in *.
  destruct E as [(d & E)|(?&?&?&?&_&_&_&->)]; [|done].
  destruct (revoked_fresh_receipt _ _ _ _ _ _ _ _ _ Hw E) as (m' & nonce & ct & Hm' & Hmi & Hcl & Hdec).
  unfold key in Hm1. rewrite Hm1 in Hm'. injection Hm' as <-.
  unfold revoke, Authorization.active in E'. rewrite Hact in E'. cbn [ok_or] in E'.
  rewrite hbind_ok, Hv in E'.
  apply (step_authorized_ok _ _ _ _ _ _ _ _ a) in E' as (t0 & t1 & -> & Ht0 & E'); [|done].
  exists t0, t1. do 2 (split; [done|]).
  rewrite Hintent in E'. cbv zeta in E'. cbn [map_err] in E'.
  eapply retry_answers; [exact Hhold|exact Hm|exact Hmi|exact Hprune| |exact E'].
  cbv beta. rewrite Hcl. unfold revoke_aad in Hdec. by rewrite Hdec.
Qed.
End revocation.
