(* ===== verification/Exchange.v ===== *)
(** * Exchange: from a secret to an issued credential *)
From S2P Require Import Prelude Text Platform Contract Secret Config Database Effects.
From S2P Require Import TxLogic Exec Storage Integrity Statements Accounts RateLimit.
From S2P Require Import Commands Invariants Authorization Management Authentication.
From S2P Require Import Endpoint Access Creation.

Open Scope string_scope.
Open Scope list_scope.
Open Scope Z_scope.

Section exchange.
Context `{Platform}.

Definition exchange_aad (caller : string) (req : ExchangeServiceAccountSecretRequest) : bytes :=
  receipt_aad caller EXCHANGE_SECRET_OPERATION (exchange_idempotency_key req).

(** The request sent to the credential issuer. *)
Definition issue_request (active : ActiveServiceAccount) (k : CredentialRow)
    (expires_text : string) : IssueRequest :=
  {| issue_subject := k_subject k; issue_actor_kind := "service_account";
     issue_assurance := "service_account_secret";
     issue_audience := token_audience (config active);
     issue_claims := issue_claims_of k; issue_expires_at := expires_text |}.

(** The thirteen steps of an exchange that issues a credential: prune, claim, clock, rate slot,
    credential, directory, clock, mark, clock, issuer, clock, nonce, receipt. *)
Definition exchange_steps (status : ReadStatusRequest) (d1 d2 d3 : Db) (request : IssueRequest)
    (db' : Db) (t : list event) : Prop :=
  ∃ p p' c c' r r' s,
    t = [EvSql p p'; EvSql c c'; EvClock; EvSql r r'; EvSql d1 d1; EvStatus status; EvClock;
         EvSql d2 d3; EvClock; EvIssue request; EvClock; EvRandom; EvSql s db'].

(** A credential issued for a secret: the credential is read in [d1], and marked as issuing by
    the transaction from [d2] to [d3]. Times and answers are those of the steps above. *)
Inductive exchanged_fresh (w : World) (n : nat) (active : ActiveServiceAccount) (caller : string)
    (intent : bytes) (req : ExchangeServiceAccountSecretRequest)
    (resp : ExchangeServiceAccountSecretResponse) (t : list event) (d1 d2 d3 db' : Db) : Prop :=
  | exchanged_fresh_intro cid row p session text expiry nonce ct :
      let status := {| read_status_subject := k_subject row |} in
      let request := issue_request active p text in
      exchange_steps status d1 d2 d3 request db' t →
      credential_id (exchange_secret_text req) = Some cid →
      usable_credential active (exchange_secret_text req) (w_clock w (2 + n)) (join_credential cid d1)
        = Some row →
      w_status w (5 + n) status
        = Ok {| status_subject := k_subject row; status_status := DirectoryActive |} →
      issue_spec caller (exchange_idempotency_key req) (k_credential_id row)
        (k_service_account_id row) (w_clock w (6 + n)) d2 (Some p) d3 →
      d2 = w_others w (7 + n) d1 →
      (∃ d d', EvSql d d' ∈ t ∧ run_tx (reserve_rate_slot caller (w_clock w (2 + n))
         (exchange_window_seconds (config active)) (max_exchanges_per_window (config active))
         (exchange_lockout_seconds (config active))) (w_tx w (3 + n)) d = (Ok true, d')) →
      let expires_at := Z.min (w_clock w (8 + n) + seconds (token_ttl_seconds (config active)))
                          (k_valid_until p) in
      w_clock w (8 + n) < expires_at → format_time expires_at = Ok text →
      w_issue w (9 + n) request = Ok session →
      rfc3339_parse (session_expires_at session) = Some expiry →
      w_clock w (10 + n) < expiry ≤ expires_at →
      resp = response p (session_id session) (session_credential session)
               (session_expires_at session) →
      encrypt (receipt_cipher active) resp (exchange_aad caller req) (w_random w (11 + n) 12)
        = Ok (nonce, ct) →
      len nonce = 12 →
      (respects_claims w → ∃ reserved_at done_at,
         commands db' !! (caller, EXCHANGE_SECRET_OPERATION, exchange_idempotency_key req)
         = Some (succeeded done_at nonce ct
                   (issuing (w_clock w (6 + n)) (reserved reserved_at intent)))) →
      exchanged_fresh w n active caller intent req resp t d1 d2 d3 db'.

Definition exchanged_replay (active : ActiveServiceAccount) (caller : string) (intent : bytes)
    (req : ExchangeServiceAccountSecretRequest) (resp : ExchangeServiceAccountSecretResponse)
    (db' : Db) : Prop :=
  ∃ m nonce ct,
    commands db' !! (caller, EXCHANGE_SECRET_OPERATION, exchange_idempotency_key req) = Some m
    ∧ claim_of intent m = CompletedSuccess nonce ct
    ∧ decrypt (receipt_cipher active) nonce ct (exchange_aad caller req) = Ok resp.

Lemma allowed_caller_Some allowed ctx c :
  allowed_caller allowed ctx = Some c ↔ caller_instance ctx = Some c ∧ c ∈ allowed.
Proof. unfold allowed_caller. by rewrite opt_filter_Some, str_mem_spec. Qed.

Lemma complete_success_owned_inv caller op key nonce ct env db db' :
  run_tx (complete_success_owned caller op key nonce ct) env db = (Ok tt, db') →
  ∃ m, commands db !! (caller, op, key) = Some m ∧ open_status (m_status m) = true
       ∧ len nonce = 12
       ∧ db' = set_commands (<[(caller, op, key) := succeeded (tx_now env) nonce ct m]>
                               (commands db)) db.
Proof.
  intros (c & E & ->)%run_tx_inv. unfold complete_success_owned in E.
  remember (Ok tt) as r eqn:Hr. tx_forward E as Hs; [done|].
  apply complete_success_forward in E as [(? & -> & _)|(m & Hm & Ho & Hn & E)]; [done|].
  subst r. unfold commit in E. simpl in E. destruct (tx_fault env _) as [[d ap]|]; simplify_eq/=.
  eauto.
Qed.

(** A successful exchange passed the guards on the request. *)
Lemma exchange_valid w n plugin ctx req db resp db' t :
  runs w n (exchange_secret plugin ctx req) db (Ok (Ok resp)) db' t →
  negb (valid_idempotency_key (exchange_idempotency_key req))
  || is_empty (exchange_secret_text req)
  || negb (len (exchange_secret_text req) <=? 512) = false.
Proof.
  unfold exchange_secret, exchange_issue. intros E. cbv zeta in E. prog_step E as Hact; [done|].
  prog_case E as Hc; [|by prog_step E as Hr]. prog_case E as Hv; [by prog_step E as Hr|done].
Qed.

(** The end of a successful exchange: what the issuer was asked and answered, and the receipt
    that completes the command. *)
Lemma exchange_issue_Ok w n active ctx caller req p d resp db' t :
  runs w n (finish (exchange_issue active ctx caller (exchange_idempotency_key req)
    (exchange_aad caller req) p)) d (Ok (Ok resp)) db' t →
  ∃ text session expiry nonce ct m,
    let expires_at := Z.min (w_clock w n + seconds (token_ttl_seconds (config active)))
                        (k_valid_until p) in
    let request := issue_request active p text in
    let d' := w_others w (4 + n) d in
    t = [EvClock; EvIssue request; EvClock; EvRandom; EvSql d' db']
    ∧ w_clock w n < expires_at ∧ format_time expires_at = Ok text
    ∧ w_issue w (1 + n) request = Ok session
    ∧ rfc3339_parse (session_expires_at session) = Some expiry
    ∧ w_clock w (2 + n) < expiry ≤ expires_at
    ∧ resp = response p (session_id session) (session_credential session)
               (session_expires_at session)
    ∧ encrypt (receipt_cipher active) resp (exchange_aad caller req) (w_random w (3 + n) 12)
      = Ok (nonce, ct)
    ∧ len nonce = 12
    ∧ (let key := (caller, EXCHANGE_SECRET_OPERATION, exchange_idempotency_key req) in
       commands d' !! key = Some m
       ∧ ∃ done_at, db' = set_commands (<[key := succeeded done_at nonce ct m]> (commands d')) d').
Proof.
  intros E. unfold exchange_issue in E. cbv zeta in E.
  prog_step E as Hs. prog_case E as Hexp; [dead E|].
  prog_step E as Htext; [by simplify_eq|]. rewrite map_err_Ok in Htext. prog_step E as Hs.
  destruct (w_issue w _ _) as [session|[[]|]] eqn:Hiss in E; [|dead E..].
  prog_step E as Hs. prog_case E as Hsize; [dead E|]. clear Hsize.
  prog_case E as Hparse; [|dead E]. prog_step E as Hs.
  prog_case E as Hbound; [dead E|]. apply orb_false_iff in Hbound as [Hb1 Hb2].
  prog_step E as Hrt; [by simplify_eq|]. rewrite !map_err_Ok in Hrt.
  prog_step E as Hs. prog_step E as Henc; [by simplify_eq|]. rewrite !map_err_Ok in Henc.
  match type of Henc with _ = Ok ?v => destruct v as [nonce ct] end.
  prog_step E as Hdone; [|by simplify_eq]. prog_step E as Hs. injection Hs as ->.
  match type of Hdone with _ = (Ok ?v, _) => destruct v end.
  apply complete_success_owned_inv in Hdone as (m & Hm & _ & Hn & ->). bool_prop.
  do 6 eexists. split; [subst; reflexivity|]. split; [exact Hexp|]. split; [exact Htext|].
  split; [exact Hiss|]. split; [exact Hparse|]. split; [split; [exact Hb1|exact Hb2]|].
  split; [done|]. split; [unfold encrypt; rewrite Hrt; exact Henc|]. split; [exact Hn|].
  split; [exact Hm|]. by eexists.
Qed.

(** When the other tasks respect claims, the row that is completed is the one reserved. *)
Lemma completed_own_row w n caller key cid id at_time intent reserved_at d2 d3 d p m :
  respects_claims w →
  commands d !! (caller, EXCHANGE_SECRET_OPERATION, key) = Some (reserved reserved_at intent) →
  d2 = w_others w n d → issue_spec caller key cid id at_time d2 (Some p) d3 →
  commands (w_others w (5 + n) d3) !! (caller, EXCHANGE_SECRET_OPERATION, key) = Some m →
  m = issuing at_time (reserved reserved_at intent).
Proof.
  intros Hw Hres -> Hmark Hm. inversion Hmark as [|? ? m0 _ _ _ _ Hm0 _ Hk Hd]. subst.
  apply (Hw n) in Hres; [|done]. unfold EXCHANGE_SECRET_OPERATION in *.
  rewrite Hres in Hm0. injection Hm0 as <-. erewrite Hw in Hm; [|simpl; apply lookup_insert_eq|done]. by injection Hm.
Qed.

Lemma exchange_inv w n plugin ctx req db resp db' t :
  runs w n (exchange_secret plugin ctx req) db (Ok (Ok resp)) db' t →
  ∃ active caller intent,
    active_cell plugin = Some active
    ∧ caller_instance ctx = Some caller ∧ caller ∈ authentication_callers (config active)
    ∧ request_intent_hash req = Ok intent
    ∧ ((∃ d1 d2 d3, exchanged_fresh w n active caller intent req resp t d1 d2 d3 db')
       ∨ exchanged_replay active caller intent req resp db').
Proof.
  unfold exchange_secret. intros E. cbv zeta in E. prog_step E as Hact; [done|]. rename x into active0.
  apply ok_or_Ok in Hact.
  destruct (allowed_caller _ _) as [caller|] eqn:Hcaller; [|by prog_step E as Hr].
  apply allowed_caller_Some in Hcaller as [Hc1 Hc2].
  destruct (_ || _) eqn:Hvalid in E; [by prog_step E as Hr|].
  prog_step E as Hp; [|by simplify_eq]. prog_step E as Hi; [by simplify_eq|].
  rewrite map_err_Ok in Hi. rename x1 into intent.
  exists active0, caller, intent. do 4 (split; [done|]). prog_step E as Hc; [|by simplify_eq].
  apply claim_command_inv in Hc as [(-> & Hnone & -> & ->)|(m & _ & -> & Hm & -> & ->)].
  2: { right. exists m. destruct (claim_of intent m) eqn:Hc; try dead E;
        [by apply claim_of_existing in Hc|].
       prog_step E as Hd; [by simplify_eq|]. rewrite !map_err_Ok in Hd.
       prog_step E as Hs. injection Hs as ->. subst db'. by eexists _, _. }
  left. cbn [length] in E. rewrite Nat.add_1_r in E.
  prog_step E as Hs. prog_step E as Hrate; [|by simplify_eq].
  match type of E with context [negb ?b] => destruct b end; cbn [negb] in E; [|dead E].
  destruct (credential_id _) as [cid|] eqn:Hcid.
  2: { prog_step E as Hs. simpl in E. dead E. }
  prog_step E as Hload; [|by simplify_eq].
  apply run_pool_Ok in Hload. injection Hload as <- <-.
  destruct (usable_credential _ _ _ _) as [row|] eqn:Hu; [|dead E].
  prog_step E as Hs. destruct (w_status w _ _) as [st|[[]|]] eqn:Hst in E; [|dead E..].
  destruct (String.eqb_spec (status_subject st) (k_subject row)) as [Hsub|]; [|dead E].
  destruct st as [sub []]; simpl in Hsub; subst sub; cbn [status_status] in E; [|dead E].
  do 2 prog_step E as Hs. prog_step E as Hmark; [|by simplify_eq].
  apply mark_exchange_issuing_refines in Hmark.
  match type of E with context [match ?v with Some _ => _ | None => _ end] =>
    destruct v as [p|]; [|dead E] end.
  subst. apply exchange_issue_Ok in E as (text & session & expiry & nonce & ct & m & -> & Hexp & Htext
    & Hiss & Hparse & Hbound & Hresp & Henc & Hn & Hm & done_at & ->).
  eexists _, _, _. eapply exchanged_fresh_intro; [|done|exact Hu|exact Hst|exact Hmark|done| |exact Hexp
    |exact Htext|exact Hiss|exact Hparse|exact Hbound|exact Hresp|exact Henc|exact Hn|].
  - do 7 eexists. reflexivity.
  - eexists _, _. split; [|exact Hrate]. simpl. rewrite !elem_of_cons. tauto.
  - intros Hw. apply reserve_rate_slot_commands in Hrate. simpl. rewrite lookup_insert_eq.
    eexists _, _. do 2 f_equal. eapply completed_own_row; [exact Hw| |done|exact Hmark|exact Hm].
    apply Hw; [|done]. rewrite Hrate. apply Hw; [|done]. apply lookup_insert_eq.
Qed.

Lemma usable_credential_Some active secret now joined row :
  usable_credential active secret now joined = Some row →
  joined = Some row ∧ verify_secret secret (pepper active) (k_verifier row) = true
  ∧ k_account_status row = "active" ∧ k_revoked_at row = None
  ∧ k_valid_from row ≤ now < k_valid_until row.
Proof.
  unfold usable_credential. intros [-> Hok]%opt_filter_Some. bool_prop.
  split_and!; try done. by destruct (k_revoked_at row).
Qed.

Lemma join_credential_Some cid db row :
  join_credential cid db = Some row ↔
  ∃ c a, credentials db !! cid = Some c ∧ accounts db !! c_service_account_id c = Some a
         ∧ row = decode_credential cid c a.
Proof.
  unfold join_credential. destruct (credentials db !! cid) as [c|]; [|naive_solver].
  destruct (accounts db !! c_service_account_id c) as [a|] eqn:Ha; [|naive_solver congruence].
  naive_solver congruence.
Qed.

(** C5: from healthy tables, with rivals that keep them healthy, a successful exchange comes
    from a configured authentication caller and either repeats the receipt stored under the hash
    of this very request, or took the thirteen steps of a fresh exchange: the transaction that
    marks the reserved command as issuing found the credential that the presented secret names
    and verifies against, not revoked, of an active account and within its validity at the clock
    reading just before; the directory reported the account's subject active; the issuer was
    asked for that account, audience and expiry and its answer is the response; and the issued
    credential expires after the clock reading that follows the answer, and neither after the
    secret's credential nor after the configured token lifetime counted from the clock reading
    before the request to the issuer. *)
Theorem exchange_fails_closed max w n plugin ctx req db resp db' t :
  limited max plugin → rivals_ok max w → healthy max db →
  runs w n (exchange_secret plugin ctx req) db (Ok (Ok resp)) db' t →
  ∃ active caller intent,
    active_cell plugin = Some active
    ∧ caller_instance ctx = Some caller ∧ caller ∈ authentication_callers (config active)
    ∧ request_intent_hash req = Ok intent
    ∧ (exchanged_replay active caller intent req resp db'
       ∨ ∃ cid c a m d1 d d' text session expiry,
           let key := (caller, EXCHANGE_SECRET_OPERATION, exchange_idempotency_key req) in
           let row := decode_credential cid c a in
           let status := {| read_status_subject := a_subject a |} in
           let request := issue_request active row text in
           let expires_at := Z.min (w_clock w (8 + n) + seconds (token_ttl_seconds (config active)))
                               (c_valid_until c) in
           exchange_steps status d1 d d' request db' t
           (* the transaction from d to d' marks the reserved command *)
           ∧ commands d !! key = Some m ∧ m_status m = "reserved"
           ∧ commands d' !! key = Some (issuing (w_clock w (6 + n)) m)
           (* in its tables the secret opens a credential that is usable *)
           ∧ credential_id (exchange_secret_text req) = Some cid
           ∧ credentials d !! cid = Some c ∧ accounts d !! c_service_account_id c = Some a
           ∧ usable_at (w_clock w (6 + n)) c a
           ∧ verify_secret (exchange_secret_text req) (pepper active) (c_verifier c) = true
           (* the directory agrees *)
           ∧ w_status w (5 + n) status
             = Ok {| status_subject := a_subject a; status_status := DirectoryActive |}
           (* the issuer was asked for this account and answered with the credential *)
           ∧ format_time expires_at = Ok text
           ∧ w_issue w (9 + n) request = Ok session
           ∧ resp = response row (session_id session) (session_credential session)
                      (session_expires_at session)
           (* and it expires in time, but not yet *)
           ∧ rfc3339_parse (session_expires_at session) = Some expiry
           ∧ w_clock w (10 + n) < expiry ≤ expires_at).
Proof.
  intros Hmax Hw Hdb E. assert (prog_preserves (healthy max) evolves (exchange_secret plugin ctx req))
    as Hkeep by (by apply exchange_keeps).
  apply exchange_inv in E as Hinv.
  destruct Hinv as (active & caller & intent & Hact & Hc & Hin & Hintent & Hcase).
  exists active, caller, intent. do 4 (split; [done|]).
  destruct Hcase as [(d1 & d2 & d3 & F)|?]; [right|by left].
  destruct F as [cid row p session text expiry nonce ct status request Hsteps
                 Hid Hu Hst Hspec -> _ exp Hexp Htext Hiss Hparse Hbound -> _ _ _].
  apply usable_credential_Some in Hu as (Hjoin & Hver & _).
  apply join_credential_Some in Hjoin as (c1 & a1 & Hc1 & Ha1 & ->).
  inversion Hspec as [|c a m Hc2 Hid2 Ha2 Hus Hm Hres]; subst. simpl in *.
  assert (healthy max d1) as Hd1.
  { destruct Hsteps as (?&?&?&?&?&?&?&Ht). eapply (trace_healthy _ _ _ _ _ _ _ _ d1 d1); try done.
    rewrite Ht. set_solver. }
  destruct (Hw (7 + n)%nat d1 Hd1) as [_ [[Hla Hlc] _]].
  cbn [Nat.add] in Hla, Hlc. destruct (Hlc _ _ Hc1) as (c' & Hc' & Hcle). rewrite Hc2 in Hc'. injection Hc' as <-.
  destruct (Hla _ _ Ha1) as (a' & Ha' & Hale). rewrite Ha2 in Ha'. injection Ha' as <-.
  rewrite <-(cl_verifier _ _ Hcle) in Hver. subst status. rewrite <-(al_subject _ _ Hale) in Hst, Hsteps.
  eexists cid, c, a, m, d1, _, _, text, session, expiry. cbv zeta. rewrite Hid2.
  split; [exact Hsteps|]. do 2 (split; [done|]). split; [apply lookup_insert_eq|].
  split_and!; first [done|apply Hbound].
Qed.

(** C6: a successful exchange, during which other tasks left open commands alone, is retried by
    the same caller with the same key and secret, against any later tables in which the
    command's row is still the one the first request left, no other task removes that row, and
    it is not yet old enough for the retry's own prune. Then the retry does nothing but accesses
    that leave accounts, credentials and rate limits as they are - neither the directory nor the
    issuer is called again -, the row stays, and the retry either fails at runtime or returns
    the very same response; in a world without failures and rivals it does return it. *)
Theorem exchange_replays `{!CipherLaws, !JsonLaws} w n w' n' plugin active ctx ctx' req caller db
    resp db1 t m later out db2 t' :
  active_cell plugin = Some active →
  respects_claims w → caller_instance ctx = Some caller →
  runs w n (exchange_secret plugin ctx req) db (Ok (Ok resp)) db1 t →
  (* the command's row is still there when the retry starts, and no rival prunes it *)
  let key := (caller, EXCHANGE_SECRET_OPERATION, exchange_idempotency_key req) in
  commands db1 !! key = Some m → commands later !! key = Some m → others_hold key m w' →
  prunable (tx_now (w_tx w' n')) (receipt_ttl_seconds (config active)) m = false →
  caller_instance ctx' = Some caller →
  runs w' n' (exchange_secret plugin ctx' req) later out db2 t' →
  answered_from_row key m (Ok resp) w' later out db2 t'.
Proof.
  intros Hact Hw Hctx E key Hm1 Hm Hhold Hprune Hctx' E'.
  apply exchange_valid in E as Hvalid.
  apply exchange_inv in E as (active' & caller' & intent & Hact' & Hc & Hin & Hintent & Hcase).
  rewrite Hact in Hact'. injection Hact' as <-. rewrite Hctx in Hc. injection Hc as <-.
  assert (∃ nonce ct, m_intent_hash m = intent ∧ claim_of intent m = CompletedSuccess nonce ct
    ∧ decrypt (receipt_cipher active) nonce ct (exchange_aad caller req) = Ok resp)
    as (nonce & ct & Hmi & Hcl & Hdec).
  { destruct Hcase as [(d1 & d2 & d3 & F)|(m' & nonce & ct & Hm' & Hcl & Hdec)].
    - destruct F as [cid row p session text expiry nonce ct status request
                     _ _ _ _ _ _ _ exp _ _ _ _ _ _ Henc Hn Hdone].
      destruct (Hdone Hw) as (t1 & t2 & Hm'). unfold key in Hm1. rewrite Hm1 in Hm'. injection Hm' as ->.
      exists nonce, ct. split; [done|]. split; [apply claim_of_succeeded|].
      eapply decrypt_encrypt; [apply exchange_response_wire|apply exchange_response_plain|done|exact Henc].
    - unfold key in Hm1. rewrite Hm1 in Hm'. injection Hm' as <-.
      exists nonce, ct. split_and!; try done. by eapply claim_of_intent. }
  unfold exchange_secret, Authorization.active in E'. rewrite Hact in E'. cbn [ok_or] in E'.
  cbv zeta in E'. rewrite hbind_ok in E'.
  rewrite (proj2 (allowed_caller_Some _ _ _) (conj Hctx' Hin)), Hvalid in E'. cbn [negb orb] in E'.
  rewrite Hintent in E'. cbn [map_err] in E'.
  eapply retry_answers; [exact Hhold|exact Hm|exact Hmi|exact Hprune| |exact E'].
  cbv beta. rewrite Hcl. unfold exchange_aad in Hdec. by rewrite Hdec.
Qed.
End exchange.
