(* ===== verification/Availability.v ===== *)
(** * Availability: requests that must succeed do

    The other files bound what a request may do; here, what it must do when nothing fails:
    refused callers are admitted again, and a valid exchange ends with a credential. *)
From S2P Require Import Prelude Text Platform Contract Secret Config Database Effects.
From S2P Require Import TxLogic Exec Storage Integrity Statements Accounts RateLimit.
From S2P Require Import Validation Commands Completeness Invariants Authorization Management Authentication.
From S2P Require Import Endpoint Access Creation Exchange.

Open Scope string_scope.
Open Scope list_scope.
Open Scope Z_scope.

(** ** Admission *)

Section admission.
Context `{Platform} (caller : string) (window max lockout : Z).
Context (Hcaller : between 1 128 (char_length caller) = true).

Lemma limit_row_check start attempts until :
  0 ≤ attempts → limit_check caller (mkLimit start attempts until) = true.
Proof. intros Ha. unfold limit_check. simpl. rewrite Hcaller, andb_true_r. by apply Z.leb_le. Qed.

(** Without failures the transaction commits the decision of the counter. *)
Lemma reserve_rate_slot_reliable now env db :
  reliable env → 0 ≤ l_attempts (limit_row caller now db) →
  let '(admitted, l) := admission window max lockout now (limit_row caller now db) in
  run_tx (reserve_rate_slot caller now window max lockout) env db
  = (Ok admitted, set_limits (<[caller := l]> (limits db)) db).
Proof.
  intros Hr Ha. set (row := limit_row caller now db) in *.
  unfold run_tx, reserve_rate_slot. rewrite (begin_reliable _ Hr), (execute_reliable _ Hr).
  unfold insert_limit. rewrite limit_row_check by lia. cbn [negb].
  set (db1 := set_limits (<[caller := row]> (limits db)) db).
  assert ((match limits db !! caller with
           | Some _ => Ok (tt, db)
           | None => Ok (tt, set_limits (<[caller := mkLimit now 0 None]> (limits db)) db) end
           : result (unit * Db) sql_error) = Ok (tt, db1)) as ->.
  { unfold db1, row, limit_row. destruct (limits db !! caller) as [l|] eqn:Hl; [|done].
    simpl. rewrite insert_id by done. by destruct db. }
  rewrite (execute_reliable _ Hr). unfold select_limit.
  assert (limits db1 !! caller = Some row) as Hrow by apply lookup_insert_eq.
  rewrite Hrow. unfold admission, locked, current_window.
  destruct (is_some_and _ _); [by rewrite (commit_reliable _ Hr)|].
  assert (∀ f, limit_check caller (f row) = true →
    update_row limit_check caller (λ r, Some (f r)) (limits db1)
    = Ok (1, <[caller := f row]> (limits db))) as Hup.
  { intros f Hck. unfold update_row. rewrite Hrow, Hck. simpl. by rewrite insert_insert_eq. }
  destruct (_ <=? now); cbv beta iota zeta; (destruct (max <=? _);
    rewrite (execute_reliable _ Hr); unfold lock_out_limit, consume_limit;
    rewrite Hup by (apply limit_row_check; lia); simpl; by rewrite (commit_reliable _ Hr)).
Qed.

(** A row that only attempts up to the time [T] have written. *)
Definition settled (T : time) (l : LimitRec) : Prop :=
  l_window_started_at l ≤ T ∧ 0 ≤ l_attempts l
  ∧ ∀ u, l_locked_until l = Some u → u ≤ T + seconds lockout.
Definition settled_row (T : time) (db : Db) : Prop :=
  ∀ l, limits db !! caller = Some l → settled T l.

Lemma limit_row_settled T now db : settled_row T db → now ≤ T → settled T (limit_row caller now db).
Proof.
  unfold settled_row, limit_row. intros Hdb Hnow. destruct (limits db !! caller) as [l|]; [by apply Hdb|].
  by repeat split.
Qed.

Lemma admission_settled T now l :
  settled T l → now ≤ T → settled T (admission window max lockout now l).2.
Proof.
  intros (Hs & Ha & Hl) Hnow. unfold admission, current_window.
  destruct (locked now l); [by repeat split|].
  destruct (_ <=? now); destruct (max <=? _); unfold settled; simpl; split_and!; try lia;
    try done; intros u [= <-]; lia.
Qed.

Lemma attempts_settled T l db :
  settled_row T db → Forall (λ p, p.2 ≤ T) l →
  settled_row T (attempts caller window max lockout l db).2.
Proof.
  intros Hdb Hl. revert db Hdb. induction Hl as [|[env now] l Hnow Hl IH]; intros db Hdb; [done|].
  simpl. destruct (run_tx _ env db) as [r db1] eqn:E.
  destruct (attempt_cases _ _ _ _ _ _ _ _ _ E) as (b & row & Hadm & _ & Hcase).
  assert (settled_row T db1) as H1.
  { destruct Hcase as [[_ ->]|[_ Hrow]]; [done|]. intros l' Hl'. rewrite Hrow in Hl'.
    injection Hl' as <-. pose proof (admission_settled T now (limit_row caller now db)) as Hs.
    rewrite Hadm in Hs. apply Hs; [by apply limit_row_settled|done]. }
  specialize (IH db1 H1). by destruct (attempts _ _ _ _ l db1).
Qed.

(** Once its window and its lockout are over, a row admits. *)
Lemma settled_admits T now l :
  1 ≤ max → settled T l → T + seconds window ≤ now → T + seconds lockout ≤ now →
  (admission window max lockout now l).1 = true.
Proof.
  intros Hmax (Hs & Ha & Hl) Hw Hk. unfold admission, locked, current_window.
  destruct (l_locked_until l) as [u|]; simpl.
  - specialize (Hl u eq_refl). rewrite (proj2 (Z.ltb_ge now u)) by lia.
    rewrite (proj2 (Z.leb_le _ now)) by lia. by rewrite (proj2 (Z.leb_gt max 0)) by lia.
  - rewrite (proj2 (Z.leb_le _ now)) by lia. by rewrite (proj2 (Z.leb_gt max 0)) by lia.
Qed.

(** C19: whatever a caller attempted up to some time, and however often it was refused and
    locked out, an attempt that does not fail is admitted once the longer of the window and the
    lockout has passed since then. *)
Theorem callers_are_admitted_again T l db env now :
  1 ≤ max →
  settled_row T db → Forall (λ p, p.2 ≤ T) l →
  reliable env → T + seconds (Z.max window lockout) ≤ now →
  ∃ db', run_tx (reserve_rate_slot caller now window max lockout) env
           (attempts caller window max lockout l db).2 = (Ok true, db').
Proof.
  intros Hmax Hdb Hl Hr Hnow.
  set (d := (attempts caller window max lockout l db).2).
  assert (settled_row T d) as Hd by by apply attempts_settled.
  assert (T + seconds window ≤ now ∧ T + seconds lockout ≤ now) as [Hw Hk] by (unfold seconds in *; lia).
  assert ((admission window max lockout now (limit_row caller now d)).1 = true) as Hadm.
  { unfold limit_row. destruct (limits d !! caller) as [row|] eqn:Hrow; simpl.
    - apply (settled_admits T); auto.
    - unfold admission, current_window. simpl.
      by destruct (_ <=? now); rewrite (proj2 (Z.leb_gt max 0)) by lia. }
  pose proof (reserve_rate_slot_reliable now env d Hr) as E.
  destruct (admission _ _ _ now _) as [b row]. simpl in Hadm. subst b. eexists. apply E.
  unfold limit_row. destruct (limits d !! caller) as [row'|] eqn:Hrow'; [|done].
  by apply Hd in Hrow' as (_ & ? & _).
Qed.
End admission.

(** ** Transactions of an exchange without failures *)

Section exchange_steps.
Context `{Platform} (env : TxEnv) (Hr : reliable env).

Lemma prune_reliable ttl db :
  run_tx (prune ttl) env db
  = (Ok tt, set_commands (filter (λ kr, prunable (tx_now env) ttl kr.2 = false) (commands db)) db).
Proof. unfold prune. by rewrite (run_pool_reliable _ _ _ _ Hr). Qed.

Lemma load_credential_reliable cid db :
  run_tx (load_credential cid) env db = (Ok (join_credential cid db), db).
Proof. unfold load_credential. by rewrite (run_pool_reliable _ _ _ _ Hr). Qed.

(** A usable credential of a reserved command is marked. *)
Lemma mark_exchange_issuing_reliable db caller key cid c a m now :
  schema_ok db → credentials db !! cid = Some c →
  accounts db !! c_service_account_id c = Some a → usable_at now c a →
  commands db !! (caller, "exchange_secret", key) = Some m → m_status m = "reserved" →
  run_tx (mark_exchange_issuing caller key cid (c_service_account_id c) now) env db
  = (Ok (Some (decode_credential cid c a)),
     set_commands (<[(caller, "exchange_secret", key) := issuing now m]> (commands db))
       (set_credentials (<[cid := used now c]> (credentials db)) db)).
Proof.
  intros Hdb Hc Ha (Hact & Hrev & Hfrom & Huntil) Hm Hres.
  unfold run_tx, mark_exchange_issuing.
  rewrite (begin_reliable _ Hr), (execute_reliable _ Hr). unfold select_account_status.
  rewrite Ha. cbn [fmap option_fmap option_map is_some_and]. rewrite Hact, String.eqb_refl. cbn [negb].
  rewrite (execute_reliable _ Hr). unfold select_usable_credential, join_credential.
  rewrite Hc, Ha. cbn [opt_filter decode_credential k_service_account_id k_account_status
    k_revoked_at k_valid_from k_valid_until].
  rewrite Hact, Hrev, !String.eqb_refl, (proj2 (Z.leb_le _ _)), (proj2 (Z.ltb_lt _ _)) by done.
  cbn [is_none andb]. rewrite (execute_reliable _ Hr). unfold record_credential_use, update_row.
  assert (credential_check cid (used now c) = true) as Hcheck
    by exact (credentials_checked _ Hdb _ _ Hc).
  rewrite Hc. unfold used in Hcheck. rewrite Hcheck. cbn [bind_ok snd].
  rewrite (execute_reliable _ Hr). unfold mark_command_issuing, update_row.
  cbn [set_credentials commands credentials]. rewrite Hm, Hres, String.eqb_refl, lookup_insert_eq.
  rewrite bool_decide_eq_true_2 by by eexists. cbn [andb].
  assert (command_check (caller, "exchange_secret", key) (issuing now m) = true) as Hmark.
  { pose proof (commands_checked _ Hdb _ _ Hm) as Hck. unfold command_check, issuing in *.
    simpl in *. rewrite Hres in Hck. exact Hck. }
  unfold issuing in Hmark. rewrite Hmark. cbn [bind_ok fst snd negb Z.eqb Pos.eqb].
  by rewrite (commit_reliable _ Hr).
Qed.

(** An open row has no error, so a receipt that fits can be stored in it. *)
Lemma open_row_fits key m now nonce ct :
  command_check key m = true → open_status (m_status m) = true → len nonce = 12 → len ct ≤ 262144 →
  command_check key (succeeded now nonce ct m) = true.
Proof.
  destruct key as [[c o] k]. unfold command_check, succeeded. simpl. intros Hck Ho Hn Hct.
  rewrite !andb_true_iff in Hck. destruct Hck as [[[[[[[H1 H2] H3] H4] _] _] _] Hopen].
  assert (m_error_code m = None) as ->.
  { unfold open_status in *. rewrite !orb_true_iff, !String.eqb_eq in Ho.
    destruct (m_error_code m); [|done].
    destruct Ho as [[Ho|Ho]|Ho]; rewrite Ho in Hopen; simpl in Hopen;
      by rewrite ?andb_false_r in Hopen. }
  by rewrite H1, H2, H3, H4, Hn, (proj2 (Z.leb_le _ _) Hct).
Qed.

(** An issuing command takes a receipt that fits. *)
Lemma complete_success_owned_reliable db caller op key m nonce ct :
  schema_ok db → commands db !! (caller, op, key) = Some m → open_status (m_status m) = true →
  len nonce = 12 → len ct ≤ 262144 →
  run_tx (complete_success_owned caller op key nonce ct) env db
  = (Ok tt, set_commands (<[(caller, op, key) := succeeded (tx_now env) nonce ct m]> (commands db)) db).
Proof.
  intros Hdb Hm Ho Hn Hct. unfold run_tx, complete_success_owned. rewrite (begin_reliable _ Hr).
  unfold complete_success. rewrite tx_bind_assoc, (execute_reliable _ Hr).
  unfold complete_command_success, update_row. rewrite Hm, Ho.
  assert (command_check (caller, op, key) (succeeded (tx_now env) nonce ct m) = true) as Hck.
  { apply open_row_fits; [by apply (commands_checked _ Hdb)|done..]. }
  unfold succeeded in Hck. rewrite Hck. cbn [bind_ok fst snd negb Z.eqb Pos.eqb].
  unfold tx_bind, tx_ret, commit. cbn [tx_now]. by rewrite Hr.
Qed.
End exchange_steps.

(** ** A valid exchange *)

Section exchange_succeeds.
Context `{Platform} `{!TimeLaws, !DigestLaws}.
Context (plugin : ServiceAccountPlugin) (active : ActiveServiceAccount) (ctx : InvocationContext)
  (caller : string) (req : ExchangeServiceAccountSecretRequest) (db : Db)
  (cid : string) (c : CredentialRec) (a : AccountRec) (w : World) (T T' : time).

Notation key := (exchange_idempotency_key req).
Notation secret := (exchange_secret_text req).
Notation row := (decode_credential cid c a).

(** The request is well formed, comes from a configured caller that may exchange now, and its
    key is new. *)
Record welcome_request : Prop := {
  wr_active : active_cell plugin = Some active;
  wr_config : config_ok (config active);
  wr_caller : allowed_caller (authentication_callers (config active)) ctx = Some caller;
  wr_key : valid_idempotency_key key = true;
  wr_secret : 1 ≤ len secret ≤ 512;
  wr_intent : ∃ intent, request_intent_hash req = Ok intent;
  wr_new : commands db !! (caller, EXCHANGE_SECRET_OPERATION, key) = None;
  wr_admitted now : T ≤ now ≤ T' →
    (admission (exchange_window_seconds (config active)) (max_exchanges_per_window (config active))
       (exchange_lockout_seconds (config active)) now (limit_row caller now db)).1 = true }.

(** Its secret opens a credential that stays usable from [T] to [T']. *)
Record good_secret : Prop := {
  gs_id : credential_id secret = Some cid;
  gs_credential : credentials db !! cid = Some c;
  gs_account : accounts db !! c_service_account_id c = Some a;
  gs_matches : verify_secret secret (pepper active) (c_verifier c) = true;
  gs_usable now : T ≤ now ≤ T' → usable_at now c a }.

(** The session answers the request and its receipt can be sealed and stored. *)
Definition good_session (text : string) (session : IssuedSession) : Prop :=
  session_expires_at session = text
  ∧ 1 ≤ len (session_id session) ≤ 256 ∧ 1 ≤ len (session_credential session) ≤ 65536
  ∧ ∀ nonce, len nonce = 12 → ∃ ct, len ct ≤ 262144
      ∧ encrypt (receipt_cipher active)
          (response row (session_id session) (session_credential session) text)
          (receipt_aad caller EXCHANGE_SECRET_OPERATION key) (Ok nonce) = Ok (nonce, ct).

(** The expiry an exchange at [now] asks for. *)
Definition expiry_at (now : time) : time :=
  Z.min (now + seconds (token_ttl_seconds (config active))) (c_valid_until c).

(** Nothing fails, the clock stays between [T] and [T'], the directory and the issuer agree. *)
Record agreeing_world : Prop := {
  aw_calm : calm w;
  aw_clock k : T ≤ w_clock w k ≤ T';
  aw_random k : ∃ b, w_random w k 12 = Ok b ∧ len b = 12;
  aw_directory k : w_status w k {| read_status_subject := a_subject a |}
                   = Ok {| status_subject := a_subject a; status_status := DirectoryActive |};
  aw_format now : T ≤ now ≤ T' → ∃ text, format_time (expiry_at now) = Ok text;
  aw_issuer k now text : T ≤ now ≤ T' → format_time (expiry_at now) = Ok text →
    ∃ session, w_issue w k (issue_request active row text) = Ok session ∧ good_session text session }.

(** One access whose outcome is known. *)
Lemma step_tx_known {U A} n d (x : result U RuntimeFailure) d' t (body : Tx A) k y d1 :
  calm w → run_tx body (w_tx w n) d = (Ok y, d1) →
  runs w n (finish (hbind (await_sql (sql body)) k)) d x d' t →
  ∃ t', runs w (S n) (finish (k y)) d1 x d' t'.
Proof.
  intros [_ Ho] Hrun E. apply step_tx in E as (r & d2 & t' & Hs & _ & E).
  rewrite Ho, Hrun in Hs. injection Hs as <- <-. eauto.
Qed.

Lemma exchange_reservation t intent :
  welcome_request → request_intent_hash req = Ok intent →
  command_check (caller, EXCHANGE_SECRET_OPERATION, key) (reserved t intent) = true.
Proof.
  intros W Hi. unfold command_check, reserved. simpl.
  rewrite (char_length_token key 128) by apply W. rewrite caller_char_length.
  - unfold request_intent_hash in Hi. apply bind_ok_Ok in Hi as (b & _ & [= <-]).
    unfold digest. by rewrite sha256_length.
  - apply (caller_set_elem (authentication_callers (config active))); [apply W|].
    by apply (allowed_caller_Some _ ctx), W.
Qed.

(** A new key is claimed, and the tables otherwise stay. *)
Lemma claim_known n d r d' t intent :
  welcome_request → request_intent_hash req = Ok intent → calm w → schema_ok d →
  commands d !! (caller, EXCHANGE_SECRET_OPERATION, key) = None →
  runs w n (claim_command caller EXCHANGE_SECRET_OPERATION key intent) d r d' t →
  let m := reserved (tx_now (w_tx w n)) intent in
  r = Ok Claimed
  ∧ d' = set_commands (<[(caller, EXCHANGE_SECRET_OPERATION, key) := m]> (commands d)) d
  ∧ schema_ok d'.
Proof.
  intros W Hi [Hr Ho] Hd Hnone E m.
  pose proof (exchange_reservation (tx_now (w_tx w n)) intent W Hi) as Hck.
  pose proof (claim_command_reliable w n caller _ key intent d Hr Ho Hd Hck) as Hc.
  rewrite Hnone in Hc. unfold runs in *. rewrite Hc in E. injection E as <- <- _.
  split; [done|]. split; [done|]. apply schema_ok_commands; [done|].
  apply map_Forall_insert_2; [done|]. by apply commands_checked.
Qed.

(** The exchange is admitted. *)
Lemma admission_known env now d :
  welcome_request → reliable env → schema_ok d → limits d = limits db → T ≤ now ≤ T' →
  ∃ l, run_tx (reserve_rate_slot caller now (exchange_window_seconds (config active))
         (max_exchanges_per_window (config active)) (exchange_lockout_seconds (config active))) env d
       = (Ok true, set_limits (<[caller := l]> (limits d)) d)
     ∧ schema_ok (set_limits (<[caller := l]> (limits d)) d).
Proof.
  intros W Henv Hd Hl Hnow.
  assert (between 1 128 (char_length caller) = true) as Hcaller.
  { apply caller_char_length, (caller_set_elem (authentication_callers (config active))); [apply W|].
    by apply (allowed_caller_Some _ ctx), W. }
  pose proof (wr_admitted W now Hnow) as Hadm.
  assert (limit_row caller now db = limit_row caller now d) as Erow by (unfold limit_row; by rewrite Hl).
  rewrite Erow in Hadm.
  assert (0 ≤ l_attempts (limit_row caller now d)) as Ha.
  { unfold limit_row. destruct (limits d !! caller) as [l|] eqn:E; [|done].
    apply limits_checked in E; [|done]. unfold limit_check in E. simpl. bool_prop. lia. }
  pose proof (reserve_rate_slot_reliable caller (exchange_window_seconds (config active))
    (max_exchanges_per_window (config active)) (exchange_lockout_seconds (config active)) Hcaller
    now env d Henv Ha) as Hrun.
  destruct (admission _ _ _ now _) as [b l]. simpl in Hadm. subst b. exists l. split; [done|].
  by destruct (run_tx_preserves schema_ok db_le _ _ _ _ _ (reserve_rate_slot_keeps _ _ _ _ _) Hd Hrun).
Qed.

(** The credential passes the handler's check at any time of the exchange. *)
Lemma usable_known now d :
  good_secret → T ≤ now ≤ T' → credentials d = credentials db → accounts d = accounts db →
  usable_credential active secret now (join_credential cid d) = Some row.
Proof.
  intros G Hnow Hc Ha. destruct (gs_usable G now Hnow) as (Hact & Hrev & Hfrom & Huntil).
  unfold usable_credential, join_credential. rewrite Hc, Ha, (gs_credential G), (gs_account G).
  simpl. rewrite (gs_matches G), Hact, Hrev, (proj2 (Z.leb_le _ _)), (proj2 (Z.ltb_lt _ _)) by done.
  done.
Qed.

(** Marking the command keeps the tables well formed. *)
Lemma mark_known env d m now :
  good_secret → reliable env → schema_ok d →
  credentials d = credentials db → accounts d = accounts db → T ≤ now ≤ T' →
  commands d !! (caller, EXCHANGE_SECRET_OPERATION, key) = Some m → m_status m = "reserved" →
  let d' := set_commands (<[(caller, EXCHANGE_SECRET_OPERATION, key) := issuing now m]> (commands d))
              (set_credentials (<[cid := used now c]> (credentials d)) d) in
  run_tx (mark_exchange_issuing caller key cid (c_service_account_id c) now) env d = (Ok (Some row), d')
  ∧ schema_ok d'.
Proof.
  intros G Henv Hd Hc Ha Hnow Hm Hres d'.
  assert (run_tx (mark_exchange_issuing caller key cid (c_service_account_id c) now) env d
          = (Ok (Some row), d')) as E.
  { eapply mark_exchange_issuing_reliable; try done.
    - rewrite Hc. apply G.
    - rewrite Ha. apply G.
    - by apply (gs_usable G). }
  split; [done|].
  by destruct (run_tx_preserves schema_ok db_le _ _ _ _ _ (mark_exchange_issuing_keeps _ _ _ _ _) Hd E).
Qed.

(** A response that the issuer gave, to a request that expires after [T'] and in time. *)
Definition issued_in_time (out : Outcome ExchangeServiceAccountSecretResponse ExchangeSecretError.t)
    : Prop :=
  ∃ k text session expiry,
    out = Ok (Ok (response row (session_id session) (session_credential session) text))
    ∧ w_issue w k (issue_request active row text) = Ok session
    ∧ rfc3339_parse text = Some expiry ∧ T' < expiry ≤ c_valid_until c.

(** Everything before the issuer succeeds and leaves an open command. *)
Lemma exchange_reaches_issuer n out db' t :
  welcome_request → good_secret → agreeing_world → schema_ok db →
  runs w n (exchange_secret plugin ctx req) db out db' t →
  ∃ n' d m t', schema_ok d
    ∧ commands d !! (caller, EXCHANGE_SECRET_OPERATION, key) = Some m ∧ open_status (m_status m) = true
    ∧ runs w n' (finish (exchange_issue active ctx caller key
        (receipt_aad caller EXCHANGE_SECRET_OPERATION key) row)) d out db' t'.
Proof.
  intros W G A Hdb E. pose proof (aw_calm A) as Hcalm. pose proof Hcalm as [Hr Ho].
  destruct (wr_intent W) as [intent Hintent].
  unfold exchange_secret in E. cbv zeta in E. unfold Authorization.active in E.
  rewrite (wr_active W) in E. cbn [ok_or] in E. rewrite hbind_ok, (wr_caller W) in E.
  rewrite (wr_key W), (proj2 (is_empty_false_len secret)) in E by (destruct (wr_secret W); lia).
  rewrite (proj2 (Z.leb_le (len secret) 512)) in E by (destruct (wr_secret W); lia).
  cbn [negb orb] in E.
  eapply step_tx_known in E as [t1 E]; [|exact Hcalm|by apply prune_reliable].
  rewrite Hintent in E. cbn [map_err] in E. rewrite hbind_ok in E.
  set (db1 := set_commands _ db) in E.
  apply step_await_sql in E as (r & d2 & t2 & t3 & Hclaim & _ & E).
  apply (claim_known _ _ _ _ _ intent W Hintent Hcalm) in Hclaim as (-> & -> & Hdb2).
  2: { apply schema_ok_commands; [done|]. intros k m [Hm _]%map_lookup_filter_Some.
       by eapply commands_checked. }
  2: { apply map_lookup_filter_None. left. apply W. }
  set (db2 := set_commands _ db1) in E, Hdb2. prog_step E as Hs.
  edestruct admission_known as (l & Hrate & Hdb3);
    [exact W|apply Hr|exact Hdb2|done|apply (aw_clock A)|].
  eapply step_tx_known in E as [t4 E]; [|exact Hcalm|exact Hrate]. cbn [negb] in E.
  set (db3 := set_limits _ db2) in E, Hdb3. rewrite (gs_id G) in E.
  eapply step_tx_known in E as [t5 E]; [|exact Hcalm|by apply load_credential_reliable].
  rewrite (usable_known _ db3 G) in E by (done || apply A).
  prog_step E as Hs. cbn [k_subject decode_credential] in E. rewrite (aw_directory A) in E.
  cbn [status_subject status_status] in E. rewrite String.eqb_refl in E.
  prog_step E as Hs. prog_step E as Hs.
  edestruct mark_known as [Hmark Hdb4]; [exact G|apply Hr|exact Hdb3|done..| | | |].
  4: { eapply step_tx_known in E as [t6 E]; [|exact Hcalm|exact Hmark].
       eexists _, _, _, _. split; [exact Hdb4|]. split; [apply lookup_insert_eq|]. by split. }
  - apply A.
  - apply lookup_insert_eq.
  - done.
Qed.

(** The issuer's answer becomes the response. *)
Lemma issuing_succeeds n d m out db' t :
  good_secret → agreeing_world → schema_ok d → T' < T + seconds (token_ttl_seconds (config active)) →
  commands d !! (caller, EXCHANGE_SECRET_OPERATION, key) = Some m → open_status (m_status m) = true →
  runs w n (finish (exchange_issue active ctx caller key
    (receipt_aad caller EXCHANGE_SECRET_OPERATION key) row)) d out db' t →
  issued_in_time out.
Proof.
  intros G A Hdb Hshort Hm Hopen E. pose proof (aw_calm A) as Hcalm.
  unfold exchange_issue in E. cbv zeta in E.
  prog_step E as Hs. cbn [k_valid_until decode_credential] in E.
  match type of E with context [Z.min (?x + _) _] => set (now := x) in E end.
  assert (T ≤ now ≤ T') as Hnow by apply A.
  destruct (gs_usable G T') as (_ & _ & _ & Huntil); [lia|].
  change (Z.min _ _) with (expiry_at now) in E. set (expires_at := expiry_at now) in E.
  assert (T' < expires_at ≤ c_valid_until c) as Hexp by (unfold expires_at, expiry_at; lia).
  rewrite (proj2 (Z.leb_gt expires_at now)) in E by lia.
  destruct (aw_format A now Hnow) as [text Htext]. fold expires_at in Htext.
  rewrite Htext in E. cbn [map_err] in E. rewrite hbind_ok in E. prog_step E as Hs.
  match type of E with context [w_issue w ?k ?r] =>
    destruct (aw_issuer A k now text Hnow Htext) as (session & Hissue & Hsexp & [Hsid Hsid'] & [Hscred Hscred'] & Hseal);
    change r with (issue_request active row text) in E end.
  rewrite Hissue in E. prog_step E as Hs.
  rewrite !(proj2 (is_empty_false_len _)), !(proj2 (Z.leb_le _ _)), Hsexp in E by lia. cbn [negb orb] in E.
  assert (rfc3339_parse text = Some expires_at) as Hparse.
  { unfold format_time in Htext. apply map_err_Ok in Htext. by apply rfc3339_round_trip. }
  rewrite Hparse in E. prog_step E as Hs.
  match type of E with context [w_clock w ?j] => pose proof (aw_clock A j) as Hcheck end.
  rewrite (proj2 (Z.leb_gt expires_at _)), Z.ltb_irrefl in E by lia.
  cbn [orb] in E.
  assert (∃ rt, receipt_text (response row (session_id session) (session_credential session) text)
                = Ok rt) as [rt Hrt].
  { destruct (aw_random A 0) as (b & _ & Hb). destruct (Hseal b Hb) as (ct & _ & Henc).
    apply bind_ok_Ok in Henc as (rt & Hrt & _). eauto. }
  rewrite Hrt in E. cbn [map_err] in E. rewrite hbind_ok in E. prog_step E as Hs.
  match type of E with context [w_random w ?j 12] =>
    destruct (aw_random A j) as (nonce & Hnonce & Hlen) end.
  destruct (Hseal nonce Hlen) as (ct & Hct & Henc).
  unfold encrypt in Henc. rewrite Hrt in Henc. cbn [bind_ok] in Henc. rewrite Hnonce, Henc in E. cbn [map_err] in E. rewrite hbind_ok in E.
  eapply step_tx_known in E as [t7 E]; [|exact Hcalm|].
  2: { eapply complete_success_owned_reliable; [apply Hcalm|done..]. }
  prog_step E as Hs. subst out. by eexists _, text, session, expires_at.
Qed.

End exchange_succeeds.
