(* ===== verification/Operator.v ===== *)
(** * Operator: reading a command's durable state ([operator.rs])

    The PostgreSQL kit is an argument: [OwnedPostgres::prepare], and [SchemaOperator] with its
    [connect], [setup] and [upgrade]. *)
From S2P Require Import Prelude Text Platform Secret Database Effects.

Open Scope string_scope.
Open Scope list_scope.
Open Scope Z_scope.
Open Scope result_scope.

Record ServiceAccountCommandStatus := {
  op_status : string; op_created_at : time; op_updated_at : time; op_completed_at : option time }.

Inductive ServiceAccountOperatorError :=
  | InvalidCommandReference
  | OperatorDatabase (source : sqlx_Error)
  | OperatorPlan (source : string)
  | OperatorPostgres (source : string).

(** [ServiceAccountCommandStatus::requires_issuer_reconciliation]. *)
Definition requires_issuer_reconciliation (self : ServiceAccountCommandStatus) : bool :=
  String.eqb (op_status self) "issuing".

Definition command_status (m : CommandRec) : ServiceAccountCommandStatus := {|
  op_status := m_status m; op_created_at := m_created_at m; op_updated_at := m_updated_at m;
  op_completed_at := m_completed_at m |}.

(** SELECT ... fetched with [fetch_optional]. *)
Definition select_command_status (key : command_key) : Stmt (option ServiceAccountCommandStatus) :=
  λ _ db, Ok (command_status <$> commands db !! key, db).

(** The driver's error inside an access error: this tool adds no operation label. *)
Definition sqlx_source (e : PluginError.t) : sqlx_Error :=
  match e with
  | PluginError.Database _ source => source
  | other => SqlxOther (PluginError.to_string other)
  end.

Section operator.
Context `{Platform}.

Definition inspect_command (prepare : string → string → result unit string)
    (database_url schema caller operation idempotency_key : string) :
    prog (result (option ServiceAccountCommandStatus) ServiceAccountOperatorError) :=
  if negb (valid_caller caller) || negb (valid_authority operation 64)
     || negb (valid_authority idempotency_key 128)
  then Ret (Err InvalidCommandReference) else
  match schema_plan_new schema with
  | Err e => Ret (Err (OperatorPlan e))
  | Ok _ =>
  match prepare database_url schema with
  | Err e => Ret (Err (OperatorPostgres e))
  | Ok _ =>
  pbind (sql (execute_pool "inspect command"
                (select_command_status (caller, operation, idempotency_key))))
    (λ result, Ret (map_err (λ e, OperatorDatabase (sqlx_source e)) result))
  end end.

(** [setup] and [upgrade]: a schema plan, then one operation of the kit on a connection. *)
Definition setup {SchemaOperator SetupOutcome}
    (connect : string → string → result SchemaOperator string)
    (run_setup : SchemaOperator → result SetupOutcome string) (database_url schema : string) :
    result SetupOutcome ServiceAccountOperatorError :=
  let? _ := map_err OperatorPlan (schema_plan_new schema) in
  let? operator := map_err OperatorPostgres (connect database_url schema) in
  map_err OperatorPostgres (run_setup operator).

Definition upgrade {SchemaOperator UpgradeOutcome}
    (connect : string → string → result SchemaOperator string)
    (run_upgrade : SchemaOperator → result UpgradeOutcome string) (database_url schema : string) :
    result UpgradeOutcome ServiceAccountOperatorError :=
  let? _ := map_err OperatorPlan (schema_plan_new schema) in
  let? operator := map_err OperatorPostgres (connect database_url schema) in
  map_err OperatorPostgres (run_upgrade operator).

(** Neither connects for a schema that the plan refuses. *)
Lemma unsafe_schema_refused {S O} connect (run : S → result O string) url schema e :
  schema_plan_new schema = Err e →
  setup connect run url schema = Err (OperatorPlan e)
  ∧ upgrade connect run url schema = Err (OperatorPlan e).
Proof. intros E. unfold setup, upgrade. by rewrite E. Qed.

(** An inspection changes nothing and reports the command's row. *)
Lemma inspect_command_inv w n prepare url schema caller op key db x db' t :
  runs w n (inspect_command prepare url schema caller op key) db x db' t →
  (db' = db ∧ t = [] ∧ ∃ e, x = Err e)
  ∨ (db' = w_others w n db ∧ t = [EvSql db' db']
     ∧ ∀ o, x = Ok o → o = command_status <$> commands db' !! (caller, op, key)).
Proof.
  unfold inspect_command. destruct (_ || _).
  { intros (-> & -> & ->)%runs_ret. left. eauto. }
  destruct (schema_plan_new schema) as [u|e]; [|intros (-> & -> & ->)%runs_ret; left; by eauto].
  destruct (prepare url schema) as [v|e]; [|intros (-> & -> & ->)%runs_ret; left; by eauto].
  unfold sql, runs. simpl. unfold run_tx, execute_pool. simpl.
  destruct (tx_fault (w_tx w n) 0) as [[d [|]]|]; simpl; intros [= <- <- <-]; right;
    (split; [done|]; split; [done|]); intros o Ho; by simplify_eq/=.
Qed.
End operator.
