(* ===== verification/Issuing.v ===== *)
(** * Issuing: a credential is requested at most once, and only for a marked command

    The credential issuer is outside the database: a request to it cannot be rolled back.
    The exchange therefore first commits the status [issuing] and then asks exactly once. *)
From S2P Require Import Prelude Text Platform Contract Secret Config Database Effects.
From S2P Require Import TxLogic Exec Storage Integrity Statements Accounts RateLimit.
From S2P Require Import Commands Invariants Authorization Management Authentication.
From S2P Require Import Endpoint Access Creation Exchange Operator.

Open Scope string_scope.
Open Scope list_scope.
Open Scope Z_scope.

Create HintDb issue_free.

Section issuing.
Context `{Platform}.

Definition issues (t : list event) (r : IssueRequest) : Prop := EvIssue r ∈ t.

(** No path of the program reaches the issuer. *)
Fixpoint issue_free {A} (p : prog A) : Prop :=
  match p with
  | Ret _ => True
  | NowUtc k => ∀ t, issue_free (k t)
  | Getrandom _ k => ∀ r, issue_free (k r)
  | Sql _ k => ∀ r, issue_free (k r)
  | EnsureIdentity _ _ k => ∀ r, issue_free (k r)
  | ReadStatus _ _ k => ∀ r, issue_free (k r)
  | Issue _ _ k => False
  | CheckMembership _ _ k => ∀ r, issue_free (k r)
  | CheckPermission _ _ k => ∀ r, issue_free (k r)
  end.

(** Every path reaches it at most once. *)
Fixpoint issue_once {A} (p : prog A) : Prop :=
  match p with
  | Ret _ => True
  | NowUtc k => ∀ t, issue_once (k t)
  | Getrandom _ k => ∀ r, issue_once (k r)
  | Sql _ k => ∀ r, issue_once (k r)
  | EnsureIdentity _ _ k => ∀ r, issue_once (k r)
  | ReadStatus _ _ k => ∀ r, issue_once (k r)
  | Issue _ _ k => ∀ r, issue_free (k r)
  | CheckMembership _ _ k => ∀ r, issue_once (k r)
  | CheckPermission _ _ k => ∀ r, issue_once (k r)
  end.

Lemma issue_free_bind {A B} (p : prog A) (f : A → prog B) :
  issue_free p → (∀ x, issue_free (f x)) → issue_free (pbind p f).
Proof. intros Hp Hf. induction p; simpl in *; eauto. Qed.

Lemma issue_once_bind_l {A B} (p : prog A) (f : A → prog B) :
  issue_free p → (∀ x, issue_once (f x)) → issue_once (pbind p f).
Proof. intros Hp Hf. induction p; simpl in *; eauto; done. Qed.

Lemma issue_once_bind_r {A B} (p : prog A) (f : A → prog B) :
  issue_once p → (∀ x, issue_free (f x)) → issue_once (pbind p f).
Proof.
  intros Hp Hf. induction p; simpl in *; eauto using issue_free_bind.
  specialize (Hf x). clear Hp. induction (f x); simpl in *; eauto; done.
Qed.

Lemma issue_free_hbind {T A B} (m : Handler T A) (k : A → Handler T B) :
  issue_free m → (∀ x, issue_free (k x)) → issue_free (hbind m k).
Proof. intros Hm Hk. apply issue_free_bind; [done|]. intros [x|e]; simpl; auto. Qed.

Lemma issue_once_hbind_l {T A B} (m : Handler T A) (k : A → Handler T B) :
  issue_free m → (∀ x, issue_once (k x)) → issue_once (hbind m k).
Proof. intros Hm Hk. apply issue_once_bind_l; [done|]. intros [x|e]; simpl; auto. Qed.

Lemma issue_once_hbind_r {T A B} (m : Handler T A) (k : A → Handler T B) :
  issue_once m → (∀ x, issue_free (k x)) → issue_once (hbind m k).
Proof. intros Hm Hk. apply issue_once_bind_r; [done|]. intros [x|e]; simpl; auto. Qed.

Lemma issue_free_finish {T} (h : Handler T T) : issue_free h → issue_free (finish h).
Proof. intros Hh. apply issue_free_bind; [done|]. by intros []. Qed.
Lemma issue_once_finish {T} (h : Handler T T) : issue_once h → issue_once (finish h).
Proof. intros Hh. apply issue_once_bind_r; [done|]. by intros []. Qed.

(** Structural descent to the nodes of a program that does not issue. *)
Ltac free_step :=
  lazymatch goal with
  | |- issue_free (finish _) => apply issue_free_finish
  | |- issue_free (hbind _ _) => apply issue_free_hbind
  | |- issue_free (pbind _ _) => apply issue_free_bind
  | |- issue_free (await _) => apply issue_free_bind
  | |- issue_free (await_ok _) => apply issue_free_bind
  | |- issue_free (await_sql _) => apply issue_free_bind; [apply issue_free_bind|]
  | |- issue_free (ok_ _) => apply issue_free_bind
  | |- issue_free (if ?b then _ else _) => destruct b
  | |- issue_free (match ?x with _ => _ end) => destruct x
  | |- ∀ _, _ => intros
  | |- issue_free (let _ := _ in _) => progress cbv zeta
  | |- issue_free _ => first [exact Logic.I|solve [auto with issue_free]|done|progress simpl]
  end.
Ltac free := repeat free_step.

Lemma claim_command_free caller op key h : issue_free (claim_command caller op key h).
Proof. unfold claim_command. free. Qed.
#[local] Hint Resolve claim_command_free : issue_free.
Lemma record_error_free caller key code : issue_free (record_error caller key code).
Proof. unfold record_error. free. Qed.

#[local] Hint Resolve record_error_free : issue_free.

Lemma runs_issue_free {A} w n (p : prog A) db x db' t r :
  issue_free p → runs w n p db x db' t → ¬ issues t r.
Proof.
  unfold runs, issues. revert n db x db' t. induction p; intros n db y db' t Hp E Hin; simpl in *;
    try done;
    try (match type of E with context [run ?w ?m ?q ?e] => destruct (run w m q e) as [[??]?] eqn:? end;
         injection E as <- <- <-; apply elem_of_cons in Hin as [?|Hin]; [discriminate|eapply H0; [apply Hp|eassumption|exact Hin]]).
  - injection E as <- <- <-. by apply not_elem_of_nil in Hin.
  - destruct (run_tx body (w_tx w n) (w_others w n db)) as [r1 db1].
    destruct (run w (S n) (k r1) db1) as [[y' db2] t'] eqn:E2. injection E as <- <- <-.
    apply elem_of_cons in Hin as [?|Hin]; [discriminate|].
    eapply H0; [apply Hp|exact E2|exact Hin].
Qed.

Definition splits (t : list event) (r : IssueRequest) : Prop :=
  ∃ t1 t2, t = t1 ++ EvIssue r :: t2 ∧ ∀ r', ¬ issues t1 r' ∧ ¬ issues t2 r'.

Lemma split_later e t r : (∀ r', EvIssue r' ≠ e) → splits t r → splits (e :: t) r.
Proof.
  intros He (t1 & t2 & -> & Hno). exists (e :: t1), t2. split; [done|]. intros r'.
  destruct (Hno r') as [H1 H2]. split; [|done].
  intros [Heq|Hin]%elem_of_cons; [by destruct (He r')|done].
Qed.

(** The one request of an execution splits its trace. *)
Lemma runs_issue_once {A} w n (p : prog A) db x db' t r :
  issue_once p → runs w n p db x db' t → issues t r → splits t r.
Proof.
  unfold runs. revert n db x db' t. induction p; intros n db y db' t Hp E Hin; simpl in *;
    [injection E as <- <- <-; by apply not_elem_of_nil in Hin|..].
  all: try (match type of E with context [run_tx ?b ?e ?d] => destruct (run_tx b e d) as [r1 db1] end).
  all: match type of E with context [run ?w ?m ?q ?e] => destruct (run w m q e) as [[??]t'] eqn:Erun end;
    injection E as <- <- <-; apply elem_of_cons in Hin as [Heq|Hin].
  all: try (match goal with Heq : EvIssue _ = _ |- _ => discriminate Heq end).
  all: try (apply split_later; [discriminate|];
    eapply H0; [apply Hp|exact Erun|exact Hin]).
  - injection Heq as ->. exists [], t'. split; [done|]. intros r'.
    split; [by intros ?%not_elem_of_nil|]. by eapply runs_issue_free; [apply Hp|exact Erun].
  - exfalso. by eapply runs_issue_free; [apply Hp|exact Erun|].
Qed.

(** ** The exchange *)

Ltac once_step :=
  lazymatch goal with
  | |- issue_once (finish _) => apply issue_once_finish
  | |- issue_once (hbind (await (Issue _ _ _)) _) => apply issue_once_hbind_r
  | |- issue_once (hbind _ _) => apply issue_once_hbind_l
  | |- issue_once (if ?b then _ else _) => destruct b
  | |- issue_once (match ?x with _ => _ end) => destruct x
  | |- ∀ _, _ => intros
  | |- issue_once (let _ := _ in _) => progress cbv zeta
  | |- issue_once _ => first [exact Logic.I|done|progress simpl]
  | |- issue_free _ => solve [free]
  end.

Lemma exchange_issue_once plugin ctx req : issue_once (exchange_secret plugin ctx req).
Proof. unfold exchange_secret, exchange_issue. repeat once_step. Qed.

(** A branch that no longer issues. *)
Ltac no_issue E Hin :=
  exfalso; eapply runs_issue_free in E; [exact (E Hin)|free].

(** The request [r] is for the account of a credential usable in [d] at [at_time]. *)
Definition issued_for (d : Db) (at_time : time) (r : IssueRequest) : Prop :=
  ∃ cid c a, credentials d !! cid = Some c ∧ accounts d !! c_service_account_id c = Some a
    ∧ usable_at at_time c a ∧ issue_subject r = a_subject a
    ∧ issue_claims r = issue_claims_of (decode_credential cid c a).

(** The trace [t] commits the status change of the command before it issues [r], and [r] is
    for a credential that was usable in the same transaction. *)
Definition marked_before (key : command_key) (r : IssueRequest) (t : list event) : Prop :=
  ∃ d d' m at_time t1 t2, t = t1 ++ EvSql d d' :: t2 ∧ issues t2 r
    ∧ commands d !! key = Some m ∧ m_status m = "reserved"
    ∧ commands d' !! key = Some (issuing at_time m)
    ∧ issued_for d at_time r.

(** Drop the event of a step that does not issue. *)
Ltac skip_own Hin :=
  subst; apply elem_of_cons in Hin as [Hin|Hin]; [discriminate Hin|].
Ltac no_event Hin :=
  subst; exfalso; repeat (apply elem_of_cons in Hin as [Hin|Hin]; [discriminate Hin|]);
  by apply not_elem_of_nil in Hin.

(** A recorded failure ends the handler without issuing. *)
Lemma recorded_no_issue {A T U} w n caller key code (e : U)
    (k : A → Handler (Outcome T U) (Outcome T U)) db x db' t r :
  runs w n (finish (hbind (hbind (await_ok (record_error caller key code))
                             (λ _, return_ (Ok (Err e)))) k)) db x db' t → ¬ issues t r.
Proof.
  intros E Hin. prog_step E as Hs.
  prog_step E as Hrec; subst; apply elem_of_app in Hin as [Hin|Hin];
    try (eapply runs_issue_free in Hrec; [exact (Hrec Hin)|apply record_error_free]).
  - apply step_return in E as (_ & _ & ->). by apply not_elem_of_nil in Hin.
  - by apply not_elem_of_nil in Hin.
Qed.
Lemma returned_no_issue {A R} w n (e : R) (k : A → Handler R R) db x db' t r :
  runs w n (finish (hbind (return_ e) k)) db x db' t → ¬ issues t r.
Proof. intros (_ & _ & ->)%step_return Hin. by apply not_elem_of_nil in Hin. Qed.

Ltac ended E Hin :=
  exfalso; first [exact (recorded_no_issue _ _ _ _ _ _ _ _ _ _ _ _ E Hin)
                 |exact (returned_no_issue _ _ _ _ _ _ _ _ _ E Hin)].

(** The course of an exchange that asked the issuer for [r]: it pruned from [d0] to [d1],
    claimed its free key, marked its command from [d2] to [d3] for the credential [p], and then
    asked. *)
Inductive asks (w : World) (n : nat) (active : ActiveServiceAccount) (ctx : InvocationContext)
    (caller : string) (req : ExchangeServiceAccountSecretRequest)
    (x : Outcome ExchangeServiceAccountSecretResponse ExchangeSecretError.t) (db' : Db)
    (t : list event) (r : IssueRequest) : Prop :=
  | asks_intro intent d0 d1 d2 d3 t1 t2 n' cid id at_time p :
      request_intent_hash req = Ok intent →
      t = EvSql d0 d1 :: t1 ++ EvSql d2 d3 :: t2 → issues t2 r →
      commands (w_others w (S n) d1) !! (caller, EXCHANGE_SECRET_OPERATION,
        exchange_idempotency_key req) = None →
      (respects_claims w → ∃ reserved_at,
         commands d2 !! (caller, EXCHANGE_SECRET_OPERATION, exchange_idempotency_key req)
         = Some (reserved reserved_at intent)) →
      issue_spec caller (exchange_idempotency_key req) cid id at_time d2 (Some p) d3 →
      runs w n' (finish (exchange_issue active ctx caller (exchange_idempotency_key req)
        (receipt_aad caller EXCHANGE_SECRET_OPERATION (exchange_idempotency_key req)) p))
        d3 x db' t2 →
      asks w n active ctx caller req x db' t r.

Lemma exchange_asks w n plugin ctx req db x db' t r :
  runs w n (exchange_secret plugin ctx req) db x db' t → issues t r →
  ∃ active caller, active_cell plugin = Some active
    ∧ allowed_caller (authentication_callers (config active)) ctx = Some caller
    ∧ negb (valid_idempotency_key (exchange_idempotency_key req))
      || is_empty (exchange_secret_text req)
      || negb (len (exchange_secret_text req) <=? 512) = false
    ∧ asks w n active ctx caller req x db' t r.
Proof.
  intros E Hin. unfold exchange_secret in E. cbv zeta in E.
  prog_step E as Hact; [no_event Hin|]. apply ok_or_Ok in Hact.
  prog_case E as Hcaller; [|no_issue E Hin].
  prog_case E as Hv; [no_issue E Hin|].
  do 2 eexists. do 3 (split; [done|]).
  prog_step E as Hp; [|no_event Hin]. skip_own Hin.
  prog_step E as Hi; [no_event Hin|]. rewrite map_err_Ok in Hi.
  prog_step E as Hclaim.
  2: { exfalso. subst. rewrite app_nil_r in Hin.
       eapply runs_issue_free in Hclaim; [exact (Hclaim Hin)|apply claim_command_free]. }
  subst. apply elem_of_app in Hin as [Hin|Hin].
  { exfalso. eapply runs_issue_free in Hclaim; [exact (Hclaim Hin)|apply claim_command_free]. }
  apply claim_command_inv in Hclaim as [(-> & Hfree & -> & ->)|(m & _ & _ & _ & Hm & _)].
  2: { prog_case E as Hcl; [by destruct (claim_of_existing _ _ (eq_sym Hm))|no_issue E Hin..]. }
  cbn [length] in E.
  prog_step E as Hs. skip_own Hin. prog_step E as Hrate; [|no_event Hin]. skip_own Hin.
  prog_case E as Hadm; [no_issue E Hin|].
  destruct (credential_id _) as [cid|] in E.
  2: { prog_step E as Hs. simpl in E. no_issue E Hin. }
  prog_step E as Hload; [|no_event Hin]. skip_own Hin.
  apply run_pool_Ok in Hload. injection Hload as <- <-.
  prog_case E as Hu; [|no_issue E Hin]. prog_step E as Hs. skip_own Hin.
  destruct (w_status w _ _) as [st|[[]|]] in E; [|ended E Hin..].
  destruct (String.eqb _ _) in E; [|ended E Hin].
  destruct (status_status st) in E; [|ended E Hin].
  prog_step E as Hs. prog_step E as Hs. skip_own Hin.
  prog_step E as Hmark; [|no_event Hin]. skip_own Hin.
  apply mark_exchange_issuing_refines in Hmark. prog_case E as Hc; [|no_issue E Hin]. subst.
  apply reserve_rate_slot_commands in Hrate.
  eapply asks_intro with (t1 := [_; _; _; _; _; _]); [exact Hi|reflexivity|exact Hin|exact Hfree| |exact Hmark|exact E].
  intros Hw. eexists. do 2 (apply Hw; [|done]). rewrite Hrate. apply Hw; [|done].
  apply lookup_insert_eq.
Qed.

(** The issuer may have acted, and the plug-in cannot tell. *)
Definition ambiguous (answer : result IssuedSession (InvocationError IssueError)) : bool :=
  match answer with Err (Runtime _) | Err (Domain (IssueOther _)) => true | _ => false end.

(** What the issuer is asked, and what happens when its answer is unknown. *)
Lemma exchange_issue_inv w n active ctx caller key aad p db x db' t r :
  runs w n (finish (exchange_issue active ctx caller key aad p)) db x db' t → issues t r →
  issue_subject r = k_subject p ∧ issue_claims r = issue_claims_of p
  ∧ ((∀ j, ambiguous (w_issue w j r) = true) → (∃ f, x = Err f) ∧ db' = db).
Proof.
  intros E Hin. unfold exchange_issue in E. cbv zeta in E.
  prog_step E as Hs. skip_own Hin. prog_case E as Hexp; [no_issue E Hin|].
  prog_step E as Htext; [no_event Hin|]. prog_step E as Hs. subst.
  apply elem_of_cons in Hin as [[= ->]|Hin].
  2: { exfalso. eapply runs_issue_free in E; [exact (E Hin)|free]. }
  do 2 (split; [done|]). intros Hamb.
  match type of E with context [w_issue w ?j ?r] => specialize (Hamb j);
    destruct (w_issue w j r) as [sess|[[]|]] end; try discriminate Hamb.
  all: prog_step E as Hr; subst; split; [by eexists|done].
Qed.

Lemma exchange_issue_marked w n plugin ctx req db x db' t r :
  runs w n (exchange_secret plugin ctx req) db x db' t → issues t r →
  ∃ caller, caller_instance ctx = Some caller
    ∧ marked_before (caller, EXCHANGE_SECRET_OPERATION, exchange_idempotency_key req) r t.
Proof.
  intros E Hin. destruct (exchange_asks _ _ _ _ _ _ _ _ _ _ E Hin)
    as (active & caller & _ & [Hc _]%allowed_caller_Some & _ & A).
  exists caller. split; [done|].
  destruct A as [intent d0 d1 d2 d3 t1 t2 n' cid id at_time p _ -> Hin2 _ _ Hmark E2].
  destruct (exchange_issue_inv _ _ _ _ _ _ _ _ _ _ _ _ _ E2 Hin2) as (Hsub & Hcl & _).
  inversion Hmark as [|cr a m Hcr Hid Ha Hus Hm Hst]. subst.
  eexists _, _, m, _, (_ :: t1), t2. split; [done|]. split; [done|].
  split; [exact Hm|]. split; [done|]. split; [apply lookup_insert_eq|]. by exists cid, cr, a.
Qed.

(** C8: an exchange asks the credential issuer at most once, and before it does, the status
    issuing of its command was committed by a transaction in which the credential was usable;
    the request names the subject and the claims of that credential's account. *)
Theorem issued_at_most_once_after_the_mark w n plugin ctx req db x db' t r :
  runs w n (exchange_secret plugin ctx req) db x db' t → issues t r →
  splits t r
  ∧ ∃ caller, caller_instance ctx = Some caller
    ∧ marked_before (caller, EXCHANGE_SECRET_OPERATION, exchange_idempotency_key req) r t.
Proof.
  intros E Hin. split; [|by eapply exchange_issue_marked].
  eapply runs_issue_once; [apply exchange_issue_once|exact E|exact Hin].
Qed.


(** ** An issuer that does not answer *)

Lemma exchange_ambiguous_inv w n plugin ctx req db x db' t r :
  respects_claims w → (∀ j, ambiguous (w_issue w j r) = true) →
  runs w n (exchange_secret plugin ctx req) db x db' t → issues t r →
  ∃ active caller intent at_time reserved_at f,
    active_cell plugin = Some active
    ∧ allowed_caller (authentication_callers (config active)) ctx = Some caller
    ∧ negb (valid_idempotency_key (exchange_idempotency_key req))
      || is_empty (exchange_secret_text req)
      || negb (len (exchange_secret_text req) <=? 512) = false
    ∧ request_intent_hash req = Ok intent ∧ x = Err f
    ∧ commands db' !! (caller, EXCHANGE_SECRET_OPERATION, exchange_idempotency_key req)
      = Some (issuing at_time (reserved reserved_at intent)).
Proof.
  intros Hw Hamb E Hin. destruct (exchange_asks _ _ _ _ _ _ _ _ _ _ E Hin)
    as (active & caller & Hact & Hall & Hv & A).
  destruct A as [intent d0 d1 d2 d3 t1 t2 n' cid id at_time p Hi -> Hin2 _ Hres Hmark E2].
  destruct (exchange_issue_inv _ _ _ _ _ _ _ _ _ _ _ _ _ E2 Hin2) as (_ & _ & [[f ->] ->]); [done|].
  destruct (Hres Hw) as [t0 Hrow]. inversion Hmark as [|cr a m _ _ _ _ Hm _]. subst.
  unfold EXCHANGE_SECRET_OPERATION in Hrow. rewrite Hrow in Hm. injection Hm as <-.
  exists active, caller, intent, at_time, t0, f. do 5 (split; [done|]). apply lookup_insert_eq.
Qed.

(** ** Retries of an exchange *)

(** Retries by [caller], of the same request, one after the other: in any worlds, by plug-ins of
    any configuration that lists the caller. Between them and while they run, the other tasks
    leave open commands alone. *)
Inductive retries (caller : string) (req : ExchangeServiceAccountSecretRequest) :
    Db → list (Outcome ExchangeServiceAccountSecretResponse ExchangeSecretError.t) →
    list event → Db → Prop :=
  | retries_nil db : retries caller req db [] [] db
  | retries_others db d xs t db' :
      (∀ key m, commands db !! key = Some m → open_status (m_status m) = true →
                commands d !! key = Some m) →
      retries caller req d xs t db' → retries caller req db xs t db'
  | retries_again w n plugin active ctx db x d t xs t' db' :
      active_cell plugin = Some active →
      allowed_caller (authentication_callers (config active)) ctx = Some caller →
      respects_claims w →
      runs w n (exchange_secret plugin ctx req) db x d t →
      retries caller req d xs t' db' → retries caller req db (x :: xs) (t ++ t') db'.

(** An open command answers a retry with operation in progress. *)
Lemma open_row_answers w n plugin active ctx caller req intent m db x db' t :
  let key := (caller, EXCHANGE_SECRET_OPERATION, exchange_idempotency_key req) in
  active_cell plugin = Some active →
  allowed_caller (authentication_callers (config active)) ctx = Some caller →
  negb (valid_idempotency_key (exchange_idempotency_key req))
    || is_empty (exchange_secret_text req)
    || negb (len (exchange_secret_text req) <=? 512) = false →
  request_intent_hash req = Ok intent → m_intent_hash m = intent →
  m_status m = "issuing" → m_completed_at m = None →
  respects_claims w → commands db !! key = Some m →
  runs w n (exchange_secret plugin ctx req) db x db' t →
  answered_from_row key m (Err ExchangeSecretError.OperationInProgress) w db x db' t.
Proof.
  intros key Hact Hall Hvalid Hintent Hmi Hst Hopen Hw Hm E.
  unfold exchange_secret, Authorization.active in E. rewrite Hact in E. cbn [ok_or] in E.
  cbv zeta in E. rewrite hbind_ok, Hall, Hvalid in E. cbn [negb orb] in E.
  rewrite Hintent in E. cbn [map_err] in E.
  eapply retry_answers; [|exact Hm|exact Hmi| | |exact E].
  - apply open_row_held; [done|]. by rewrite Hst.
  - unfold prunable. by rewrite Hopen.
  - unfold claim_of. by rewrite Hmi, String.eqb_refl, Hst.
Qed.

Lemma retries_in_progress caller req intent m db xs t db' :
  let key := (caller, EXCHANGE_SECRET_OPERATION, exchange_idempotency_key req) in
  negb (valid_idempotency_key (exchange_idempotency_key req))
    || is_empty (exchange_secret_text req)
    || negb (len (exchange_secret_text req) <=? 512) = false →
  request_intent_hash req = Ok intent → m_intent_hash m = intent →
  m_status m = "issuing" → m_completed_at m = None →
  retries caller req db xs t db' → commands db !! key = Some m →
  Forall (λ x, x = Ok (Err ExchangeSecretError.OperationInProgress) ∨ ∃ f, x = Err f) xs
  ∧ Forall quiet_access t ∧ commands db' !! key = Some m.
Proof.
  intros key Hvalid Hintent Hmi Hst Hopen Hr.
  induction Hr as [db|db d xs t db' Hkeep _ IH|w n plugin active ctx db x d t xs t' db' Hact Hall Hw E _ IH];
    intros Hm; [done|apply IH, Hkeep; [done|by rewrite Hst]|].
  eapply open_row_answers in E as [Hrow Hq Hx _]; [|done..].
  destruct (IH Hrow) as (Hxs & Hqs & Hlast). split; [by constructor|]. split; [|done].
  by apply Forall_app.
Qed.

(** C11: when an exchange, while other tasks leave open commands alone, asked the issuer and the
    answer is unknown (a runtime failure or an unknown error), it fails; and in any sequence of
    retries of the same request by the same caller - with failures, against restarted plug-ins
    of any configuration that lists the caller, and with other tasks that leave open commands
    alone - each retry is answered with operation in progress or fails at runtime, and does
    nothing but accesses that leave accounts, credentials and rate limits as they are, so that
    neither directory nor issuer is asked again. A retry without failures and rivals is answered
    with operation in progress, and an operator's inspection of the command then reports that
    the issuer needs reconciliation. *)
Theorem unanswered_exchanges_are_never_retried w n plugin ctx caller req db x db1 t r :
  respects_claims w → (∀ j, ambiguous (w_issue w j r) = true) →
  caller_instance ctx = Some caller →
  runs w n (exchange_secret plugin ctx req) db x db1 t → issues t r →
  (∃ f, x = Err f)
  ∧ ∀ xs t' db2, retries caller req db1 xs t' db2 →
      Forall (λ y, y = Ok (Err ExchangeSecretError.OperationInProgress) ∨ ∃ f, y = Err f) xs
      ∧ Forall quiet_access t'
      (* an uneventful retry does not fail *)
      ∧ (∀ w' n' plugin' active' ctx' y db3 t3, calm w' → schema_ok db2 →
           active_cell plugin' = Some active' →
           allowed_caller (authentication_callers (config active')) ctx' = Some caller →
           runs w' n' (exchange_secret plugin' ctx' req) db2 y db3 t3 →
           y = Ok (Err ExchangeSecretError.OperationInProgress))
      (* an operator sees that the issuer needs reconciliation *)
      ∧ (∀ w' k prepare url schema status db3 t3, respects_claims w' →
           runs w' k (inspect_command prepare url schema caller EXCHANGE_SECRET_OPERATION
                        (exchange_idempotency_key req)) db2 (Ok status) db3 t3 →
           ∃ s, status = Some s ∧ requires_issuer_reconciliation s = true).
Proof.
  intros Hw Hamb Hc E Hin.
  destruct (exchange_ambiguous_inv _ _ _ _ _ _ _ _ _ _ Hw Hamb E Hin)
    as (active & c & intent & at_time & reserved_at & f & Hact & Hall & Hvalid & Hintent & -> & Hm).
  apply allowed_caller_Some in Hall as [Hc' _]. rewrite Hc in Hc'. injection Hc' as <-.
  split; [by eexists|]. intros xs t' db2 Hr.
  eapply (retries_in_progress _ _ _ (issuing at_time (reserved reserved_at intent)))
    in Hr as (Hxs & Hq & Hrow); [|done..].
  do 2 (split; [done|]). split.
  - intros w' n' plugin' active' ctx' y db3 t3 Hcalm Hdb Hact' Hall' E'.
    assert (respects_claims w') as Hw' by (intros k d key m Hd _; by rewrite (proj2 Hcalm)).
    eapply (open_row_answers _ _ _ _ _ _ _ _ (issuing at_time (reserved reserved_at intent)))
      in E' as [_ _ _ Hanswer]; [by apply Hanswer|done..].
  - intros w' k prepare url schema status db3 t3 Hw' Hop.
    apply inspect_command_inv in Hop as [(_ & _ & e & [=])|(-> & _ & Hs)].
    specialize (Hs _ eq_refl). rewrite (Hw' k _ _ _ Hrow) in Hs by done. subst status. by eexists.
Qed.
End issuing.
