(* ===== verification/Redaction.v ===== *)
(** * Redaction: what [Debug] prints

    Every type that holds a secret, a credential, a verifier or key material implements
    [std::fmt::Debug] by hand.  An implementation is modelled by the calls it makes on the
    formatter, so that what holds of them holds of the compact and of the pretty form. *)
From S2P Require Import Prelude Text Platform Contract Secret Config Database Effects Storage.
From S2P Require Import Authorization.

Open Scope string_scope.
Open Scope list_scope.
Open Scope Z_scope.

(** ** The formatter

    [debug_struct] and [debug_tuple] with their fields, ended by [finish] or by
    [finish_non_exhaustive]; [write_str]; and the values that the standard library prints. *)
Inductive formatted :=
  | WriteStr (s : string)
  | DebugStr (s : string)
  | DebugBool (b : bool)
  | DebugInteger (z : Z)
  | DebugTime (t : time)
  | DebugTuple (name : string) (fields : list formatted)
  | DebugStruct (name : string) (fields : list (string * formatted)) (exhaustive : bool).

Class Debug (A : Type) := fmt : A → formatted.

#[export] Instance fmt_string : Debug string := DebugStr.
#[export] Instance fmt_bool : Debug bool := DebugBool.
#[export] Instance fmt_integer : Debug Z := DebugInteger.
#[export] Instance fmt_option {A} `{!Debug A} : Debug (option A) := λ o,
  match o with Some x => DebugTuple "Some" [fmt x] | None => WriteStr "None" end.
#[export] Instance fmt_result {A E} `{!Debug A, !Debug E} : Debug (result A E) := λ r,
  match r with Ok x => DebugTuple "Ok" [fmt x] | Err e => DebugTuple "Err" [fmt e] end.
Definition redacted_text : formatted := fmt "<redacted>".

(** ** The contracts *)

#[export] Instance fmt_status : Debug ServiceAccountStatus := λ s,
  match s with Active => WriteStr "Active" | Revoked => WriteStr "Revoked" end.

#[export] Instance fmt_summary : Debug ServiceAccountSummary := λ s,
  DebugStruct "ServiceAccountSummary" [
    ("created_at", fmt (s_created_at s));
    ("credential_expires_at", fmt (s_credential_expires_at s));
    ("name", fmt (s_name s));
    ("organization_id", fmt (s_organization_id s));
    ("revision", fmt (s_revision s));
    ("revoked_at", fmt (s_revoked_at s));
    ("rotated_at", fmt (s_rotated_at s));
    ("service_account_id", fmt (s_service_account_id s));
    ("status", fmt (s_status s));
    ("subject", fmt (s_subject s))] true.

#[export] Instance fmt_create_response : Debug CreateServiceAccountResponse := λ r,
  DebugStruct "CreateServiceAccountResponse" [
    ("account", fmt (created_account r));
    ("created", fmt (created r));
    ("secret", redacted_text)] true.

#[export] Instance fmt_rotate_response : Debug RotateServiceAccountSecretResponse := λ r,
  DebugStruct "RotateServiceAccountSecretResponse" [
    ("account", fmt (rotated_account r));
    ("rotated", fmt (rotated r));
    ("secret", redacted_text)] true.

#[export] Instance fmt_exchange_request : Debug ExchangeServiceAccountSecretRequest := λ r,
  DebugStruct "ExchangeServiceAccountSecretRequest" [
    ("idempotency_key", fmt (exchange_idempotency_key r));
    ("secret", redacted_text)] true.

#[export] Instance fmt_exchange_response : Debug ExchangeServiceAccountSecretResponse := λ r,
  DebugStruct "ExchangeServiceAccountSecretResponse" [
    ("credential", redacted_text);
    ("expires_at", fmt (x_expires_at r));
    ("organization_id", fmt (x_organization_id r));
    ("service_account_id", fmt (x_service_account_id r));
    ("session_id", fmt (x_session_id r));
    ("subject", fmt (x_subject r))] true.

(** ** The plug-in *)

#[export] Instance fmt_claim : Debug CommandClaim := λ c,
  match c with
  | Claimed => WriteStr "Claimed"
  | CompletedSuccess _ _ => DebugStruct "CompletedSuccess" [("receipt", redacted_text)] true
  | CompletedError code => DebugTuple "CompletedError" [fmt code]
  | Conflict => WriteStr "Conflict"
  | InProgress => WriteStr "InProgress"
  end.

#[export] Instance fmt_credential_row : Debug CredentialRow := λ k,
  DebugStruct "CredentialRow" [
    ("credential_id", fmt (k_credential_id k));
    ("service_account_id", fmt (k_service_account_id k));
    ("organization_id", fmt (k_organization_id k));
    ("subject", fmt (k_subject k));
    ("account_status", fmt (k_account_status k));
    ("verifier", redacted_text);
    ("valid_from", DebugTime (k_valid_from k));
    ("valid_until", DebugTime (k_valid_until k));
    ("revoked_at", match k_revoked_at k with
                   | Some t => DebugTuple "Some" [DebugTime t]
                   | None => WriteStr "None"
                   end)] true.

(** The cipher is its key, a byte string: no instance, or every string would print like this. *)
Definition fmt_receipt_cipher (_ : ReceiptCipher) : formatted := WriteStr "ReceiptCipher(<redacted>)".

#[export] Instance fmt_credential_secret : Debug CredentialSecret := λ c,
  DebugStruct "CredentialSecret" [
    ("credential_id", fmt (cs_credential_id c)); ("wire", redacted_text)] true.

Section plugin.
Context `{Platform}.

(** The schema name belongs to the connection pool. *)
Definition fmt_active (schema : string) (a : ActiveServiceAccount) : formatted :=
  DebugStruct "ActiveServiceAccount" [
    ("schema", fmt schema);
    ("directory_provider", fmt (directory_provider (config a)));
    ("pepper", redacted_text);
    ("receipt_cipher", fmt_receipt_cipher (receipt_cipher a));
    ("dummy_verifier", redacted_text)] false.

(** The configuration belongs to the instance, active or not. *)
Definition fmt_plugin (configured : ServiceAccountConfig) (p : ServiceAccountPlugin) : formatted :=
  DebugStruct "ServiceAccountPlugin" [
    ("active", fmt (match active_cell p with Some _ => true | None => false end));
    ("management_caller_count", fmt (Z.of_nat (length (management_callers configured))));
    ("authentication_caller_count", fmt (Z.of_nat (length (authentication_callers configured))))]
    false.

(** ** Redaction *)

(** Two values that differ at most in what must not be printed. *)
Class Confidential (A : Type) := same_public : A → A → Prop.
Arguments same_public {A _} _ _.

#[export] Instance create_response_confidential : Confidential CreateServiceAccountResponse := λ r s,
  created_account r = created_account s ∧ created r = created s.
#[export] Instance rotate_response_confidential : Confidential RotateServiceAccountSecretResponse := λ r s,
  rotated_account r = rotated_account s ∧ rotated r = rotated s.
#[export] Instance exchange_request_confidential : Confidential ExchangeServiceAccountSecretRequest := λ r s,
  exchange_idempotency_key r = exchange_idempotency_key s.
#[export] Instance exchange_response_confidential : Confidential ExchangeServiceAccountSecretResponse := λ r s,
  (x_expires_at r, x_organization_id r, x_service_account_id r, x_session_id r, x_subject r)
  = (x_expires_at s, x_organization_id s, x_service_account_id s, x_session_id s, x_subject s).
#[export] Instance claim_confidential : Confidential CommandClaim := λ c d,
  match c, d with CompletedSuccess _ _, CompletedSuccess _ _ => True | _, _ => c = d end.
#[export] Instance credential_row_confidential : Confidential CredentialRow := λ k l,
  ∃ verifier, l = {|
    k_credential_id := k_credential_id k; k_service_account_id := k_service_account_id k;
    k_organization_id := k_organization_id k; k_subject := k_subject k;
    k_account_status := k_account_status k; k_verifier := verifier;
    k_valid_from := k_valid_from k; k_valid_until := k_valid_until k;
    k_revoked_at := k_revoked_at k |}.
#[export] Instance credential_secret_confidential : Confidential CredentialSecret := λ c d,
  cs_credential_id c = cs_credential_id d.
#[export] Instance result_confidential {A E} `{!Confidential A} : Confidential (result A E) := λ r s,
  match r, s with Ok x, Ok y => same_public x y | Err e, Err f => e = f | _, _ => False end.

(** The output tells exactly the public part. *)
Class Redacts (A : Type) `{!Confidential A, !Debug A} : Prop :=
  redacts (x y : A) : fmt x = fmt y ↔ same_public x y.

#[export] Instance fmt_string_inj : Inj (=) (=) (fmt (A := string)).
Proof. intros x y E. by injection E. Qed.
#[export] Instance fmt_bool_inj : Inj (=) (=) (fmt (A := bool)).
Proof. intros x y E. by injection E. Qed.
#[export] Instance fmt_option_inj {A} `{!Debug A, !Inj (=) (=) (fmt (A := A))} :
  Inj (=) (=) (fmt (A := option A)).
Proof. intros [x|] [y|] E; [|done..]. injection E as ->%(inj fmt). done. Qed.
#[export] Instance fmt_status_inj : Inj (=) (=) (fmt (A := ServiceAccountStatus)).
Proof. by intros [] []. Qed.

(** What two equal outputs say about their fields. *)
Ltac read_output E :=
  injection E; clear E; intros;
  repeat match goal with H : fmt _ = fmt _ |- _ => apply (inj fmt) in H end; subst.

#[export] Instance fmt_summary_inj : Inj (=) (=) (fmt (A := ServiceAccountSummary)).
Proof. intros [] [] E. by read_output E. Qed.

#[export] Instance create_response_redacts : Redacts CreateServiceAccountResponse.
Proof.
  intros r s. split; [|destruct r, s; intros [Ha Hc]; simpl in *; by subst].
  destruct r as [[] ? ?], s as [[] ? ?]. intros E. read_output E. by repeat split.
Qed.
#[export] Instance rotate_response_redacts : Redacts RotateServiceAccountSecretResponse.
Proof.
  intros r s. split; [|destruct r, s; intros [Ha Hc]; simpl in *; by subst].
  destruct r as [[] ? ?], s as [[] ? ?]. intros E. read_output E. by repeat split.
Qed.
#[export] Instance exchange_request_redacts : Redacts ExchangeServiceAccountSecretRequest.
Proof.
  intros [] []. split; [intros E; read_output E; by repeat split|]. intros Hk.
  unfold same_public, exchange_request_confidential in Hk. simpl in *. by subst.
Qed.
#[export] Instance exchange_response_redacts : Redacts ExchangeServiceAccountSecretResponse.
Proof. intros [] []. split; [intros E; read_output E; by repeat split|]. intros [=]. simpl in *. by subst. Qed.
#[export] Instance claim_redacts : Redacts CommandClaim.
Proof.
  intros [] []; split; try done; [intros E; read_output E; by repeat split|]. by intros [= ->].
Qed.
#[export] Instance credential_row_redacts : Redacts CredentialRow.
Proof.
  intros [] []. split; [|by intros [v ->]]. intros E.
  assert (k_revoked_at = k_revoked_at0) as Hr.
  { injection E. intros Hr _ _ _ _ _ _. by destruct k_revoked_at, k_revoked_at0; simplify_eq/=. }
  read_output E. by eexists.
Qed.
#[export] Instance credential_secret_redacts : Redacts CredentialSecret.
Proof.
  intros [] []. split; [intros E; read_output E; by repeat split|]. intros Hk.
  unfold same_public, credential_secret_confidential in Hk. simpl in *. by subst.
Qed.

(** The answers of a handler, as a log line would print them. *)
#[export] Instance result_redacts {A E} `{Redacts A, !Debug E, !Inj (=) (=) (fmt (A := E))} :
  Redacts (result A E).
Proof.
  intros [x|e] [y|f]; try done; unfold same_public, result_confidential.
  - rewrite <-(redacts x y). split; intros E1; [by injection E1|]. unfold fmt, fmt_result. by rewrite E1.
  - split; [intros E1; injection E1; by intros ->%(inj fmt)|by intros ->].
Qed.

(** C33: two values of a secret-bearing type print the same Debug output exactly when they agree
    on everything but the secret, credential, verifier, key material or receipt; the same holds
    for the answers of create, rotate_secret and exchange_secret as a whole, and the plug-in
    prints only whether it is active and how many callers are configured. *)
Theorem debug_output_hides_secrets {E F} `{!Debug E, !Debug F}
    `{!Inj (=) (=) (fmt (A := E)), !Inj (=) (=) (fmt (A := F))} :
  Redacts (result (result CreateServiceAccountResponse E) F)
  ∧ Redacts (result (result RotateServiceAccountSecretResponse E) F)
  ∧ Redacts (result (result ExchangeServiceAccountSecretResponse E) F)
  ∧ Redacts ExchangeServiceAccountSecretRequest
  ∧ Redacts CommandClaim ∧ Redacts CredentialRow ∧ Redacts CredentialSecret
  ∧ (∀ schema schema' a b, fmt_active schema a = fmt_active schema' b ↔
       schema = schema' ∧ directory_provider (config a) = directory_provider (config b))
  ∧ (∀ configured configured' p q, fmt_plugin configured p = fmt_plugin configured' q ↔
       (is_Some (active_cell p) ↔ is_Some (active_cell q))
       ∧ length (management_callers configured) = length (management_callers configured')
       ∧ length (authentication_callers configured) = length (authentication_callers configured')).
Proof.
  split_and!; try apply _.
  - intros schema schema' a b. split; [intros Eq; by read_output Eq|].
    intros [-> Hd]. unfold fmt_active. by rewrite Hd.
  - intros configured configured' p q. unfold fmt_plugin. split.
    + intros Eq. read_output Eq. split_and!; try lia.
      by destruct (active_cell p), (active_cell q).
    + intros (Ha & -> & ->).
      destruct (active_cell p) as [a|], (active_cell q) as [b|]; try done; exfalso.
      * by destruct (proj1 Ha (ex_intro _ a eq_refl)).
      * by destruct (proj2 Ha (ex_intro _ b eq_refl)).
Qed.
End plugin.
