(* ===== verification/Build.v ===== *)
(** * Build: the build scripts' normal form of JSON schemas ([build.rs] of both contract crates)

    The build compares the schemas that the contract source generates with the committed ones,
    after removing two kinds of redundant members.  The members of an object are kept here in a
    list; their order carries no meaning ([serde_json]'s removal may change it). *)
From S2P Require Import Prelude Text Platform Contract.

Open Scope string_scope.
Open Scope list_scope.
Open Scope Z_scope.
Open Scope result_scope.

(** ** [serde_json::Map] and [serde_json::Value] *)

(** [object.get(name)]. *)
Definition member (name : string) (object : list (string * json)) : option json :=
  snd <$> List.find (λ p, String.eqb p.1 name) object.
(** [object.remove(name)]. *)
Definition remove_member (name : string) (object : list (string * json)) : list (string * json) :=
  List.filter (λ p, negb (String.eqb p.1 name)) object.
(** [Value::is_string]. *)
Definition is_string (value : json) : bool := match value with JString _ => true | _ => false end.

(** ** [build.rs] *)

(** The two tests of [normalize_schema] on an object. *)
Definition open_object (object : list (string * json)) : bool :=
  match member "additionalProperties" object with Some (JBool true) => true | _ => false end.
Definition empty_properties (object : list (string * json)) : bool :=
  match member "properties" object with Some (JObject []) => true | _ => false end.
Definition string_enum (object : list (string * json)) : bool :=
  match member "enum" object with Some (JArray values) => forallb is_string values | _ => false end.
Definition string_type (object : list (string * json)) : bool :=
  match member "type" object with Some (JString s) => String.eqb s "string" | _ => false end.

Fixpoint normalize_schema (value : json) : json :=
  match value with
  | JObject object =>
      let object := map (λ p, let '(key, value) := p in (key, normalize_schema value)) object in
      let object := if open_object object && empty_properties object
                    then remove_member "properties" object else object in
      let object := if string_enum object && string_type object
                    then remove_member "type" object else object in
      JObject object
  | JArray values => JArray (map normalize_schema values)
  | other => other
  end.

(** [lenso_contract_authoring::CapabilitySnapshot], the part that the scripts change. *)
Record OperationSnapshot := {
  operation_name : string;
  request_schema : json; response_schema : json; domain_error_schema : json }.
Record CapabilitySnapshot := { snapshot_id : string; operations : list OperationSnapshot }.

Definition normalize_snapshot (snapshot : CapabilitySnapshot) : CapabilitySnapshot := {|
  snapshot_id := snapshot_id snapshot;
  operations := map (λ operation, {|
    operation_name := operation_name operation;
    request_schema := normalize_schema (request_schema operation);
    response_schema := normalize_schema (response_schema operation);
    domain_error_schema := normalize_schema (domain_error_schema operation) |})
    (operations snapshot) |}.

(** The code generator works on the files of the crate. *)
Class ContractCodegen (Files : Type) := {
  write_source_snapshot : CapabilitySnapshot → Files → result Files string;
  check_source_snapshot : CapabilitySnapshot → Files → result unit string;
  check_projection : Files → result unit string }.

(** [main]: a failure is the panic's message.  [update] is
    [LENSO_UPDATE_CONTRACT_SNAPSHOT]'s presence. *)
Definition build_main {Files} `{!ContractCodegen Files} (title : string) (source : CapabilitySnapshot)
    (update : bool) (files : Files) : result Files string :=
  let snapshot := normalize_snapshot source in
  if update then
    map_err (λ error, "failed to update " +:+ title +:+ " snapshot: " +:+ error)
      (write_source_snapshot snapshot files)
  else
    let? _ := map_err (λ error, title +:+ " Descriptor or Schemas are stale: " +:+ error)
                (check_source_snapshot snapshot files) in
    let? _ := map_err (λ error, title +:+ " Rust projection is stale: " +:+ error)
                (check_projection files) in
    Ok files.

(** The scripts of the two crates: the same functions, each with its title. *)
Definition management_build {Files} `{!ContractCodegen Files} := build_main (Files := Files) "Service Account".
Definition auth_normalize_schema := normalize_schema.
Definition auth_normalize_snapshot := normalize_snapshot.
Definition authentication_build {Files} `{!ContractCodegen Files} :=
  build_main (Files := Files) "Service Account Auth".

(** ** Normal forms *)

Fixpoint normal (value : json) : Prop :=
  match value with
  | JObject object =>
      foldr (λ p P, (let '(_, v) := p in normal v) ∧ P) True object
      ∧ open_object object && empty_properties object = false
      ∧ string_enum object && string_type object = false
  | JArray values => foldr (λ v P, normal v ∧ P) True values
  | _ => True
  end.

Section json_induction.
Context (P : json → Prop).
Context (Hleaf : ∀ v, (∀ l, v ≠ JArray l) → (∀ m, v ≠ JObject m) → P v).
Context (Harray : ∀ l, Forall P l → P (JArray l)).
Context (Hobject : ∀ m, Forall (λ p, P p.2) m → P (JObject m)).

Fixpoint json_induction (v : json) : P v.
Proof.
  destruct v as [|b|r|s|l|m]; [by apply Hleaf..|apply Harray|apply Hobject].
  - induction l as [|v l IH]; constructor; [apply json_induction|exact IH].
  - induction m as [|[k v] m IH]; constructor; [apply json_induction|exact IH].
Defined.
End json_induction.

Definition normalized (p : string * json) : string * json :=
  let '(key, value) := p in (key, normalize_schema value).

Lemma member_map name m : member name (map normalized m) = normalize_schema <$> member name m.
Proof.
  unfold member. induction m as [|[k v] m IH]; [done|]. simpl. by destruct (String.eqb k name).
Qed.
Lemma member_remove name other m :
  member name (remove_member other m) = if String.eqb name other then None else member name m.
Proof.
  unfold member, remove_member. destruct (String.eqb_spec name other) as [->|Hne];
    (induction m as [|[k v] m IH]; [done|]); simpl.
  - destruct (String.eqb_spec k other) as [|Hk]; simpl; [done|].
    by rewrite (proj2 (String.eqb_neq k other) Hk).
  - destruct (String.eqb_spec k other) as [->|]; simpl.
    + rewrite IH. by rewrite (proj2 (String.eqb_neq other name)) by done.
    + by destruct (String.eqb k name).
Qed.
Lemma Forall_remove (Q : string * json → Prop) name m : Forall Q m → Forall Q (remove_member name m).
Proof.
  induction 1 as [|p m Hp Hm IH]; [constructor|]. unfold remove_member. simpl.
  destruct (negb _); [by constructor|done].
Qed.
Lemma normal_members m :
  foldr (λ p P, (let '(_, v) := p in normal v) ∧ P) True m
  ↔ Forall (λ p : string * json, normal p.2) m.
Proof. induction m as [|[k v] m IH]; [done|]. simpl. by rewrite IH, Forall_cons. Qed.
Lemma normal_values l : foldr (λ v P, normal v ∧ P) True l ↔ Forall normal l.
Proof. induction l as [|v l IH]; [done|]. simpl. by rewrite IH, Forall_cons. Qed.

(** The two removals of [normalize_schema]. *)
Definition stripped (m : list (string * json)) : list (string * json) :=
  let m1 := if open_object m && empty_properties m then remove_member "properties" m else m in
  if string_enum m1 && string_type m1 then remove_member "type" m1 else m1.

Lemma normalize_object m : normalize_schema (JObject m) = JObject (stripped (map normalized m)).
Proof. done. Qed.

Lemma stripped_normal m :
  open_object (stripped m) && empty_properties (stripped m) = false
  ∧ string_enum (stripped m) && string_type (stripped m) = false.
Proof.
  unfold stripped. set (m1 := if open_object m && empty_properties m then _ else m).
  assert (open_object m1 && empty_properties m1 = false) as H1.
  { unfold m1. destruct (open_object m && empty_properties m) eqn:E; [|done].
    unfold empty_properties. rewrite member_remove. simpl. by rewrite andb_false_r. }
  destruct (string_enum m1 && string_type m1) eqn:E; [|done]. split.
  - unfold open_object, empty_properties in *. by rewrite !member_remove.
  - unfold string_type. rewrite member_remove. simpl. by rewrite andb_false_r.
Qed.

Lemma stripped_Forall (Q : string * json → Prop) m : Forall Q m → Forall Q (stripped m).
Proof. intros Hm. unfold stripped. repeat case_match; by repeat apply Forall_remove. Qed.

(** Normalization reaches a normal form, ... *)
Lemma normalize_normal j : normal (normalize_schema j).
Proof.
  induction j as [v Hl Hm|l IH|m IH] using json_induction.
  - destruct v; try done; [by destruct (Hl values)|by destruct (Hm members)].
  - simpl. apply normal_values. by apply Forall_map.
  - rewrite normalize_object. simpl. rewrite normal_members. split; [|apply stripped_normal].
    apply stripped_Forall, Forall_map. eapply Forall_impl; [exact IH|]. by intros [].
Qed.

(** ... and leaves one as it is. *)
Lemma normalize_fixed j : normal j → normalize_schema j = j.
Proof.
  induction j as [v Hl Hm|l IH|m IH] using json_induction.
  - destruct v; try done; [by destruct (Hl values)|by destruct (Hm members)].
  - simpl. rewrite normal_values. intros Hn. f_equal.
    induction IH as [|v l Hv IH IHl]; [done|]. apply Forall_cons in Hn as [Hn Hns].
    simpl. by rewrite (Hv Hn), (IHl Hns).
  - rewrite normalize_object. simpl. rewrite normal_members. intros (Hn & H1 & H2).
    assert (map normalized m = m) as ->; [|unfold stripped; by rewrite H1, H2].
    clear H1 H2. induction IH as [|[k v] m Hv IH IHm]; [done|]. apply Forall_cons in Hn as [Hn Hns].
    simpl in *. by rewrite (Hv Hn), (IHm Hns).
Qed.

Lemma enum_normalized l : forallb is_string (map normalize_schema l) = forallb is_string l.
Proof. induction l as [|[]]; simpl; congruence. Qed.

(** The members that an object loses, by the object's own members. *)
Definition redundant (m : list (string * json)) (name : string) : Prop :=
  (name = "properties" ∧ open_object m = true
   ∧ ∃ v, member "properties" m = Some v ∧ normalize_schema v = JObject [])
  ∨ (name = "type" ∧ string_enum m = true ∧ member "type" m = Some (JString "string")).

Lemma test_normalized m :
  open_object (map normalized m) = open_object m ∧ string_enum (map normalized m) = string_enum m
  ∧ string_type (map normalized m) = string_type m.
Proof.
  unfold open_object, string_enum, string_type. rewrite !member_map. split_and!.
  - by destruct (member _ m) as [[]|].
  - destruct (member _ m) as [[]|]; try done. apply enum_normalized.
  - by destruct (member _ m) as [[]|].
Qed.

Lemma stripped_member name m :
  member name (stripped m) = member name m
  ∨ (member name (stripped m) = None
     ∧ ((name = "properties" ∧ open_object m = true ∧ empty_properties m = true)
        ∨ (name = "type" ∧ string_enum m = true ∧ string_type m = true))).
Proof.
  unfold stripped. set (m1 := if open_object m && empty_properties m then _ else m).
  assert (string_enum m1 = string_enum m ∧ string_type m1 = string_type m) as [He Ht].
  { unfold m1. destruct (_ && _); [|done]. unfold string_enum, string_type. by rewrite !member_remove. }
  assert (member name m1 = member name m
          ∨ (member name m1 = None ∧ name = "properties" ∧ open_object m = true
             ∧ empty_properties m = true)) as H1.
  { unfold m1. destruct (_ && _) eqn:E; [|by left]. apply andb_true_iff in E.
    rewrite member_remove. destruct (String.eqb_spec name "properties"); [right|left]; tauto. }
  rewrite He, Ht. destruct (string_enum m && string_type m) eqn:E; [|tauto].
  apply andb_true_iff in E. rewrite member_remove.
  destruct (String.eqb_spec name "type"); [right|]; tauto.
Qed.

Lemma normalized_member name m :
  member name (stripped (map normalized m)) = normalize_schema <$> member name m
  ∨ (member name (stripped (map normalized m)) = None ∧ redundant m name).
Proof.
  destruct (test_normalized m) as (Ho & He & Ht).
  destruct (stripped_member name (map normalized m)) as [->|[-> Hcase]]; [left; apply member_map|right].
  split; [done|]. destruct Hcase as [(-> & Hop & Hem)|(-> & Hen & Hty)]; [left|right].
  - split; [done|]. split; [congruence|]. unfold empty_properties in Hem. rewrite member_map in Hem.
    destruct (member "properties" m) as [v|]; [|done]. exists v. split; [done|]. simpl in Hem.
    by destruct (normalize_schema v) as [| | | | |[]].
  - split; [done|]. split; [congruence|]. rewrite Ht in Hty. unfold string_type in Hty.
    destruct (member "type" m) as [[]|]; try done. by apply String.eqb_eq in Hty as ->.
Qed.

Lemma normalize_idempotent j : normalize_schema (normalize_schema j) = normalize_schema j.
Proof. apply normalize_fixed, normalize_normal. Qed.

Lemma normalize_snapshot_idempotent s : normalize_snapshot (normalize_snapshot s) = normalize_snapshot s.
Proof.
  unfold normalize_snapshot. simpl. f_equal. rewrite map_map. apply map_ext. intros [].
  simpl. by rewrite !normalize_idempotent.
Qed.

(** C39: the build scripts' schema normalization reaches a normal form and leaves normal forms
    as they are; of an object it drops at most an empty properties member beside
    additionalProperties true and a type string beside an enumeration of strings, and the
    outcome of the build is the same for a snapshot that was normalized before. *)
Theorem schemas_have_normal_forms :
  (∀ j, normal (normalize_schema j))
  ∧ (∀ j, normal j → normalize_schema j = j)
  ∧ (∀ m, ∃ m', normalize_schema (JObject m) = JObject m' ∧ ∀ name,
       member name m' = normalize_schema <$> member name m
       ∨ (member name m' = None ∧ redundant m name))
  ∧ ∀ Files (codegen : ContractCodegen Files) title source update files,
      build_main title (normalize_snapshot source) update files = build_main title source update files.
Proof.
  split; [exact normalize_normal|]. split; [exact normalize_fixed|]. split.
  - intros m. eexists. split; [apply normalize_object|]. intros name. apply normalized_member.
  - intros. unfold build_main. by rewrite normalize_snapshot_idempotent.
Qed.
