(* ===== verification/ContractSource.v ===== *)
(** * ContractSource: the authoritative contracts and their generated projections

    [contract.rs] of the two contract crates is what the portable descriptors and the
    [generated.rs] files are made from.  Here are its types, their derived [Deserialize], and
    what makes the projection right: every object that the contract allows is read by the
    generated type as the same value, and everything the generated type writes is allowed. *)
From S2P Require Import Prelude Text Platform Contract DomainErrors Secret Effects Wire Endpoint Dispatch.

Open Scope string_scope.
Open Scope list_scope.
Open Scope Z_scope.
Open Scope result_scope.

(** ** Derived deserialization

    [#[serde(deny_unknown_fields)]]: as [members], and no other member is skipped. *)
Definition known_members (fields : list string) (j : json) : result (list (string * json)) string :=
  let? m := members fields j in
  if forallb (λ p, str_mem p.1 fields) m then Ok m else Err "unknown field".

(** The types of [contract.rs], in its order of fields and variants. *)
Module contract_source.

(** [Nullable<T>(Option<T>)]: a newtype, so that a missing field is an error; JSON [null] is
    [None]. *)
Definition Nullable (T : Type) := option T.
Definition de_nullable (j : json) : result (Nullable string) string :=
  match j with
  | JNull => Ok None
  | JString s => Ok (Some s)
  | _ => Err "invalid type: expected a string"
  end.

Inductive ServiceAccountStatus := Active | Revoked.
#[global] Instance de_status : Deserialize ServiceAccountStatus := λ j,
  let variant name := if String.eqb name "active" then Ok Active
                      else if String.eqb name "revoked" then Ok Revoked
                      else Err "unknown variant" in
  match j with
  | JString s => variant s
  | JObject [(s, JNull)] => variant s
  | _ => Err "invalid type: expected enum ServiceAccountStatus"
  end.

Record ServiceAccountSummary := {
  src_service_account_id : string; src_organization_id : string; src_subject : string;
  src_name : string; src_status : ServiceAccountStatus; src_revision : string;
  src_created_at : string; src_rotated_at : Nullable string; src_revoked_at : Nullable string;
  src_credential_expires_at : Nullable string }.
#[global] Instance de_summary : Deserialize ServiceAccountSummary := λ j,
  let? m := known_members [
    "service_account_id"; "organization_id"; "subject"; "name"; "status"; "revision";
    "created_at"; "rotated_at"; "revoked_at"; "credential_expires_at"] j in
  let? service_account_id_ := bind_ok (field "service_account_id" m) de_string in
  let? organization_id_ := bind_ok (field "organization_id" m) de_string in
  let? subject_ := bind_ok (field "subject" m) de_string in
  let? name_ := bind_ok (field "name" m) de_string in
  let? status_ := bind_ok (field "status" m) from_value in
  let? revision_ := bind_ok (field "revision" m) de_string in
  let? created_at_ := bind_ok (field "created_at" m) de_string in
  let? rotated_at_ := bind_ok (field "rotated_at" m) de_nullable in
  let? revoked_at_ := bind_ok (field "revoked_at" m) de_nullable in
  let? credential_expires_at_ := bind_ok (field "credential_expires_at" m) de_nullable in
  Ok {| src_service_account_id := service_account_id_; src_organization_id := organization_id_;
        src_subject := subject_; src_name := name_; src_status := status_;
        src_revision := revision_; src_created_at := created_at_; src_rotated_at := rotated_at_;
        src_revoked_at := revoked_at_; src_credential_expires_at := credential_expires_at_ |}.

Record CreateServiceAccountRequest := {
  create_idempotency_key : string; create_organization_id : string; create_name : string }.
#[global] Instance de_create_request : Deserialize CreateServiceAccountRequest := λ j,
  let? m := known_members ["idempotency_key"; "organization_id"; "name"] j in
  let? idempotency_key_ := bind_ok (field "idempotency_key" m) de_string in
  let? organization_id_ := bind_ok (field "organization_id" m) de_string in
  let? name_ := bind_ok (field "name" m) de_string in
  Ok {| create_idempotency_key := idempotency_key_; create_organization_id := organization_id_;
        create_name := name_ |}.

Record CreateServiceAccountResponse := {
  created_account : ServiceAccountSummary; created_created : bool;
  created_secret : Nullable string }.
#[global] Instance de_create_response : Deserialize CreateServiceAccountResponse := λ j,
  let? m := known_members ["account"; "created"; "secret"] j in
  let? account_ := bind_ok (field "account" m) from_value in
  let? created_ := bind_ok (field "created" m) de_bool in
  let? secret_ := bind_ok (field "secret" m) de_nullable in
  Ok {| created_account := account_; created_created := created_; created_secret := secret_ |}.

Record GetServiceAccountRequest := {
  get_organization_id : string; get_service_account_id : string }.
#[global] Instance de_get_request : Deserialize GetServiceAccountRequest := λ j,
  let? m := known_members ["organization_id"; "service_account_id"] j in
  let? organization_id_ := bind_ok (field "organization_id" m) de_string in
  let? service_account_id_ := bind_ok (field "service_account_id" m) de_string in
  Ok {| get_organization_id := organization_id_; get_service_account_id := service_account_id_ |}.

Record GetServiceAccountResponse := { got_account : ServiceAccountSummary }.
#[global] Instance de_get_response : Deserialize GetServiceAccountResponse := λ j,
  let? m := known_members ["account"] j in
  let? account_ := bind_ok (field "account" m) from_value in
  Ok {| got_account := account_ |}.

Record ListServiceAccountsRequest := {
  list_organization_id : string; list_after : Nullable string; list_limit : string }.
#[global] Instance de_list_request : Deserialize ListServiceAccountsRequest := λ j,
  let? m := known_members ["organization_id"; "after"; "limit"] j in
  let? organization_id_ := bind_ok (field "organization_id" m) de_string in
  let? after_ := bind_ok (field "after" m) de_nullable in
  let? limit_ := bind_ok (field "limit" m) de_string in
  Ok {| list_organization_id := organization_id_; list_after := after_; list_limit := limit_ |}.

Record ListServiceAccountsResponse := {
  listed_accounts : list ServiceAccountSummary; listed_next_cursor : Nullable string }.
#[global] Instance de_list_response : Deserialize ListServiceAccountsResponse := λ j,
  let? m := known_members ["accounts"; "next_cursor"] j in
  let? accounts_ := bind_ok (field "accounts" m) de_list in
  let? next_cursor_ := bind_ok (field "next_cursor" m) de_nullable in
  Ok {| listed_accounts := accounts_; listed_next_cursor := next_cursor_ |}.

Record RotateServiceAccountSecretRequest := {
  rotate_idempotency_key : string; rotate_organization_id : string;
  rotate_service_account_id : string; rotate_expected_revision : string }.
#[global] Instance de_rotate_request : Deserialize RotateServiceAccountSecretRequest := λ j,
  let? m := known_members [
    "idempotency_key"; "organization_id"; "service_account_id"; "expected_revision"] j in
  let? idempotency_key_ := bind_ok (field "idempotency_key" m) de_string in
  let? organization_id_ := bind_ok (field "organization_id" m) de_string in
  let? service_account_id_ := bind_ok (field "service_account_id" m) de_string in
  let? expected_revision_ := bind_ok (field "expected_revision" m) de_string in
  Ok {| rotate_idempotency_key := idempotency_key_; rotate_organization_id := organization_id_;
        rotate_service_account_id := service_account_id_;
        rotate_expected_revision := expected_revision_ |}.

Record RotateServiceAccountSecretResponse := {
  rotated_account : ServiceAccountSummary; rotated_rotated : bool;
  rotated_secret : Nullable string }.
#[global] Instance de_rotate_response : Deserialize RotateServiceAccountSecretResponse := λ j,
  let? m := known_members ["account"; "rotated"; "secret"] j in
  let? account_ := bind_ok (field "account" m) from_value in
  let? rotated_ := bind_ok (field "rotated" m) de_bool in
  let? secret_ := bind_ok (field "secret" m) de_nullable in
  Ok {| rotated_account := account_; rotated_rotated := rotated_; rotated_secret := secret_ |}.

Record RevokeServiceAccountRequest := {
  revoke_idempotency_key : string; revoke_organization_id : string;
  revoke_service_account_id : string; revoke_expected_revision : string }.
#[global] Instance de_revoke_request : Deserialize RevokeServiceAccountRequest := λ j,
  let? m := known_members [
    "idempotency_key"; "organization_id"; "service_account_id"; "expected_revision"] j in
  let? idempotency_key_ := bind_ok (field "idempotency_key" m) de_string in
  let? organization_id_ := bind_ok (field "organization_id" m) de_string in
  let? service_account_id_ := bind_ok (field "service_account_id" m) de_string in
  let? expected_revision_ := bind_ok (field "expected_revision" m) de_string in
  Ok {| revoke_idempotency_key := idempotency_key_; revoke_organization_id := organization_id_;
        revoke_service_account_id := service_account_id_;
        revoke_expected_revision := expected_revision_ |}.

Record RevokeServiceAccountResponse := {
  revoked_account : ServiceAccountSummary; revoked_revoked : bool }.
#[global] Instance de_revoke_response : Deserialize RevokeServiceAccountResponse := λ j,
  let? m := known_members ["account"; "revoked"] j in
  let? account_ := bind_ok (field "account" m) from_value in
  let? revoked_ := bind_ok (field "revoked" m) de_bool in
  Ok {| revoked_account := account_; revoked_revoked := revoked_ |}.

Record ExchangeServiceAccountSecretRequest := {
  exchange_idempotency_key : string; exchange_secret : string }.
#[global] Instance de_exchange_request : Deserialize ExchangeServiceAccountSecretRequest := λ j,
  let? m := known_members ["idempotency_key"; "secret"] j in
  let? idempotency_key_ := bind_ok (field "idempotency_key" m) de_string in
  let? secret_ := bind_ok (field "secret" m) de_string in
  Ok {| exchange_idempotency_key := idempotency_key_; exchange_secret := secret_ |}.

Record ExchangeServiceAccountSecretResponse := {
  exchanged_service_account_id : string; exchanged_organization_id : string;
  exchanged_subject : string; exchanged_session_id : string; exchanged_credential : string;
  exchanged_expires_at : string }.
#[global] Instance de_exchange_response : Deserialize ExchangeServiceAccountSecretResponse := λ j,
  let? m := known_members [
    "service_account_id"; "organization_id"; "subject"; "session_id"; "credential"; "expires_at"] j in
  let? service_account_id_ := bind_ok (field "service_account_id" m) de_string in
  let? organization_id_ := bind_ok (field "organization_id" m) de_string in
  let? subject_ := bind_ok (field "subject" m) de_string in
  let? session_id_ := bind_ok (field "session_id" m) de_string in
  let? credential_ := bind_ok (field "credential" m) de_string in
  let? expires_at_ := bind_ok (field "expires_at" m) de_string in
  Ok {| exchanged_service_account_id := service_account_id_;
        exchanged_organization_id := organization_id_; exchanged_subject := subject_;
        exchanged_session_id := session_id_; exchanged_credential := credential_;
        exchanged_expires_at := expires_at_ |}.

End contract_source.

(** The domain errors: one module each, as they share the names of their variants. *)
Module CreateServiceAccountError.
Inductive t :=
  | Forbidden | InvalidRequest | OrganizationNotFound | MembershipRequired | AccessDenied
  | NameConflict | DirectoryRejected | IdempotencyConflict | OperationInProgress
  | TooManyServiceAccounts.
(** The identifiers of the variants. *)
Definition identifier (e : t) : string :=
  match e with
  | Forbidden => "Forbidden"
  | InvalidRequest => "InvalidRequest"
  | OrganizationNotFound => "OrganizationNotFound"
  | MembershipRequired => "MembershipRequired"
  | AccessDenied => "AccessDenied"
  | NameConflict => "NameConflict"
  | DirectoryRejected => "DirectoryRejected"
  | IdempotencyConflict => "IdempotencyConflict"
  | OperationInProgress => "OperationInProgress"
  | TooManyServiceAccounts => "TooManyServiceAccounts"
  end.
End CreateServiceAccountError.

Module GetServiceAccountError.
Inductive t :=
  | Forbidden | InvalidRequest | OrganizationNotFound | MembershipRequired | AccessDenied
  | NotFound.
(** The identifiers of the variants. *)
Definition identifier (e : t) : string :=
  match e with
  | Forbidden => "Forbidden"
  | InvalidRequest => "InvalidRequest"
  | OrganizationNotFound => "OrganizationNotFound"
  | MembershipRequired => "MembershipRequired"
  | AccessDenied => "AccessDenied"
  | NotFound => "NotFound"
  end.
End GetServiceAccountError.

Module ListServiceAccountsError.
Inductive t :=
  | Forbidden | InvalidRequest | OrganizationNotFound | MembershipRequired | AccessDenied.
(** The identifiers of the variants. *)
Definition identifier (e : t) : string :=
  match e with
  | Forbidden => "Forbidden"
  | InvalidRequest => "InvalidRequest"
  | OrganizationNotFound => "OrganizationNotFound"
  | MembershipRequired => "MembershipRequired"
  | AccessDenied => "AccessDenied"
  end.
End ListServiceAccountsError.

Module RotateServiceAccountSecretError.
Inductive t :=
  | Forbidden | InvalidRequest | OrganizationNotFound | MembershipRequired | AccessDenied
  | NotFound | Revoked | RevisionConflict | IdempotencyConflict | OperationInProgress.
(** The identifiers of the variants. *)
Definition identifier (e : t) : string :=
  match e with
  | Forbidden => "Forbidden"
  | InvalidRequest => "InvalidRequest"
  | OrganizationNotFound => "OrganizationNotFound"
  | MembershipRequired => "MembershipRequired"
  | AccessDenied => "AccessDenied"
  | NotFound => "NotFound"
  | Revoked => "Revoked"
  | RevisionConflict => "RevisionConflict"
  | IdempotencyConflict => "IdempotencyConflict"
  | OperationInProgress => "OperationInProgress"
  end.
End RotateServiceAccountSecretError.

Module RevokeServiceAccountError.
Inductive t :=
  | Forbidden | InvalidRequest | OrganizationNotFound | MembershipRequired | AccessDenied
  | NotFound | RevisionConflict | IdempotencyConflict | OperationInProgress.
(** The identifiers of the variants. *)
Definition identifier (e : t) : string :=
  match e with
  | Forbidden => "Forbidden"
  | InvalidRequest => "InvalidRequest"
  | OrganizationNotFound => "OrganizationNotFound"
  | MembershipRequired => "MembershipRequired"
  | AccessDenied => "AccessDenied"
  | NotFound => "NotFound"
  | RevisionConflict => "RevisionConflict"
  | IdempotencyConflict => "IdempotencyConflict"
  | OperationInProgress => "OperationInProgress"
  end.
End RevokeServiceAccountError.

Module ExchangeServiceAccountSecretError.
Inductive t :=
  | Forbidden | InvalidRequest | InvalidCredentials | RateLimited | Disabled | IdempotencyConflict
  | OperationInProgress.
(** The identifiers of the variants. *)
Definition identifier (e : t) : string :=
  match e with
  | Forbidden => "Forbidden"
  | InvalidRequest => "InvalidRequest"
  | InvalidCredentials => "InvalidCredentials"
  | RateLimited => "RateLimited"
  | Disabled => "Disabled"
  | IdempotencyConflict => "IdempotencyConflict"
  | OperationInProgress => "OperationInProgress"
  end.
End ExchangeServiceAccountSecretError.

(** A capability trait: its identity and its operations with their types. *)
Record Operation := {
  operation : string; request_type : Type; response_type : Type; error_type : Type }.
Record Capability := {
  id : string; major : string; version : string; portable : bool; cross_lane_transfer : bool;
  declared : list Operation }.

(** [#[lenso::capability(..)] pub trait ServiceAccount]. *)
Definition ServiceAccount : Capability := {|
  id := "lenso.service-account"; major := "1"; version := "1.0.0";
  portable := true; cross_lane_transfer := true;
  declared := [
    {| operation := "create"; request_type := contract_source.CreateServiceAccountRequest;
       response_type := contract_source.CreateServiceAccountResponse; error_type := CreateServiceAccountError.t |};
    {| operation := "get"; request_type := contract_source.GetServiceAccountRequest;
       response_type := contract_source.GetServiceAccountResponse; error_type := GetServiceAccountError.t |};
    {| operation := "list"; request_type := contract_source.ListServiceAccountsRequest;
       response_type := contract_source.ListServiceAccountsResponse; error_type := ListServiceAccountsError.t |};
    {| operation := "rotate_secret"; request_type := contract_source.RotateServiceAccountSecretRequest;
       response_type := contract_source.RotateServiceAccountSecretResponse; error_type := RotateServiceAccountSecretError.t |};
    {| operation := "revoke"; request_type := contract_source.RevokeServiceAccountRequest;
       response_type := contract_source.RevokeServiceAccountResponse; error_type := RevokeServiceAccountError.t |}] |}.

(** [#[lenso::capability(..)] pub trait ServiceAccountAuth]. *)
Definition ServiceAccountAuth : Capability := {|
  id := "lenso.auth.service-account"; major := "1"; version := "1.0.0";
  portable := true; cross_lane_transfer := true;
  declared := [
    {| operation := "exchange_secret"; request_type := contract_source.ExchangeServiceAccountSecretRequest;
       response_type := contract_source.ExchangeServiceAccountSecretResponse; error_type := ExchangeServiceAccountSecretError.t |}] |}.

(** ** The projection *)

Class Projects (S G : Type) := { project : S → G; embed : G → S }.

#[export] Instance status_projects :
    Projects contract_source.ServiceAccountStatus ServiceAccountStatus := {
  project s := match s with contract_source.Active => Active | contract_source.Revoked => Revoked end;
  embed s := match s with Active => contract_source.Active | Revoked => contract_source.Revoked end }.

#[export] Instance summary_projects :
    Projects contract_source.ServiceAccountSummary ServiceAccountSummary := {
  project r := {|
    s_service_account_id := contract_source.src_service_account_id r;
    s_organization_id := contract_source.src_organization_id r;
    s_subject := contract_source.src_subject r; s_name := contract_source.src_name r;
    s_status := project (contract_source.src_status r);
    s_revision := contract_source.src_revision r;
    s_created_at := contract_source.src_created_at r;
    s_rotated_at := contract_source.src_rotated_at r;
    s_revoked_at := contract_source.src_revoked_at r;
    s_credential_expires_at := contract_source.src_credential_expires_at r |};
  embed r := {|
    contract_source.src_service_account_id := s_service_account_id r;
    contract_source.src_organization_id := s_organization_id r;
    contract_source.src_subject := s_subject r; contract_source.src_name := s_name r;
    contract_source.src_status := embed (s_status r);
    contract_source.src_revision := s_revision r;
    contract_source.src_created_at := s_created_at r;
    contract_source.src_rotated_at := s_rotated_at r;
    contract_source.src_revoked_at := s_revoked_at r;
    contract_source.src_credential_expires_at := s_credential_expires_at r |} }.
#[export] Instance create_request_projects :
    Projects contract_source.CreateServiceAccountRequest CreateServiceAccountRequest := {
  project r := {|
    create_idempotency_key := contract_source.create_idempotency_key r;
    create_organization_id := contract_source.create_organization_id r;
    create_name := contract_source.create_name r |};
  embed r := {|
    contract_source.create_idempotency_key := create_idempotency_key r;
    contract_source.create_organization_id := create_organization_id r;
    contract_source.create_name := create_name r |} }.
#[export] Instance create_response_projects :
    Projects contract_source.CreateServiceAccountResponse CreateServiceAccountResponse := {
  project r := {|
    created_account := project (contract_source.created_account r);
    created := contract_source.created_created r;
    created_secret := contract_source.created_secret r |};
  embed r := {|
    contract_source.created_account := embed (created_account r);
    contract_source.created_created := created r;
    contract_source.created_secret := created_secret r |} }.
#[export] Instance get_request_projects :
    Projects contract_source.GetServiceAccountRequest GetServiceAccountRequest := {
  project r := {|
    get_organization_id := contract_source.get_organization_id r;
    get_service_account_id := contract_source.get_service_account_id r |};
  embed r := {|
    contract_source.get_organization_id := get_organization_id r;
    contract_source.get_service_account_id := get_service_account_id r |} }.
#[export] Instance get_response_projects :
    Projects contract_source.GetServiceAccountResponse GetServiceAccountResponse := {
  project r := {|
    got_account := project (contract_source.got_account r) |};
  embed r := {|
    contract_source.got_account := embed (got_account r) |} }.
#[export] Instance list_request_projects :
    Projects contract_source.ListServiceAccountsRequest ListServiceAccountsRequest := {
  project r := {|
    list_organization_id := contract_source.list_organization_id r;
    list_after := contract_source.list_after r; list_limit := contract_source.list_limit r |};
  embed r := {|
    contract_source.list_organization_id := list_organization_id r;
    contract_source.list_after := list_after r; contract_source.list_limit := list_limit r |} }.
#[export] Instance list_response_projects :
    Projects contract_source.ListServiceAccountsResponse ListServiceAccountsResponse := {
  project r := {|
    listed_accounts := map project (contract_source.listed_accounts r);
    next_cursor := contract_source.listed_next_cursor r |};
  embed r := {|
    contract_source.listed_accounts := map embed (listed_accounts r);
    contract_source.listed_next_cursor := next_cursor r |} }.
#[export] Instance rotate_request_projects :
    Projects contract_source.RotateServiceAccountSecretRequest RotateServiceAccountSecretRequest := {
  project r := {|
    rotate_idempotency_key := contract_source.rotate_idempotency_key r;
    rotate_organization_id := contract_source.rotate_organization_id r;
    rotate_service_account_id := contract_source.rotate_service_account_id r;
    rotate_expected_revision := contract_source.rotate_expected_revision r |};
  embed r := {|
    contract_source.rotate_idempotency_key := rotate_idempotency_key r;
    contract_source.rotate_organization_id := rotate_organization_id r;
    contract_source.rotate_service_account_id := rotate_service_account_id r;
    contract_source.rotate_expected_revision := rotate_expected_revision r |} }.
#[export] Instance rotate_response_projects :
    Projects contract_source.RotateServiceAccountSecretResponse RotateServiceAccountSecretResponse := {
  project r := {|
    rotated_account := project (contract_source.rotated_account r);
    rotated := contract_source.rotated_rotated r;
    rotated_secret := contract_source.rotated_secret r |};
  embed r := {|
    contract_source.rotated_account := embed (rotated_account r);
    contract_source.rotated_rotated := rotated r;
    contract_source.rotated_secret := rotated_secret r |} }.
#[export] Instance revoke_request_projects :
    Projects contract_source.RevokeServiceAccountRequest RevokeServiceAccountRequest := {
  project r := {|
    revoke_idempotency_key := contract_source.revoke_idempotency_key r;
    revoke_organization_id := contract_source.revoke_organization_id r;
    revoke_service_account_id := contract_source.revoke_service_account_id r;
    revoke_expected_revision := contract_source.revoke_expected_revision r |};
  embed r := {|
    contract_source.revoke_idempotency_key := revoke_idempotency_key r;
    contract_source.revoke_organization_id := revoke_organization_id r;
    contract_source.revoke_service_account_id := revoke_service_account_id r;
    contract_source.revoke_expected_revision := revoke_expected_revision r |} }.
#[export] Instance revoke_response_projects :
    Projects contract_source.RevokeServiceAccountResponse RevokeServiceAccountResponse := {
  project r := {|
    revoked_account := project (contract_source.revoked_account r);
    revoked := contract_source.revoked_revoked r |};
  embed r := {|
    contract_source.revoked_account := embed (revoked_account r);
    contract_source.revoked_revoked := revoked r |} }.
#[export] Instance exchange_request_projects :
    Projects contract_source.ExchangeServiceAccountSecretRequest ExchangeServiceAccountSecretRequest := {
  project r := {|
    exchange_idempotency_key := contract_source.exchange_idempotency_key r;
    exchange_secret_text := contract_source.exchange_secret r |};
  embed r := {|
    contract_source.exchange_idempotency_key := exchange_idempotency_key r;
    contract_source.exchange_secret := exchange_secret_text r |} }.
#[export] Instance exchange_response_projects :
    Projects contract_source.ExchangeServiceAccountSecretResponse ExchangeServiceAccountSecretResponse := {
  project r := {|
    x_service_account_id := contract_source.exchanged_service_account_id r;
    x_organization_id := contract_source.exchanged_organization_id r;
    x_subject := contract_source.exchanged_subject r;
    x_session_id := contract_source.exchanged_session_id r;
    x_credential := contract_source.exchanged_credential r;
    x_expires_at := contract_source.exchanged_expires_at r |};
  embed r := {|
    contract_source.exchanged_service_account_id := x_service_account_id r;
    contract_source.exchanged_organization_id := x_organization_id r;
    contract_source.exchanged_subject := x_subject r;
    contract_source.exchanged_session_id := x_session_id r;
    contract_source.exchanged_credential := x_credential r;
    contract_source.exchanged_expires_at := x_expires_at r |} }.

(** The contract's own errors among the generated ones, which also carry unknown codes. *)
Class ProjectsErrors (S G : Type) := { project_error : S → G; name_of : S → string }.

#[export] Instance create_error_projects : ProjectsErrors CreateServiceAccountError.t CreateError.t := {
  name_of := CreateServiceAccountError.identifier;
  project_error e := match e with
    | CreateServiceAccountError.Forbidden => CreateError.Forbidden
    | CreateServiceAccountError.InvalidRequest => CreateError.InvalidRequest
    | CreateServiceAccountError.OrganizationNotFound => CreateError.OrganizationNotFound
    | CreateServiceAccountError.MembershipRequired => CreateError.MembershipRequired
    | CreateServiceAccountError.AccessDenied => CreateError.AccessDenied
    | CreateServiceAccountError.NameConflict => CreateError.NameConflict
    | CreateServiceAccountError.DirectoryRejected => CreateError.DirectoryRejected
    | CreateServiceAccountError.IdempotencyConflict => CreateError.IdempotencyConflict
    | CreateServiceAccountError.OperationInProgress => CreateError.OperationInProgress
    | CreateServiceAccountError.TooManyServiceAccounts => CreateError.TooManyServiceAccounts
    end }.
#[export] Instance get_error_projects : ProjectsErrors GetServiceAccountError.t GetError.t := {
  name_of := GetServiceAccountError.identifier;
  project_error e := match e with
    | GetServiceAccountError.Forbidden => GetError.Forbidden
    | GetServiceAccountError.InvalidRequest => GetError.InvalidRequest
    | GetServiceAccountError.OrganizationNotFound => GetError.OrganizationNotFound
    | GetServiceAccountError.MembershipRequired => GetError.MembershipRequired
    | GetServiceAccountError.AccessDenied => GetError.AccessDenied
    | GetServiceAccountError.NotFound => GetError.NotFound
    end }.
#[export] Instance list_error_projects : ProjectsErrors ListServiceAccountsError.t ListError.t := {
  name_of := ListServiceAccountsError.identifier;
  project_error e := match e with
    | ListServiceAccountsError.Forbidden => ListError.Forbidden
    | ListServiceAccountsError.InvalidRequest => ListError.InvalidRequest
    | ListServiceAccountsError.OrganizationNotFound => ListError.OrganizationNotFound
    | ListServiceAccountsError.MembershipRequired => ListError.MembershipRequired
    | ListServiceAccountsError.AccessDenied => ListError.AccessDenied
    end }.
#[export] Instance rotate_error_projects : ProjectsErrors RotateServiceAccountSecretError.t RotateSecretError.t := {
  name_of := RotateServiceAccountSecretError.identifier;
  project_error e := match e with
    | RotateServiceAccountSecretError.Forbidden => RotateSecretError.Forbidden
    | RotateServiceAccountSecretError.InvalidRequest => RotateSecretError.InvalidRequest
    | RotateServiceAccountSecretError.OrganizationNotFound => RotateSecretError.OrganizationNotFound
    | RotateServiceAccountSecretError.MembershipRequired => RotateSecretError.MembershipRequired
    | RotateServiceAccountSecretError.AccessDenied => RotateSecretError.AccessDenied
    | RotateServiceAccountSecretError.NotFound => RotateSecretError.NotFound
    | RotateServiceAccountSecretError.Revoked => RotateSecretError.Revoked
    | RotateServiceAccountSecretError.RevisionConflict => RotateSecretError.RevisionConflict
    | RotateServiceAccountSecretError.IdempotencyConflict => RotateSecretError.IdempotencyConflict
    | RotateServiceAccountSecretError.OperationInProgress => RotateSecretError.OperationInProgress
    end }.
#[export] Instance revoke_error_projects : ProjectsErrors RevokeServiceAccountError.t RevokeError.t := {
  name_of := RevokeServiceAccountError.identifier;
  project_error e := match e with
    | RevokeServiceAccountError.Forbidden => RevokeError.Forbidden
    | RevokeServiceAccountError.InvalidRequest => RevokeError.InvalidRequest
    | RevokeServiceAccountError.OrganizationNotFound => RevokeError.OrganizationNotFound
    | RevokeServiceAccountError.MembershipRequired => RevokeError.MembershipRequired
    | RevokeServiceAccountError.AccessDenied => RevokeError.AccessDenied
    | RevokeServiceAccountError.NotFound => RevokeError.NotFound
    | RevokeServiceAccountError.RevisionConflict => RevokeError.RevisionConflict
    | RevokeServiceAccountError.IdempotencyConflict => RevokeError.IdempotencyConflict
    | RevokeServiceAccountError.OperationInProgress => RevokeError.OperationInProgress
    end }.
#[export] Instance exchange_error_projects : ProjectsErrors ExchangeServiceAccountSecretError.t ExchangeSecretError.t := {
  name_of := ExchangeServiceAccountSecretError.identifier;
  project_error e := match e with
    | ExchangeServiceAccountSecretError.Forbidden => ExchangeSecretError.Forbidden
    | ExchangeServiceAccountSecretError.InvalidRequest => ExchangeSecretError.InvalidRequest
    | ExchangeServiceAccountSecretError.InvalidCredentials => ExchangeSecretError.InvalidCredentials
    | ExchangeServiceAccountSecretError.RateLimited => ExchangeSecretError.RateLimited
    | ExchangeServiceAccountSecretError.Disabled => ExchangeSecretError.Disabled
    | ExchangeServiceAccountSecretError.IdempotencyConflict => ExchangeSecretError.IdempotencyConflict
    | ExchangeServiceAccountSecretError.OperationInProgress => ExchangeSecretError.OperationInProgress
    end }.

(** [CamelCase] to [snake_case]: an underscore before every capital but the first. *)
Definition snake_case (s : string) : string :=
  match chars s with
  | [] => EmptyString
  | c :: cs => of_chars (ascii_lower c ::
      concat (map (λ d, if in_range 65 90 d then [Ascii.ascii_of_nat 95; ascii_lower d] else [d]) cs))
  end.

(** ** Agreement *)

(** The members of an object, themselves with objects for nested accounts: positional arrays
    would be read in the order of each type's own fields. *)
Definition account_objects (m : list (string * json)) : Prop :=
  (∀ l, field "account" m ≠ Ok (JArray l))
  ∧ (∀ l, field "accounts" m = Ok (JArray l) → Forall (λ j, ∀ l', j ≠ JArray l') l).

(** What the contract allows is read the same. *)
Definition accepts_contract (S G : Type) `{!Projects S G, !Deserialize S, !Deserialize G} : Prop :=
  ∀ m (s : S), account_objects m → from_value (JObject m) = Ok s →
    from_value (JObject m) = Ok (project (G := G) s).
(** What is written is allowed, and means the same. *)
Definition writes_contract (S G : Type) `{!Projects S G, !Deserialize S, !Serialize G} : Prop :=
  (∀ g : G, from_value (to_value g) = Ok (embed (S := S) g))
  ∧ (∀ g : G, project (embed (S := S) g) = g) ∧ (∀ s : S, embed (project (G := G) s) = s).
(** The contract's errors are the known codes. *)
Definition same_errors (S G : Type) `{!ProjectsErrors S G, !DomainErrors.DomainError G} : Prop :=
  (∀ e : S, serialize_error (project_error (G := G) e) = JString (snake_case (name_of (G := G) e)))
  ∧ (∀ g : G, (∃ e : S, g = project_error e) ∨ ∃ value, code_of g = inr value).

Lemma known_members_Ok fields m m' :
  known_members fields (JObject m) = Ok m' → m' = m ∧ Forall (λ p, p.1 ∈ fields) m.
Proof.
  unfold known_members. simpl. destruct (forallb _ m) eqn:E; [|done]. intros [= ->].
  split; [done|]. apply Forall_forall. intros p Hp. apply str_mem_spec.
  rewrite forallb_forall in E. apply E. by apply list_elem_of_In.
Qed.

(** Reading with the contract's type, then with the generated one: the same fields, in another
    order. *)
Ltac contract_fields E :=
  unfold from_value in E;
  match type of E with ?f _ = _ => unfold f in E end;
  let m' := fresh "m" in let Hm := fresh "Hm" in
  apply bind_ok_Ok in E as (m' & Hm & E); apply known_members_Ok in Hm as [-> _];
  repeat (let x := fresh "x" in let Hx := fresh "Hx" in apply bind_ok_Ok in E as (x & Hx & E));
  injection E as <-; change contract_source.de_nullable with de_option in *;
  unfold contract_source.Nullable in *.
Ltac generated_fields :=
  match goal with |- @from_value _ ?f ?j = ?r => change (f j = r); unfold f end;
  unfold members; cbn [bind_ok];
  repeat match goal with H : _ = Ok _ |- _ => rewrite H; clear H end; done.

Lemma status_read (r : result json string) (s : contract_source.ServiceAccountStatus) :
  bind_ok r from_value = Ok s → bind_ok r from_value = Ok (project (G := ServiceAccountStatus) s).
Proof.
  destruct r as [j|e]; [|done]. unfold from_value. simpl.
  unfold contract_source.de_status, de_status. cbv zeta. intros E.
  destruct j as [| | |x| |[|[x []] []]]; try done;
    (destruct (String.eqb x "active"); [|destruct (String.eqb x "revoked"); [|done]]);
    by injection E as <-.
Qed.

Lemma summary_object m (s : contract_source.ServiceAccountSummary) :
  from_value (JObject m) = Ok s →
  from_value (JObject m) = Ok (project (G := ServiceAccountSummary) s).
Proof.
  intros E. contract_fields E.
  match goal with H : bind_ok (field "status" m) _ = _ |- _ => apply status_read in H end.
  generated_fields.
Qed.

Lemma summary_read j (s : contract_source.ServiceAccountSummary) :
  (∀ l, j ≠ JArray l) → from_value j = Ok s →
  from_value j = Ok (project (G := ServiceAccountSummary) s).
Proof.
  intros Hj E. destruct j as [| | | |l|m]; try done; [by destruct (Hj l)|]. by apply summary_object.
Qed.

Lemma account_read m (s : contract_source.ServiceAccountSummary) :
  account_objects m → bind_ok (field "account" m) from_value = Ok s →
  bind_ok (field "account" m) from_value = Ok (project (G := ServiceAccountSummary) s).
Proof.
  intros [Hm _] (j & Hj & E)%bind_ok_Ok. rewrite Hj. simpl. apply summary_read; [|done].
  intros l ->. by apply (Hm l).
Qed.

Lemma accounts_read m (l : list contract_source.ServiceAccountSummary) :
  account_objects m → bind_ok (field "accounts" m) de_list = Ok l →
  bind_ok (field "accounts" m) de_list = Ok (map (project (G := ServiceAccountSummary)) l).
Proof.
  intros [_ Hm] (j & Hj & E)%bind_ok_Ok. rewrite Hj. simpl. destruct j as [| | | |js|]; try done.
  specialize (Hm _ Hj). clear Hj. simpl in *. apply collect_Ok in E. apply collect_Ok.
  induction E as [|j s js l Hs E IH]; [constructor|]. apply Forall_cons in Hm as [Hjs Hm].
  constructor; [exact (summary_read _ _ Hjs Hs)|by apply IH].
Qed.

(** The values the generated types write. *)
Lemma summary_writes (g : ServiceAccountSummary) :
  from_value (to_value g) = Ok (embed (S := contract_source.ServiceAccountSummary) g).
Proof. destruct g as [? [] ? ? ? [] [] ? [] ?]; reflexivity. Qed.
Lemma summary_inverse :
  (∀ g : ServiceAccountSummary, project (embed (S := contract_source.ServiceAccountSummary) g) = g)
  ∧ ∀ s : contract_source.ServiceAccountSummary, embed (project (G := ServiceAccountSummary) s) = s.
Proof. split; [by intros [? ? ? ? ? ? ? ? [] ?]|by intros [? ? ? ? [] ? ? ? ? ?]]. Qed.
Lemma collect_writes (l : list ServiceAccountSummary) :
  collect from_value (map to_value l)
  = Ok (map (embed (S := contract_source.ServiceAccountSummary)) l).
Proof. induction l as [|g l IH]; [done|]. simpl. by rewrite summary_writes, IH. Qed.

Lemma list_response_writes (g : ListServiceAccountsResponse) :
  from_value (to_value g) = Ok (embed (S := contract_source.ListServiceAccountsResponse) g).
Proof.
  destruct g as [accounts cursor].
  unfold from_value, contract_source.de_list_response, to_value, ser_list_response, ser_list.
  unfold known_members, field. cbn -[collect]. rewrite (collect_writes accounts). by destruct cursor.
Qed.

Ltac accepts := intros m s Hm E; contract_fields E;
  repeat match goal with
         | H : bind_ok (field "account" _) _ = _ |- _ => apply account_read in H; [|exact Hm]
         | H : bind_ok (field "accounts" _) _ = _ |- _ => apply accounts_read in H; [|exact Hm]
         end; generated_fields.

(** Both directions, for one type of the contract. *)
Definition agrees (S G : Type) `{!Projects S G, !Deserialize S, !Deserialize G, !Serialize G} : Prop :=
  accepts_contract S G ∧ writes_contract S G.

Ltac inverse := let x := fresh "x" in intros x; destruct x;
  repeat match goal with
         | a : ServiceAccountSummary |- _ => destruct a as [? ? ? ? ? ? ? ? [] ?]
         | a : contract_source.ServiceAccountSummary |- _ => destruct a as [? ? ? ? [] ? ? ? ? ?]
         end; reflexivity.
Ltac writes := let g := fresh "g" in intros g; destruct g;
  repeat match goal with
         | o : option string |- _ => destruct o
         | a : ServiceAccountSummary |- _ => destruct a as [? [] ? ? ? [] [] ? [] ?]
         end; reflexivity.
Ltac agree := split; [accepts|split; [writes|split; inverse]].

Lemma list_inverse :
  (∀ g : ListServiceAccountsResponse,
     project (embed (S := contract_source.ListServiceAccountsResponse) g) = g)
  ∧ ∀ s : contract_source.ListServiceAccountsResponse,
      embed (project (G := ListServiceAccountsResponse) s) = s.
Proof.
  destruct summary_inverse as [H1 H2]. split; intros [l c]; unfold project, embed; simpl; f_equal;
    rewrite map_map; rewrite <-(map_id l) at 2; by apply map_ext.
Qed.

Lemma requests_agree :
  agrees contract_source.CreateServiceAccountRequest CreateServiceAccountRequest
  ∧ agrees contract_source.GetServiceAccountRequest GetServiceAccountRequest
  ∧ agrees contract_source.ListServiceAccountsRequest ListServiceAccountsRequest
  ∧ agrees contract_source.RotateServiceAccountSecretRequest RotateServiceAccountSecretRequest
  ∧ agrees contract_source.RevokeServiceAccountRequest RevokeServiceAccountRequest
  ∧ agrees contract_source.ExchangeServiceAccountSecretRequest ExchangeServiceAccountSecretRequest.
Proof. split_and!; agree. Qed.

Lemma responses_agree :
  agrees contract_source.CreateServiceAccountResponse CreateServiceAccountResponse
  ∧ agrees contract_source.GetServiceAccountResponse GetServiceAccountResponse
  ∧ agrees contract_source.ListServiceAccountsResponse ListServiceAccountsResponse
  ∧ agrees contract_source.RotateServiceAccountSecretResponse RotateServiceAccountSecretResponse
  ∧ agrees contract_source.RevokeServiceAccountResponse RevokeServiceAccountResponse
  ∧ agrees contract_source.ExchangeServiceAccountSecretResponse
      ExchangeServiceAccountSecretResponse.
Proof.
  split_and!; try agree. split; [accepts|]. split; [exact list_response_writes|exact list_inverse].
Qed.

Ltac errors := split;
  [by intros []|let g := fresh "g" in intros g; destruct g;
   first [by right; eexists|left;
     match goal with |- ∃ e : ?E, ?g = project_error e =>
       first [by unshelve eexists; [constructor 1|] | by unshelve eexists; [constructor 2|]
             |by unshelve eexists; [constructor 3|] | by unshelve eexists; [constructor 4|]
             |by unshelve eexists; [constructor 5|] | by unshelve eexists; [constructor 6|]
             |by unshelve eexists; [constructor 7|] | by unshelve eexists; [constructor 8|]
             |by unshelve eexists; [constructor 9|] | by unshelve eexists; [constructor 10|]] end]].

Lemma errors_agree :
  same_errors CreateServiceAccountError.t CreateError.t
  ∧ same_errors GetServiceAccountError.t GetError.t
  ∧ same_errors ListServiceAccountsError.t ListError.t
  ∧ same_errors RotateServiceAccountSecretError.t RotateSecretError.t
  ∧ same_errors RevokeServiceAccountError.t RevokeError.t
  ∧ same_errors ExchangeServiceAccountSecretError.t ExchangeSecretError.t.
Proof. split_and!; errors. Qed.

(** The identity and the operations of an endpoint are those of the contract. *)
Definition serves `{Platform} (capability : Capability) (endpoint : NativeRequestEndpoint) : Prop :=
  capability_id endpoint = id capability +:+ "@" +:+ major capability
  ∧ descriptor_version endpoint = version capability
  ∧ operations endpoint ≡ₚ map operation (declared capability).

(** C38: the generated types implement the contract sources: every object the contract allows is
    read by the generated type as the same value, everything the generated type writes is
    allowed by the contract, the known domain errors are the contract's under the snake-case
    names of its variants, and the endpoints serve the contract's capability, version and
    operations. *)
Theorem contracts_match_their_projection :
  (agrees contract_source.CreateServiceAccountRequest CreateServiceAccountRequest
   ∧ agrees contract_source.GetServiceAccountRequest GetServiceAccountRequest
   ∧ agrees contract_source.ListServiceAccountsRequest ListServiceAccountsRequest
   ∧ agrees contract_source.RotateServiceAccountSecretRequest RotateServiceAccountSecretRequest
   ∧ agrees contract_source.RevokeServiceAccountRequest RevokeServiceAccountRequest
   ∧ agrees contract_source.ExchangeServiceAccountSecretRequest ExchangeServiceAccountSecretRequest)
  ∧ (agrees contract_source.CreateServiceAccountResponse CreateServiceAccountResponse
     ∧ agrees contract_source.GetServiceAccountResponse GetServiceAccountResponse
     ∧ agrees contract_source.ListServiceAccountsResponse ListServiceAccountsResponse
     ∧ agrees contract_source.RotateServiceAccountSecretResponse RotateServiceAccountSecretResponse
     ∧ agrees contract_source.RevokeServiceAccountResponse RevokeServiceAccountResponse
     ∧ agrees contract_source.ExchangeServiceAccountSecretResponse
         ExchangeServiceAccountSecretResponse)
  ∧ (same_errors CreateServiceAccountError.t CreateError.t
     ∧ same_errors GetServiceAccountError.t GetError.t
     ∧ same_errors ListServiceAccountsError.t ListError.t
     ∧ same_errors RotateServiceAccountSecretError.t RotateSecretError.t
     ∧ same_errors RevokeServiceAccountError.t RevokeError.t
     ∧ same_errors ExchangeServiceAccountSecretError.t ExchangeSecretError.t)
  ∧ (∀ `{Platform} P `{!ManagementProvider P} (provider : P),
       serves ServiceAccount (ServiceAccountEndpoint provider))
  ∧ (∀ `{Platform} P `{!AuthenticationProvider P} (provider : P),
       serves ServiceAccountAuth (AuthServiceAccountEndpoint provider)).
Proof.
  split; [exact requests_agree|]. split; [exact responses_agree|]. split; [exact errors_agree|].
  split; intros; (split; [done|split; [done|]]); [|done].
  simpl. apply (bool_decide_unpack _). by vm_compute.
Qed.
