(* ===== verification/History.v ===== *)
(** * Histories: one idempotency key over many exchanges

    A caller may retry an exchange any number of times, against restarted plug-ins and with
    different secrets. As long as nobody prunes the command row of its key, the credential
    issuer is asked at most once in all of them together. *)
From S2P Require Import Prelude Text Platform Contract Secret Config Database Effects.
From S2P Require Import TxLogic Exec Storage Integrity Statements Accounts RateLimit.
From S2P Require Import Commands Invariants Authorization Management Authentication.
From S2P Require Import Endpoint Access Creation Exchange Operator Issuing.

Open Scope string_scope.
Open Scope list_scope.
Open Scope Z_scope.

(** The row of the key stays, possibly changed. *)
Definition keeps_row (key : command_key) (db db' : Db) : Prop :=
  is_Some (commands db !! key) → is_Some (commands db' !! key).

#[export] Instance keeps_row_preorder key : PreOrder (keeps_row key).
Proof. split; unfold keeps_row; [by intros db ?|]. intros d1 d2 d3; auto. Qed.

Section statements.
Context `{Platform} (key : command_key).

Notation stays := (stmt_preserves (λ _ : Db, True) (keeps_row key)).
Notation keeps := (tx_preserves (λ _ : Db, True) (keeps_row key)).
Notation lasts := (prog_preserves (λ _ : Db, True) (keeps_row key)).

Lemma same_commands_stays {A} (s : Stmt A) :
  (∀ now db x db', s now db = Ok (x, db') → commands db' = commands db) → stays s.
Proof. intros Hs now db x db' _ E. split; [done|]. unfold keeps_row. by rewrite (Hs _ _ _ _ E). Qed.

Lemma command_update_stays key' (f : time → Db → CommandRec → option CommandRec) :
  stays (λ now db, bind_ok (update_row command_check key' (f now db) (commands db))
                     (λ p, Ok (p.1, set_commands p.2 db))).
Proof.
  intros now db n db' _ E. split; [done|].
  apply command_update_inv in E as [(_ & -> & _)|(_ & m & m' & _ & _ & _ & ->)]; [by intros ?|].
  intros Hk. destruct (decide (key = key')) as [->|Hne]; simpl;
    [rewrite lookup_insert_eq|rewrite lookup_insert_ne by done]; [by eexists|done].
Qed.

Lemma insert_command_stays key' h : stays (insert_command key' h).
Proof.
  intros now db x db' _ E. split; [done|].
  apply insert_command_inv in E as [(_ & _ & ->)|(_ & -> & _)]; [|by intros ?].
  intros Hk. destruct (decide (key = key')) as [->|Hne]; simpl;
    [rewrite lookup_insert_eq|rewrite lookup_insert_ne by done]; [by eexists|done].
Qed.
Lemma complete_command_success_stays key' nonce ct : stays (complete_command_success key' nonce ct).
Proof. apply command_update_stays. Qed.
Lemma complete_command_error_stays key' code : stays (complete_command_error key' code).
Proof. apply command_update_stays. Qed.
Lemma mark_command_issuing_stays caller k cid t : stays (mark_command_issuing caller k cid t).
Proof.
  apply (command_update_stays _ (λ _ db r,
    if String.eqb (m_status r) "reserved" && bool_decide (is_Some (credentials db !! cid))
    then Some (issuing t r) else None)).
Qed.
Lemma select_command_stays key' : stays (select_command key').
Proof.
  apply same_commands_stays. intros now db x db'. unfold select_command.
  destruct (commands db !! key'); [|done]. by intros [= _ <-].
Qed.
Lemma select_limit_stays caller : stays (select_limit caller).
Proof.
  apply same_commands_stays. intros now db x db'. unfold select_limit.
  destruct (limits db !! caller); [|done]. by intros [= _ <-].
Qed.
Lemma insert_limit_stays caller t : stays (insert_limit caller t).
Proof.
  apply same_commands_stays. intros now db x db'. unfold insert_limit. destruct (negb _); [done|].
  destruct (limits db !! caller); by intros [= _ <-].
Qed.
Lemma lock_out_limit_stays caller t1 t2 : stays (lock_out_limit caller t1 t2).
Proof. apply same_commands_stays. by intros now db x db' ([n m] & _ & [= _ <-])%bind_ok_Ok. Qed.
Lemma consume_limit_stays caller t n : stays (consume_limit caller t n).
Proof. apply same_commands_stays. by intros now db x db' ([k m] & _ & [= _ <-])%bind_ok_Ok. Qed.
Lemma record_credential_use_stays id t : stays (record_credential_use id t).
Proof. apply same_commands_stays. by intros now db x db' ([k m] & _ & [= _ <-])%bind_ok_Ok. Qed.
Lemma select_credential_stays id : stays (select_credential id).
Proof. apply same_commands_stays. by intros now db x db' [= _ <-]. Qed.
Lemma select_status_stays id : stays (select_account_status id).
Proof. apply same_commands_stays. by intros now db x db' [= _ <-]. Qed.
Lemma select_usable_stays id account t : stays (select_usable_credential id account t).
Proof. apply same_commands_stays. by intros now db x db' [= _ <-]. Qed.

#[local] Hint Resolve insert_command_stays complete_command_success_stays
  complete_command_error_stays mark_command_issuing_stays select_command_stays
  select_limit_stays insert_limit_stays lock_out_limit_stays consume_limit_stays
  record_credential_use_stays select_credential_stays select_status_stays
  select_usable_stays : tx_preserves.

(** The transactions of an exchange other than [prune]. *)
Lemma complete_error_lasts c o k code : keeps (complete_error c o k code).
Proof. unfold complete_error. keep. Qed.
Lemma complete_success_owned_lasts c o k nonce ct : keeps (complete_success_owned c o k nonce ct).
Proof. unfold complete_success_owned, complete_success. keep. Qed.
Lemma load_credential_lasts id : keeps (load_credential id).
Proof. unfold load_credential. keep. Qed.
Lemma reserve_rate_slot_lasts a b c d e : keeps (reserve_rate_slot a b c d e).
Proof. unfold reserve_rate_slot. keep. Qed.
Lemma mark_exchange_issuing_lasts a b c d e : keeps (mark_exchange_issuing a b c d e).
Proof. unfold mark_exchange_issuing. keep. Qed.

#[local] Hint Resolve complete_error_lasts complete_success_owned_lasts load_credential_lasts
  reserve_rate_slot_lasts mark_exchange_issuing_lasts : tx_preserves.
#[local] Hint Resolve tx_preserves_commits : tx_preserves.
#[local] Hint Extern 1 (commits_preserve _ _ _) => apply tx_preserves_commits : commits.

(** Past its prune, an exchange keeps the row. *)
Lemma claim_command_lasts c o k h : lasts (claim_command c o k h).
Proof. unfold claim_command. repeat first [progress auto with tx_preserves typeclass_instances|descend_step]. Qed.
End statements.

#[local] Hint Resolve complete_error_lasts complete_success_owned_lasts load_credential_lasts
  reserve_rate_slot_lasts mark_exchange_issuing_lasts claim_command_lasts
  tx_preserves_commits : row_lasts.
#[local] Hint Extern 1 (PreOrder _) => apply keeps_row_preorder : row_lasts.

Section history.
Context `{Platform} (key : command_key).

Notation lasts := (prog_preserves (λ _ : Db, True) (keeps_row key)).

Ltac row_lasts := repeat first [solve [auto with row_lasts] | descend_step].

Lemma record_error_lasts caller k code : lasts (record_error caller k code).
Proof. unfold record_error. row_lasts. Qed.
Lemma exchange_issue_lasts active ctx caller k aad p : lasts (exchange_issue active ctx caller k aad p).
Proof. unfold exchange_issue, record_error. row_lasts. Qed.

Lemma prune_row ttl env db r db' m :
  run_tx (prune ttl) env db = (r, db') →
  commands db !! key = Some m → prunable (tx_now env) ttl m = false → commands db' !! key = Some m.
Proof.
  intros E Hm Hp. assert (commands (set_commands (filter (λ kr, prunable (tx_now env) ttl kr.2 = false)
    (commands db)) db) !! key = Some m) as Hf by by apply map_lookup_filter_Some.
  unfold run_tx, prune, execute_pool in E. simpl in E.
  destruct (tx_fault env 0) as [[d []]|]; by injection E as _ <-.
Qed.

(** The other tasks keep the row. *)
Definition others_keep (w : World) : Prop := ∀ k d, True → True ∧ keeps_row key d (w_others w k d).

(** An exchange prunes once, and from then on keeps the row. *)
Lemma exchange_prunes_first w n plugin ctx req db x db' t :
  others_keep w → runs w n (exchange_secret plugin ctx req) db x db' t →
  (t = [] ∧ db' = db)
  ∨ ∃ active r d1 t', active_cell plugin = Some active
    ∧ run_tx (prune (receipt_ttl_seconds (config active))) (w_tx w n) (w_others w n db) = (r, d1)
    ∧ t = EvSql (w_others w n db) d1 :: t' ∧ keeps_row key d1 db'
    ∧ ∀ d d', EvSql d d' ∈ t' → keeps_row key d' db'.
Proof.
  intros Hw E. unfold exchange_secret in E. cbv zeta in E.
  prog_step E as Hact; [by left|]. apply ok_or_Ok in Hact.
  destruct (allowed_caller _ _) as [caller|]; [|prog_step E as Hr; by left].
  destruct (_ || _) in E; [prog_step E as Hr; by left|]. right.
  apply step_tx in E as (r & d1 & t' & Hprune & -> & E). do 4 eexists.
  split; [exact Hact|]. split; [exact Hprune|]. split; [done|].
  destruct r as [[]|e].
  2: { destruct E as (_ & -> & ->). split; [by intros ?|]. by intros ? ? ?%not_elem_of_nil. }
  assert (∀ A (p : prog A) y, runs w (S n) p d1 y db' t' → lasts p → keeps_row key d1 db'
    ∧ ∀ d d', EvSql d d' ∈ t' → keeps_row key d' db') as Hlast.
  { intros A p y Ep Hp.
    split; [by destruct (runs_preserves _ _ _ _ _ _ _ _ _ Hw Hp Logic.I Ep)|].
    intros d d' Hin.
    by destruct (runs_preserves_trace _ _ _ _ _ _ _ _ _ _ _ Hw Hp Logic.I Ep Hin) as (_&_&_&_&?). }
  eapply Hlast; [exact E|]. unfold exchange_issue, record_error. row_lasts.
Qed.

(** ** One key, one issue *)

Notation asked ctx caller req :=
  (key = (caller, EXCHANGE_SECRET_OPERATION, exchange_idempotency_key req)
   ∧ caller_instance ctx = Some caller).

(** Asking leaves the row behind. *)
Lemma asking_leaves_row w n plugin ctx caller req db x db' t r :
  asked ctx caller req → others_keep w →
  runs w n (exchange_secret plugin ctx req) db x db' t → issues t r → is_Some (commands db' !! key).
Proof.
  intros [Hkey Hc] Hw E Hin.
  destruct (exchange_asks _ _ _ _ _ _ _ _ _ _ E Hin)
    as (active & c & _ & [Hc' _]%allowed_caller_Some & _ & A).
  rewrite Hc in Hc'. injection Hc' as <-.
  destruct A as [intent d0 d1 d2 d3 t1 t2 n' cid id at_time p _ -> _ _ _ Hmark _].
  destruct (exchange_prunes_first _ _ _ _ _ _ _ _ _ Hw E)
    as [[? _]|(? & ? & ? & t' & _ & _ & Ht & _ & Hlast)]; [done|].
  injection Ht as -> -> <-. eapply (Hlast d2 d3); [set_solver|].
  rewrite Hkey. inversion Hmark. subst. simpl. rewrite lookup_insert_eq. by eexists.
Qed.

(** A row that is not pruned blocks the issuer and stays. *)
Lemma row_blocks_asking w n plugin ctx caller req db x db' t m :
  asked ctx caller req → others_keep w →
  commands (w_others w n db) !! key = Some m →
  (∀ active, active_cell plugin = Some active →
     prunable (tx_now (w_tx w n)) (receipt_ttl_seconds (config active)) m = false) →
  is_Some (commands db !! key) →
  runs w n (exchange_secret plugin ctx req) db x db' t →
  (∀ r, ¬ issues t r) ∧ is_Some (commands db' !! key).
Proof.
  intros [Hkey Hc] Hw Hm Hp Hdb E.
  destruct (exchange_prunes_first _ _ _ _ _ _ _ _ _ Hw E)
    as [[-> ->]|(active & r0 & d1 & t' & Hact & Hprune & -> & Hrow & _)].
  { split; [|done]. intros r Hin. by apply not_elem_of_nil in Hin. }
  specialize (Hp _ Hact). eapply prune_row in Hprune; [|done..].
  split; [|apply Hrow; by eexists].
  intros r Hin. destruct (exchange_asks _ _ _ _ _ _ _ _ _ _ E Hin)
    as (active' & c & _ & [Hc' _]%allowed_caller_Some & _ & A).
  rewrite Hc in Hc'. injection Hc' as <-.
  destruct A as [intent d0 d2 d3 d4 t1 t2 n' cid id at_time p _ Ht _ Hfree _ _ _].
  injection Ht as _ <- _. rewrite <-Hkey in Hfree.
  destruct (Hw (S n) d1) as [_ Hkeep]; [done|].
  destruct Hkeep as [m' Hm']; [by eexists|]. naive_solver congruence.
Qed.

(** A sequence of exchanges with one key, in any worlds and by plug-ins of any configuration.
    Between them and while they run, other tasks may do anything but drop the row, and no
    exchange starts when the row has become prunable. *)
Inductive history : Db → list event → Db → Prop :=
  | history_nil db : history db [] db
  | history_others db d t db' : keeps_row key db d → history d t db' → history db t db'
  | history_exchange w n plugin ctx caller req db x d t t' db' :
      asked ctx caller req → others_keep w →
      (∀ active m, active_cell plugin = Some active →
         commands (w_others w n db) !! key = Some m →
         prunable (tx_now (w_tx w n)) (receipt_ttl_seconds (config active)) m = false) →
      runs w n (exchange_secret plugin ctx req) db x d t →
      history d t' db' → history db (t ++ t') db'.

Lemma blocked_history db t db' : history db t db' → is_Some (commands db !! key) → ∀ r, ¬ issues t r.
Proof.
  induction 1 as [db|db d t db' Hd _ IH|w n plugin ctx caller req db x d t t' db' Ha Hw Hp E _ IH];
    intros Hrow r Hin; [by apply not_elem_of_nil in Hin|by eapply IH; [apply Hd|]|].
  destruct (Hw n db) as [_ Hkeep]; [done|]. destruct (Hkeep Hrow) as [m Hm].
  eapply row_blocks_asking in E as [Hno Hd]; [|done..|by intros; eapply Hp|done].
  apply elem_of_app in Hin as [Hin|Hin]; [by eapply Hno|by eapply IH].
Qed.

(** C9: in any history of exchanges with one idempotency key of one caller - retried in any
    worlds, with any secrets, by plug-ins of any configuration and with any other tasks in
    between - the credential issuer is asked at most once, as long as nobody drops the command
    row and no exchange starts when it has become prunable. *)
Theorem one_key_asks_at_most_once db t db' r :
  history db t db' → issues t r → splits t r.
Proof.
  induction 1 as [db|db d t db' _ _ IH|w n plugin ctx caller req db x d t t' db' Ha Hw Hp E Hh IH];
    intros Hin; [by apply not_elem_of_nil in Hin|by apply IH|].
  assert (∀ r0, issues t r0 → ∀ r', ¬ issues t' r') as Hlater.
  { intros r0 H0. eapply blocked_history; [exact Hh|]. by eapply asking_leaves_row. }
  apply elem_of_app in Hin as [Hin|Hin].
  - destruct (runs_issue_once _ _ _ _ _ _ _ _ (exchange_issue_once _ _ _) E Hin)
      as (t1 & t2 & -> & Hno).
    exists t1, (t2 ++ t'). split; [by rewrite <-app_assoc|]. intros r'. split; [apply Hno|].
    intros [H2|H2]%elem_of_app; [by apply (Hno r')|exact (Hlater _ Hin _ H2)].
  - destruct (IH Hin) as (t1 & t2 & -> & Hno). exists (t ++ t1), t2.
    split; [by rewrite app_assoc|]. intros r'. split; [|apply Hno].
    intros [H1|H1]%elem_of_app; [by apply (Hlater _ H1 r)|exact (proj1 (Hno r') H1)].
Qed.
End history.
