(* ===== verification/Testbed.v ===== *)
(** * Testbed: a concrete platform, a configured plug-in and a reliable world

    An instance of [Platform] whose functions compute, with every law class discharged; the
    properties that rest on those laws are instantiated on it in [Witnesses.v].  The digest,
    the cipher and the password hash stand in for the real ones: they satisfy the documented
    laws and nothing more.  base64 is the real encoding. *)
From Stdlib Require Import Ascii.
From S2P Require Import Prelude Text Platform Contract Secret Config Database Effects.
From S2P Require Import Storage Authorization Management Authentication.

Open Scope string_scope.
Open Scope list_scope.
Open Scope Z_scope.

(** ** base64, URL-safe, without padding *)

Definition base64_digit (z : Z) : Ascii.ascii :=
  Ascii.ascii_of_N (Z.to_N (
    if z <? 26 then 65 + z else if z <? 52 then 71 + z else if z <? 62 then z - 4
    else if z =? 62 then 45 else 95)).

Fixpoint base64_chars (l : list ascii) : list ascii :=
  match l with
  | a :: b :: c :: r =>
      let a := byte_val a in let b := byte_val b in let c := byte_val c in
      base64_digit (a / 4) :: base64_digit (a mod 4 * 16 + b / 16)
      :: base64_digit (b mod 16 * 4 + c / 64) :: base64_digit (c mod 64) :: base64_chars r
  | [a; b] =>
      let a := byte_val a in let b := byte_val b in
      [base64_digit (a / 4); base64_digit (a mod 4 * 16 + b / 16); base64_digit (b mod 16 * 4)]
  | [a] => let a := byte_val a in [base64_digit (a / 4); base64_digit (a mod 4 * 16)]
  | [] => []
  end.

Example base64_ex :
  of_chars (base64_chars (chars "light work.")) = "bGlnaHQgd29yay4".
Proof. vm_compute. reflexivity. Qed.

#[local] Ltac Zify.zify_post_hook ::= Z.to_euclidean_division_equations.

Lemma list_ind3 {A} (P : list A → Prop) :
  P [] → (∀ a, P [a]) → (∀ a b, P [a; b]) → (∀ a b c l, P l → P (a :: b :: c :: l)) → ∀ l, P l.
Proof.
  intros H0 H1 H2 H3. fix IH 1. intros [|a [|b [|c l]]]; [done|apply H1|apply H2|apply H3, IH].
Qed.

Lemma base64_digit_ok z : 0 ≤ z < 64 → base64_byte (base64_digit z) = true.
Proof.
  intros Hz. assert (Z.to_nat z ∈ seq 0 64) as Hin by (apply elem_of_seq; lia).
  assert (Forall (λ n, base64_byte (base64_digit (Z.of_nat n)) = true) (seq 0 64)) as Hall.
  { apply Forall_forall. rewrite <-Forall_forall. repeat constructor. }
  rewrite Forall_forall in Hall. specialize (Hall _ Hin). by rewrite Z2Nat.id in Hall by lia.
Qed.

Lemma base64_chars_ok l :
  Forall (λ c, base64_byte c = true) (base64_chars l)
  ∧ Z.of_nat (length (base64_chars l)) = (4 * Z.of_nat (length l) + 2) / 3.
Proof.
  induction l as [|a|a b|a b c l [IH1 IH2]] using list_ind3.
  all: cbn [base64_chars length].
  - split; [constructor|reflexivity].
  - assert (Ha := byte_val_range a). split; [|reflexivity].
    repeat (apply Forall_cons; split; [apply base64_digit_ok; lia|]). constructor.
  - assert (Ha := byte_val_range a). assert (Hb := byte_val_range b). split; [|reflexivity].
    repeat (apply Forall_cons; split; [apply base64_digit_ok; lia|]). constructor.
  - assert (Ha := byte_val_range a). assert (Hb := byte_val_range b).
    assert (Hc := byte_val_range c). split; [|lia].
    repeat (apply Forall_cons; split; [apply base64_digit_ok; lia|]). done.
Qed.

(** ** A digest of 32 bytes: exclusive-or over a rotating state *)

Definition xor_byte (a b : ascii) : Ascii.ascii :=
  match a, b with
  | Ascii a0 a1 a2 a3 a4 a5 a6 a7, Ascii b0 b1 b2 b3 b4 b5 b6 b7 =>
      Ascii (xorb a0 b0) (xorb a1 b1) (xorb a2 b2) (xorb a3 b3) (xorb a4 b4) (xorb a5 b5)
        (xorb a6 b6) (xorb a7 b7)
  end.
Fixpoint absorb (l state : list ascii) : list ascii :=
  match l with
  | [] => state
  | c :: r => match state with s :: st => absorb r (st ++ [xor_byte s c]) | [] => state end
  end.

Lemma absorb_length l state : length (absorb l state) = length state.
Proof.
  revert state. induction l as [|c l IH]; intros [|s st]; simpl; try done.
  rewrite IH, length_app. simpl. lia.
Qed.

(** ** JSON: a postfix code, read back by a stack machine

    A quoted byte goes to the buffer; a letter builds a value; [,] and [:] append the value on
    top of the stack to the array or object below it. *)

Definition quoted (s : string) : list ascii := flat_map (λ c, ["'"%char; c]) (chars s).

Fixpoint json_code (v : json) : list ascii :=
  match v with
  | JNull => ["n"%char]
  | JBool b => [if b then "t"%char else "f"%char]
  | JNumber s => quoted s ++ ["#"%char]
  | JString s => quoted s ++ ["s"%char]
  | JArray l => "["%char :: flat_map (λ v, json_code v ++ [","%char]) l
  | JObject l => "{"%char :: flat_map (λ kv, json_code kv.2 ++ quoted kv.1 ++ [":"%char]) l
  end.

Definition json_op (op : ascii) (stack : list json) (buffer : list ascii) :
    option (list json * list ascii) :=
  let text := of_chars (reverse buffer) in
  if Ascii.eqb op "n" then Some (JNull :: stack, buffer)
  else if Ascii.eqb op "t" then Some (JBool true :: stack, buffer)
  else if Ascii.eqb op "f" then Some (JBool false :: stack, buffer)
  else if Ascii.eqb op "#" then Some (JNumber text :: stack, [])
  else if Ascii.eqb op "s" then Some (JString text :: stack, [])
  else if Ascii.eqb op "[" then Some (JArray [] :: stack, buffer)
  else if Ascii.eqb op "{" then Some (JObject [] :: stack, buffer)
  else if Ascii.eqb op "," then
    match stack with v :: JArray l :: st => Some (JArray (l ++ [v]) :: st, buffer) | _ => None end
  else if Ascii.eqb op ":" then
    match stack with v :: JObject l :: st => Some (JObject (l ++ [(text, v)]) :: st, []) | _ => None end
  else None.

Fixpoint json_exec (code : list ascii) (stack : list json) (buffer : list ascii) : option json :=
  match code with
  | [] => match stack with [v] => Some v | _ => None end
  | op :: r =>
      if Ascii.eqb op "'" then
        match r with c :: r' => json_exec r' stack (c :: buffer) | [] => None end
      else
        match json_op op stack buffer with
        | Some (stack', buffer') => json_exec r stack' buffer'
        | None => None
        end
  end.

Lemma json_exec_quoted s rest stack buffer :
  json_exec (quoted s ++ rest) stack buffer = json_exec rest stack (reverse (chars s) ++ buffer).
Proof.
  unfold quoted. revert buffer. induction (chars s) as [|c l IH]; intros buffer; [done|].
  cbn [flat_map app]. cbn [json_exec]. cbn [Ascii.eqb]. simpl. rewrite IH.
  by rewrite reverse_cons, <-app_assoc.
Qed.

Lemma json_exec_code : ∀ v rest stack,
  json_exec (json_code v ++ rest) stack [] = json_exec rest (v :: stack) [].
Proof.
  fix IH 1. intros v rest stack. destruct v as [|[]|s|s|l|l]; [done|done|done| | | |].
  - cbn [json_code]. rewrite <-app_assoc, json_exec_quoted. cbn. 
    rewrite app_nil_r, reverse_involutive. by rewrite of_chars_chars.
  - cbn [json_code]. rewrite <-app_assoc, json_exec_quoted. cbn.
    rewrite app_nil_r, reverse_involutive. by rewrite of_chars_chars.
  - assert (∀ acc, json_exec (flat_map (λ v, json_code v ++ [","%char]) l ++ rest)
                     (JArray acc :: stack) [] = json_exec rest (JArray (acc ++ l) :: stack) []) as Hl.
    { induction l as [|v l IHl]; intros acc; [by rewrite app_nil_r|].
      cbn [flat_map]. rewrite <-!app_assoc, IH. cbn. rewrite IHl. by rewrite <-app_assoc. }
    apply (Hl []).
  - assert (∀ acc, json_exec (flat_map (λ kv, json_code kv.2 ++ quoted kv.1 ++ [":"%char]) l ++ rest)
                     (JObject acc :: stack) [] = json_exec rest (JObject (acc ++ l) :: stack) []) as Hl.
    { induction l as [|[k v] l IHl]; intros acc; [by rewrite app_nil_r|].
      cbn [flat_map fst snd]. rewrite <-!app_assoc, IH, json_exec_quoted. cbn.
      rewrite app_nil_r, reverse_involutive, of_chars_chars, IHl. by rewrite <-app_assoc. }
    apply (Hl []).
Qed.

(** ** Byte order on texts, the [C] collation *)

Fixpoint bytes_ltb (l m : list ascii) : bool :=
  match l, m with
  | _, [] => false
  | [], _ :: _ => true
  | a :: l, b :: m =>
      (byte_val a <? byte_val b) || ((byte_val a =? byte_val b) && bytes_ltb l m)
  end.

Lemma bytes_ltb_irrefl l : bytes_ltb l l = false.
Proof. induction l as [|a l IH]; [done|]. simpl. by rewrite Z.ltb_irrefl, Z.eqb_refl, IH. Qed.

Lemma bytes_ltb_trans l m r : bytes_ltb l m = true → bytes_ltb m r = true → bytes_ltb l r = true.
Proof.
  revert m r. induction l as [|a l IH]; intros [|b m] [|c r]; simpl; try done.
  rewrite !orb_true_iff, !andb_true_iff, !Z.ltb_lt, !Z.eqb_eq.
  intros [?|[? Hl]] [?|[? Hm]]; [left; lia..|]. right. split; [lia|by eapply IH].
Qed.

Lemma bytes_ltb_total l m : bytes_ltb l m = false → bytes_ltb m l = false → l = m.
Proof.
  revert m. induction l as [|a l IH]; intros [|b m]; simpl; try done.
  rewrite !orb_false_iff, !andb_false_iff, !Z.ltb_ge, !Z.eqb_neq. intros [? H1] [? H2].
  assert (byte_val a = byte_val b) as E by lia. destruct H1 as [?|H1], H2 as [?|H2]; try lia.
  f_equal; [by apply byte_val_inj|by apply IH].
Qed.

(** ** The platform *)

(** A context: the authenticated caller, and an assertion issued for one capability and one
    operation. *)
Record Context := {
  ctx_caller : option string;
  ctx_assertion : option (string * string * ActorAssertion) }.

Definition context_assertion (ctx : Context) (capability operation : string) : option ActorAssertion :=
  match ctx_assertion ctx with
  | Some (c, o, a) => if String.eqb c capability && String.eqb o operation then Some a else None
  | None => None
  end.

Definition ARGON2ID : string := "$argon2id$v=19$".

#[export] Instance testbed : Platform := {
  InvocationContext := Context;
  caller_instance := ctx_caller;
  ActorAssertionVerifier := string * string;
  from_public_key_base64 issuer key := Some (issuer, key);
  verified_assertion _ ctx capability operation _ := context_assertion ctx capability operation;
  schema_plan_new s := if valid_token s 63 then Ok tt else Err "invalid schema";
  base64_encode b := of_chars (base64_chars (chars b));
  sha256 b := of_chars (absorb (chars b) (repeat Ascii.zero 32));
  aes_gcm_encrypt key nonce msg aad := Some (key +:+ nonce +:+ aad +:+ msg);
  aes_gcm_decrypt key nonce ct aad := strip_prefix (key +:+ nonce +:+ aad) ct;
  salt_encode_b64 b := Ok (of_chars (base64_chars (chars b)));
  argon2id_hash input _ := Ok (ARGON2ID +:+ input);
  password_hash_algorithm v :=
    match strip_prefix ARGON2ID v with Some _ => Some "argon2id" | None => None end;
  argon2id_verify input v := String.eqb (ARGON2ID +:+ input) v;
  json_to_vec v := Ok (of_chars (json_code v));
  json_from_slice b := ok_or (json_exec (chars b) [] []) "invalid JSON";
  rfc3339_format t := if (0 <=? t) && (t <=? i64_max) then Ok (to_string t) else Err "out of range";
  rfc3339_parse := parse_i64;
  text_ltb x y := bytes_ltb (chars x) (chars y) }.

#[export] Instance testbed_cipher : CipherLaws.
Proof.
  split. intros key nonce msg aad ct. cbn. intros [= <-]. apply strip_prefix_Some.
  by rewrite !str_app_assoc.
Qed.

#[export] Instance testbed_json : JsonLaws.
Proof.
  split. intros v b _. cbn. intros [= <-]. rewrite chars_of_chars, <-(app_nil_r (json_code v)).
  by rewrite json_exec_code.
Qed.

#[export] Instance testbed_base64 : Base64Laws.
Proof.
  split; intros b; cbn; destruct (base64_chars_ok (chars b)) as [H1 H2].
  - by apply all_bytes_forall; rewrite chars_of_chars.
  - by rewrite len_chars, chars_of_chars, H2, <-len_chars.
Qed.

#[export] Instance testbed_password : PasswordLaws.
Proof.
  split. intros input salt v. cbn. intros [= <-]. split; [by apply String.eqb_eq|reflexivity].
Qed.

#[export] Instance testbed_digest : DigestLaws.
Proof. split. intros b. cbn. by rewrite len_chars, chars_of_chars, absorb_length. Qed.

#[export] Instance testbed_collation : CollationLaws.
Proof.
  split; cbn.
  - intros x. apply bytes_ltb_irrefl.
  - intros x y z. apply bytes_ltb_trans.
  - intros x y H1 H2. by apply chars_inj, bytes_ltb_total.
Qed.

#[export] Instance testbed_time : TimeLaws.
Proof.
  split. intros t s. cbn. destruct (_ && _) eqn:E; [|done]. intros [= <-]. bool_prop.
  by apply parse_i64_to_string.
Qed.

(** ** A configured plug-in *)

Definition bot_config : ServiceAccountConfig := {|
  schema := "service_accounts";
  database_url_secret := "sa.database"; credential_pepper_secret := "sa.pepper";
  receipt_encryption_key_secret := "sa.receipt";
  directory_provider := "directory"; auth_issuer := "auth"; auth_public_key := "key";
  management_callers := ["admin-api"]; authentication_callers := ["edge"];
  token_audience := ["api"];
  credential_ttl_seconds := 3600; rotation_overlap_seconds := 60; token_ttl_seconds := 300;
  receipt_ttl_seconds := 600; exchange_window_seconds := 60; max_exchanges_per_window := 2;
  exchange_lockout_seconds := 30; max_page_size := 10; max_accounts_per_organization := 3 |}.

Definition bot_active : ActiveServiceAccount := {|
  config := bot_config; pepper := "pepper"; receipt_cipher := derive "receipt key";
  actor_verifier := ("auth", "key"); dummy_verifier := ARGON2ID +:+ "dummy" |}.
Definition bot_plugin : ServiceAccountPlugin := {| active_cell := Some bot_active |}.

(** An administrator's call of a management operation, and the edge's call. *)
Definition admin_assertion : ActorAssertion :=
  {| actor_kind := "user"; assertion_subject := "user-1" |}.
Definition admin (operation : string) : InvocationContext :=
  Build_Context (Some "admin-api") (Some (CAPABILITY_ID, operation, admin_assertion)).
Definition edge : InvocationContext := Build_Context (Some "edge") None.
Definition admin_authorized : AuthorizedManagement :=
  {| caller := "admin-api"; actor_subject := "user-1" |}.

(** ** A world without failures and rivals, from a given time on *)

Definition letter (n : nat) : Ascii.ascii := Ascii.ascii_of_nat (97 + n mod 26).
Definition fill (n size : nat) : string := of_chars (repeat (letter n) size).

Definition quiet (start : time) (n : nat) : TxEnv := {|
  tx_now := start + Z.of_nat n; tx_clock := start + Z.of_nat n;
  tx_random := Ok (fill n 12); tx_fault := λ _, None; tx_text := "" |}.

Definition calm_world (start : time) (seed : nat) : World := {|
  w_clock n := start + Z.of_nat n;
  w_random n size := Ok (fill (seed + n) size);
  w_tx n := quiet start n;
  w_others _ d := d;
  w_ensure _ req := Ok {| ensured_subject := "subject:" +:+ external_subject req |};
  w_status _ req := Ok {| status_subject := read_status_subject req; status_status := DirectoryActive |};
  w_issue _ req := Ok {| session_id := "session"; session_credential := "token";
                         session_expires_at := issue_expires_at req |};
  w_member _ _ := Ok {| membership_active := true |};
  w_permission _ _ := Ok {| permission_allowed := true |} |}.

(** The same world, except that the issuer cannot be reached. *)
Definition silent_world (start : time) (seed : nat) : World :=
  let w := calm_world start seed in {|
  w_clock := w_clock w; w_random := w_random w; w_tx := w_tx w; w_others := w_others w;
  w_ensure := w_ensure w; w_status := w_status w;
  w_issue _ _ := Err (Runtime (Unavailable "lenso.auth.credential-issuer@1"));
  w_member := w_member w; w_permission := w_permission w |}.

(** ** A scenario: create, exchange, rotate, revoke *)

Section outcomes.
Context `{Platform} {A : Type}.
Definition outcome (w : World) (p : prog A) (db : Db) : A := (run w 0 p db).1.1.
Definition tables (w : World) (p : prog A) (db : Db) : Db := (run w 0 p db).1.2.
Definition events (w : World) (p : prog A) (db : Db) : list event := (run w 0 p db).2.

Lemma runs_outcome w p db x : outcome w p db = x → runs w 0 p db x (tables w p db) (events w p db).
Proof. unfold outcome, runs, tables, events. intros <-. by destruct (run w 0 p db) as [[? ?] ?]. Qed.
Lemma runs_to w p db x db' :
  outcome w p db = x → tables w p db = db' → runs w 0 p db x db' (events w p db).
Proof. intros Hx <-. by apply runs_outcome. Qed.
End outcomes.

Definition bot_request : CreateServiceAccountRequest := {|
  create_idempotency_key := "k1"; create_name := " Release bot "; create_organization_id := "org-1" |}.
Definition w_created : World := calm_world 1000000000 0.
Definition create_bot : prog (Outcome CreateServiceAccountResponse CreateError.t) :=
  create bot_plugin (admin CREATE_OPERATION) bot_request.
Definition db_created : Db := tables w_created create_bot empty_db.

Definition bot_id : string := "sa_ZmZmZmZmZmZmZmZmZmZmZmZmZmZmZmZm".
Definition bot_secret : string :=
  "lenso_sa_sac_aGhoaGhoaGhoaGhoaGhoaGho.aWlpaWlpaWlpaWlpaWlpaWlpaWlpaWlpaWlpaWlpaWk".

Definition exchange_request : ExchangeServiceAccountSecretRequest :=
  {| exchange_idempotency_key := "x1"; exchange_secret_text := bot_secret |}.
Definition w_exchanged : World := calm_world 1100000000 3.
Definition exchange_bot : prog (Outcome ExchangeServiceAccountSecretResponse ExchangeSecretError.t) :=
  exchange_secret bot_plugin edge exchange_request.
Definition db_exchanged : Db := tables w_exchanged exchange_bot db_created.

Definition rotate_request : RotateServiceAccountSecretRequest := {|
  rotate_expected_revision := "1"; rotate_idempotency_key := "k2";
  rotate_organization_id := "org-1"; rotate_service_account_id := bot_id |}.
Definition w_rotated : World := calm_world 1200000000 7.
Definition rotate_bot : prog (Outcome RotateServiceAccountSecretResponse RotateSecretError.t) :=
  rotate_secret bot_plugin (admin ROTATE_SECRET_OPERATION) rotate_request.
Definition db_rotated : Db := tables w_rotated rotate_bot db_created.

Definition revoke_request : RevokeServiceAccountRequest := {|
  revoke_expected_revision := "1"; revoke_idempotency_key := "k3";
  revoke_organization_id := "org-1"; revoke_service_account_id := bot_id |}.
Definition w_revoked : World := calm_world 1300000000 11.
Definition revoke_bot : prog (Outcome RevokeServiceAccountResponse RevokeError.t) :=
  revoke bot_plugin (admin REVOKE_OPERATION) revoke_request.
Definition db_revoked : Db := tables w_revoked revoke_bot db_created.

Definition list_request : ListServiceAccountsRequest :=
  {| list_after := None; list_limit := "1"; list_organization_id := "org-1" |}.
Definition list_bots : prog (Outcome ListServiceAccountsResponse ListError.t) :=
  list_ bot_plugin (admin LIST_OPERATION) list_request.

(** A second account in the same organization. *)
Definition second_request : CreateServiceAccountRequest := {|
  create_idempotency_key := "k4"; create_name := "Deploy bot"; create_organization_id := "org-1" |}.
Definition w_second : World := calm_world 1050000000 1.
Definition create_second : prog (Outcome CreateServiceAccountResponse CreateError.t) :=
  create bot_plugin (admin CREATE_OPERATION) second_request.
Definition db_second : Db := tables w_second create_second db_created.
