(* ===== verification/Wiring.v ===== *)
(** * Wiring: a kernel that boxes requests, and dependencies bound to the plug-in

    An instance of [Kernel] that satisfies [KernelLaws], and the dependencies of a component
    whose capabilities are both provided by the plug-in of [Testbed]. *)
From S2P Require Import Prelude Text Platform Contract Secret Config Database Effects.
From S2P Require Import Authorization Management Authentication Endpoint Dispatch Clients Testbed.

Open Scope string_scope.
Open Scope list_scope.
Open Scope Z_scope.

(** Boxed answers of other types break the protocol. *)
Definition unbox (C : CapabilityTypes) (out : Outcome AnyValue AnyValue) :
    Outcome (Response C) (DomainError C) :=
  match out with
  | Ok (Ok v) => match downcast_response C v with
                 | Some r => Ok (Ok r) | None => Err (ProtocolViolation (ID C)) end
  | Ok (Err v) => match downcast_error C v with
                  | Some e => Ok (Err e) | None => Err (ProtocolViolation (ID C)) end
  | Err e => Err e
  end.

#[export] Instance boxing_kernel : Kernel := {
  invoke_typed_or_erased_native_request C endpoint operation request context :=
    pbind (endpoint_invoke endpoint operation (any_request C request) context)
          (λ out, Ret (unbox C out)) }.

#[export] Instance boxing_kernel_laws : KernelLaws.
Proof.
  split. intros C endpoint operation request context answer _ E. simpl. rewrite E.
  unfold boxed_answers, boxed. rewrite pbind_assoc. etransitivity; [|apply pbind_ret].
  apply pbind_proper; [done|]. intros [[r|e]|f]; simpl; [| |done].
  - by rewrite downcast_any_response.
  - by rewrite downcast_any_error.
Qed.

(** The endpoints of the plug-in, behind a proxy that only forwards boxes. *)
Definition bot_endpoint : NativeRequestEndpoint := erase (ServiceAccountEndpoint bot_plugin).
Definition bot_auth_endpoint : NativeRequestEndpoint := erase (AuthServiceAccountEndpoint bot_plugin).

(** A handle that sends boxes; invocations without a context of their own are refused, as by a
    kernel whose admission queue is full. *)
Definition boxing_handle (C : CapabilityTypes) : NativeRequestHandle C :=
  let endpoint := if String.eqb (ID C) CAPABILITY_ID then bot_endpoint else bot_auth_endpoint in {|
  handle_invoke op req := Ret (Err (Unavailable (ID C)));
  handle_invoke_with_context op ctx req := invoke_typed_or_erased_native_request C endpoint op req ctx |}.

Inductive BotDependencies := bot_dependencies.
Definition boxing_binding (capability : string) : Binding := {|
  binding_capability_id := capability; provider_instance := "service-accounts";
  binding_handle := Some {| typed C := Ok (boxing_handle C) |} |}.
#[export] Instance bot_deps : Dependencies BotDependencies := {
  one _ C := Ok (boxing_handle C);
  requirement d _ := Ok d;
  bindings _ := [boxing_binding AUTH_CAPABILITY_ID; boxing_binding CAPABILITY_ID] }.

Ltac boxing_bound :=
  split; [intros op ctx req; apply exactly_delivers|intros op req; exists edge; apply refusal_delivers];
  unfold invoke_native; simpl;
  unfold create_capability, get_capability, list_capability, revoke_capability, rotate_capability,
    exchange_capability, create_invoke_native, get_invoke_native, list_invoke_native,
    revoke_invoke_native, rotate_secret_invoke_native, exchange_invoke_native; simpl;
  by destruct (negb _).

Lemma boxing_finds :
  finds delivered (λ C, Ok (boxing_handle C)) bot_endpoint
  ∧ auth_finds delivered (λ C, Ok (boxing_handle C)) bot_auth_endpoint.
Proof. split; [split_and!|]; intros h [= <-]; boxing_bound. Qed.
