(* ===== verification/Witnesses.v ===== *)
(** * Witnesses: the properties at concrete inputs

    Each lemma applies one property to an execution of [Testbed], where its hypotheses hold
    by evaluation. *)
From S2P Require Import Prelude Text Platform Contract DomainErrors Secret Config.
From S2P Require Import Database Effects TxLogic Exec Storage Integrity Statements.
From S2P Require Import Validation Commands Accounts RateLimit Completeness Invariants.
From S2P Require Import Authorization Management Authentication Endpoint Access Listing.
From S2P Require Import Creation Rotation Revocation Exchange Availability Operator Issuing History.
From S2P Require Import Lifecycle Wire Dispatch Clients Redaction Testbed Wiring.

Open Scope string_scope.
Open Scope list_scope.
Open Scope Z_scope.

(** ** The worlds and tables of the scenario *)

Lemma calm_world_calm start seed : calm (calm_world start seed).
Proof. by split. Qed.
Lemma calm_world_respects start seed : respects_claims (calm_world start seed).
Proof. by intros k d key m. Qed.
Lemma calm_world_rivals max start seed : rivals_ok max (calm_world start seed).
Proof. by intros k d Hd; split. Qed.
Lemma calm_world_fills start seed : fills (calm_world start seed).
Proof.
  intros k size b [= <-]. unfold fill. by rewrite len_chars, chars_of_chars, repeat_length.
Qed.
Lemma bot_limited : limited 3 bot_plugin.
Proof. by intros a [= <-]. Qed.
Lemma admin_authorizes start seed op org permission :
  authorized_by (calm_world start seed) 0 bot_active (admin op) op org permission admin_authorized.
Proof.
  split; [split; [done|by apply list_elem_of_singleton]| |done|done].
  exists admin_assertion. split; [|done]. cbn. by rewrite !String.eqb_refl.
Qed.

(** A handler takes healthy tables to healthy, later tables. *)
Lemma calm_tables {A} start seed (p : prog A) db :
  prog_preserves (healthy 3) evolves p → healthy 3 db →
  healthy 3 (tables (calm_world start seed) p db) ∧ evolves db (tables (calm_world start seed) p db).
Proof.
  intros Hp Hdb. eapply (runs_preserves (healthy 3) evolves);
    [apply (calm_world_rivals 3)|exact Hp|exact Hdb|by apply runs_outcome].
Qed.

Lemma empty_ok : healthy 3 empty_db.
Proof. by apply empty_healthy. Qed.
Lemma created_ok : healthy 3 db_created.
Proof. apply calm_tables; [apply create_keeps, bot_limited|apply empty_ok]. Qed.
Lemma second_ok : healthy 3 db_second.
Proof. apply calm_tables; [apply create_keeps, bot_limited|apply created_ok]. Qed.
Lemma exchanged_ok : healthy 3 db_exchanged.
Proof. apply calm_tables; [apply exchange_keeps|apply created_ok]. Qed.
Lemma rotated_ok : healthy 3 db_rotated.
Proof. apply calm_tables; [apply rotate_keeps|apply created_ok]. Qed.
Lemma revoked_ok : healthy 3 db_revoked.
Proof. apply calm_tables; [apply revoke_keeps|apply created_ok]. Qed.

(** ** The responses of the scenario *)

Definition bot_summary (revision expires : string) (rotated revoked : option string)
    (status : ServiceAccountStatus) : ServiceAccountSummary := {|
  s_created_at := "1000000011"; s_credential_expires_at := Some expires; s_name := "Release bot";
  s_organization_id := "org-1"; s_revision := revision; s_revoked_at := revoked;
  s_rotated_at := rotated; s_service_account_id := bot_id; s_status := status;
  s_subject := "subject:org-1:" +:+ bot_id |}.

Definition create_response : CreateServiceAccountResponse := {|
  created_account := bot_summary "1" "4600000010" None None Active;
  created := true; created_secret := Some bot_secret |}.
Definition rotated_bot_secret : string :=
  "lenso_sa_sac_bW1tbW1tbW1tbW1tbW1tbW1t.bm5ubm5ubm5ubm5ubm5ubm5ubm5ubm5ubm5ubm5ubm4".
Definition rotate_response : RotateServiceAccountSecretResponse := {|
  rotated_account := bot_summary "2" "4800000008" (Some "1200000008") None Active;
  rotated := true; rotated_secret := Some rotated_bot_secret |}.
Definition revoke_response : RevokeServiceAccountResponse := {|
  revoked_account := bot_summary "2" "1300000005" None (Some "1300000005") Revoked;
  revoked := true |}.
Definition exchange_response : ExchangeServiceAccountSecretResponse := {|
  x_credential := "token"; x_expires_at := "1400000008"; x_organization_id := "org-1";
  x_service_account_id := bot_id; x_session_id := "session";
  x_subject := "subject:org-1:" +:+ bot_id |}.

Lemma bot_creates :
  runs w_created 0 create_bot empty_db (Ok (Ok create_response)) db_created
    (events w_created create_bot empty_db).
Proof. unfold db_created. apply runs_outcome. by vm_compute. Qed.
Lemma bot_rotates :
  runs w_rotated 0 rotate_bot db_created (Ok (Ok rotate_response)) db_rotated
    (events w_rotated rotate_bot db_created).
Proof. unfold db_rotated. apply runs_outcome. by vm_compute. Qed.
Lemma bot_is_revoked :
  runs w_revoked 0 revoke_bot db_created (Ok (Ok revoke_response)) db_revoked
    (events w_revoked revoke_bot db_created).
Proof. unfold db_revoked. apply runs_outcome. by vm_compute. Qed.
Lemma bot_exchanges :
  runs w_exchanged 0 exchange_bot db_created (Ok (Ok exchange_response)) db_exchanged
    (events w_exchanged exchange_bot db_created).
Proof. unfold db_exchanged. apply runs_outcome. by vm_compute. Qed.

(** ** Requests and the tables *)

Definition create_call : prog (Outcome AnyValue AnyValue) :=
  invoke_management bot_plugin CREATE_OPERATION (AnyCreateRequest bot_request)
    (admin CREATE_OPERATION).
Lemma bot_call :
  runs w_created 0 create_call empty_db (Ok (Ok (AnyCreateResponse create_response)))
    (tables w_created create_call empty_db) (events w_created create_call empty_db).
Proof. apply runs_outcome. by vm_compute. Qed.

Lemma invocations_keep_the_tables_healthy_witness :
  limited 3 bot_plugin ∧ rivals_ok 3 w_created ∧ healthy 3 empty_db
  ∧ healthy 3 (tables w_created create_call empty_db)
  ∧ evolves empty_db (tables w_created create_call empty_db).
Proof.
  split; [apply bot_limited|]. split; [apply (calm_world_rivals 3)|]. split; [apply empty_ok|].
  destruct (invocations_keep_the_tables_healthy 3 bot_plugin bot_limited w_created 0 CREATE_OPERATION
    (AnyCreateRequest bot_request) (admin CREATE_OPERATION) empty_db _ _ _
    (calm_world_rivals 3 _ _) empty_ok (or_introl bot_call)) as (Hh & He & _).
  split; [exact Hh|exact He].
Defined.

Lemma tables_need_the_four_factors_witness :
  ∃ active a, active_cell bot_plugin = Some active
    ∧ authorized_by w_created 0 active (admin CREATE_OPERATION) CREATE_OPERATION "org-1"
        MANAGE_PERMISSION a.
Proof.
  exact (tables_need_the_four_factors w_created 0 bot_plugin CREATE_OPERATION
    (AnyCreateRequest bot_request) (admin CREATE_OPERATION) empty_db _ _ _ bot_call
    (or_intror (ex_intro _ _ eq_refl))).
Defined.

(** ** Create *)

Lemma created_secret_authenticates_witness :
  ∃ active cid c,
    active_cell bot_plugin = Some active ∧ credential_id bot_secret = Some cid
    ∧ credentials db_created !! cid = Some c
    ∧ verify_secret bot_secret (pepper active) (c_verifier c) = true.
Proof.
  destruct (created_secret_authenticates w_created 0 bot_plugin (admin CREATE_OPERATION) bot_request
    empty_db create_response bot_secret db_created _ (calm_world_fills _ _) bot_creates eq_refl)
    as (active & cid & c & a & H1 & H2 & H3 & H4 & _).
  exists active, cid, c. split_and!; [exact H1|exact H2|exact H3|exact H4].
Defined.

(** The administrator retries a second later. *)
Definition w_retry : World := calm_world 1001000000 50.
Definition retried_create : Outcome CreateServiceAccountResponse CreateError.t :=
  outcome w_retry create_bot db_created.

(** The row a command left. *)
Definition stored (key : command_key) (db : Db) : CommandRec :=
  default (reserved 0 "") (commands db !! key).

Lemma create_replays_witness :
  (∃ t0 t1, events w_retry create_bot db_created = t0 ++ t1 ∧ authorization_trace t0
    ∧ Forall quiet_access t1)
  ∧ retried_create = Ok (Ok {| created_account := created_account create_response;
                               created := false; created_secret := None |}).
Proof.
  destruct (create_replays w_created 0 w_retry 0 bot_plugin bot_active (admin CREATE_OPERATION)
    (admin CREATE_OPERATION) bot_request admin_authorized empty_db create_response db_created
    (events w_created create_bot empty_db) (stored ("admin-api", CREATE_OPERATION, "k1") db_created) db_created retried_create
    (tables w_retry create_bot db_created) (events w_retry create_bot db_created))
    as (t0 & t1 & Ht & Ht0 & [_ Hq _ Ho]);
    [reflexivity|apply admin_authorizes|apply calm_world_respects|exact bot_creates|reflexivity
    |by vm_compute|by vm_compute|apply calm_holds, calm_world_calm|by vm_compute
    |apply admin_authorizes|by apply runs_outcome|].
  split; [exists t0, t1; split; [exact Ht|split; [exact Ht0|exact Hq]]|].
  apply Ho; [apply calm_world_calm|apply created_ok].
Defined.

(** ** Rotate *)

Lemma rotated_secret_replaces_the_old_witness :
  ∃ active cid c now,
    active_cell bot_plugin = Some active ∧ credential_id rotated_bot_secret = Some cid
    ∧ credentials db_rotated !! cid = Some c ∧ c_valid_from c = now
    ∧ c_valid_until c = now + seconds 3600.
Proof.
  destruct (rotated_secret_replaces_the_old w_rotated 0 bot_plugin (admin ROTATE_SECRET_OPERATION)
    rotate_request db_created rotate_response rotated_bot_secret db_rotated _ (calm_world_fills _ _)
    bot_rotates eq_refl) as (active & cid & c & a & now & revision & H1 & H2 & H3 & _ & _ & H4 & _ & H5 & _).
  exists active, cid, c, now. split_and!; [exact H1|exact H2|exact H3|exact H4|].
  injection H1 as <-. exact H5.
Defined.

Definition w_retry_rotate : World := calm_world 1201000000 50.
Lemma rotate_replays_witness :
  outcome w_retry_rotate rotate_bot db_rotated
  = Ok (Ok {| rotated_account := rotated_account rotate_response; rotated := false;
              rotated_secret := None |}).
Proof.
  destruct (rotate_replays w_rotated 0 w_retry_rotate 0 bot_plugin bot_active
    (admin ROTATE_SECRET_OPERATION) (admin ROTATE_SECRET_OPERATION) rotate_request admin_authorized
    db_created rotate_response db_rotated (events w_rotated rotate_bot db_created)
    (stored ("admin-api", ROTATE_SECRET_OPERATION, rotate_idempotency_key rotate_request) db_rotated)
    db_rotated (outcome w_retry_rotate rotate_bot db_rotated)
    (tables w_retry_rotate rotate_bot db_rotated) (events w_retry_rotate rotate_bot db_rotated))
    as (t0 & t1 & _ & _ & [_ _ _ Ho]);
    [reflexivity|apply admin_authorizes|apply calm_world_respects|exact bot_rotates|reflexivity
    |by vm_compute|by vm_compute|apply calm_holds, calm_world_calm|by vm_compute
    |apply admin_authorizes|by apply runs_outcome|].
  apply Ho; [apply calm_world_calm|apply rotated_ok].
Defined.


(** ** Revoke *)

Lemma revocation_is_final_witness :
  ∃ a, accounts db_revoked !! bot_id = Some a ∧ a_status a = "revoked" ∧ a_revision a = 2.
Proof.
  destruct (revocation_is_final w_revoked 0 bot_plugin (admin REVOKE_OPERATION) revoke_request
    db_created revoke_response db_revoked _ db_revoked bot_is_revoked eq_refl (reflexivity _))
    as (a & revision & Hr & Ha & _ & Hs & Hv & _).
  exists a. split; [exact Ha|]. split; [exact Hs|]. vm_compute in Hr. injection Hr as <-. exact Hv.
Defined.

Definition w_retry_revoke : World := calm_world 1301000000 50.
Lemma revoke_replays_witness :
  outcome w_retry_revoke revoke_bot db_revoked
  = Ok (Ok {| revoked_account := revoked_account revoke_response; revoked := false |}).
Proof.
  destruct (revoke_replays w_revoked 0 w_retry_revoke 0 bot_plugin bot_active
    (admin REVOKE_OPERATION) (admin REVOKE_OPERATION) revoke_request admin_authorized
    db_created revoke_response db_revoked (events w_revoked revoke_bot db_created)
    (stored ("admin-api", REVOKE_OPERATION, revoke_idempotency_key revoke_request) db_revoked)
    db_revoked (outcome w_retry_revoke revoke_bot db_revoked)
    (tables w_retry_revoke revoke_bot db_revoked) (events w_retry_revoke revoke_bot db_revoked))
    as (t0 & t1 & _ & _ & [_ _ _ Ho]);
    [reflexivity|apply admin_authorizes|apply calm_world_respects|exact bot_is_revoked|reflexivity
    |by vm_compute|by vm_compute|apply calm_holds, calm_world_calm|by vm_compute
    |apply admin_authorizes|by apply runs_outcome|].
  apply Ho; [apply calm_world_calm|apply revoked_ok].
Defined.

(** ** Exchange *)

Lemma exchange_fails_closed_witness :
  ∃ active caller intent,
    active_cell bot_plugin = Some active ∧ caller_instance edge = Some caller
    ∧ request_intent_hash exchange_request = Ok intent
    ∧ (exchanged_replay active caller intent exchange_request exchange_response db_exchanged
       ∨ ∃ cid c d, credential_id bot_secret = Some cid ∧ credentials d !! cid = Some c
           ∧ verify_secret bot_secret (pepper active) (c_verifier c) = true).
Proof.
  destruct (exchange_fails_closed 3 w_exchanged 0 bot_plugin edge exchange_request db_created
    exchange_response db_exchanged _ bot_limited (calm_world_rivals 3 _ _) created_ok bot_exchanges)
    as (active & caller & intent & H1 & H2 & _ & H3 & H).
  exists active, caller, intent. split; [exact H1|]. split; [exact H2|]. split; [exact H3|].
  destruct H as [H|(cid & c & a & m & d1 & d & d' & text & s & e & _ & _ & _ & _ & Hid & Hc & _ & _ & Hv & _)];
    [left; exact H|right]. exists cid, c, d. split; [exact Hid|]. split; [exact Hc|exact Hv].
Defined.

Definition w_retry_exchange : World := calm_world 1101000000 50.
Lemma exchange_replays_witness :
  outcome w_retry_exchange exchange_bot db_exchanged = Ok (Ok exchange_response)
  ∧ Forall quiet_access (events w_retry_exchange exchange_bot db_exchanged).
Proof.
  destruct (exchange_replays w_exchanged 0 w_retry_exchange 0 bot_plugin bot_active edge edge
    exchange_request "edge" db_created exchange_response db_exchanged
    (events w_exchanged exchange_bot db_created)
    (stored ("edge", EXCHANGE_SECRET_OPERATION, "x1") db_exchanged) db_exchanged
    (outcome w_retry_exchange exchange_bot db_exchanged)
    (tables w_retry_exchange exchange_bot db_exchanged)
    (events w_retry_exchange exchange_bot db_exchanged)) as [_ Hq _ Ho];
    [reflexivity|apply calm_world_respects|reflexivity|exact bot_exchanges|by vm_compute|by vm_compute
    |apply calm_holds, calm_world_calm|by vm_compute|reflexivity|by apply runs_outcome|].
  split; [apply Ho; [apply calm_world_calm|apply exchanged_ok]|exact Hq].
Defined.

Definition bot_issue : IssueRequest := {|
  issue_subject := "subject:org-1:" +:+ bot_id; issue_actor_kind := "service_account";
  issue_assurance := "service_account_secret"; issue_audience := ["api"];
  issue_claims := [("organization_id", JString "org-1"); ("service_account_id", JString bot_id)];
  issue_expires_at := "1400000008" |}.
Lemma bot_issues : issues (events w_exchanged exchange_bot db_created) bot_issue.
Proof. apply (list_elem_of_lookup_2 _ 9). by vm_compute. Qed.

Lemma issued_at_most_once_after_the_mark_witness :
  splits (events w_exchanged exchange_bot db_created) bot_issue
  ∧ ∃ caller, caller_instance edge = Some caller
      ∧ marked_before (caller, EXCHANGE_SECRET_OPERATION, "x1") bot_issue
          (events w_exchanged exchange_bot db_created).
Proof.
  exact (issued_at_most_once_after_the_mark w_exchanged 0 bot_plugin edge exchange_request db_created
    _ _ _ bot_issue bot_exchanges bot_issues).
Defined.

(** The issuer does not answer; the client retries, and an operator looks. *)
Definition w_silent : World := silent_world 1100000000 3.
Definition db_silent : Db := tables w_silent exchange_bot db_created.

Lemma silent_ok : healthy 3 db_silent.
Proof.
  eapply (runs_preserves (healthy 3) evolves w_silent 0 exchange_bot);
    [by intros k d Hd; split|apply exchange_keeps|apply created_ok|].
  unfold db_silent. by apply runs_outcome.
Qed.

Lemma bot_is_unanswered :
  runs w_silent 0 exchange_bot db_created (outcome w_silent exchange_bot db_created) db_silent
    (events w_silent exchange_bot db_created).
Proof. unfold db_silent. by apply runs_outcome. Qed.
Lemma silent_issues : issues (events w_silent exchange_bot db_created) bot_issue.
Proof. apply (list_elem_of_lookup_2 _ 9). by vm_compute. Qed.

Lemma unanswered_exchanges_are_never_retried_witness :
  outcome w_retry_exchange exchange_bot db_silent = Ok (Err ExchangeSecretError.OperationInProgress)
  ∧ Forall quiet_access (events w_retry_exchange exchange_bot db_silent).
Proof.
  destruct (unanswered_exchanges_are_never_retried w_silent 0 bot_plugin edge "edge" exchange_request
    db_created (outcome w_silent exchange_bot db_created) db_silent
    (events w_silent exchange_bot db_created) bot_issue) as (_ & Hall);
    [by intros k d key m|done|reflexivity|exact bot_is_unanswered|exact silent_issues|].
  destruct (Hall [outcome w_retry_exchange exchange_bot db_silent]
    (events w_retry_exchange exchange_bot db_silent ++ [])
    (tables w_retry_exchange exchange_bot db_silent)) as (_ & Hq & _).
  { eapply (retries_again "edge" exchange_request w_retry_exchange 0 bot_plugin bot_active edge);
      [reflexivity|by vm_compute|apply calm_world_respects|by apply runs_outcome|apply retries_nil]. }
  split; [|by rewrite app_nil_r in Hq].
  destruct (Hall [] [] db_silent (retries_nil _ _ _)) as (_ & _ & Ho & _).
  eapply (Ho w_retry_exchange 0%nat bot_plugin bot_active edge);
    [apply calm_world_calm|apply silent_ok|reflexivity|by vm_compute|by apply runs_outcome].
Defined.

(** The first account is revoked; the second one still gets its credential. *)
Definition db_one_revoked : Db := tables w_revoked revoke_bot db_second.
Definition second_exchange_request : ExchangeServiceAccountSecretRequest :=
  {| exchange_idempotency_key := "x2"; exchange_secret_text :=
       "lenso_sa_sac_aWlpaWlpaWlpaWlpaWlpaWlp.ampqampqampqampqampqampqampqampqampqampqamo" |}.
Definition w_later : World := calm_world 1400000000 3.
Definition exchange_second : prog (Outcome ExchangeServiceAccountSecretResponse ExchangeSecretError.t) :=
  exchange_secret bot_plugin edge second_exchange_request.
Definition second_id : string := "sa_Z2dnZ2dnZ2dnZ2dnZ2dnZ2dnZ2dnZ2dn".
Definition second_issue : IssueRequest := {|
  issue_subject := "subject:org-1:" +:+ second_id; issue_actor_kind := "service_account";
  issue_assurance := "service_account_secret"; issue_audience := ["api"];
  issue_claims := [("organization_id", JString "org-1"); ("service_account_id", JString second_id)];
  issue_expires_at := "1700000008" |}.


(** ** The rate limit *)

(** Three attempts of one caller within a minute, of which two are admitted. *)
Definition attempt (n : nat) : TxEnv * time := (quiet (1000000 * Z.of_nat n) 0, 1000000 * Z.of_nat n).

Lemma rate_window_bound_witness :
  admissions "edge" 60 2 30 [attempt 1; attempt 2; attempt 3] empty_db ≤ 4.
Proof.
  apply (rate_window_bound "edge" 60 2 30 0); [done|apply (healthy_schema 3), empty_ok|].
  repeat constructor; by vm_compute.
Defined.

Definition db_refused : Db :=
  (attempts "edge" 60 2 30 [attempt 1; attempt 2; attempt 3] empty_db).2.
Definition db_consumed : Db := (attempts "edge" 60 2 30 [attempt 1; attempt 2] empty_db).2.

Lemma refusal_locks_out_witness :
  ∃ until, 3000000 < until
    ∧ (Forall (λ p, p.2 < until) [attempt 4; attempt 32] →
       Forall (λ r, admitted r = false)
         (attempts "edge" 60 2 30 [attempt 4; attempt 32] db_refused).1).
Proof.
  edestruct (refusal_locks_out "edge" 60 2 30 3000000 (quiet 3000000 0) db_consumed db_refused
    [attempt 4; attempt 32]) as (until & H1 & _ & H2); [by vm_compute|done|].
  exists until. split; [exact H1|exact H2].
Defined.

(** ** Listing *)

Definition list_page (after : option string) : prog (Outcome ListServiceAccountsResponse ListError.t) :=
  list_ bot_plugin (admin LIST_OPERATION)
    {| list_organization_id := "org-1"; list_after := after; list_limit := "1" |}.
Definition second_summary : ServiceAccountSummary := {|
  s_created_at := "1050000011"; s_credential_expires_at := Some "4650000010"; s_name := "Deploy bot";
  s_organization_id := "org-1"; s_revision := "1"; s_revoked_at := None; s_rotated_at := None;
  s_service_account_id := second_id; s_status := Active; s_subject := "subject:org-1:" +:+ second_id |}.
Definition first_page : ListServiceAccountsResponse :=
  {| listed_accounts := [second_summary]; next_cursor := Some second_id |}.
Definition last_page : ListServiceAccountsResponse :=
  {| listed_accounts := [bot_summary "1" "4600000010" None None Active]; next_cursor := None |}.

Lemma first_page_run :
  runs w_later 0 (list_page None) db_second (Ok (Ok first_page)) db_second
    (events w_later (list_page None) db_second).
Proof. apply runs_to; [by vm_compute|vm_cast_no_check (eq_refl db_second)]. Qed.
Lemma last_page_run :
  runs w_later 0 (list_page (Some second_id)) db_second (Ok (Ok last_page)) db_second
    (events w_later (list_page (Some second_id)) db_second).
Proof. apply runs_to; [by vm_compute|vm_cast_no_check (eq_refl db_second)]. Qed.

Lemma pages_list_every_account_once_witness :
  ∃ ps, StronglySorted id_lt ps
    ∧ (∀ id a, (id, a) ∈ ps ↔ accounts db_second !! id = Some a ∧ a_organization_id a = "org-1")
    ∧ Forall2 (λ p s, summary (decode_account db_second p.1 p.2) = Ok s) ps
        [second_summary; bot_summary "1" "4600000010" None None Active].
Proof.
  apply (pages_list_every_account_once bot_plugin "org-1" "1").
  apply (walk_more _ _ _ _ None w_later 0 (admin LIST_OPERATION) first_page _ second_id
    (listed_accounts last_page) first_page_run eq_refl).
  exact (walk_last _ _ _ _ (Some second_id) w_later 0 (admin LIST_OPERATION) last_page _
    last_page_run eq_refl).
Defined.

Lemma pages_make_progress_witness :
  length (remaining "org-1" None db_second)
  = (1 + length (remaining "org-1" (Some second_id) db_second))%nat
  ∧ remaining "org-1" (Some second_id) db_second ≠ [].
Proof.
  destruct (pages_make_progress w_later 0 bot_plugin (admin LIST_OPERATION)
    {| list_organization_id := "org-1"; list_after := None; list_limit := "1" |} db_second first_page
    db_second _ second_id first_page_run eq_refl) as (active & limit & _ & _ & _ & _ & H1 & H2).
  split; [exact H1|exact H2].
Defined.

(** ** Transactions and claims *)

Definition bot_key : command_key := ("admin-api", CREATE_OPERATION, "k1").
Definition zeros : string := of_chars (repeat Ascii.zero 32).
Definition db_reserved : Db := set_commands {[bot_key := reserved 0 zeros]} empty_db.
Definition plain_receipt : Receipt AccountRow := λ _ r,
  match r with Ok nonce => Ok (nonce, "receipt") | Err e => Err (PluginError.Random e) end.
Definition long_verifier : string := ARGON2ID +:+ zeros.

Lemma create_account_decides_witness :
  ∃ row db', run_tx (create_account "admin-api" CREATE_OPERATION "k1" 3 "sa_1" "org-1" "subject-1"
    "Release bot" "release bot" "sac_1" long_verifier 0 100 plain_receipt) (quiet 7 0) db_reserved
    = (Ok (Some row), db').
Proof.
  assert (reliable (quiet 7 0)) as Hr by done.
  destruct (create_account_decides (quiet 7 0) Hr "admin-api" CREATE_OPERATION "k1" 3 "sa_1" "org-1"
    "subject-1" "Release bot" "release bot" "sac_1" long_verifier 0 100 plain_receipt db_reserved
    (fill 0 12) "receipt") as (_ & _ & _ & H);
    [reflexivity|reflexivity|by vm_compute|by vm_compute|reflexivity| |].
  - exists (reserved 0 zeros). split_and!; [by vm_compute|reflexivity|by vm_compute].
  - destruct (proj2 H) as [db' E]; [|eexists _, db'; exact E].
    split; [by vm_compute|]. split; intros (k & r & Hk & _); exact (lookup_empty_Some k r Hk).
Defined.

Lemma account_transactions_are_atomic_witness :
  refines (create_spec "admin-api" CREATE_OPERATION "k1" 0 "sa_1" "org-1" "subject-1" "Release bot"
             "release bot" "sac_1" long_verifier 0 100 plain_receipt (quiet 7 0))
    db_reserved (Ok None) db_reserved.
Proof.
  destruct (account_transactions_are_atomic "admin-api" CREATE_OPERATION "k1" "sac_1" (quiet 7 0)
    db_reserved db_reserved) as [H _]. apply H. vm_cast_no_check (eq_refl (Ok (None (A := AccountRow)) : result _ PluginError.t, db_reserved)).
Defined.

Definition claim_first : prog (result CommandClaim PluginError.t) :=
  claim_command "admin-api" CREATE_OPERATION "k1" zeros.
Definition claim_second : prog (result CommandClaim PluginError.t) :=
  claim_command "admin-api" CREATE_OPERATION "k1" (sha256 "another").
Definition db_claimed : Db := tables w_created claim_first empty_db.

Lemma claims_are_exclusive_witness :
  outcome w_retry claim_second db_claimed = Ok Conflict
  ∧ (Conflict : CommandClaim) = (if String.eqb zeros (sha256 "another") then InProgress else Conflict).
Proof.
  assert (outcome w_retry claim_second db_claimed = Ok Conflict) as H by (by vm_compute).
  split; [exact H|].
  assert (runs w_created 0 claim_first empty_db (Ok Claimed) db_claimed
            (events w_created claim_first empty_db)) as H1
    by (unfold db_claimed; apply runs_outcome; by vm_compute).
  destruct (claims_are_exclusive w_created 0 w_retry 0 "admin-api" CREATE_OPERATION "k1" zeros
    (sha256 "another") empty_db db_claimed _ Conflict _ _ H1 (calm_world_respects _ _)
    (runs_outcome _ _ _ _ H)) as (_ & Hc & _). exact Hc.
Defined.

(** ** Validation *)

Lemma valid_request_meets_the_constraints_witness :
  account_check "sa_1" (new_account "org-1" "subject-1" "Release bot" "release bot" 5) = true.
Proof.
  apply (valid_request_meets_the_constraints bot_request "sa_1" "subject-1" 5); by vm_compute.
Defined.

Lemma validated_configuration_is_safe_witness :
  new bot_config = Ok bot_config ∧ config_ok bot_config.
Proof.
  assert (new bot_config = Ok bot_config) as H by (by vm_compute). split; [exact H|].
  apply (validated_configuration_is_safe bot_config bot_config); [by vm_compute|exact H].
Defined.

Lemma generated_identifiers_are_accepted_witness :
  valid_token bot_id 128 = true
  ∧ credential_id bot_secret = Some "sac_aGhoaGhoaGhoaGhoaGhoaGho" ∧ len bot_secret = 81.
Proof.
  destruct (generated_identifiers_are_accepted (fill 5 24) (fill 7 18) (fill 8 32) bot_id
    {| cs_credential_id := "sac_aGhoaGhoaGhoaGhoaGhoaGho"; cs_wire := bot_secret |})
    as (H1 & H2 & H3 & _); [..|split_and!; [exact H1|exact H2|exact H3]]; by vm_compute.
Defined.

Lemma separated_texts_are_unambiguous_witness :
  receipt_aad "admin-api" CREATE_OPERATION "k1" ≠ receipt_aad "admin-api" REVOKE_OPERATION "k1"
  ∧ peppered bot_secret "pepper" ≠ peppered bot_secret "salt".
Proof.
  destruct (separated_texts_are_unambiguous "admin-api" CREATE_OPERATION "k1" "admin-api"
    REVOKE_OPERATION "k1" bot_secret "pepper" bot_secret "salt" "sac_aGhoaGhoaGhoaGhoaGhoaGho"
    "sac_aGhoaGhoaGhoaGhoaGhoaGho") as [Haad Hpep]; [by vm_compute..|].
  split; [intros (_ & [=] & _)%Haad|intros [_ [=]]%Hpep].
Defined.

(** The stand-in digest does collide; the property says exactly where. *)
Lemma intents_bind_the_actor_and_the_request_witness :
  ∃ h, actor_intent_hash "user-1" bot_request = Ok h
    ∧ (("user-1" = "user-1" ∧ bot_request = bot_request)
       ∨ collide "user-1" bot_request "user-1" bot_request).
Proof.
  eexists. split; [by vm_compute|].
  apply (intents_bind_the_actor_and_the_request "user-1" "user-1"
    (default "" (match actor_intent_hash "user-1" bot_request with Ok h => Some h | Err _ => None end)));
    by vm_compute.
Defined.

Definition receipt_of {T} `{Serialize T} (x : T) : bytes * bytes :=
  match encrypt (derive "receipt key") x "aad" (Ok (fill 1 12)) with Ok p => p | Err _ => ("", "") end.
Lemma receipts_decrypt_witness :
  decrypt (derive "receipt key") (receipt_of create_response).1 (receipt_of create_response).2 "aad"
    = Ok create_response
  ∧ decrypt (derive "receipt key") (receipt_of exchange_response).1 (receipt_of exchange_response).2
      "aad" = Ok exchange_response.
Proof.
  destruct (receipts_decrypt "receipt key" "aad" (Ok (fill 1 12))
    (receipt_of create_response).1 (receipt_of create_response).2
    (receipt_of rotate_response).1 (receipt_of rotate_response).2
    (receipt_of revoke_response).1 (receipt_of revoke_response).2
    (receipt_of exchange_response).1 (receipt_of exchange_response).2
    create_response rotate_response revoke_response exchange_response) as (H1 & _ & _ & H2);
    [intros b Hb; injection Hb as <-; by vm_compute|by vm_compute..|split; [exact H1|exact H2]].
Defined.

Definition rate_error : ExchangeSecretError.t :=
  ExchangeSecretError.Unknown {| u_code := "quota"; u_payload := Some (JNumber "3");
    u_extra := [("limit", JNumber "5"); ("region", JString "eu")] |}.
Lemma domain_errors_round_trip_witness :
  deserialize_error (serialize_error CreateError.NameConflict) = Ok CreateError.NameConflict
  ∧ deserialize_error (serialize_error rate_error) = Ok rate_error.
Proof.
  destruct (domain_errors_round_trip CreateError.NameConflict GetError.NotFound ListError.Forbidden
    RevokeError.NotFound RotateSecretError.Revoked rate_error) as (H1 & _ & _ & _ & _ & H2);
    [exact Logic.I..| |split; [exact H1|exact H2]].
  split; [|done]. repeat constructor.
Defined.

(** ** Lifecycle *)

Definition test_activation : ActivateContext := {|
  invocation_context_after _ := Ok tt;
  resolve n _ := Ok (fill n 40);
  prepare _ _ := Ok tt;
  random_salt := Ok (fill 9 16) |}.
Definition no_cells : Cells := {| postgres_cell := None; cell_active := None |}.
Definition active_cells : Cells := (activate test_activation bot_config no_cells).2.

Lemma activation_is_all_or_nothing_witness :
  ∃ a, cell_active active_cells = Some a ∧ config a = bot_config ∧ len (receipt_cipher a) = 32.
Proof.
  assert (activate test_activation bot_config no_cells = (Ok tt, active_cells)) as H by reflexivity.
  destruct (activation_is_all_or_nothing test_activation bot_config no_cells (Ok tt) active_cells H)
    as [(e & He & _)|(_ & a & p & Ha & Hc & _ & _ & _ & Hk & _)]; [discriminate He|].
  exists a. rewrite Ha. split_and!; [reflexivity|exact Hc|exact Hk].
Defined.

Lemma deactivated_plugin_refuses_witness :
  outcome w_created (invoke_management (plugin_of (deactivate active_cells).1.2) CREATE_OPERATION
    (AnyCreateRequest bot_request) (admin CREATE_OPERATION)) empty_db = Err inactive_failure.
Proof.
  edestruct (deactivated_plugin_refuses active_cells (Ok tt) (deactivate active_cells).1.2
    (deactivate active_cells).2 w_created 0 CREATE_OPERATION (AnyCreateRequest bot_request)
    (admin CREATE_OPERATION) empty_db) as (_ & _ & Ho & _);
    [reflexivity|left; split; [reflexivity|by apply runs_outcome]|exact Ho].
Defined.

(** ** Availability *)

(** The world of the scenario with a clock that stands still. *)
Definition w_still : World := {|
  w_clock _ := 1100000000; w_random := w_random w_exchanged; w_tx := w_tx w_exchanged;
  w_others _ d := d; w_ensure := w_ensure w_exchanged; w_status := w_status w_exchanged;
  w_issue := w_issue w_exchanged; w_member := w_member w_exchanged;
  w_permission := w_permission w_exchanged |}.
Definition bot_credential : CredentialRec := {|
  c_service_account_id := bot_id;
  c_verifier := ARGON2ID +:+ bot_secret +:+ String Ascii.zero "pepper";
  c_valid_from := 1000000010; c_valid_until := 4600000010; c_created_at := 1000000011;
  c_superseded_at := None; c_revoked_at := None; c_last_used_at := None |}.
Definition bot_account : AccountRec :=
  mkAccount "org-1" ("subject:org-1:" +:+ bot_id) "Release bot" "release bot" "active" 1
    1000000011 1000000011 None None.
Definition bot_credential_id : string := "sac_aGhoaGhoaGhoaGhoaGhoaGho".

Lemma bot_config_ok : config_ok bot_config.
Proof. apply validate_Ok. by vm_compute. Qed.

Lemma still_welcome :
  welcome_request bot_plugin bot_active edge "edge" exchange_request db_created 1100000000 1100000000.
Proof.
  split; try done.
  - exact bot_config_ok.
  - eexists. by vm_compute.
  - intros now Hnow. assert (now = 1100000000) as -> by lia. by vm_compute.
Qed.

Lemma still_secret :
  good_secret bot_active exchange_request db_created bot_credential_id bot_credential bot_account
    1100000000 1100000000.
Proof.
  split; [by vm_compute..|].
  intros now Hnow. unfold usable_at. simpl. split_and!; done || lia.
Qed.

Lemma still_agrees :
  agreeing_world bot_active "edge" exchange_request bot_credential_id bot_credential bot_account
    w_still 1100000000 1100000000.
Proof.
  split.
  - by split.
  - done.
  - intros k. eexists. split; [reflexivity|]. by apply (calm_world_fills 1100000000 3 k 12%nat).
  - done.
  - intros now Hnow. assert (now = 1100000000) as -> by lia. eexists. by vm_compute.
  - intros k now text Hnow Htext. assert (now = 1100000000) as -> by lia.
    assert (text = "1400000000") as -> by (vm_compute in Htext; by injection Htext as <-).
    eexists. split; [reflexivity|]. split; [done|]. split; [done|]. split; [done|].
    intros nonce Hn.
    exists (receipt_cipher bot_active +:+ nonce +:+ receipt_aad "edge" EXCHANGE_SECRET_OPERATION "x1"
            +:+ of_chars (json_code (to_value (response
                (decode_credential bot_credential_id bot_credential bot_account)
                "session" "token" "1400000000")))).
    split; [|reflexivity]. rewrite !len_app, Hn. apply Z.leb_le. by vm_compute.
Qed.

Lemma still_exchanges :
  runs w_still 0 exchange_bot db_created (outcome w_still exchange_bot db_created)
    (tables w_still exchange_bot db_created) (events w_still exchange_bot db_created).
Proof. by apply runs_outcome. Qed.


(** Three attempts in the same second: the third is refused and locks the caller out; after the
    window and the lockout it is admitted again. *)
Lemma callers_are_admitted_again_witness :
  ∃ db', run_tx (reserve_rate_slot "edge" 61000000 60 2 30) (quiet 61000000 0)
    (attempts "edge" 60 2 30 [(quiet 0 0, 0); (quiet 0 1, 1); (quiet 0 2, 2)] empty_db).2
    = (Ok true, db').
Proof.
  apply (callers_are_admitted_again "edge" 60 2 30 eq_refl 2).
  - done.
  - by intros l Hl.
  - by repeat apply Forall_cons_2; [..|apply Forall_nil_2].
  - by intros k.
  - done.
Defined.

(** ** One key *)

Definition x1_key : command_key := ("edge", EXCHANGE_SECRET_OPERATION, "x1").
Definition exchange_trace : list event := events w_exchanged exchange_bot db_created.
Definition retry_trace : list event := events w_retry_exchange exchange_bot db_exchanged.

Lemma bot_history : history x1_key db_created (exchange_trace ++ retry_trace ++ [])
  (tables w_retry_exchange exchange_bot db_exchanged).
Proof.
  eapply (history_exchange _ w_exchanged 0 bot_plugin edge "edge" exchange_request); [by split|by split| | |].
  - intros active m [= <-] Hm. by vm_compute in Hm.
  - exact bot_exchanges.
  - eapply (history_exchange _ w_retry_exchange 0 bot_plugin edge "edge" exchange_request);
      [by split|by split| | |constructor].
    + intros active m [= <-] Hm. vm_compute in Hm. by injection Hm as <-.
    + unfold retry_trace. by apply runs_outcome.
Qed.

Lemma one_key_asks_at_most_once_witness : splits (exchange_trace ++ retry_trace ++ []) bot_issue.
Proof.
  apply (one_key_asks_at_most_once x1_key db_created _ _ bot_issue bot_history).
  apply elem_of_app. left. exact bot_issues.
Defined.

(** ** Redaction *)

Lemma debug_output_hides_secrets_witness :
  fmt exchange_request = fmt {| exchange_idempotency_key := "x1"; exchange_secret_text := "other" |}.
Proof.
  destruct (debug_output_hides_secrets (E := string) (F := string)) as (_ & _ & _ & Hr & _).
  by apply Hr.
Defined.

(** ** The wire *)

#[local] Instance code_runtime : ContractRuntime := {
  portable_encode := json_to_vec; portable_decode := json_from_slice }.
#[local] Instance code_runtime_laws : ContractRuntimeLaws.
Proof. split. exact json_round_trip. Qed.

(** An error of a later version of the contract. *)
Definition later_error : CreateError.t := CreateError.Unknown {|
  u_code := "quota_exceeded"; u_payload := Some (JArray [JNumber "7"; JNull]);
  u_extra := [("hint", JString "later")] |}.

Lemma wire_values_round_trip_witness :
  decode_exchange_secret_request (of_chars (json_code (to_value exchange_request)))
  = Ok exchange_request
  ∧ decode_create_error (of_chars (json_code (to_value later_error))) = Ok later_error.
Proof.
  destruct wire_values_round_trip as (_&_& He &_&_&_&_&_&_&_&_&_&_&_&_& Hx &_).
  split; [apply Hx; [exact Logic.I|reflexivity]|].
  apply He; [split; [split_and!; [by repeat constructor|reflexivity|reflexivity]|reflexivity]|reflexivity].
Defined.

(** Dispatch and clients. *)
Lemma typed_dispatch_is_erased_dispatch_witness :
  typed_and_erased_agree (ServiceAccountEndpoint bot_plugin) ServiceAccountCreate.
Proof. apply (typed_dispatch_is_erased_dispatch bot_plugin bot_plugin). Defined.

